(** * Air-draw: the hand-tracking drawing pipeline of [script.js]

    A shallow embedding of [class DrawingManager] (script.js, lines 175-430)
    together with the part of the browser's canvas API that the class drives,
    and the properties of the pinch-to-draw pipeline: gesture classification,
    coordinate mapping, point smoothing, stroke rendering, undo and resize.

    JavaScript numbers are kept abstract behind the interface [JsNumber]; the
    development is instantiated twice, at IEEE-754 binary64 (what the program
    runs on) and at exact rationals (arithmetic without rounding).  The
    browser's rasterizer, its parser of CSS colours and [Math.hypot] are
    parameters.

    Layout: the model ([JsNumber], [Raster], the canvas, [DrawingManager] and
    its listeners), closed forms of what the methods compute, sample inputs,
    and then the facts, one section per component of the pipeline. *)

From Stdlib Require Import ZArith QArith Qcanon Lia Bool.
From Stdlib Require Import Floats Uint63.
From stdpp Require Import base tactics option list strings.

Set Default Proof Using "Type".
#[local] Set Warnings "-inexact-float".

(* ================================================================== *)
(** ** JavaScript numbers *)
(* ================================================================== *)

Declare Scope js_scope.
Delimit Scope js_scope with js.

(** The operations on [number] values that [DrawingManager] and the canvas
    use.  [n_of_nat] injects array lengths and canvas dimensions, which are
    non-negative integers; [n_0_15] is the literal [0.15] of the pinch
    threshold; [n_finite] tells the numbers from [NaN] and the two
    infinities, as the canvas does before it takes a value. *)
Class JsNumber (num : Type) := {
  n_zero : num;
  n_one : num;
  n_add : num -> num -> num;
  n_sub : num -> num -> num;
  n_mul : num -> num -> num;
  n_div : num -> num -> num;
  n_ltb : num -> num -> bool;
  n_of_nat : nat -> num;
  n_0_15 : num;
  n_finite : num -> bool;
}.

Infix "+" := n_add : js_scope.
Infix "-" := n_sub : js_scope.
Infix "*" := n_mul : js_scope.
Infix "/" := n_div : js_scope.
Infix "<?" := n_ltb : js_scope.

(** The one law of the order that the pinch boundary needs: [<] is strict. *)
Class JsNumberOrder (num : Type) `{JsNumber num} := {
  n_ltb_irrefl : forall a : num, (a <? a)%js = false;
}.

(** *** binary64: the numbers the program runs on *)
Module F64.

Definition of_nat (n : nat) : float :=
  PrimFloat.of_uint63 (Uint63.of_Z (Z.of_nat n)).

#[global] Instance number : JsNumber float := {|
  n_zero := 0%float;
  n_one := 1%float;
  n_add := PrimFloat.add;
  n_sub := PrimFloat.sub;
  n_mul := PrimFloat.mul;
  n_div := PrimFloat.div;
  n_ltb := PrimFloat.ltb;
  n_of_nat := of_nat;
  n_0_15 := 0.15%float;
  n_finite := PrimFloat.is_finite;
|}.

(** [Math.hypot] is implementation-approximated; this is the textbook
    formula, one admissible implementation. *)
Definition hypot (a b : float) : float :=
  PrimFloat.sqrt (PrimFloat.add (PrimFloat.mul a a) (PrimFloat.mul b b)).

End F64.

(** *** exact rationals: arithmetic without rounding *)
Module Exact.

Definition ltb (a b : Qc) : bool :=
  match (a ?= b)%Qc with Lt => true | _ => false end.

Definition of_nat (n : nat) : Qc := Q2Qc (inject_Z (Z.of_nat n)).

#[global] Instance number : JsNumber Qc := {|
  n_zero := 0%Qc;
  n_one := 1%Qc;
  n_add := Qcplus;
  n_sub := Qcminus;
  n_mul := Qcmult;
  n_div := Qcdiv;
  n_ltb := ltb;
  n_of_nat := of_nat;
  n_0_15 := Q2Qc (15 # 100);
  n_finite := fun _ => true;
|}.

End Exact.

(* ================================================================== *)
(** ** CSS colours *)
(* ================================================================== *)

(** Which strings the browser parses as a CSS colour.  A context asks this
    of a string assigned to [strokeStyle] and ignores the assignment when the
    answer is no.  The grammar of colours is the browser's, so it stays a
    parameter. *)
Class CssColors := {
  is_color : string -> bool;
}.

(** *** the hexadecimal notations: the colours of the sample runs *)
Module Hex.

Definition digit (a : Ascii.ascii) : bool :=
  let n := Ascii.nat_of_ascii a in
  ((48 <=? n) && (n <=? 57) || (65 <=? n) && (n <=? 70) || (97 <=? n) && (n <=? 102))%nat.

Fixpoint digits (v : string) : bool :=
  match v with
  | EmptyString => true
  | String a rest => digit a && digits rest
  end.

(** [#rgb], [#rgba], [#rrggbb] and [#rrggbbaa].  A colour input delivers
    [#rrggbb], and the sample runs keep to these notations; of the others
    (colour names, [rgb(...)] and the like) this instance knows nothing and
    takes them for no colour. *)
Definition color (v : string) : bool :=
  let rest := String.substring 1 (String.length v - 1) v in
  String.eqb (String.substring 0 1 v) "#" && digits rest &&
  match String.length rest with
  | 3 | 4 | 6 | 8 => true
  | _ => false
  end.

#[global] Instance colors : CssColors := {|
  is_color := color;
|}.

End Hex.

(* ================================================================== *)
(** ** Rasters: [ImageData] and the canvas bitmap *)
(* ================================================================== *)

(** One RGBA pixel, four bytes. *)
Record Pixel := RGBA { red : N; green : N; blue : N; alpha : N }.

Definition transparent : Pixel := RGBA 0 0 0 0.

(** A [width] x [height] raster stored row-major, as [ImageData.data] is
    (one entry per pixel here, four bytes each). *)
Module Raster.

Record t := mk { width : nat; height : nat; data : list Pixel }.

(** Pixel at column [i], row [j]; transparent black outside the raster. *)
Definition get (r : t) (i j : nat) : Pixel :=
  if (i <? width r)%nat && (j <? height r)%nat
  then nth (j * width r + i) (data r) transparent
  else transparent.

(** The [w] x [h] raster whose pixel at [(i, j)] is [f i j]. *)
Definition build (w h : nat) (f : nat -> nat -> Pixel) : t :=
  mk w h (map (fun k => f (k mod w) (k / w)) (seq 0 (w * h))).

Definition blank (w h : nat) : t := build w h (fun _ _ => transparent).

(** Same dimensions and the same pixel everywhere: byte-identical rasters. *)
Definition same (a b : t) : Prop :=
  width a = width b /\ height a = height b /\
  forall i j, i < width a -> j < height a -> get a i j = get b i j.

End Raster.

Abbreviation ImageData := Raster.t.

(* ================================================================== *)
(** ** The canvas API that [DrawingManager] drives *)
(* ================================================================== *)

(** The canvas is modelled as far as the program uses it: a bitmap, the
    drawing settings with their save/restore stack, and the current path.
    The setters of [lineWidth] and [strokeStyle] check the value they are
    given, as a context does, and leave the setting alone when the value is
    not one to take.  The path is kept as the [moveTo] and [lineTo] calls
    made since [beginPath], with their arguments; what they come to on the
    bitmap is the rasterizer's business.  A bitmap holds the pixel values as
    [getImageData] reports them. *)

(** Exceptions the modelled code can raise: reading a property of
    [undefined] or [null] or calling [undefined] ([TypeError]), and
    [getImageData] on an empty rectangle ([IndexSizeError]). *)
Inductive JsError := TypeError | IndexSizeError.

Section Model.

Context {num : Type} `{JsNumber num} {colors : CssColors}.

(** [{x, y}] objects: hand landmarks (normalized) and canvas points (pixels). *)
Record Point := Pt { x : num; y : num }.

(** The part of a 2D context's drawing state that [save] and [restore]
    handle and that the program assigns.  [strokeStyle] is the string last
    taken by the setter; the program never reads it back. *)
Record DrawState := {
  strokeStyle : string;
  lineWidth : num;
  lineCap : string;
  imageSmoothingEnabled : bool;
  imageSmoothingQuality : string;
}.

Definition default_DrawState : DrawState := {|
  strokeStyle := "#000000";
  lineWidth := n_one;
  lineCap := "butt";
  imageSmoothingEnabled := true;
  imageSmoothingQuality := "low";
|}.

Inductive PathCmd := MoveTo (a b : num) | LineTo (a b : num).

(** The ink canvas [#draw] with its 2D context: [this.canvas] and [this.ctx]
    are two handles on this one object.  [strokes] records every [stroke()]
    call with the settings and path it was made with, the way a test spy
    would; nothing reads it. *)
Record Canvas := {
  bitmap : Raster.t;
  settings : DrawState;
  saved : list DrawState;
  path : list PathCmd;
  strokes : list (DrawState * list PathCmd);
}.

Definition width (c : Canvas) : nat := Raster.width (bitmap c).
Definition height (c : Canvas) : nat := Raster.height (bitmap c).

(** The browser's rasterizer: the value a pixel takes when a path is stroked
    over it with given settings.  Anti-aliasing and compositing are the
    browser's business, so it stays a parameter. *)
Variable paint : DrawState -> list PathCmd -> nat -> nat -> Pixel -> Pixel.

(** [canvas.width = w] and [canvas.height = h]: assigning a dimension clears
    the bitmap to transparent black and resets the context. *)
Definition set_width (w : nat) (c : Canvas) : Canvas := {|
  bitmap := Raster.blank w (height c);
  settings := default_DrawState;
  saved := [];
  path := [];
  strokes := strokes c;
|}.

Definition set_height (h : nat) (c : Canvas) : Canvas := {|
  bitmap := Raster.blank (width c) h;
  settings := default_DrawState;
  saved := [];
  path := [];
  strokes := strokes c;
|}.

(** [ctx.getImageData(0, 0, sw, sh)]: a fresh [sw] x [sh] copy of the bitmap
    from the origin, transparent black where the rectangle leaves the
    canvas; an empty rectangle raises IndexSizeError. *)
Definition getImageData (sw sh : nat) (c : Canvas) : JsError + ImageData :=
  if (sw =? 0)%nat || (sh =? 0)%nat then inl IndexSizeError
  else inr (Raster.build sw sh (Raster.get (bitmap c))).

(** [ctx.putImageData(img, 0, 0)]: the pixels of [img] overwrite the canvas
    where they land; the rest of the canvas is left as it is. *)
Definition putImageData (img : ImageData) (c : Canvas) : Canvas := {|
  bitmap := Raster.build (width c) (height c) (fun i j =>
    if (i <? Raster.width img)%nat && (j <? Raster.height img)%nat
    then Raster.get img i j
    else Raster.get (bitmap c) i j);
  settings := settings c;
  saved := saved c;
  path := path c;
  strokes := strokes c;
|}.

(** [ctx.clearRect(0, 0, w, h)] *)
Definition clearRect (w h : nat) (c : Canvas) : Canvas := {|
  bitmap := Raster.build (width c) (height c) (fun i j =>
    if (i <? w)%nat && (j <? h)%nat then transparent
    else Raster.get (bitmap c) i j);
  settings := settings c;
  saved := saved c;
  path := path c;
  strokes := strokes c;
|}.

Definition set_settings (d : DrawState) (c : Canvas) : Canvas := {|
  bitmap := bitmap c;
  settings := d;
  saved := saved c;
  path := path c;
  strokes := strokes c;
|}.

Definition set_path (p : list PathCmd) (c : Canvas) : Canvas := {|
  bitmap := bitmap c;
  settings := settings c;
  saved := saved c;
  path := p;
  strokes := strokes c;
|}.

(** [ctx.save()] *)
Definition save (c : Canvas) : Canvas := {|
  bitmap := bitmap c;
  settings := settings c;
  saved := settings c :: saved c;
  path := path c;
  strokes := strokes c;
|}.

(** [ctx.restore()]: pops the saved state; nothing happens on an empty stack. *)
Definition restore (c : Canvas) : Canvas :=
  match saved c with
  | [] => c
  | d :: rest => {|
      bitmap := bitmap c;
      settings := d;
      saved := rest;
      path := path c;
      strokes := strokes c;
    |}
  end.

(** [ctx.strokeStyle = v] for a string [v]: a string that does not parse
    as a colour is ignored, and the stroke colour stays what it was. *)
Definition set_strokeStyle (v : string) (c : Canvas) : Canvas :=
  if is_color v then
    set_settings {|
      strokeStyle := v;
      lineWidth := lineWidth (settings c);
      lineCap := lineCap (settings c);
      imageSmoothingEnabled := imageSmoothingEnabled (settings c);
      imageSmoothingQuality := imageSmoothingQuality (settings c);
    |} c
  else c.

(** The widths that the setter of [lineWidth] takes: finite and above
    zero.  [NaN], which [parseInt] returns for a value without digits, an
    infinity, zero and the negative numbers are not. *)
Definition is_width (v : num) : bool := n_finite v && (n_zero <? v)%js.

(** [ctx.lineWidth = v]: a value that is no width is ignored, and the line
    width stays what it was. *)
Definition set_lineWidth (v : num) (c : Canvas) : Canvas :=
  if is_width v then
    set_settings {|
      strokeStyle := strokeStyle (settings c);
      lineWidth := v;
      lineCap := lineCap (settings c);
      imageSmoothingEnabled := imageSmoothingEnabled (settings c);
      imageSmoothingQuality := imageSmoothingQuality (settings c);
    |} c
  else c.

Definition set_lineCap (v : string) (c : Canvas) : Canvas :=
  set_settings {|
    strokeStyle := strokeStyle (settings c);
    lineWidth := lineWidth (settings c);
    lineCap := v;
    imageSmoothingEnabled := imageSmoothingEnabled (settings c);
    imageSmoothingQuality := imageSmoothingQuality (settings c);
  |} c.

Definition set_imageSmoothing (on : bool) (quality : string) (c : Canvas) : Canvas :=
  set_settings {|
    strokeStyle := strokeStyle (settings c);
    lineWidth := lineWidth (settings c);
    lineCap := lineCap (settings c);
    imageSmoothingEnabled := on;
    imageSmoothingQuality := quality;
  |} c.

Definition beginPath (c : Canvas) : Canvas := set_path [] c.
Definition moveTo (a b : num) (c : Canvas) : Canvas := set_path (path c ++ [MoveTo a b]) c.
Definition lineTo (a b : num) (c : Canvas) : Canvas := set_path (path c ++ [LineTo a b]) c.

(** [ctx.stroke()]: every pixel is repainted by the rasterizer. *)
Definition stroke (c : Canvas) : Canvas := {|
  bitmap := Raster.build (width c) (height c) (fun i j =>
    paint (settings c) (path c) i j (Raster.get (bitmap c) i j));
  settings := settings c;
  saved := saved c;
  path := path c;
  strokes := strokes c ++ [(settings c, path c)];
|}.

(** The overlay canvas [#overlay] only ever shows the hand skeleton and the
    cursor; it is kept as its size and the list of calls made on it. *)
Inductive OverlayCall :=
| OClearRect (w h : nat)
| ODrawConnectors (landmarks : list Point)
| ODrawLandmarks (landmarks : list Point)
| OBeginPath
| OArc (cx cy radius : num)
| OFillStyle (style : string)
| OFill.

Record Overlay := {
  o_width : nat;
  o_height : nat;
  o_calls : list OverlayCall;
}.

Definition overlay_call (k : OverlayCall) (o : Overlay) : Overlay := {|
  o_width := o_width o;
  o_height := o_height o;
  o_calls := o_calls o ++ [k];
|}.

Definition overlay_set_width (w : nat) (o : Overlay) : Overlay := {|
  o_width := w;
  o_height := o_height o;
  o_calls := o_calls o;
|}.

Definition overlay_set_height (h : nat) (o : Overlay) : Overlay := {|
  o_width := o_width o;
  o_height := h;
  o_calls := o_calls o;
|}.

(* ================================================================== *)
(** ** [class DrawingManager] *)
(* ================================================================== *)

(** [Math.hypot], implementation-approximated in ECMAScript, is a parameter. *)
Variable hypot : num -> num -> num.

(** The fields of a [DrawingManager] that its methods read or write.  The
    constructor also stores handles on DOM controls and three numbers
    ([smoothingFactor], [velocityFactor], [lastVelocity]) that no method
    touches; they are left out. *)
Record DrawingManager := {
  canvas : Canvas;
  overlay : Overlay;
  lastPoint : option Point;
  drawing : bool;
  undoStack : list ImageData;
  points : list Point;
  handSmoothing : list Point;
  currentColor : string;
  currentSize : num;
  isMirrored : bool;
}.

(** [this.smoothingWindowSize]: assigned once, in the constructor. *)
Definition smoothingWindowSize : nat := 5.

Definition with_canvas (v : Canvas) (s : DrawingManager) : DrawingManager := {|
  canvas := v; overlay := overlay s; lastPoint := lastPoint s;
  drawing := drawing s; undoStack := undoStack s; points := points s;
  handSmoothing := handSmoothing s; currentColor := currentColor s;
  currentSize := currentSize s; isMirrored := isMirrored s;
|}.

Definition with_overlay (v : Overlay) (s : DrawingManager) : DrawingManager := {|
  canvas := canvas s; overlay := v; lastPoint := lastPoint s;
  drawing := drawing s; undoStack := undoStack s; points := points s;
  handSmoothing := handSmoothing s; currentColor := currentColor s;
  currentSize := currentSize s; isMirrored := isMirrored s;
|}.

Definition with_lastPoint (v : option Point) (s : DrawingManager) : DrawingManager := {|
  canvas := canvas s; overlay := overlay s; lastPoint := v;
  drawing := drawing s; undoStack := undoStack s; points := points s;
  handSmoothing := handSmoothing s; currentColor := currentColor s;
  currentSize := currentSize s; isMirrored := isMirrored s;
|}.

Definition with_drawing (v : bool) (s : DrawingManager) : DrawingManager := {|
  canvas := canvas s; overlay := overlay s; lastPoint := lastPoint s;
  drawing := v; undoStack := undoStack s; points := points s;
  handSmoothing := handSmoothing s; currentColor := currentColor s;
  currentSize := currentSize s; isMirrored := isMirrored s;
|}.

Definition with_undoStack (v : list ImageData) (s : DrawingManager) : DrawingManager := {|
  canvas := canvas s; overlay := overlay s; lastPoint := lastPoint s;
  drawing := drawing s; undoStack := v; points := points s;
  handSmoothing := handSmoothing s; currentColor := currentColor s;
  currentSize := currentSize s; isMirrored := isMirrored s;
|}.

Definition with_points (v : list Point) (s : DrawingManager) : DrawingManager := {|
  canvas := canvas s; overlay := overlay s; lastPoint := lastPoint s;
  drawing := drawing s; undoStack := undoStack s; points := v;
  handSmoothing := handSmoothing s; currentColor := currentColor s;
  currentSize := currentSize s; isMirrored := isMirrored s;
|}.

Definition with_handSmoothing (v : list Point) (s : DrawingManager) : DrawingManager := {|
  canvas := canvas s; overlay := overlay s; lastPoint := lastPoint s;
  drawing := drawing s; undoStack := undoStack s; points := points s;
  handSmoothing := v; currentColor := currentColor s;
  currentSize := currentSize s; isMirrored := isMirrored s;
|}.

Definition with_currentColor (v : string) (s : DrawingManager) : DrawingManager := {|
  canvas := canvas s; overlay := overlay s; lastPoint := lastPoint s;
  drawing := drawing s; undoStack := undoStack s; points := points s;
  handSmoothing := handSmoothing s; currentColor := v;
  currentSize := currentSize s; isMirrored := isMirrored s;
|}.

Definition with_currentSize (v : num) (s : DrawingManager) : DrawingManager := {|
  canvas := canvas s; overlay := overlay s; lastPoint := lastPoint s;
  drawing := drawing s; undoStack := undoStack s; points := points s;
  handSmoothing := handSmoothing s; currentColor := currentColor s;
  currentSize := v; isMirrored := isMirrored s;
|}.

Definition with_isMirrored (v : bool) (s : DrawingManager) : DrawingManager := {|
  canvas := canvas s; overlay := overlay s; lastPoint := lastPoint s;
  drawing := drawing s; undoStack := undoStack s; points := points s;
  handSmoothing := handSmoothing s; currentColor := currentColor s;
  currentSize := currentSize s; isMirrored := v;
|}.

(** *** Methods run in a state-and-exception monad

    A method either returns a value or throws; in both cases the manager is
    left in the state the method had brought it to. *)
Inductive Result (A : Type) :=
| Ok (a : A) (s : DrawingManager)
| Throw (e : JsError) (s : DrawingManager).

Arguments Ok {A} a s.
Arguments Throw {A} e s.

Definition M (A : Type) : Type := DrawingManager -> Result A.

Definition ret {A} (a : A) : M A := fun s => Ok a s.

Definition bind {A B} (m : M A) (k : A -> M B) : M B := fun s =>
  match m s with
  | Ok a s' => k a s'
  | Throw e s' => Throw e s'
  end.

Definition throw {A} (e : JsError) : M A := fun s => Throw e s.
Definition gets {A} (f : DrawingManager -> A) : M A := fun s => Ok (f s) s.
Definition modify (f : DrawingManager -> DrawingManager) : M unit := fun s => Ok tt (f s).

(** The manager a run ends in, whether it returned or threw. *)
Definition final {A} (r : Result A) : DrawingManager :=
  match r with Ok _ s => s | Throw _ s => s end.

Definition returned {A} (r : Result A) : bool :=
  match r with Ok _ _ => true | Throw _ _ => false end.

Notation "'let!' v ':=' m 'in' k" := (bind m (fun v => k))
  (at level 10, v name, m at level 100, k at level 200).
Notation "'do!' m 'in' k" := (bind m (fun _ => k))
  (at level 10, m at level 100, k at level 200).

(** [for (const a of l) body] *)
Fixpoint for_of {A} (l : list A) (body : A -> M unit) : M unit :=
  match l with
  | [] => ret tt
  | a :: rest => do! body a in for_of rest body
  end.

(** Reading a property of a value that may be [undefined] or [null]. *)
Definition deref {A} (v : option A) : M A :=
  match v with
  | Some a => ret a
  | None => throw TypeError
  end.

(** A call on [this.ctx] and on [this.overlayCtx]. *)
Definition ctx (f : Canvas -> Canvas) : M unit :=
  modify (fun s => with_canvas (f (canvas s)) s).

Definition overlayCtx (k : OverlayCall) : M unit :=
  modify (fun s => with_overlay (overlay_call k (overlay s)) s).

Definition ctx_getImageData (sw sh : nat) : M ImageData := fun s =>
  match getImageData sw sh (canvas s) with
  | inl e => Throw e s
  | inr img => Ok img s
  end.

(** [constructor(app)]: the two canvases are the elements found in the page,
    untouched so far, whatever their dimensions there. *)
Definition constructor (canvas_w canvas_h overlay_w overlay_h : nat) : DrawingManager := {|
  canvas := {|
    bitmap := Raster.blank canvas_w canvas_h;
    settings := default_DrawState;
    saved := [];
    path := [];
    strokes := [];
  |};
  overlay := {| o_width := overlay_w; o_height := overlay_h; o_calls := [] |};
  lastPoint := None;
  drawing := false;
  undoStack := [];
  points := [];
  handSmoothing := [];
  currentColor := "#5eead4";
  currentSize := n_of_nat 6;
  isMirrored := false;
|}.

(** [setMirror(isMirrored)] *)
Definition setMirror (v : bool) : M unit := modify (with_isMirrored v).

(** [resizeCanvases()]; [rect_w] and [rect_h] are the dimensions that
    [#stage]'s bounding rectangle has at the time of the call, as the
    [width] and [height] attributes of a canvas take them. *)
Definition resizeCanvases (rect_w rect_h : nat) : M unit :=
  let! w0 := gets (fun s => width (canvas s)) in
  let! h0 := gets (fun s => height (canvas s)) in
  let! imageData := ctx_getImageData w0 h0 in
  do! ctx (set_width rect_w) in
  do! ctx (set_height rect_h) in
  do! modify (fun s => with_overlay (overlay_set_width rect_w (overlay s)) s) in
  do! modify (fun s => with_overlay (overlay_set_height rect_h (overlay s)) s) in
  ctx (putImageData imageData).

(** [smoothPoint(rawPoint)] *)
Definition smoothPoint (rawPoint : Point) : M Point :=
  do! modify (fun s => with_handSmoothing (handSmoothing s ++ [rawPoint]) s) in
  let! len := gets (fun s => length (handSmoothing s)) in
  do! (if (smoothingWindowSize <? len)%nat
       then modify (fun s => with_handSmoothing (tl (handSmoothing s)) s)
       else ret tt) in
  let! window := gets handSmoothing in
  let avg :=
    fold_left (fun acc pt => Pt (x acc + x pt)%js (y acc + y pt)%js)
      window (Pt n_zero n_zero) in
  ret (Pt (x avg / n_of_nat (length window))%js
          (y avg / n_of_nat (length window))%js).

(** [drawLine(from, to, color, size)]; [from] is [this.lastPoint] at the
    call site, which may be [null]. *)
Definition drawLine (from : option Point) (to : Point) (color : string) (size : num) : M unit :=
  do! ctx save in
  do! ctx (set_strokeStyle color) in
  do! ctx (set_lineWidth size) in
  do! ctx (set_lineCap "round") in
  do! ctx beginPath in
  let! from := deref from in
  do! ctx (moveTo (x from) (y from)) in
  do! ctx (lineTo (x to) (y to)) in
  do! ctx stroke in
  ctx restore.

(** The body of the loop of [onResults], for one hand.  [mirror_checked] is
    [document.getElementById("mirror").checked]. *)
Definition onResults_hand (mirror_checked : bool) (landmarks : list Point) : M unit :=
  do! overlayCtx (ODrawConnectors landmarks) in
  do! overlayCtx (ODrawLandmarks landmarks) in
  let! thumbTip := deref (landmarks !! 4) in
  let! indexTip := deref (landmarks !! 8) in
  let pinchDistance :=
    hypot (x thumbTip - x indexTip)%js (y thumbTip - y indexTip)%js in
  let! wrist := deref (landmarks !! 0) in
  let wristToIndex :=
    hypot (x wrist - x indexTip)%js (y wrist - y indexTip)%js in
  let threshold := (wristToIndex * n_0_15)%js in
  let xNorm := if mirror_checked then (n_one - x indexTip)%js else x indexTip in
  let! mirrored := gets isMirrored in
  let xNorm := if mirrored then (n_one - xNorm)%js else xNorm in
  let! w := gets (fun s => width (canvas s)) in
  let! h := gets (fun s => height (canvas s)) in
  let rawPoint := Pt (xNorm * n_of_nat w)%js (y indexTip * n_of_nat h)%js in
  let! point := smoothPoint rawPoint in
  let cursorSize := if (pinchDistance <? threshold)%js then n_of_nat 4 else n_of_nat 8 in
  do! overlayCtx OBeginPath in
  do! overlayCtx (OArc (x point) (y point) cursorSize) in
  do! overlayCtx (OFillStyle (if (pinchDistance <? threshold)%js
                              then "rgba(255, 100, 100, 0.9)"
                              else "rgba(95, 234, 212, 0.9)")) in
  do! overlayCtx OFill in
  if (pinchDistance <? threshold)%js then
    let! is_drawing := gets drawing in
    if negb is_drawing then
      do! modify (with_drawing true) in
      do! modify (with_lastPoint (Some point)) in
      do! modify (with_points [point]) in
      let! w := gets (fun s => width (canvas s)) in
      let! h := gets (fun s => height (canvas s)) in
      let! snapshot := ctx_getImageData w h in
      modify (fun s => with_undoStack (undoStack s ++ [snapshot]) s)
    else
      let! from := gets lastPoint in
      let! color := gets currentColor in
      let! size := gets currentSize in
      do! drawLine from point color size in
      do! modify (with_lastPoint (Some point)) in
      modify (fun s => with_points (points s ++ [point]) s)
  else
    do! modify (with_drawing false) in
    do! modify (with_lastPoint None) in
    modify (with_points []).

(** [onResults(results)]; [multiHandLandmarks] is [results.multiHandLandmarks],
    [None] when the property is [undefined]. *)
Definition onResults (mirror_checked : bool)
    (multiHandLandmarks : option (list (list Point))) : M unit :=
  let! ow := gets (fun s => o_width (overlay s)) in
  let! oh := gets (fun s => o_height (overlay s)) in
  do! overlayCtx (OClearRect ow oh) in
  let handsLms := default [] multiHandLandmarks in
  for_of handsLms (onResults_hand mirror_checked).

(** [undo()] *)
Definition undo : M unit :=
  let! stack := gets undoStack in
  if (0 <? length stack)%nat then
    let! imageData := deref (last stack) in
    do! modify (with_undoStack (removelast stack)) in
    ctx (putImageData imageData)
  else ret tt.

(** [clear()] *)
Definition clear : M unit :=
  let! w := gets (fun s => width (canvas s)) in
  let! h := gets (fun s => height (canvas s)) in
  do! ctx (clearRect w h) in
  modify (with_undoStack []).

(** [init()]: sizes the canvases and turns image smoothing on.  The
    listeners it registers are [listener] below; [setupHands] only
    configures the tracker and routes its results to [onResults]. *)
Definition init (rect_w rect_h : nat) : M unit :=
  do! resizeCanvases rect_w rect_h in
  ctx (set_imageSmoothing true "high").

(** *** The class as a method table, and the listeners of [init] *)

(** A method of the class, by the arguments it expects. *)
Inductive Method :=
| Nullary (body : M unit)
| OfStage (body : nat -> nat -> M unit)
| OfBool (body : bool -> M unit)
| OfResults (body : bool -> option (list (list Point)) -> M unit)
| OfPoint (body : Point -> M Point)
| OfLine (body : option Point -> Point -> string -> num -> M unit)
| Setup.

(** Every member that [class DrawingManager] declares, in source order.  The
    constructor assigns no function to a field, so these are all the
    callable properties of an instance. *)
Definition DrawingManager_class : list (string * Method) := [
  ("constructor", Setup);
  ("init", OfStage init);
  ("setMirror", OfBool setMirror);
  ("resizeCanvases", OfStage resizeCanvases);
  ("setupHands", Setup);
  ("onResults", OfResults onResults);
  ("smoothPoint", OfPoint smoothPoint);
  ("drawLine", OfLine drawLine);
  ("undo", Nullary undo);
  ("clear", Nullary clear)
].

(** [this.<name>]: [None] is [undefined]. *)
Definition lookup_method (name : string) : option Method :=
  snd <$> find (fun entry => String.eqb (fst entry) name) DrawingManager_class.

(** [this.<name>(e)] from a listener that passes its event on.  A method
    without parameters ignores the argument; calling [undefined] raises
    TypeError.  (No listener names a method with parameters; that case is
    closed off with the same error.) *)
Definition call_with_event (name : string) : M unit :=
  match lookup_method name with
  | Some (Nullary body) => body
  | Some _ => throw TypeError
  | None => throw TypeError
  end.

(** The events that reach a [DrawingManager], with what the handler reads
    from the event or from the page.  The value of [SizeInput] is the number
    that [parseInt] makes of the slider's value. *)
Inductive Event :=
| WindowResize (rect_w rect_h : nat)
| UndoClick
| ClearClick
| SizeInput (value : num)
| ColorInput (value : string)
| PointerDown (clientX clientY : num)
| PointerMove (clientX clientY : num)
| PointerUp
| PointerCancel
| PointerLeave
| ContextMenu
| MirrorChange (checked : bool)
| HandsResults (mirror_checked : bool) (multiHandLandmarks : option (list (list Point))).

(** The listener that runs for each event: those registered by [init], the
    mirror checkbox (wired by [CameraManager] to [setMirror]) and the hand
    tracker's results callback (wired by [setupHands]). *)
Definition listener (e : Event) : M unit :=
  match e with
  | WindowResize rect_w rect_h => resizeCanvases rect_w rect_h
  | UndoClick => undo
  | ClearClick => clear
  | SizeInput value => modify (with_currentSize value)
  | ColorInput value => modify (with_currentColor value)
  | PointerDown _ _ => call_with_event "handlePointerDown"
  | PointerMove _ _ => call_with_event "handlePointerMove"
  | PointerUp => call_with_event "handlePointerUp"
  | PointerCancel => call_with_event "handlePointerUp"
  | PointerLeave => call_with_event "handlePointerUp"
  | ContextMenu => ret tt
  | MirrorChange checked => setMirror checked
  | HandsResults mirror_checked lms => onResults mirror_checked lms
  end.

(** An uncaught exception in a listener is reported and the page goes on:
    the manager keeps the state the listener left it in. *)
Definition dispatch (e : Event) (s : DrawingManager) : DrawingManager :=
  final (listener e s).

Definition run (events : list Event) (s : DrawingManager) : DrawingManager :=
  fold_left (fun s e => dispatch e s) events s.

End Model.

Arguments Point num : clear implicits.
Arguments DrawState num : clear implicits.
Arguments PathCmd num : clear implicits.
Arguments Canvas num : clear implicits.
Arguments OverlayCall num : clear implicits.
Arguments Overlay num : clear implicits.
Arguments DrawingManager num : clear implicits.
Arguments Result num A : clear implicits.
Arguments Ok {num A} a s.
Arguments Throw {num A} e s.
Arguments M num A : clear implicits.
Arguments Method num : clear implicits.
Arguments Event num : clear implicits.

(** The rasterizer, as a type. *)
Definition Rasterizer (num : Type) : Type :=
  DrawState num -> list (PathCmd num) -> nat -> nat -> Pixel -> Pixel.

(* ================================================================== *)
(** ** Closed forms of what the methods compute *)
(* ================================================================== *)

Section Readings.
Context {num : Type} `{JsNumber num} {colors : CssColors}.
Variable paint : Rasterizer num.
Variable hypot : num -> num -> num.

(** The test [pinchDistance < threshold] of [onResults]. *)
Definition pinched (thumbTip indexTip wrist : Point num) : bool :=
  (hypot (x thumbTip - x indexTip) (y thumbTip - y indexTip)
   <? hypot (x wrist - x indexTip) (y wrist - y indexTip) * n_0_15)%js.

(** [rawPoint] of [onResults]: the index tip in canvas pixels, for the state
    of the mirror checkbox and of [this.isMirrored]. *)
Definition mapped (mirror_checked mirrored : bool) (w h : nat) (indexTip : Point num) : Point num :=
  let xNorm := if mirror_checked then (n_one - x indexTip)%js else x indexTip in
  let xNorm := if mirrored then (n_one - xNorm)%js else xNorm in
  Pt (xNorm * n_of_nat w)%js (y indexTip * n_of_nat h)%js.

(** [this.handSmoothing] after [smoothPoint] has pushed [p] and shifted. *)
Definition window_push (buf : list (Point num)) (p : Point num) : list (Point num) :=
  if (smoothingWindowSize <? length (buf ++ [p]))%nat then tl (buf ++ [p]) else buf ++ [p].

(** The value [smoothPoint] returns for a window: [reduce] from [{x: 0, y: 0}],
    then both sums divided by the length. *)
Definition mean (window : list (Point num)) : Point num :=
  let avg :=
    fold_left (fun acc pt => Pt (x acc + x pt)%js (y acc + y pt)%js)
      window (Pt n_zero n_zero) in
  Pt (x avg / n_of_nat (length window))%js (y avg / n_of_nat (length window))%js.

(** The canvas after [drawLine], and after a [drawLine] that stops at
    [from.x] because [from] is [null]. *)
Definition line_drawn (from to : Point num) (color : string) (size : num) (c : Canvas num) : Canvas num :=
  restore (stroke paint (lineTo (x to) (y to) (moveTo (x from) (y from)
    (beginPath (set_lineCap "round" (set_lineWidth size (set_strokeStyle color (save c)))))))).

Definition line_aborted (color : string) (size : num) (c : Canvas num) : Canvas num :=
  beginPath (set_lineCap "round" (set_lineWidth size (set_strokeStyle color (save c)))).

(** The overlay after a frame with one hand: cleared, skeleton, cursor. *)
Definition overlay_frame (landmarks : list (Point num)) (point : Point num) (pinch : bool)
    (o : Overlay num) : Overlay num :=
  fold_left (fun o k => overlay_call k o)
    [OClearRect (o_width o) (o_height o);
     ODrawConnectors landmarks;
     ODrawLandmarks landmarks;
     OBeginPath;
     OArc (x point) (y point) (if pinch then n_of_nat 4 else n_of_nat 8);
     OFillStyle (if pinch then "rgba(255, 100, 100, 0.9)" else "rgba(95, 234, 212, 0.9)");
     OFill] o.

(** The manager after [onResults] on a frame with one hand whose landmarks
    4, 8 and 0 are [thumbTip], [indexTip] and [wrist]. *)
Definition frame_end (mirror_checked : bool) (landmarks : list (Point num))
    (thumbTip indexTip wrist : Point num) (s : DrawingManager num) : DrawingManager num :=
  let raw := mapped mirror_checked (isMirrored s) (width (canvas s)) (height (canvas s)) indexTip in
  let window := window_push (handSmoothing s) raw in
  let point := mean window in
  let pinch := pinched thumbTip indexTip wrist in
  let s1 := with_overlay (overlay_frame landmarks point pinch (overlay s))
              (with_handSmoothing window s) in
  if pinch then
    if drawing s then
      match lastPoint s with
      | Some from =>
          with_points (points s ++ [point]) (with_lastPoint (Some point)
            (with_canvas (line_drawn from point (currentColor s) (currentSize s) (canvas s)) s1))
      | None =>
          with_canvas (line_aborted (currentColor s) (currentSize s) (canvas s)) s1
      end
    else
      let s2 := with_points [point] (with_lastPoint (Some point) (with_drawing true s1)) in
      match getImageData (width (canvas s)) (height (canvas s)) (canvas s) with
      | inr snapshot => with_undoStack (undoStack s ++ [snapshot]) s2
      | inl _ => s2
      end
  else
    with_points [] (with_lastPoint None (with_drawing false s1)).

(** The event of a frame with one hand. *)
Definition frame (mirror_checked : bool) (landmarks : list (Point num)) : Event num :=
  HandsResults mirror_checked (Some [landmarks]).

(** The pinch reading of a landmark list: [None] when landmark 0, 4 or 8 is
    missing. *)
Definition classify (landmarks : list (Point num)) : option bool :=
  match landmarks !! 4, landmarks !! 8, landmarks !! 0 with
  | Some thumbTip, Some indexTip, Some wrist => Some (pinched thumbTip indexTip wrist)
  | _, _, _ => None
  end.

(** A run of frames with one hand each: for every frame the state of the
    mirror checkbox and the landmarks. *)
Definition frames (fs : list (bool * list (Point num))) : list (Event num) :=
  (fun f => frame (fst f) (snd f)) <$> fs.

(** The raw canvas points of a run of frames, one per hand that has an
    index tip. *)
Definition raw_points (mirrored : bool) (w h : nat)
    (fs : list (bool * list (Point num))) : list (Point num) :=
  omap (fun f => mapped (fst f) mirrored w h <$> snd f !! 8) fs.

(** The smoothed points that a run of raw points yields from a given
    smoothing window. *)
Fixpoint track (buf : list (Point num)) (raws : list (Point num)) : list (Point num) :=
  match raws with
  | [] => []
  | raw :: rest => mean (window_push buf raw) :: track (window_push buf raw) rest
  end.

(** The window after a run of raw points. *)
Definition window_after (buf : list (Point num)) (raws : list (Point num)) : list (Point num) :=
  fold_left window_push raws buf.

(** The settings a line is stroked with when the context had the settings
    [base] and [drawLine] was given [color] and [size]: the colour and the
    width where the setters take them, and else those of [base].  And the
    [stroke()] record of one segment. *)
Definition line_settings (base : DrawState num) (color : string) (size : num) : DrawState num := {|
  strokeStyle := if is_color color then color else strokeStyle base;
  lineWidth := if is_width size then size else lineWidth base;
  lineCap := "round";
  imageSmoothingEnabled := imageSmoothingEnabled base;
  imageSmoothingQuality := imageSmoothingQuality base;
|}.

Definition segment_path (from to : Point num) : list (PathCmd num) :=
  [MoveTo (x from) (y from); LineTo (x to) (y to)].

Definition line_stroke (base : DrawState num) (color : string) (size : num)
    (ends : Point num * Point num) : DrawState num * list (PathCmd num) :=
  (line_settings base color size, segment_path (fst ends) (snd ends)).

(** Feeding a run of raw points to [smoothPoint], collecting its outputs. *)
Fixpoint smooth_all (raws : list (Point num)) : M num (list (Point num)) :=
  match raws with
  | [] => ret []
  | raw :: rest =>
      bind (smoothPoint raw) (fun point =>
      bind (smooth_all rest) (fun others =>
      ret (point :: others)))
  end.

(** The sum that [smoothPoint] forms over a window of five equal values,
    divided by the window length. *)
Definition mean_of_five (a : num) : num :=
  ((((((n_zero + a) + a) + a) + a) + a) / n_of_nat 5)%js.

(** A rasterizer for runs on canvases of a few pixels, which a stroke of
    any width covers whole: every pixel takes the ink. *)
Definition ink : Pixel := RGBA 0 0 0 255.
Definition flood : Rasterizer num := fun _ _ _ _ _ => ink.

(** A hand: 21 landmarks, of which the program reads the wrist (0), the
    thumb tip (4) and the index tip (8). *)
Definition hand (wrist thumbTip indexTip : Point num) : list (Point num) :=
  [wrist; wrist; wrist; wrist; thumbTip;
   wrist; wrist; wrist; indexTip;
   wrist; wrist; wrist; wrist;
   wrist; wrist; wrist; wrist;
   wrist; wrist; wrist; wrist].

(** What a resize is asked to do: return normally, show at the origin of
    the resized canvas the pixels that the canvas had there, and leave the
    stroke in progress alone. *)
Definition resize_preserves (rect_w rect_h : nat) (s : DrawingManager num) : Prop :=
  exists s', resizeCanvases rect_w rect_h s = Ok tt s' /\
    (forall i j, i < rect_w -> j < rect_h ->
       Raster.get (bitmap (canvas s')) i j = Raster.get (bitmap (canvas s)) i j) /\
    drawing s' = drawing s /\ lastPoint s' = lastPoint s /\
    points s' = points s /\ handSmoothing s' = handSmoothing s.

(** What undo is asked to do when read literally: pop the newest snapshot
    and leave the canvas holding exactly that raster. *)
Definition undo_restores_all (s : DrawingManager num) : Prop :=
  forall rest snapshot, undoStack s = rest ++ [snapshot] ->
    exists s', undo s = Ok tt s' /\ undoStack s' = rest /\
      Raster.same (bitmap (canvas s')) snapshot.

(** Events that bring a hand: results with at least one landmark list. *)
Definition brings_hand (e : Event num) : bool :=
  match e with
  | HandsResults _ (Some (_ :: _)) => true
  | _ => false
  end.

(** The three transitions of the stroke state machine in the words of the
    specification, on a point that is already in canvas coordinates:
    pen-down pushes a snapshot of the whole canvas, sets the last point and
    starts the point list; pen-move draws a line from the last point, updates
    it and appends to the list; pen-up clears last point and list. *)
Definition spec_pen_down (p : Point num) (s : DrawingManager num) : DrawingManager num :=
  let snapshot :=
    Raster.build (width (canvas s)) (height (canvas s)) (Raster.get (bitmap (canvas s))) in
  with_undoStack (undoStack s ++ [snapshot])
    (with_points [p] (with_lastPoint (Some p) (with_drawing true s))).

Definition spec_pen_move (p : Point num) (s : DrawingManager num) : DrawingManager num :=
  match lastPoint s with
  | Some from =>
      with_points (points s ++ [p]) (with_lastPoint (Some p)
        (with_canvas (line_drawn from p (currentColor s) (currentSize s) (canvas s)) s))
  | None => s
  end.

Definition spec_pen_up (s : DrawingManager num) : DrawingManager num :=
  with_points [] (with_lastPoint None (with_drawing false s)).

(** What a frame adds around the transition: the overlay it repaints and
    the window it advances. *)
Definition around_frame (landmarks : list (Point num)) (point : Point num) (pinch : bool)
    (window : list (Point num)) (s0 s : DrawingManager num) : DrawingManager num :=
  with_overlay (overlay_frame landmarks point pinch (overlay s0))
    (with_handSmoothing window s).

End Readings.


(* ================================================================== *)
(** ** Sample runs at binary64 *)
(* ================================================================== *)

Module Sample.

#[local] Open Scope float_scope.

(** A manager as the constructor leaves it, on canvases of the default
    size of a canvas element. *)
Definition fresh : DrawingManager float := constructor 300 150 300 150.

(** Hands: wrist at (0.5, 0.9), index tip at (0.5, 0.5), and the thumb tip
    next to the index tip or well away from it. *)
Definition pinching : list (Point float) :=
  hand (Pt 0.5 0.9) (Pt 0.51 0.5) (Pt 0.5 0.5).

Definition released : list (Point float) :=
  hand (Pt 0.5 0.9) (Pt 0.7 0.5) (Pt 0.5 0.5).

(** A gesture of three frames, the mirror checkbox clear. *)
Definition gesture : list (bool * list (Point float)) :=
  [(false, pinching); (false, pinching); (false, pinching)].

(** A pinching hand in another place: index tip at (0.9, 0.1). *)
Definition pinching_elsewhere : list (Point float) :=
  hand (Pt 0.9 0.5) (Pt 0.91 0.1) (Pt 0.9 0.1).

(** A released hand whose index tip is at x = 0.3. *)
Definition at_three_tenths : list (Point float) :=
  hand (Pt 0.5 0.9) (Pt 0.7 0.5) (Pt 0.3 0.5).

(** The manager once the mirror checkbox has been ticked, as
    [CameraManager.updateMirrorEffect] passes it on to [setMirror]. *)
Definition mirrored : DrawingManager float :=
  dispatch flood F64.hypot (MirrorChange true) fresh.

(** The raw point of an index tip at (0.5, 0.7) on a 1280 x 720 canvas. *)
Definition still_point : Point float :=
  Pt (0.5 * F64.of_nat 1280) (0.7 * F64.of_nat 720).

(** A manager on a page whose canvases are a single pixel, and one on a
    page whose canvases are two pixels wide: rasters small enough to follow
    pixel by pixel. *)
Definition one_pixel : DrawingManager float := constructor 1 1 1 1.
Definition two_pixels : DrawingManager float := constructor 2 1 2 1.

(** A stroke begun on the 1 x 1 canvas and continued after the stage has
    grown to 2 x 1. *)
Definition stroke_across_resize : DrawingManager float :=
  run flood F64.hypot
    [frame false pinching; WindowResize 2 1; frame false pinching]
    one_pixel.

(** A stroke of two frames on the 2 x 1 canvas: a pinch at the middle of
    the canvas, then one with the index tip at (0.9, 0.1), which strokes a
    segment from (1, 0.5) to (1.4, 0.3), six pixels wide. *)
Definition inked : DrawingManager float :=
  run flood F64.hypot [frame false pinching; frame false pinching_elsewhere] two_pixels.

(** A canvas that a stage of no extent has left without pixels. *)
Definition collapsed : DrawingManager float :=
  dispatch flood F64.hypot (WindowResize 0 0) one_pixel.

(** A gesture of three frames whose index tip moves: out to (0.9, 0.1),
    back to the middle and out again. *)
Definition zigzag : list (bool * list (Point float)) :=
  [(false, pinching_elsewhere); (false, pinching); (false, pinching_elsewhere)].

(** The 2 x 1 canvas after a pinch and a frame without a hand: the hand has
    left the picture with the pen down. *)
Definition hand_lost : DrawingManager float :=
  run flood F64.hypot [frame false pinching; HandsResults false (Some [])] two_pixels.

End Sample.

(* ================================================================== *)
(** ** One hand of a frame, and whole runs *)
(* ================================================================== *)

Section Hands.
Context {num : Type} `{JsNumber num} {colors : CssColors}.
Variable paint : Rasterizer num.
Variable hypot : num -> num -> num.

(** The overlay after the loop body of [onResults] has run for one hand:
    skeleton and cursor, on top of what was there. *)
Definition hand_overlay (landmarks : list (Point num)) (point : Point num) (pinch : bool)
    (o : Overlay num) : Overlay num :=
  fold_left (fun o k => overlay_call k o)
    [ODrawConnectors landmarks;
     ODrawLandmarks landmarks;
     OBeginPath;
     OArc (x point) (y point) (if pinch then n_of_nat 4 else n_of_nat 8);
     OFillStyle (if pinch then "rgba(255, 100, 100, 0.9)" else "rgba(95, 234, 212, 0.9)");
     OFill] o.

(** The overlay after the loop body has stopped at [thumbTip.x] or
    [indexTip.x] of a hand that lacks the landmark: the skeleton alone. *)
Definition skeleton_only (landmarks : list (Point num)) (o : Overlay num) : Overlay num :=
  overlay_call (ODrawLandmarks landmarks) (overlay_call (ODrawConnectors landmarks) o).

(** The exception, if any, that the loop body ends in for a hand with
    landmarks 4, 8 and 0: [from.x] of a [null] last point in [drawLine], or
    what [getImageData] raises when a stroke starts. *)
Definition hand_exception (thumbTip indexTip wrist : Point num) (s : DrawingManager num) : option JsError :=
  if pinched hypot thumbTip indexTip wrist then
    if drawing s then
      match lastPoint s with
      | Some _ => None
      | None => Some TypeError
      end
    else
      match getImageData (width (canvas s)) (height (canvas s)) (canvas s) with
      | inl e => Some e
      | inr _ => None
      end
  else None.

(** The pen is down exactly when there is a last point, and the last point
    is the newest entry of the point list. *)
Definition stroke_consistent (s : DrawingManager num) : Prop :=
  lastPoint s = last (points s) /\ (drawing s = true <-> is_Some (lastPoint s)).

(** The context between two events: nothing saved, and stroke colour, line
    width and line cap as a fresh context has them. *)
Definition context_at_rest (c : Canvas num) : Prop :=
  saved c = [] /\ strokeStyle (settings c) = "#000000" /\
  lineWidth (settings c) = n_one /\ lineCap (settings c) = "butt".

(** A [stroke()] record of one segment with a round cap. *)
Definition round_segment (st : DrawState num * list (PathCmd num)) : Prop :=
  lineCap (fst st) = "round" /\ exists from to, snd st = segment_path from to.

(** The context is at rest, and all strokes so far are round segments. *)
Definition tidy (s : DrawingManager num) : Prop :=
  stroke_consistent s /\ context_at_rest (canvas s) /\
  Forall round_segment (strokes (canvas s)).

(** A canvas without pixels. *)
Definition no_pixels (c : Canvas num) : Prop := width c = 0 \/ height c = 0.

(** One stroke as the tracker delivers it: the frames of a pinch, then the
    frame on which the pinch is released. *)
Definition stroke_frames (st : list (bool * list (Point num)) * (bool * list (Point num)))
    : list (Event num) :=
  frames (fst st ++ [snd st]).

Definition is_stroke (st : list (bool * list (Point num)) * (bool * list (Point num))) : Prop :=
  Forall (fun f => classify hypot (snd f) = Some true) (fst st) /\ fst st <> [] /\
  classify hypot (snd (snd st)) = Some false.

End Hands.

(* ================================================================== *)
(** ** More sample runs at binary64 *)
(* ================================================================== *)

Module Scenes.

#[local] Open Scope float_scope.

(** A hand of which the tracker delivers the wrist alone. *)
Definition wrist_only : list (Point float) := [Pt 0.5 0.9].

(** The 2 x 1 canvas with the pen down: one pinching frame in. *)
Definition pen_down : DrawingManager float :=
  dispatch flood F64.hypot (frame false Sample.pinching) Sample.two_pixels.

(** What may happen in the middle of a stroke without a hand in sight. *)
Definition interruptions : list (Event float) :=
  [UndoClick; ClearClick; WindowResize 2 1; SizeInput 3; ColorInput "#ff0000";
   MirrorChange true; PointerUp; HandsResults false None].

(** A stroke of three frames and its release. *)
Definition one_stroke : list (bool * list (Point float)) * (bool * list (Point float)) :=
  (Sample.gesture, (false, Sample.released)).

End Scenes.

(* ================================================================== *)
(** ** Numbers, strings and state for the other managers *)
(* ================================================================== *)

(** What [TextManager] needs of numbers beyond [JsNumber]: [<=] (and [>=],
    which is [<=] with the operands swapped), [Math.min], [Math.max], and the
    truth value of a number, false for zero and NaN.  Whether a number is
    finite, which the canvas asks of the corners of a gradient, is
    [n_finite] of [JsNumber]. *)
Class JsMath (num : Type) `{JsNumber num} := {
  n_leb : num -> num -> bool;
  n_min : num -> num -> num;
  n_max : num -> num -> num;
  n_truthy : num -> bool;
}.

Infix "<=?" := n_leb : js_scope.

Definition n_geb {num : Type} `{JsMath num} (a b : num) : bool := n_leb b a.

Infix ">=?" := n_geb (at level 70) : js_scope.

(** What the clamping of a dragged item rests on: [Math.max] is never below
    its first argument, [Math.min] never above its first argument, and a
    bound that holds for both arguments of [Math.max] holds for the result.
    "Below" and "above" are read off [<], so the laws hold for NaN as well. *)
Class JsMathOrder (num : Type) `{JsMath num} := {
  n_max_not_below : forall a b : num, (n_max a b <? a)%js = false;
  n_min_not_above : forall a b : num, (a <? n_min a b)%js = false;
  n_max_bounded : forall u a b : num,
    (u <? a)%js = false -> (u <? b)%js = false -> (u <? n_max a b)%js = false;
}.

(** A string as the program measures it: UTF-16 code units. *)
Abbreviation JsStr := (list N).

(** ECMAScript's WhiteSpace and LineTerminator code points, which
    [String.prototype.trim] strips.  All lie in the Basic Multilingual
    Plane, so each is one code unit. *)
Definition WhiteSpace : list N :=
  [9; 11; 12; 32; 160; 5760; 8192; 8193; 8194; 8195; 8196; 8197; 8198; 8199; 8200;
   8201; 8202; 8239; 8287; 12288; 65279]%N.

Definition LineTerminator : list N := [10; 13; 8232; 8233]%N.

Definition is_white (c : N) : bool :=
  existsb (N.eqb c) (WhiteSpace ++ LineTerminator).

Fixpoint trimStart (s : JsStr) : JsStr :=
  match s with
  | c :: rest => if is_white c then trimStart rest else s
  | [] => []
  end.

Definition trimEnd (s : JsStr) : JsStr := rev (trimStart (rev s)).

(** [s.trim()] *)
Definition trim (s : JsStr) : JsStr := trimEnd (trimStart s).

(** [s.toUpperCase()] for the strings that the program applies it to, the
    types of items, which are ASCII: the letters [a] to [z] go to [A] to
    [Z]. *)
Definition upper (a : Ascii.ascii) : Ascii.ascii :=
  let n := Ascii.nat_of_ascii a in
  if (97 <=? n)%nat && (n <=? 122)%nat then Ascii.ascii_of_nat (n - 32) else a.

Fixpoint toUpperCase (s : string) : string :=
  match s with
  | EmptyString => EmptyString
  | String a rest => String (upper a) (toUpperCase rest)
  end.

(** The code units that mean something to the parser of [innerHTML] within
    the text of an element: [<] opens a tag, [&] a character reference, NUL
    is dropped and a carriage return is made a line feed.  The parser takes
    every other code unit as it is. *)
Definition is_markup (c : N) : bool := existsb (N.eqb c) [0; 13; 38; 60]%N.

(** Whether a string holds digits and small letters only, as the ids do
    that [addItem] makes from [Date.now()] and [Math.random().toString(36)]. *)
Definition is_alphanumeric (a : Ascii.ascii) : bool :=
  let n := Ascii.nat_of_ascii a in
  ((48 <=? n) && (n <=? 57) || (97 <=? n) && (n <=? 122))%nat.

Fixpoint alphanumeric (s : string) : bool :=
  match s with
  | EmptyString => true
  | String a rest => is_alphanumeric a && alphanumeric rest
  end.

(** Methods of the other managers run in the same kind of monad as those of
    [DrawingManager]: state of the manager, and exceptions that leave the
    state as it is at the throw. *)
Module St.
Section St.
Context {S : Type}.

Inductive Outcome (A : Type) :=
| Done (a : A) (s : S)
| Raised (e : JsError) (s : S).

Definition ST (A : Type) : Type := S -> Outcome A.

Definition ret {A} (a : A) : ST A := fun s => Done A a s.

Definition bind {A B} (m : ST A) (k : A -> ST B) : ST B := fun s =>
  match m s with
  | Done _ a s' => k a s'
  | Raised _ e s' => Raised B e s'
  end.

Definition raise {A} (e : JsError) : ST A := fun s => Raised A e s.
Definition gets {A} (f : S -> A) : ST A := fun s => Done A (f s) s.
Definition modify (f : S -> S) : ST unit := fun s => Done unit tt (f s).

Definition after {A} (r : Outcome A) : S :=
  match r with Done _ _ s => s | Raised _ _ s => s end.

Definition value {A} (r : Outcome A) : option A :=
  match r with Done _ a _ => Some a | Raised _ _ _ => None end.

(** Reading a property of a value that may be [undefined] or [null]. *)
Definition deref {A} (v : option A) : ST A :=
  match v with
  | Some a => ret a
  | None => raise TypeError
  end.

(** [for (const a of l) body] *)
Fixpoint for_of {A} (l : list A) (body : A -> ST unit) : ST unit :=
  match l with
  | [] => ret tt
  | a :: rest => bind (body a) (fun _ => for_of rest body)
  end.

End St.

Arguments Outcome S A : clear implicits.
Arguments ST S A : clear implicits.
Arguments Done {S A} a s.
Arguments Raised {S A} e s.

End St.

(** *** The further operations at binary64 and at exact rationals *)

(** [Math.min] and [Math.max] on binary64: NaN if either argument is NaN,
    and -0 below +0. *)
Definition F64_min (a b : float) : float :=
  if PrimFloat.is_nan a || PrimFloat.is_nan b then PrimFloat.nan
  else if PrimFloat.ltb a b then a
  else if PrimFloat.ltb b a then b
  else match PrimFloat.classify a with NZero => a | _ => b end.

Definition F64_max (a b : float) : float :=
  if PrimFloat.is_nan a || PrimFloat.is_nan b then PrimFloat.nan
  else if PrimFloat.ltb a b then b
  else if PrimFloat.ltb b a then a
  else match PrimFloat.classify a with PZero => a | _ => b end.

Definition F64_truthy (a : float) : bool :=
  negb (PrimFloat.is_zero a || PrimFloat.is_nan a).

#[global] Instance F64_math : @JsMath float F64.number := {|
  n_leb := PrimFloat.leb;
  n_min := F64_min;
  n_max := F64_max;
  n_truthy := F64_truthy;
|}.

Definition Exact_leb (a b : Qc) : bool := negb (Exact.ltb b a).
Definition Exact_min (a b : Qc) : Qc := if Exact.ltb b a then b else a.
Definition Exact_max (a b : Qc) : Qc := if Exact.ltb a b then b else a.
Definition Exact_truthy (a : Qc) : bool := negb (Qc_eq_bool a 0).

#[global] Instance Exact_math : @JsMath Qc Exact.number := {|
  n_leb := Exact_leb;
  n_min := Exact_min;
  n_max := Exact_max;
  n_truthy := Exact_truthy;
|}.

(* ================================================================== *)
(** ** [class TextManager] *)
(* ================================================================== *)

Module Text.

(** An item object: [{id, type, text, color, size, x, y, w, h}]. *)
Module Item.
Record t {num : Type} := mk {
  id : string;
  type : string;
  text : JsStr;
  color : string;
  size : num;
  x : num;
  y : num;
  w : num;
  h : num;
}.
Arguments t num : clear implicits.
Arguments mk {num} id type text color size x y w h.
End Item.

Section Model.
Context {num : Type} `{JsMath num}.

(** The width that [ctx.measureText] reports for a text set in
    [`${size}px sans-serif`]: the browser's business, a parameter.  Sizes are
    taken to be ones for which that string is a font the context accepts. *)
Variable measureText : num -> JsStr -> num.

(** Values assigned to properties of the 2D context. *)
Inductive CtxValue :=
| VStr (v : string)
| VNum (v : num)
| VBool (v : bool)
| VFont (size : num)
| VGradient (x0 y0 x1 y1 : num) (stops : list (num * string)).

(** The text layer [#textLayer] shows nothing that the program reads back;
    it is kept as its size and the list of calls made on its context. *)
Inductive TextCall :=
| TClearRect (w h : nat)
| TSet (property : string) (v : CtxValue)
| TFillRect (x y w h : num)
| TFillText (text : JsStr) (x y : num)
| TSetLineDash (segments : list num)
| TStrokeRect (x y w h : num).

Record TextCanvas := {
  t_width : nat;
  t_height : nat;
  t_calls : list TextCall;
}.

(** A child of [#notesList] as [refreshNotesList] makes it.  The record
    holds the values that the method sets into the markup that it assigns to
    the [innerHTML] of the child: within the [span], the type in upper case,
    the first 20 code units of the text and whether an ellipsis follows
    them; within the script of the button, the id.  And it holds [item], the
    item that the click listener of the child closes over.  What the child
    shows is what the parser makes of the markup; [label] reads that off. *)
Record NoteEntry := {
  span_type : string;
  span_text : JsStr;
  span_ellipsis : bool;
  script_id : string;
  item : nat;
}.

(** A [TextManager].  Item objects live in [objects] and are referred to by
    their index there; [items], [selectedItem] and [draggingItem] hold such
    references, so an assignment through one of them is seen through the
    others.  [textInput] is [textInput.value]; [notifications] records the
    calls of [app.showNotification]. *)
Record TextManager := {
  canvas : TextCanvas;
  textInput : JsStr;
  notesList : list NoteEntry;
  objects : list (Item.t num);
  items : list nat;
  selectedItem : option nat;
  draggingItem : option nat;
  dragOffset : Point num;
  notifications : list (string * string);
}.

Definition with_canvas (v : TextCanvas) (s : TextManager) : TextManager := {|
  canvas := v; textInput := textInput s; notesList := notesList s; objects := objects s;
  items := items s; selectedItem := selectedItem s; draggingItem := draggingItem s;
  dragOffset := dragOffset s; notifications := notifications s;
|}.

Definition with_textInput (v : JsStr) (s : TextManager) : TextManager := {|
  canvas := canvas s; textInput := v; notesList := notesList s; objects := objects s;
  items := items s; selectedItem := selectedItem s; draggingItem := draggingItem s;
  dragOffset := dragOffset s; notifications := notifications s;
|}.

Definition with_notesList (v : list NoteEntry) (s : TextManager) : TextManager := {|
  canvas := canvas s; textInput := textInput s; notesList := v; objects := objects s;
  items := items s; selectedItem := selectedItem s; draggingItem := draggingItem s;
  dragOffset := dragOffset s; notifications := notifications s;
|}.

Definition with_objects (v : list (Item.t num)) (s : TextManager) : TextManager := {|
  canvas := canvas s; textInput := textInput s; notesList := notesList s; objects := v;
  items := items s; selectedItem := selectedItem s; draggingItem := draggingItem s;
  dragOffset := dragOffset s; notifications := notifications s;
|}.

Definition with_items (v : list nat) (s : TextManager) : TextManager := {|
  canvas := canvas s; textInput := textInput s; notesList := notesList s; objects := objects s;
  items := v; selectedItem := selectedItem s; draggingItem := draggingItem s;
  dragOffset := dragOffset s; notifications := notifications s;
|}.

Definition with_selectedItem (v : option nat) (s : TextManager) : TextManager := {|
  canvas := canvas s; textInput := textInput s; notesList := notesList s; objects := objects s;
  items := items s; selectedItem := v; draggingItem := draggingItem s;
  dragOffset := dragOffset s; notifications := notifications s;
|}.

Definition with_draggingItem (v : option nat) (s : TextManager) : TextManager := {|
  canvas := canvas s; textInput := textInput s; notesList := notesList s; objects := objects s;
  items := items s; selectedItem := selectedItem s; draggingItem := v;
  dragOffset := dragOffset s; notifications := notifications s;
|}.

Definition with_dragOffset (v : Point num) (s : TextManager) : TextManager := {|
  canvas := canvas s; textInput := textInput s; notesList := notesList s; objects := objects s;
  items := items s; selectedItem := selectedItem s; draggingItem := draggingItem s;
  dragOffset := v; notifications := notifications s;
|}.

Definition with_notifications (v : list (string * string)) (s : TextManager) : TextManager := {|
  canvas := canvas s; textInput := textInput s; notesList := notesList s; objects := objects s;
  items := items s; selectedItem := selectedItem s; draggingItem := draggingItem s;
  dragOffset := dragOffset s; notifications := v;
|}.

Definition M (A : Type) : Type := St.ST TextManager A.

#[local] Notation "'let!' v ':=' m 'in' k" := (St.bind m (fun v => k))
  (at level 10, v name, m at level 100, k at level 200).
#[local] Notation "'do!' m 'in' k" := (St.bind m (fun _ => k))
  (at level 10, m at level 100, k at level 200).

(** Reading and assigning the fields of an item object through a
    reference.  A reference that the program holds always points to an
    object; the lookup fails on no other. *)
Definition read (ref : nat) : M (Item.t num) :=
  let! store := St.gets objects in
  St.deref (store !! ref).

Definition assign (ref : nat) (f : Item.t num -> Item.t num) : M unit :=
  let! it := read ref in
  St.modify (fun s => with_objects (<[ref := f it]> (objects s)) s).

Definition set_text (v : JsStr) (it : Item.t num) : Item.t num :=
  Item.mk (Item.id it) (Item.type it) v (Item.color it) (Item.size it)
    (Item.x it) (Item.y it) (Item.w it) (Item.h it).

Definition set_x (v : num) (it : Item.t num) : Item.t num :=
  Item.mk (Item.id it) (Item.type it) (Item.text it) (Item.color it) (Item.size it)
    v (Item.y it) (Item.w it) (Item.h it).

Definition set_y (v : num) (it : Item.t num) : Item.t num :=
  Item.mk (Item.id it) (Item.type it) (Item.text it) (Item.color it) (Item.size it)
    (Item.x it) v (Item.w it) (Item.h it).

Definition set_w (v : num) (it : Item.t num) : Item.t num :=
  Item.mk (Item.id it) (Item.type it) (Item.text it) (Item.color it) (Item.size it)
    (Item.x it) (Item.y it) v (Item.h it).

Definition set_h (v : num) (it : Item.t num) : Item.t num :=
  Item.mk (Item.id it) (Item.type it) (Item.text it) (Item.color it) (Item.size it)
    (Item.x it) (Item.y it) (Item.w it) v.

(** A call on [this.ctx]. *)
Definition ctx (k : TextCall) : M unit :=
  St.modify (fun s => with_canvas {|
    t_width := t_width (canvas s);
    t_height := t_height (canvas s);
    t_calls := t_calls (canvas s) ++ [k];
  |} s).

(** [this.app.showNotification(message, type)] *)
Definition showNotification (message type : string) : M unit :=
  St.modify (fun s => with_notifications (notifications s ++ [(message, type)]) s).

(** [constructor(app)]; the text layer is the element found in the page. *)
Definition constructor (canvas_w canvas_h : nat) (textInput_value : JsStr) : TextManager := {|
  canvas := {| t_width := canvas_w; t_height := canvas_h; t_calls := [] |};
  textInput := textInput_value;
  notesList := [];
  objects := [];
  items := [];
  selectedItem := None;
  draggingItem := None;
  dragOffset := Pt n_zero n_zero;
  notifications := [];
|}.

(** [this.ctx.createLinearGradient(x0, y0, x1, y1)], with the colour stops
    that are then added to the gradient.  The canvas throws a [TypeError]
    unless the four numbers are finite. *)
Definition createLinearGradient (x0 y0 x1 y1 : num) (stops : list (num * string))
    : M CtxValue :=
  if n_finite x0 && n_finite y0 && n_finite x1 && n_finite y1
  then St.ret (VGradient x0 y0 x1 y1 stops)
  else St.raise TypeError.

(** The body of the loop of [renderItems], for one item: the item is
    painted, as a sticky note or as a text, and its box written back into
    it; then it is outlined if it has the id of the selected item. *)
Definition paintItem (ref : nat) : M unit :=
  let! it := read ref in
  if String.eqb (Item.type it) "note" then
    let padding := n_of_nat 12 in
    do! ctx (TSet "font" (VFont (Item.size it))) in
    let metrics_width := measureText (Item.size it) (Item.text it) in
    let! cw := St.gets (fun s => t_width (canvas s)) in
    let w := n_min (n_of_nat cw - n_of_nat 20)%js
                   (metrics_width + padding * n_of_nat 2)%js in
    let h := (Item.size it + padding * n_of_nat 2 + n_of_nat 4)%js in
    do! assign ref (set_w w) in
    do! assign ref (set_h h) in
    do! ctx (TSet "shadowColor" (VStr "rgba(0, 0, 0, 0.3)")) in
    do! ctx (TSet "shadowBlur" (VNum (n_of_nat 4))) in
    do! ctx (TSet "shadowOffsetX" (VNum (n_of_nat 2))) in
    do! ctx (TSet "shadowOffsetY" (VNum (n_of_nat 2))) in
    let! gradient :=
      createLinearGradient (Item.x it - padding)%js (Item.y it - padding)%js
                           (Item.x it - padding)%js (Item.y it - padding + h)%js
        [(n_zero, "rgba(255, 240, 150, 0.95)"); (n_one, "rgba(255, 220, 100, 0.95)")] in
    do! ctx (TSet "fillStyle" gradient) in
    do! ctx (TFillRect (Item.x it - padding)%js (Item.y it - padding)%js w h) in
    do! ctx (TSet "shadowColor" (VStr "transparent")) in
    do! ctx (TSet "shadowBlur" (VNum n_zero)) in
    do! ctx (TSet "fillStyle" (VStr "#333")) in
    ctx (TFillText (Item.text it) (Item.x it) (Item.y it))
  else
    do! ctx (TSet "font" (VFont (Item.size it))) in
    let metrics_width := measureText (Item.size it) (Item.text it) in
    let w := metrics_width in
    let h := Item.size it in
    do! assign ref (set_w w) in
    do! assign ref (set_h h) in
    do! ctx (TSet "shadowColor" (VStr "rgba(0, 0, 0, 0.5)")) in
    do! ctx (TSet "shadowBlur" (VNum (n_of_nat 3))) in
    do! ctx (TSet "shadowOffsetX" (VNum n_one)) in
    do! ctx (TSet "shadowOffsetY" (VNum n_one)) in
    do! ctx (TSet "fillStyle" (VStr (Item.color it))) in
    do! ctx (TFillText (Item.text it) (Item.x it) (Item.y it)) in
    do! ctx (TSet "shadowColor" (VStr "transparent")) in
    ctx (TSet "shadowBlur" (VNum n_zero)).

Definition outlineItem (ref : nat) : M unit :=
  let! selected := St.gets selectedItem in
  match selected with
  | None => St.ret tt
  | Some sel =>
      let! selected_item := read sel in
      let! it := read ref in
      if String.eqb (Item.id selected_item) (Item.id it) then
        do! ctx (TSet "strokeStyle" (VStr "rgba(100, 200, 255, 0.8)")) in
        do! ctx (TSet "lineWidth" (VNum (n_of_nat 2))) in
        do! ctx (TSetLineDash [n_of_nat 5; n_of_nat 5]) in
        do! ctx (TStrokeRect (Item.x it - n_of_nat 6)%js (Item.y it - n_of_nat 6)%js
                   (Item.w it + n_of_nat 12)%js (Item.h it + n_of_nat 12)%js) in
        ctx (TSetLineDash [])
      else St.ret tt
  end.

Definition renderItem (ref : nat) : M unit :=
  do! paintItem ref in
  outlineItem ref.

(** [renderItems()] *)
Definition renderItems : M unit :=
  let! cw := St.gets (fun s => t_width (canvas s)) in
  let! ch := St.gets (fun s => t_height (canvas s)) in
  do! ctx (TClearRect cw ch) in
  do! ctx (TSet "textBaseline" (VStr "top")) in
  do! ctx (TSet "imageSmoothingEnabled" (VBool true)) in
  do! ctx (TSet "imageSmoothingQuality" (VStr "high")) in
  let! refs := St.gets items in
  St.for_of refs renderItem.

(** [refreshNotesList()] *)
Definition noteEntry (ref : nat) : M unit :=
  let! it := read ref in
  let entry := {|
    span_type := toUpperCase (Item.type it);
    span_text := take 20 (Item.text it);
    span_ellipsis := (20 <? length (Item.text it))%nat;
    script_id := Item.id it;
    item := ref;
  |} in
  St.modify (fun s => with_notesList (notesList s ++ [entry]) s).

Definition refreshNotesList : M unit :=
  do! St.modify (with_notesList []) in
  let! refs := St.gets items in
  St.for_of refs noteEntry.

(** [resizeCanvas()]; [rect_w] and [rect_h] are the dimensions of [#stage]. *)
Definition resizeCanvas (rect_w rect_h : nat) : M unit :=
  do! St.modify (fun s => with_canvas {|
        t_width := rect_w; t_height := t_height (canvas s); t_calls := t_calls (canvas s) |} s) in
  do! St.modify (fun s => with_canvas {|
        t_width := t_width (canvas s); t_height := rect_h; t_calls := t_calls (canvas s) |} s) in
  renderItems.

(** [init()]: sizes the text layer; the listeners it registers are
    [listener] below. *)
Definition init (rect_w rect_h : nat) : M unit := resizeCanvas rect_w rect_h.

(** [addItem(type, text, x, y)].  [id] is the value of
    [Date.now() + Math.random().toString(36).slice(2, 7)], [fontSize_number]
    that of [Number(this.fontSize.value)] and [textColor_value] that of
    [this.textColor.value] at the call; [x] and [y] are [None] for [null]. *)
Definition addItem (id : string) (fontSize_number : num) (textColor_value : string)
    (type : string) (text : JsStr) (x y : option num) : M nat :=
  let size := if n_truthy fontSize_number then fontSize_number else n_of_nat 36 in
  let color := if String.eqb textColor_value "" then "#fff" else textColor_value in
  let! cw := St.gets (fun s => t_width (canvas s)) in
  let! ch := St.gets (fun s => t_height (canvas s)) in
  let pos_x := default (n_of_nat cw / n_of_nat 2 - n_of_nat 40)%js x in
  let pos_y := default (n_of_nat ch / n_of_nat 2)%js y in
  let it := Item.mk id type text color size pos_x pos_y n_zero n_zero in
  let! ref := St.gets (fun s => length (objects s)) in
  do! St.modify (fun s => with_objects (objects s ++ [it]) s) in
  do! St.modify (fun s => with_items (items s ++ [ref]) s) in
  do! renderItems in
  do! refreshNotesList in
  do! showNotification (if String.eqb type "note" then "Note added" else "Text added")
        "success" in
  St.ret ref.

(** [refs.findIndex(test)], [None] for [-1], and [refs.find(test)], [None]
    for [undefined].  The test runs on one element after the other until it
    holds; on an empty array it does not run at all. *)
Fixpoint findIndex (test : nat -> M bool) (refs : list nat) (index : nat) : M (option nat) :=
  match refs with
  | [] => St.ret None
  | ref :: rest =>
      let! found := test ref in
      if found then St.ret (Some index) else findIndex test rest (S index)
  end.

Fixpoint find (test : nat -> M bool) (refs : list nat) : M (option nat) :=
  match refs with
  | [] => St.ret None
  | ref :: rest =>
      let! found := test ref in
      if found then St.ret (Some ref) else find test rest
  end.

(** [(i) => i.id === item.id], where [item] may be [undefined], and
    [(i) => i.id === '...'] with the id that a button of the notes list
    carries. *)
Definition same_id_as (item : option nat) (i : nat) : M bool :=
  let! i_object := read i in
  let! ref := St.deref item in
  let! it := read ref in
  St.ret (String.eqb (Item.id i_object) (Item.id it)).

Definition has_id (id : string) (i : nat) : M bool :=
  let! i_object := read i in
  St.ret (String.eqb (Item.id i_object) id).

(** [deleteItem(item)]; [item] is [None] for [undefined]. *)
Definition deleteItem (item : option nat) : M unit :=
  let! refs := St.gets items in
  let! index := findIndex (same_id_as item) refs 0 in
  match index with
  | Some index =>
      do! St.modify (fun s => with_items (delete index (items s)) s) in
      do! St.modify (with_selectedItem None) in
      do! renderItems in
      do! refreshNotesList in
      showNotification "Item deleted" "info"
  | None => St.ret tt
  end.

(** What a pointer or mouse event and the page give [getEventPos]: the
    client coordinates and the bounding rectangle of the text layer. *)
Record Pointer := {
  clientX : num;
  clientY : num;
  rect_left : num;
  rect_top : num;
  rect_width : num;
  rect_height : num;
}.

(** [getEventPos(e)] *)
Definition getEventPos (e : Pointer) : M (Point num) :=
  let! cw := St.gets (fun s => t_width (canvas s)) in
  let! ch := St.gets (fun s => t_height (canvas s)) in
  St.ret (Pt ((clientX e - rect_left e) * (n_of_nat cw / rect_width e))%js
             ((clientY e - rect_top e) * (n_of_nat ch / rect_height e))%js).

(** The test of the two loops over the items: [pos] lies in the box of the
    item, widened by 12 for a note and by 6 for a text. *)
Definition inBox (pos : Point num) (it : Item.t num) : bool :=
  let padding := if String.eqb (Item.type it) "note" then n_of_nat 12 else n_of_nat 6 in
  (x pos >=? Item.x it - padding)%js &&
  (x pos <=? Item.x it + Item.w it + padding)%js &&
  (y pos >=? Item.y it - padding)%js &&
  (y pos <=? Item.y it + Item.h it + padding)%js.

(** [for (let i = this.items.length - 1; i >= 0; i--)], with the body that
    both handlers start with: the first item from the end whose box holds
    [pos], [None] when the loop runs out.  [n] is [i + 1]. *)
Fixpoint itemAt (pos : Point num) (n : nat) : M (option nat) :=
  match n with
  | 0 => St.ret None
  | S i =>
      let! refs := St.gets items in
      let! ref := St.deref (refs !! i) in
      let! it := read ref in
      if inBox pos it then St.ret (Some ref) else itemAt pos i
  end.

(** [handleCanvasPointerDown(e)]; the result tells whether
    [e.stopPropagation()] was called. *)
Definition handleCanvasPointerDown (e : Pointer) : M bool :=
  let! pos := getEventPos e in
  let! n := St.gets (fun s => length (items s)) in
  let! found := itemAt pos n in
  match found with
  | Some ref =>
      let! it := read ref in
      do! St.modify (with_draggingItem (Some ref)) in
      do! St.modify (fun s =>
            with_dragOffset (Pt (x pos - Item.x it)%js (y (dragOffset s))) s) in
      do! St.modify (fun s =>
            with_dragOffset (Pt (x (dragOffset s)) (y pos - Item.y it)%js) s) in
      do! St.modify (with_selectedItem (Some ref)) in
      do! renderItems in
      St.ret true
  | None =>
      do! St.modify (with_selectedItem None) in
      do! renderItems in
      St.ret false
  end.

(** [handleCanvasPointerMove(e)] *)
Definition handleCanvasPointerMove (e : Pointer) : M unit :=
  let! dragging := St.gets draggingItem in
  match dragging with
  | None => St.ret tt
  | Some ref =>
      let! pos := getEventPos e in
      let! offset := St.gets dragOffset in
      do! assign ref (set_x (x pos - x offset)%js) in
      let! offset := St.gets dragOffset in
      do! assign ref (set_y (y pos - y offset)%js) in
      let! cw := St.gets (fun s => t_width (canvas s)) in
      let! it := read ref in
      do! assign ref (set_x (n_max n_zero (n_min (n_of_nat cw - Item.w it)%js (Item.x it)))) in
      let! ch := St.gets (fun s => t_height (canvas s)) in
      let! it := read ref in
      do! assign ref (set_y (n_max n_zero (n_min (n_of_nat ch - Item.h it)%js (Item.y it)))) in
      renderItems
  end.

(** [handleCanvasPointerUp()] *)
Definition handleCanvasPointerUp : M unit := St.modify (with_draggingItem None).

(** [handleCanvasDoubleClick(e)]; [answer] is what [prompt] returns if it
    is called, [None] for [null]. *)
Definition handleCanvasDoubleClick (e : Pointer) (answer : option JsStr) : M unit :=
  let! pos := getEventPos e in
  let! n := St.gets (fun s => length (items s)) in
  let! found := itemAt pos n in
  match found with
  | Some ref =>
      match answer with
      | Some newText =>
          if bool_decide (trim newText = []) then St.ret tt
          else
            do! assign ref (set_text (trim newText)) in
            do! renderItems in
            do! refreshNotesList in
            showNotification "Text updated" "success"
      | None => St.ret tt
      end
  | None => St.ret tt
  end.

(** The events that reach a [TextManager], with what the handlers read
    from the event and from the page.  [TextInput] is the user editing the
    text field; [NoteClick] is a click on the [entry]-th child of the notes
    list, on the button that [refreshNotesList] writes into it or beside
    that button.  Elements that markup within a text adds to a child, and
    what a click on them sets off, are not among the events. *)
Inductive Event :=
| AddTextClick (id : string) (fontSize_number : num) (textColor_value : string)
| AddNoteClick (id : string) (fontSize_number : num) (textColor_value : string)
| TextInput (v : JsStr)
| PointerDown (e : Pointer)
| PointerMove (e : Pointer)
| PointerUp
| PointerCancel
| DoubleClick (e : Pointer) (answer : option JsStr)
| KeyDown (key : string)
| WindowResize (rect_w rect_h : nat)
| NoteClick (entry : nat) (on_button : bool).

(** The listeners registered by [init], those that [refreshNotesList] puts
    on the children of the notes list, and the text field itself. *)
Definition listener (e : Event) : M unit :=
  match e with
  | AddTextClick id fontSize_number textColor_value =>
      let! v := St.gets textInput in
      let text := trim v in
      if bool_decide (text = []) then St.ret tt
      else
        do! addItem id fontSize_number textColor_value "text" text None None in
        St.modify (with_textInput [])
  | AddNoteClick id fontSize_number textColor_value =>
      let! v := St.gets textInput in
      let text := trim v in
      if bool_decide (text = []) then St.ret tt
      else
        do! addItem id fontSize_number textColor_value "note" text None None in
        St.modify (with_textInput [])
  | TextInput v => St.modify (with_textInput v)
  | PointerDown e => do! handleCanvasPointerDown e in St.ret tt
  | PointerMove e => handleCanvasPointerMove e
  | PointerUp => handleCanvasPointerUp
  | PointerCancel => handleCanvasPointerUp
  | DoubleClick e answer => handleCanvasDoubleClick e answer
  | KeyDown key =>
      let! selected := St.gets selectedItem in
      match selected with
      | Some ref => if String.eqb key "Delete" then deleteItem (Some ref) else St.ret tt
      | None => St.ret tt
      end
  | WindowResize rect_w rect_h => resizeCanvas rect_w rect_h
  | NoteClick entry on_button =>
      let! entries := St.gets notesList in
      match entries !! entry with
      | None => St.ret tt
      | Some el =>
          if on_button then
            let! refs := St.gets items in
            let! found := find (has_id (script_id el)) refs in
            deleteItem found
          else
            do! St.modify (with_selectedItem (Some (item el))) in
            renderItems
      end
  end.

(** An uncaught exception in a listener is reported and the page goes on. *)
Definition dispatch (e : Event) (s : TextManager) : TextManager :=
  St.after (listener e s).

Definition run (events : list Event) (s : TextManager) : TextManager :=
  fold_left (fun s e => dispatch e s) events s.

(** The exceptions that the listeners of a run leave uncaught, in the order
    in which they are thrown. *)
Fixpoint uncaught (events : list Event) (s : TextManager) : list JsError :=
  match events with
  | [] => []
  | e :: rest =>
      match listener e s with
      | St.Done _ s' => uncaught rest s'
      | St.Raised err s' => err :: uncaught rest s'
      end
  end.

End Model.

Arguments CtxValue num : clear implicits.
Arguments TextCall num : clear implicits.
Arguments TextCanvas num : clear implicits.
Arguments TextManager num : clear implicits.
Arguments Pointer num : clear implicits.
Arguments Event num : clear implicits.
Arguments M num A : clear implicits.
Arguments NoteEntry : clear implicits.

(** *** Closed forms of what the methods compute *)

Section Readings.
Context {num : Type} `{JsMath num}.
Variable measureText : num -> JsStr -> num.

Definition is_note (it : Item.t num) : bool := String.eqb (Item.type it) "note".

(** The box that [renderItems] writes back into an item, on a text layer
    [cw] pixels wide. *)
Definition box_w (cw : nat) (it : Item.t num) : num :=
  if is_note it
  then n_min (n_of_nat cw - n_of_nat 20)%js
             (measureText (Item.size it) (Item.text it) + n_of_nat 12 * n_of_nat 2)%js
  else measureText (Item.size it) (Item.text it).

Definition box_h (it : Item.t num) : num :=
  if is_note it
  then (Item.size it + n_of_nat 12 * n_of_nat 2 + n_of_nat 4)%js
  else Item.size it.

Definition boxed (cw : nat) (it : Item.t num) : Item.t num :=
  set_h (box_h it) (set_w (box_w cw it) it).

(** Whether the canvas accepts the gradient of an item: for a note, its
    four corners are finite; a text has none. *)
Definition paintable (it : Item.t num) : bool :=
  negb (is_note it) ||
  (n_finite (Item.x it - n_of_nat 12)%js && n_finite (Item.y it - n_of_nat 12)%js &&
   n_finite (Item.x it - n_of_nat 12)%js &&
   n_finite (Item.y it - n_of_nat 12 + box_h it)%js).

(** The calls that [renderItems] makes for one item: those that paint it,
    and those that outline it when it has the id of the selected item,
    [selected_id]. *)
Definition paint_calls (cw : nat) (it : Item.t num) : list (TextCall num) :=
  if is_note it then
    [TSet "font" (VFont (Item.size it));
     TSet "shadowColor" (VStr "rgba(0, 0, 0, 0.3)");
     TSet "shadowBlur" (VNum (n_of_nat 4));
     TSet "shadowOffsetX" (VNum (n_of_nat 2));
     TSet "shadowOffsetY" (VNum (n_of_nat 2));
     TSet "fillStyle"
       (VGradient (Item.x it - n_of_nat 12)%js (Item.y it - n_of_nat 12)%js
                  (Item.x it - n_of_nat 12)%js (Item.y it - n_of_nat 12 + box_h it)%js
          [(n_zero, "rgba(255, 240, 150, 0.95)"); (n_one, "rgba(255, 220, 100, 0.95)")]);
     TFillRect (Item.x it - n_of_nat 12)%js (Item.y it - n_of_nat 12)%js
       (box_w cw it) (box_h it);
     TSet "shadowColor" (VStr "transparent");
     TSet "shadowBlur" (VNum n_zero);
     TSet "fillStyle" (VStr "#333");
     TFillText (Item.text it) (Item.x it) (Item.y it)]
  else
    [TSet "font" (VFont (Item.size it));
     TSet "shadowColor" (VStr "rgba(0, 0, 0, 0.5)");
     TSet "shadowBlur" (VNum (n_of_nat 3));
     TSet "shadowOffsetX" (VNum n_one);
     TSet "shadowOffsetY" (VNum n_one);
     TSet "fillStyle" (VStr (Item.color it));
     TFillText (Item.text it) (Item.x it) (Item.y it);
     TSet "shadowColor" (VStr "transparent");
     TSet "shadowBlur" (VNum n_zero)].

Definition outline_calls (selected_id : option string) (cw : nat) (it : Item.t num)
    : list (TextCall num) :=
  if bool_decide (selected_id = Some (Item.id it)) then
    [TSet "strokeStyle" (VStr "rgba(100, 200, 255, 0.8)");
     TSet "lineWidth" (VNum (n_of_nat 2));
     TSetLineDash [n_of_nat 5; n_of_nat 5];
     TStrokeRect (Item.x it - n_of_nat 6)%js (Item.y it - n_of_nat 6)%js
       (box_w cw it + n_of_nat 12)%js (box_h it + n_of_nat 12)%js;
     TSetLineDash []]
  else [].

Definition item_calls (selected_id : option string) (cw : nat) (it : Item.t num)
    : list (TextCall num) :=
  paint_calls cw it ++ outline_calls selected_id cw it.

(** The manager after calls on the context of the text layer. *)
Definition painted (calls : list (TextCall num)) (s : TextManager num) : TextManager num :=
  with_canvas {|
    t_width := t_width (canvas s);
    t_height := t_height (canvas s);
    t_calls := t_calls (canvas s) ++ calls;
  |} s.

(** The texts that a list of calls paints, in the order it paints them:
    later ones lie on top of earlier ones. *)
Definition texts_painted (calls : list (TextCall num)) : list (JsStr * num * num) :=
  omap (fun k => match k with TFillText t a b => Some (t, a, b) | _ => None end) calls.

(** The child of the notes list that stands for an item. *)
Definition entry_of (ref : nat) (it : Item.t num) : NoteEntry := {|
  span_type := toUpperCase (Item.type it);
  span_text := take 20 (Item.text it);
  span_ellipsis := (20 <? length (Item.text it))%nat;
  script_id := Item.id it;
  item := ref;
|}.

(** Whether the markup of a child holds the values set into it as they
    are: the text without a code unit that the parser acts on, the type one
    of the two that the program gives, the id of the form that [addItem]
    makes. *)
Definition as_written (el : NoteEntry) : bool :=
  forallb (fun c => negb (is_markup c)) (span_text el) &&
  (String.eqb (span_type el) "TEXT" || String.eqb (span_type el) "NOTE") &&
  alphanumeric (script_id el).

(** What a child shows, where the markup holds the values as they are:
    the label, which reads the type, a colon and a space, the text and then
    three full stops if [label_ellipsis] is set, and the id by which the
    script of the button finds its item.  Where a value is not held as it is
    the child is what the parser makes of the markup, and nothing is said of
    it. *)
Record Shown := {
  label_type : string;
  label_text : JsStr;
  label_ellipsis : bool;
  button_id : string;
}.

Definition label (el : NoteEntry) : option Shown :=
  if as_written el then
    Some {|
      label_type := span_type el;
      label_text := span_text el;
      label_ellipsis := span_ellipsis el;
      button_id := script_id el;
    |}
  else None.

(** The position that [getEventPos] computes. *)
Definition eventPos (e : Pointer num) (s : TextManager num) : Point num :=
  Pt ((clientX e - rect_left e) * (n_of_nat (t_width (canvas s)) / rect_width e))%js
     ((clientY e - rect_top e) * (n_of_nat (t_height (canvas s)) / rect_height e))%js.

(** Whether the box of the item behind a reference holds a position. *)
Definition holds (pos : Point num) (s : TextManager num) (ref : nat) : bool :=
  match objects s !! ref with
  | Some it => inBox pos it
  | None => false
  end.

(** The item on top at a position: the last of [items] whose box holds it. *)
Definition topmost (pos : Point num) (s : TextManager num) : option nat :=
  last (filter (fun ref => holds pos s ref = true) (items s)).

(** The id of the selected item. *)
Definition selected_id (s : TextManager num) : option string :=
  ref ← selectedItem s; Item.id <$> objects s !! ref.

(** The objects after [renderItems] has run over the items: each item has
    its box written back. *)
Definition rendered (cw : nat) (refs : list nat) (objs : list (Item.t num))
    : list (Item.t num) :=
  foldl (fun o ref => alter (boxed cw) ref o) objs refs.

(** The calls of the loop of [renderItems], and of [renderItems]. *)
Definition loop_calls (selected_id : option string) (cw : nat) (refs : list nat)
    (objs : list (Item.t num)) : list (TextCall num) :=
  refs ≫= (fun ref =>
    match objs !! ref with
    | Some it => item_calls selected_id cw it
    | None => []
    end).

Definition render_calls (s : TextManager num) : list (TextCall num) :=
  [TClearRect (t_width (canvas s)) (t_height (canvas s));
   TSet "textBaseline" (VStr "top");
   TSet "imageSmoothingEnabled" (VBool true);
   TSet "imageSmoothingQuality" (VStr "high")] ++
  loop_calls (selected_id s) (t_width (canvas s)) (items s) (objects s).

(** Whether every item can be painted. *)
Definition renderable (s : TextManager num) : bool :=
  forallb (fun ref => from_option paintable true (objects s !! ref)) (items s).

(** The manager after a [renderItems] that has painted every item. *)
Definition rendering (s : TextManager num) : TextManager num :=
  painted (render_calls s)
    (with_objects (rendered (t_width (canvas s)) (items s) (objects s)) s).

(** The children of the notes list for the items. *)
Definition entries (refs : list nat) (objs : list (Item.t num)) : list NoteEntry :=
  refs ≫= (fun ref =>
    match objs !! ref with
    | Some it => [entry_of ref it]
    | None => []
    end).

(** The manager after [refreshNotesList]. *)
Definition listing (s : TextManager num) : TextManager num :=
  with_notesList (entries (items s) (objects s)) s.

(** The manager after [showNotification]. *)
Definition notified (message type : string) (s : TextManager num) : TextManager num :=
  with_notifications (notifications s ++ [(message, type)]) s.

(** The manager after [handleCanvasPointerDown] has taken hold of an item. *)
Definition grabbed (pos : Point num) (ref : nat) (it : Item.t num) (s : TextManager num)
    : TextManager num :=
  with_selectedItem (Some ref)
    (with_dragOffset (Pt (x pos - Item.x it)%js (y pos - Item.y it)%js)
       (with_draggingItem (Some ref) s)).

(** The item that [handleCanvasPointerMove] makes of the dragged item:
    moved with the pointer, then kept on the text layer. *)
Definition dragged (pos : Point num) (s : TextManager num) (it : Item.t num) : Item.t num :=
  let to_x := (x pos - x (dragOffset s))%js in
  let to_y := (y pos - y (dragOffset s))%js in
  set_y (n_max n_zero (n_min (n_of_nat (t_height (canvas s)) - Item.h it)%js to_y))
    (set_x (n_max n_zero (n_min (n_of_nat (t_width (canvas s)) - Item.w it)%js to_x)) it).

(** The item that [addItem] creates. *)
Definition new_item (id : string) (fontSize_number : num) (textColor_value : string)
    (type : string) (text : JsStr) (pos_x pos_y : option num) (s : TextManager num)
    : Item.t num :=
  Item.mk id type text
    (if String.eqb textColor_value "" then "#fff" else textColor_value)
    (if n_truthy fontSize_number then fontSize_number else n_of_nat 36)
    (default (n_of_nat (t_width (canvas s)) / n_of_nat 2 - n_of_nat 40)%js pos_x)
    (default (n_of_nat (t_height (canvas s)) / n_of_nat 2)%js pos_y)
    n_zero n_zero.

(** The manager when [addItem] has pushed its item and is about to paint. *)
Definition added (id : string) (fontSize_number : num) (textColor_value : string)
    (type : string) (text : JsStr) (pos_x pos_y : option num) (s : TextManager num)
    : TextManager num :=
  with_items (items s ++ [length (objects s)])
    (with_objects
       (objects s ++ [new_item id fontSize_number textColor_value type text pos_x pos_y s])
       s).

(** The first of a list of references whose item has a given id: its
    position, for [findIndex], and the reference, for [find]. *)
Definition carries_id (s : TextManager num) (id : string) (ref : nat) : Prop :=
  Item.id <$> objects s !! ref = Some id.

#[global] Instance carries_id_dec s id ref : Decision (carries_id s id ref).
Proof. unfold carries_id. apply _. Defined.

Definition first_with_id (s : TextManager num) (id : string) (refs : list nat)
    : option (nat * nat) :=
  list_find (carries_id s id) refs.

(** The manager after [deleteItem] has found its item at [index]. *)
Definition deleted (index : nat) (s : TextManager num) : TextManager num :=
  notified "Item deleted" "info"
    (listing (rendering (with_selectedItem None (with_items (delete index (items s)) s)))).

(** Every reference that the manager holds points to an object, and no
    object is in [items] twice. *)
Definition well_formed (s : TextManager num) : Prop :=
  Forall (fun ref => ref < length (objects s)) (items s) /\
  NoDup (items s) /\
  (forall ref, selectedItem s = Some ref -> ref < length (objects s)) /\
  (forall ref, draggingItem s = Some ref -> ref < length (objects s)).

(** The selected item is one of the items, and the notes list shows the
    items, in their order and with their present texts. *)
Definition in_step (s : TextManager num) : Prop :=
  (forall ref, selectedItem s = Some ref -> ref ∈ items s) /\
  Forall2 (fun el ref => exists it, objects s !! ref = Some it /\ el = entry_of ref it)
    (notesList s) (items s).

(** Every item carries the box that the text layer shows for it. *)
Definition boxes_current (s : TextManager num) : Prop :=
  Forall (fun ref => exists it, objects s !! ref = Some it /\
            Item.w it = box_w (t_width (canvas s)) it /\
            Item.h it = box_h it)
    (items s).

(** Every item has a text, and no white space at either end of it. *)
Definition texts_trimmed (s : TextManager num) : Prop :=
  Forall (fun ref => exists it, objects s !! ref = Some it /\
            Item.text it <> [] /\ trim (Item.text it) = Item.text it)
    (items s).

(** Two item objects that differ in their box at most. *)
Definition same_but_box (a b : Item.t num) : Prop :=
  Item.id a = Item.id b /\ Item.type a = Item.type b /\ Item.text a = Item.text b /\
  Item.color a = Item.color b /\ Item.size a = Item.size b /\
  Item.x a = Item.x b /\ Item.y a = Item.y b.

(** [s'] is [s] but for the boxes of its objects and for further calls on
    the context of the text layer. *)
Definition repainted (s s' : TextManager num) : Prop :=
  Forall2 same_but_box (objects s) (objects s') /\
  items s' = items s /\ selectedItem s' = selectedItem s /\
  draggingItem s' = draggingItem s /\ dragOffset s' = dragOffset s /\
  notesList s' = notesList s /\ textInput s' = textInput s /\
  notifications s' = notifications s /\
  t_width (canvas s') = t_width (canvas s) /\ t_height (canvas s') = t_height (canvas s) /\
  exists calls, t_calls (canvas s') = t_calls (canvas s) ++ calls.

(** A computation keeps a property of the manager when the property holds
    after it, whether it returns or throws, if it held before. *)
Definition keeps {A} (P : TextManager num -> Prop) (m : M num A) : Prop :=
  forall s, P s -> P (St.after (m s)).

(** The events at which a listener can throw. *)
Definition may_throw (e : Event num) : bool :=
  match e with
  | AddNoteClick _ _ _ | PointerMove _ => true
  | _ => false
  end.

(** What holds of a [TextManager] between two events as long as no listener
    has thrown. *)
Definition steady (s : TextManager num) : Prop :=
  well_formed s /\ in_step s /\ boxes_current s /\ texts_trimmed s /\
  renderable s = true.

End Readings.

End Text.

(* ================================================================== *)
(** ** Sample runs of the text layer at binary64 *)
(* ================================================================== *)

Module Notes.

#[local] Open Scope float_scope.

(** A font in which every code unit is ten pixels wide, whatever the size. *)
Definition ten_wide (size : float) (text : JsStr) : float :=
  F64.of_nat (10 * length text).

(** "hi", and " ok " with a space at either end. *)
Definition hi : JsStr := [104; 105]%N.
Definition ok_in_spaces : JsStr := [32; 111; 107; 32]%N.

(** A text layer of 300 x 150 with "hi" in the text field; the text is
    added, then " ok " is typed and added as a note, the font size field
    holding 0 and the colour field nothing. *)
Definition clicks : list (Text.Event float) :=
  [Text.AddTextClick "a1" 20 "#ffffff";
   Text.TextInput ok_in_spaces;
   Text.AddNoteClick "a2" 0 ""].

Definition board : Text.TextManager float :=
  Text.run ten_wide clicks (Text.constructor 300 150 hi).

(** A click on "add note" with a font size field that holds "Infinity",
    and the manager that it leaves when it is the first event. *)
Definition endless : Text.Event float := Text.AddNoteClick "a1" infinity "".

Definition torn : Text.TextManager float :=
  St.after (Text.listener ten_wide endless (Text.constructor 300 150 hi)).

(** A pointer at (115, 80) of a text layer shown at its own size, and one
    far off to the right and below. *)
Definition tap : Text.Pointer float := {|
  Text.clientX := 115; Text.clientY := 80;
  Text.rect_left := 0; Text.rect_top := 0;
  Text.rect_width := 300; Text.rect_height := 150;
|}.

Definition pull : Text.Pointer float := {|
  Text.clientX := 900; Text.clientY := 700;
  Text.rect_left := 0; Text.rect_top := 0;
  Text.rect_width := 300; Text.rect_height := 150;
|}.

(** The board with the pointer down on the note. *)
Definition held : Text.TextManager float :=
  Text.dispatch ten_wide (Text.PointerDown tap) board.

End Notes.

(* ================================================================== *)
(** ** [class ExportManager] *)
(* ================================================================== *)

Module ExportManager.

(** An exception of the browser, with the two properties that
    [copyToClipboard] reads. *)
Record DomError := {
  name : string;
  message : string;
}.

(** What the canvas throws when [drawImage] is given a canvas without
    pixels; the wording of the message is the browser's. *)
Definition InvalidStateError (message : string) : DomError :=
  {| name := "InvalidStateError"; message := message |}.

(** What the two methods read of [#video].  [draw_error] is what
    [drawImage] does with the element: [None] when it returns. *)
Record Video := {
  paused : bool;
  readyState : nat;
  src : string;
  draw_error : option DomError;
}.

(** What the two methods read of the page: the sizes of [#draw] and
    [#textLayer], [app.cameraManager.isCameraActive], [#video], the state of
    the checkbox [#mirror], and the message of the browser for a canvas
    without pixels. *)
Record Page := {
  canvas_width : nat;
  canvas_height : nat;
  textCanvas_width : nat;
  textCanvas_height : nat;
  isCameraActive : bool;
  video : Video;
  mirror_checked : bool;
  no_pixels_message : string;
}.

Inductive Layer := InkLayer | TextLayer.

Inductive FillStyle :=
| Color (c : string)
| Gradient (x0 y0 x1 y1 : nat) (stops : list (nat * string)).

(** The calls on the context of the temporary canvas. *)
Inductive Call :=
| SetImageSmoothingEnabled (v : bool)
| SetImageSmoothingQuality (v : string)
| Save
| Translate (x y : Z)
| Scale (x y : Z)
| Restore
| DrawVideo (dx dy dw dh : nat)
| SetFillStyle (v : FillStyle)
| FillRect (x y w h : nat)
| DrawLayer (l : Layer) (dx dy : nat).

(** Code that draws on the temporary canvas: from the calls made so far to
    the calls made then, with a value or an exception. *)
Definition Draw (A : Type) : Type := list Call -> list Call * (A + DomError).

Definition ret {A} (a : A) : Draw A := fun log => (log, inl a).

Definition bind {A B} (m : Draw A) (k : A -> Draw B) : Draw B := fun log =>
  match m log with
  | (log', inl a) => k a log'
  | (log', inr e) => (log', inr e)
  end.

Definition throw {A} (e : DomError) : Draw A := fun log => (log, inr e).

Definition call (k : Call) : Draw unit := fun log => (log ++ [k], inl tt).

(** [try { body } catch (e) { handler }] *)
Definition try_catch {A} (body : Draw A) (handler : DomError -> Draw A) : Draw A := fun log =>
  match body log with
  | (log', inl a) => (log', inl a)
  | (log', inr e) => handler e log'
  end.

#[local] Notation "'do!' m 'in' k" := (bind m (fun _ => k))
  (at level 10, m at level 100, k at level 200).

(** [tctx.drawImage(this.video, 0, 0, w, h)] *)
Definition drawVideo (p : Page) (w h : nat) : Draw unit :=
  match draw_error (video p) with
  | None => call (DrawVideo 0 0 w h)
  | Some e => throw e
  end.

(** [tctx.drawImage(canvas, 0, 0)] for one of the two layers, of the given
    size. *)
Definition drawLayer (p : Page) (l : Layer) (width height : nat) : Draw unit :=
  if (width =? 0)%nat || (height =? 0)%nat
  then throw (InvalidStateError (no_pixels_message p))
  else call (DrawLayer l 0 0).

(** The statements of [exportImage] from the first use of [tctx] to the
    last. *)
Definition exportImage_draws (p : Page) : Draw unit :=
  let w := canvas_width p in
  let h := canvas_height p in
  do! call (SetImageSmoothingEnabled true) in
  do! call (SetImageSmoothingQuality "high") in
  do! (if isCameraActive p ||
          (negb (paused (video p)) && (2 <=? readyState (video p))%nat) then
         if mirror_checked p then
           do! call Save in
           do! call (Translate (Z.of_nat w) 0) in
           do! call (Scale (-1) 1) in
           do! drawVideo p w h in
           call Restore
         else drawVideo p w h
       else if negb (String.eqb (src (video p)) "") then
         try_catch (drawVideo p w h) (fun _ =>
           do! call (SetFillStyle (Color "#1a1a1a")) in
           call (FillRect 0 0 w h))
       else
         do! call (SetFillStyle (Gradient 0 0 w h [(0, "#1a1a1a"); (1, "#2d2d2d")])) in
         call (FillRect 0 0 w h)) in
  do! drawLayer p InkLayer (canvas_width p) (canvas_height p) in
  drawLayer p TextLayer (textCanvas_width p) (textCanvas_height p).

(** What [exportImage] has done when it settles: the calls on the
    temporary canvas, whether the promise is rejected and with what, whether
    the preview image was given its source, whether the download was
    started, and the notification. *)
Record Exported := {
  e_calls : list Call;
  e_rejected : option DomError;
  e_preview : bool;
  e_download : bool;
  e_notification : option (string * string);
}.

(** [exportImage()].  The function awaits nothing: it runs to its end when
    called, and an exception in it rejects the promise that it returns.
    The temporary canvas is taken to stay origin-clean, as it does with a
    camera or an uploaded file, so that it can be read. *)
Definition exportImage (p : Page) : Exported :=
  match exportImage_draws p [] with
  | (calls, inl _) => {|
      e_calls := calls;
      e_rejected := None;
      e_preview := true;
      e_download := true;
      e_notification := Some ("Image exported successfully", "success");
    |}
  | (calls, inr e) => {|
      e_calls := calls;
      e_rejected := Some e;
      e_preview := false;
      e_download := false;
      e_notification := None;
    |}
  end.

(** The statements of [copyToClipboard] from the first use of [tctx] to the
    last. *)
Definition copyToClipboard_draws (p : Page) : Draw unit :=
  let w := canvas_width p in
  let h := canvas_height p in
  do! call (SetImageSmoothingEnabled true) in
  do! call (SetImageSmoothingQuality "high") in
  do! (if isCameraActive p ||
          (negb (paused (video p)) && (2 <=? readyState (video p))%nat) then
         if mirror_checked p then
           do! call Save in
           do! call (Translate (Z.of_nat w) 0) in
           do! call (Scale (-1) 1) in
           do! drawVideo p w h in
           call Restore
         else drawVideo p w h
       else if negb (String.eqb (src (video p)) "") then
         try_catch (drawVideo p w h) (fun _ =>
           do! call (SetFillStyle (Color "#1a1a1a")) in
           call (FillRect 0 0 w h))
       else
         do! call (SetFillStyle (Gradient 0 0 w h [(0, "#1a1a1a"); (1, "#2d2d2d")])) in
         call (FillRect 0 0 w h)) in
  do! drawLayer p InkLayer (canvas_width p) (canvas_height p) in
  drawLayer p TextLayer (textCanvas_width p) (textCanvas_height p).

(** What [copyToClipboard] has done when it settles: the calls on the
    temporary canvas, whether the image was written to the clipboard, and
    the notification. *)
Record Copied := {
  c_calls : list Call;
  c_written : bool;
  c_notification : string * string;
}.

(** [err && err.message ? err.message : err], as the string that it is
    appended as: an error without a message shows as its name. *)
Definition shown (err : DomError) : string :=
  if String.eqb (message err) "" then name err else message err.

(** [copyToClipboard()].  [write_error] is what becomes of making the blob
    and of [navigator.clipboard.write]: [None] when both are fulfilled, and
    else the error thrown or the reason of the rejection. *)
Definition copyToClipboard (p : Page) (write_error : option DomError) : Copied :=
  match copyToClipboard_draws p [] with
  | (calls, inl _) =>
      match write_error with
      | None => {|
          c_calls := calls;
          c_written := true;
          c_notification := ("Copied to clipboard!", "success");
        |}
      | Some err => {|
          c_calls := calls;
          c_written := false;
          c_notification := (String.append "Copy failed: " (shown err), "error");
        |}
      end
  | (calls, inr err) => {|
      c_calls := calls;
      c_written := false;
      c_notification := (String.append "Copy failed: " (shown err), "error");
    |}
  end.

(** *** The transform under which a call draws *)

(** The transforms that the two methods set up keep the axes: [x] goes to
    [m_a * x + m_e] and [y] to [m_d * y + m_f]. *)
Record Matrix := {
  m_a : Z;
  m_d : Z;
  m_e : Z;
  m_f : Z;
}.

Definition identity : Matrix := {| m_a := 1; m_d := 1; m_e := 0; m_f := 0 |}.

(** The reflection of a canvas [w] pixels wide about its vertical axis. *)
Definition flipped (w : nat) : Matrix :=
  {| m_a := -1; m_d := 1; m_e := Z.of_nat w; m_f := 0 |}.

Definition translated (tx ty : Z) (m : Matrix) : Matrix :=
  {| m_a := m_a m; m_d := m_d m; m_e := m_e m + m_a m * tx; m_f := m_f m + m_d m * ty |}.

Definition scaled (sx sy : Z) (m : Matrix) : Matrix :=
  {| m_a := m_a m * sx; m_d := m_d m * sy; m_e := m_e m; m_f := m_f m |}.

(** The calls that draw, each with the transform in force when it is made,
    and the stack of saved transforms at the end.  [restore] on an empty
    stack does nothing. *)
Fixpoint drawn (calls : list Call) (ctm : Matrix) (saved : list Matrix)
    : list (Call * Matrix) * list Matrix :=
  match calls with
  | [] => ([], saved)
  | Save :: rest => drawn rest ctm (ctm :: saved)
  | Restore :: rest =>
      match saved with
      | m :: saved' => drawn rest m saved'
      | [] => drawn rest ctm []
      end
  | Translate tx ty :: rest => drawn rest (translated tx ty ctm) saved
  | Scale sx sy :: rest => drawn rest (scaled sx sy ctm) saved
  | (DrawVideo _ _ _ _ as k) :: rest
  | (FillRect _ _ _ _ as k) :: rest
  | (DrawLayer _ _ _ as k) :: rest =>
      let (ds, saved') := drawn rest ctm saved in ((k, ctm) :: ds, saved')
  | _ :: rest => drawn rest ctm saved
  end.

(** What is drawn below the two layers, as the branches of the methods
    choose it. *)
Definition live (p : Page) : bool :=
  isCameraActive p || (negb (paused (video p)) && (2 <=? readyState (video p))%nat).

Definition background (p : Page) : list (Call * Matrix) :=
  let w := canvas_width p in
  let h := canvas_height p in
  if live p then
    [(DrawVideo 0 0 w h, if mirror_checked p then flipped w else identity)]
  else if negb (String.eqb (src (video p)) "") then
    match draw_error (video p) with
    | None => [(DrawVideo 0 0 w h, identity)]
    | Some _ => [(FillRect 0 0 w h, identity)]
    end
  else [(FillRect 0 0 w h, identity)].

(** Whether the drawing itself throws: the video cannot be drawn in the
    branch that does not catch, or a layer has no pixels. *)
Definition draw_fails (p : Page) : bool :=
  (live p && bool_decide (draw_error (video p) <> None)) ||
  (canvas_width p =? 0)%nat || (canvas_height p =? 0)%nat ||
  (textCanvas_width p =? 0)%nat || (textCanvas_height p =? 0)%nat.

End ExportManager.

(** A page for [ExportManager]: layers of 640 x 480, the camera on and
    shown mirrored. *)
Module Pages.

Definition selfie : ExportManager.Page := {|
  ExportManager.canvas_width := 640;
  ExportManager.canvas_height := 480;
  ExportManager.textCanvas_width := 640;
  ExportManager.textCanvas_height := 480;
  ExportManager.isCameraActive := true;
  ExportManager.video := {|
    ExportManager.paused := false;
    ExportManager.readyState := 4;
    ExportManager.src := "";
    ExportManager.draw_error := None;
  |};
  ExportManager.mirror_checked := true;
  ExportManager.no_pixels_message := "The source width is 0.";
|}.

End Pages.

(* ================================================================== *)
(** ** [class CameraManager] and the mirror checkbox *)
(* ================================================================== *)

Module Camera.

(** The texts that [CameraManager] passes to [app.updateStatus]:
    "Requesting camera access...", "Camera active", followed by a dash and
    "Ready to draw", "Camera error: " followed by the message of the error,
    "Using uploaded image as background", "Using uploaded video" and
    "Drawing board active". *)
Inductive Status :=
| Requesting
| Active
| Failed (message : string)
| UploadedImage
| UploadedVideo
| BoardActive.

(** A [CameraManager] with what it assigns in the page.  [camera] tells
    whether [this.camera] holds a [Camera]; a style property is [None] until
    the program assigns it; [video_src] is the last URL given to the video;
    [fallback_error] is the message that [fallbackMsg] shows; [status] is
    the last text that this manager has passed to [app.updateStatus]. *)
Record CameraManager := {
  isCameraActive : bool;
  camera : bool;
  video_transform : option string;
  video_display : option string;
  video_src : option string;
  fallbackMsg_display : option string;
  fallback_error : option string;
  status : option Status;
}.

(** The constructor of [DrawingManager], under a name that this module
    leaves free. *)
Definition DrawingManager_constructor {num : Type} `{JsNumber num}
    (canvas_w canvas_h overlay_w overlay_h : nat) : DrawingManager num :=
  constructor canvas_w canvas_h overlay_w overlay_h.

(** [constructor(app)] *)
Definition constructor : CameraManager := {|
  isCameraActive := false;
  camera := false;
  video_transform := None;
  video_display := None;
  video_src := None;
  fallbackMsg_display := None;
  fallback_error := None;
  status := None;
|}.

Definition with_isCameraActive (v : bool) (c : CameraManager) : CameraManager := {|
  isCameraActive := v; camera := camera c; video_transform := video_transform c;
  video_display := video_display c; video_src := video_src c;
  fallbackMsg_display := fallbackMsg_display c; fallback_error := fallback_error c;
  status := status c;
|}.

Definition with_camera (v : bool) (c : CameraManager) : CameraManager := {|
  isCameraActive := isCameraActive c; camera := v; video_transform := video_transform c;
  video_display := video_display c; video_src := video_src c;
  fallbackMsg_display := fallbackMsg_display c; fallback_error := fallback_error c;
  status := status c;
|}.

Definition with_video_transform (v : string) (c : CameraManager) : CameraManager := {|
  isCameraActive := isCameraActive c; camera := camera c; video_transform := Some v;
  video_display := video_display c; video_src := video_src c;
  fallbackMsg_display := fallbackMsg_display c; fallback_error := fallback_error c;
  status := status c;
|}.

Definition with_video_display (v : string) (c : CameraManager) : CameraManager := {|
  isCameraActive := isCameraActive c; camera := camera c; video_transform := video_transform c;
  video_display := Some v; video_src := video_src c;
  fallbackMsg_display := fallbackMsg_display c; fallback_error := fallback_error c;
  status := status c;
|}.

Definition with_video_src (v : string) (c : CameraManager) : CameraManager := {|
  isCameraActive := isCameraActive c; camera := camera c; video_transform := video_transform c;
  video_display := video_display c; video_src := Some v;
  fallbackMsg_display := fallbackMsg_display c; fallback_error := fallback_error c;
  status := status c;
|}.

Definition with_fallbackMsg_display (v : string) (c : CameraManager) : CameraManager := {|
  isCameraActive := isCameraActive c; camera := camera c; video_transform := video_transform c;
  video_display := video_display c; video_src := video_src c;
  fallbackMsg_display := Some v; fallback_error := fallback_error c;
  status := status c;
|}.

Definition with_fallback_error (v : string) (c : CameraManager) : CameraManager := {|
  isCameraActive := isCameraActive c; camera := camera c; video_transform := video_transform c;
  video_display := video_display c; video_src := video_src c;
  fallbackMsg_display := fallbackMsg_display c; fallback_error := Some v;
  status := status c;
|}.

Definition updateStatus (v : Status) (c : CameraManager) : CameraManager := {|
  isCameraActive := isCameraActive c; camera := camera c; video_transform := video_transform c;
  video_display := video_display c; video_src := video_src c;
  fallbackMsg_display := fallbackMsg_display c; fallback_error := fallback_error c;
  status := Some v;
|}.

Section Model.
Context {num : Type} `{JsNumber num} {colors : CssColors}.
Variable paint : Rasterizer num.
Variable hypot : num -> num -> num.

(** The part of the page that [CameraManager] works on: itself, the
    [DrawingManager] of the app, whether [#mirror] is checked, and the
    number of [change] listeners that [startCamera] has put on [#mirror]. *)
Record App := {
  cameraManager : CameraManager;
  drawingManager : DrawingManager num;
  mirror_checked : bool;
  mirror_listeners : nat;
}.

Definition on_camera (f : CameraManager -> CameraManager) (a : App) : App := {|
  cameraManager := f (cameraManager a);
  drawingManager := drawingManager a;
  mirror_checked := mirror_checked a;
  mirror_listeners := mirror_listeners a;
|}.

Definition on_drawing (f : DrawingManager num -> DrawingManager num) (a : App) : App := {|
  cameraManager := cameraManager a;
  drawingManager := f (drawingManager a);
  mirror_checked := mirror_checked a;
  mirror_listeners := mirror_listeners a;
|}.

(** The two managers when [App]'s constructor has made them and their
    [init] has run, but for the call of [startCamera] in
    [CameraManager.init], which is the first turn below.  The sizes are
    those of the two canvases in the page and of [#stage]; [checked] is the
    state of [#mirror] in the page. *)
Definition app (canvas_w canvas_h overlay_w overlay_h rect_w rect_h : nat) (checked : bool)
    : App := {|
  cameraManager := constructor;
  drawingManager :=
    final (init rect_w rect_h
             (DrawingManager_constructor canvas_w canvas_h overlay_w overlay_h));
  mirror_checked := checked;
  mirror_listeners := 0;
|}.

(** [updateMirrorEffect(isMirrored)] *)
Definition updateMirrorEffect (isMirrored : bool) (a : App) : App :=
  let a := on_camera (with_video_transform (if isMirrored then "scaleX(-1)" else "none")) a in
  on_drawing (fun s => final (setMirror isMirrored s)) a.

(** [showFallbackMessage()] and [hideFallbackMessage()] *)
Definition showFallbackMessage (a : App) : App :=
  on_camera (with_fallbackMsg_display "block") a.

Definition hideFallbackMessage (a : App) : App :=
  on_camera (with_fallbackMsg_display "none") a.

(** [handleCameraError(error)]; [message] is [error.message]. *)
Definition handleCameraError (message : string) (a : App) : App :=
  let a := on_camera (with_isCameraActive false) a in
  let a := on_camera (updateStatus (Failed message)) a in
  let a := showFallbackMessage a in
  let a := on_camera (with_video_display "none") a in
  on_camera (with_fallback_error message) a.

(** [startCamera()] runs in up to three turns, one up to each [await] and
    one after the second.  The first turn, when it is called: with a camera
    to stop it waits for [camera.stop()]; else it goes on to ask for a new
    camera and waits for [camera.start()]. *)
Definition request (a : App) : App :=
  let a := on_camera (updateStatus Requesting) a in
  on_camera (with_camera true) a.

Definition startCamera (a : App) : App :=
  if camera (cameraManager a) then a else request a.

(** The turn after [camera.stop()] is fulfilled. *)
Definition startCamera_stopped (a : App) : App :=
  request (on_camera (with_camera false) a).

(** The turn after [camera.start()] is fulfilled; it ends by putting one
    more [change] listener on [#mirror]. *)
Definition startCamera_started (a : App) : App :=
  let a := on_camera (with_isCameraActive true) a in
  let a := on_camera (updateStatus Active) a in
  let a := hideFallbackMessage a in
  let a := updateMirrorEffect (mirror_checked a) a in
  {| cameraManager := cameraManager a;
     drawingManager := drawingManager a;
     mirror_checked := mirror_checked a;
     mirror_listeners := S (mirror_listeners a) |}.

(** What [handleUpload] reads of [event.target.files[0]]: its type and the
    URL made for it. *)
Record File := {
  type : string;
  url : string;
}.

(** [handleUpload(event)]; [file] is [None] when no file was chosen. *)
Definition handleUpload (file : option File) (a : App) : App :=
  match file with
  | None => a
  | Some file =>
      let a :=
        if String.prefix "image/" (type file) then
          let a := on_camera (with_video_src (url file)) a in
          let a := on_camera (with_isCameraActive false) a in
          on_camera (updateStatus UploadedImage) a
        else if String.prefix "video/" (type file) then
          let a := on_camera (with_video_src (url file)) a in
          let a := on_camera (with_isCameraActive false) a in
          on_camera (updateStatus UploadedVideo) a
        else a in
      on_camera (with_video_display "block") a
  end.

(** [useDrawingBoard()] *)
Definition useDrawingBoard (a : App) : App :=
  let a := on_camera (with_isCameraActive false) a in
  let a := on_camera (with_video_display "none") a in
  on_camera (updateStatus BoardActive) a.

(** The events of the drawing manager that reach it by its own listeners;
    the other two come through [CameraManager] and the hand tracker. *)
Definition plain (e : Event num) : bool :=
  match e with
  | MirrorChange _ | HandsResults _ _ => false
  | _ => true
  end.

(** The turns of the page that touch this state: a call of [startCamera],
    by [init] or by a click on the retry button; the turns that follow its
    two [await]s, and the failure of either; a change of [#mirror] by the
    user; a choice in [#uploadFile]; a click on [#useBoard]; the results of
    the hand tracker for a frame; and any other event of the drawing
    manager. *)
Inductive Turn :=
| StartCamera
| StopFulfilled
| StartFulfilled
| Rejected (message : string)
| MirrorToggled (checked : bool)
| UploadChange (file : option File)
| UseBoardClick
| Results (multiHandLandmarks : option (list (list (Point num))))
| Other (e : Event num).

(** What a turn does.  A change of [#mirror] runs every listener that
    [startCamera] has put on it, each with the new state of the checkbox;
    the results of the hand tracker come with the state that the checkbox
    has then. *)
Definition turn (t : Turn) (a : App) : App :=
  match t with
  | StartCamera => startCamera a
  | StopFulfilled => startCamera_stopped a
  | StartFulfilled => startCamera_started a
  | Rejected message => handleCameraError message a
  | MirrorToggled checked =>
      let a := {|
        cameraManager := cameraManager a;
        drawingManager := drawingManager a;
        mirror_checked := checked;
        mirror_listeners := mirror_listeners a;
      |} in
      Nat.iter (mirror_listeners a) (updateMirrorEffect checked) a
  | UploadChange file => handleUpload file a
  | UseBoardClick => useDrawingBoard a
  | Results multiHandLandmarks =>
      on_drawing (dispatch paint hypot (HandsResults (mirror_checked a) multiHandLandmarks)) a
  | Other e => if plain e then on_drawing (dispatch paint hypot e) a else a
  end.

Definition turns (ts : list Turn) (a : App) : App :=
  fold_left (fun a t => turn t a) ts a.

(** The checkbox with its new state, before its listeners run. *)
Definition toggled (checked : bool) (a : App) : App := {|
  cameraManager := cameraManager a;
  drawingManager := drawingManager a;
  mirror_checked := checked;
  mirror_listeners := mirror_listeners a;
|}.

(** The state of the wiring: with a listener on the checkbox, the flag of
    the drawing manager and the transform of the video are those of the
    checkbox; without one, they are as the constructors left them. *)
Definition wired (a : App) : Prop :=
  if (0 <? mirror_listeners a)%nat then
    isMirrored (drawingManager a) = mirror_checked a /\
    video_transform (cameraManager a)
      = Some (if mirror_checked a then "scaleX(-1)" else "none")
  else
    isMirrored (drawingManager a) = false /\ video_transform (cameraManager a) = None.

(** Whether the camera has started in some turn. *)
Definition started (ts : list Turn) : bool :=
  existsb (fun t => match t with StartFulfilled => true | _ => false end) ts.

(** Whether a turn shows the video: a file has been chosen. *)
Definition shows_video (t : Turn) : bool :=
  match t with
  | UploadChange (Some _) => true
  | _ => false
  end.

End Model.

Arguments App num : clear implicits.
Arguments Turn num : clear implicits.

End Camera.

(** A page whose canvases are a single pixel, with the mirror checkbox
    ticked, at binary64.  The camera fails, the user asks again and it
    starts; and a frame with a released hand whose index tip is at
    x = 0.3. *)
Module Studio.

Definition opened : Camera.App float := Camera.app 1 1 1 1 1 1 true.

Definition retried : list (Camera.Turn float) :=
  [Camera.StartCamera; Camera.Rejected "Permission denied";
   Camera.StartCamera; Camera.StopFulfilled; Camera.StartFulfilled].

End Studio.

(* ================================================================== *)
(** ** Facts about rasters *)
(* ================================================================== *)

Lemma Raster_width_build w h f : Raster.width (Raster.build w h f) = w.
Proof. reflexivity. Qed.

Lemma Raster_height_build w h f : Raster.height (Raster.build w h f) = h.
Proof. reflexivity. Qed.

Lemma Raster_get_build w h f i j :
  i < w -> j < h -> Raster.get (Raster.build w h f) i j = f i j.
Proof.
  intros Hi Hj. unfold Raster.get, Raster.build. cbn [Raster.width Raster.height Raster.data].
  destruct (Nat.ltb_spec i w); [|lia]. destruct (Nat.ltb_spec j h); [|lia].
  cbn [andb].
  assert (Hk : j * w + i < w * h) by nia.
  rewrite (nth_indep _ transparent (f (0 mod w) (0 / w)))
    by (rewrite length_map, length_seq; exact Hk).
  rewrite (map_nth (fun k => f (k mod w) (k / w))).
  rewrite seq_nth by exact Hk. cbn [Nat.add].
  rewrite (Nat.add_comm (j * w) i).
  rewrite Nat.Div0.mod_add, Nat.div_add by lia.
  rewrite Nat.mod_small, Nat.div_small by lia. reflexivity.
Qed.

Lemma Raster_get_outside r i j :
  ~ (i < Raster.width r /\ j < Raster.height r) -> Raster.get r i j = transparent.
Proof.
  intros Hout. unfold Raster.get.
  destruct (Nat.ltb_spec i (Raster.width r)); [|reflexivity].
  destruct (Nat.ltb_spec j (Raster.height r)); [|reflexivity].
  exfalso. apply Hout. split; assumption.
Qed.

(* ================================================================== *)
(** ** The frame transition *)
(* ================================================================== *)

(** Projections of a manager after field updates. *)
Ltac dm_simpl :=
  cbn [canvas overlay lastPoint drawing undoStack points handSmoothing
       currentColor currentSize isMirrored
       with_canvas with_overlay with_lastPoint with_drawing with_undoStack
       with_points with_handSmoothing with_currentColor with_currentSize
       with_isMirrored final].

(** The two checked setters of [drawLine], case by case. *)
Ltac by_setters :=
  unfold line_drawn, line_aborted, set_strokeStyle, set_lineWidth;
  repeat match goal with
  | |- context [if is_color ?v then _ else _] => destruct (is_color v)
  | |- context [if is_width ?v then _ else _] => destruct (is_width v)
  end.

Section Facts.
Context {num : Type} `{JsNumber num} {colors : CssColors}.
Variable paint : Rasterizer num.
Variable hypot : num -> num -> num.

Lemma smoothPoint_eq (p : Point num) (s : DrawingManager num) :
  smoothPoint p s =
  Ok (mean (window_push (handSmoothing s) p))
     (with_handSmoothing (window_push (handSmoothing s) p) s).
Proof.
  unfold smoothPoint, window_push, bind, modify, gets, ret.
  cbn [handSmoothing with_handSmoothing].
  destruct (smoothingWindowSize <? length (handSmoothing s ++ [p]))%nat; reflexivity.
Qed.

Lemma drawLine_eq (from to : Point num) color size (s : DrawingManager num) :
  drawLine paint (Some from) to color size s =
  Ok tt (with_canvas (line_drawn paint from to color size (canvas s)) s).
Proof.
  unfold drawLine, line_drawn, ctx, bind, modify, deref, ret.
  cbn [canvas with_canvas]. reflexivity.
Qed.

Lemma drawLine_null_eq (to : Point num) color size (s : DrawingManager num) :
  drawLine paint None to color size s =
  Throw TypeError (with_canvas (line_aborted color size (canvas s)) s).
Proof.
  unfold drawLine, line_aborted, ctx, bind, modify, deref, throw.
  cbn [canvas with_canvas]. reflexivity.
Qed.

Lemma dispatch_frame chk lms t i w (s : DrawingManager num) :
  lms !! 4 = Some t -> lms !! 8 = Some i -> lms !! 0 = Some w ->
  dispatch paint hypot (frame chk lms) s = frame_end paint hypot chk lms t i w s.
Proof.
  intros H4 H8 H0.
  unfold dispatch, frame, listener, onResults.
  change (default [] (Some [lms])) with [lms].
  cbn [for_of]. unfold onResults_hand.
  rewrite H4, H8, H0.
  unfold frame_end, pinched.
  unfold overlayCtx, ctx_getImageData, bind, deref, gets, modify, ret.
  cbn [isMirrored with_overlay canvas overlay handSmoothing].
  rewrite smoothPoint_eq.
  cbn [isMirrored with_overlay canvas overlay handSmoothing with_handSmoothing drawing lastPoint].
  fold (mapped chk (isMirrored s) (width (canvas s)) (height (canvas s)) i).
  destruct (n_ltb _ _); dm_simpl.
  - destruct (drawing s); cbn [negb]; dm_simpl.
    + destruct (lastPoint s) as [from|].
      * rewrite drawLine_eq. reflexivity.
      * rewrite drawLine_null_eq. reflexivity.
    + destruct (getImageData _ _ _); reflexivity.
  - reflexivity.
Qed.

Lemma classify_inv lms b :
  classify hypot lms = Some b ->
  exists t i w, lms !! 4 = Some t /\ lms !! 8 = Some i /\ lms !! 0 = Some w /\
    pinched hypot t i w = b.
Proof.
  unfold classify. intros Hc.
  destruct (lms !! 4) as [t|]; [|discriminate].
  destruct (lms !! 8) as [i|]; [|discriminate].
  destruct (lms !! 0) as [w|]; [|discriminate].
  exists t, i, w. repeat split; congruence.
Qed.

Lemma run_app (e1 e2 : list (Event num)) (s : DrawingManager num) :
  run paint hypot (e1 ++ e2) s = run paint hypot e2 (run paint hypot e1 s).
Proof. unfold run. apply fold_left_app. Qed.

Lemma run_cons (e : Event num) (es : list (Event num)) (s : DrawingManager num) :
  run paint hypot (e :: es) s = run paint hypot es (dispatch paint hypot e s).
Proof. reflexivity. Qed.

Lemma getImageData_nonempty (c : Canvas num) :
  0 < width c -> 0 < height c ->
  getImageData (width c) (height c) c =
  inr (Raster.build (width c) (height c) (Raster.get (bitmap c))).
Proof.
  intros Hw Hh. unfold getImageData.
  destruct (Nat.eqb_spec (width c) 0); [lia|].
  destruct (Nat.eqb_spec (height c) 0); [lia|]. reflexivity.
Qed.

(** A frame that continues a stroke, one that starts a stroke, and one
    that ends it or hovers. *)
Lemma frame_continue chk lms (s : DrawingManager num) from :
  classify hypot lms = Some true -> drawing s = true -> lastPoint s = Some from ->
  exists i, lms !! 8 = Some i /\
  let raw := mapped chk (isMirrored s) (width (canvas s)) (height (canvas s)) i in
  let point := mean (window_push (handSmoothing s) raw) in
  let s' := dispatch paint hypot (frame chk lms) s in
  drawing s' = true /\ lastPoint s' = Some point /\
  undoStack s' = undoStack s /\
  handSmoothing s' = window_push (handSmoothing s) raw /\
  canvas s' = line_drawn paint from point (currentColor s) (currentSize s) (canvas s) /\
  isMirrored s' = isMirrored s /\ currentColor s' = currentColor s /\
  currentSize s' = currentSize s.
Proof.
  intros (t & i & w & H4 & H8 & H0 & Hp)%classify_inv Hd Hl.
  exists i. split; [exact H8|]. intros raw point s'. subst s'.
  rewrite (dispatch_frame chk lms t i w s H4 H8 H0).
  unfold frame_end. rewrite Hp, Hd, Hl. dm_simpl. repeat split; try reflexivity; assumption.
Qed.

Lemma frame_start chk lms (s : DrawingManager num) :
  classify hypot lms = Some true -> drawing s = false ->
  0 < width (canvas s) -> 0 < height (canvas s) ->
  exists i, lms !! 8 = Some i /\
  let raw := mapped chk (isMirrored s) (width (canvas s)) (height (canvas s)) i in
  let point := mean (window_push (handSmoothing s) raw) in
  let s' := dispatch paint hypot (frame chk lms) s in
  drawing s' = true /\ lastPoint s' = Some point /\ points s' = [point] /\
  undoStack s' = undoStack s ++
    [Raster.build (width (canvas s)) (height (canvas s)) (Raster.get (bitmap (canvas s)))] /\
  handSmoothing s' = window_push (handSmoothing s) raw /\
  canvas s' = canvas s /\
  isMirrored s' = isMirrored s /\ currentColor s' = currentColor s /\
  currentSize s' = currentSize s.
Proof.
  intros (t & i & w & H4 & H8 & H0 & Hp)%classify_inv Hd Hw Hh.
  exists i. split; [exact H8|]. intros raw point s'. subst s'.
  rewrite (dispatch_frame chk lms t i w s H4 H8 H0).
  unfold frame_end. rewrite Hp, Hd, getImageData_nonempty by assumption.
  dm_simpl. repeat split; reflexivity.
Qed.

Lemma frame_stop chk lms (s : DrawingManager num) :
  classify hypot lms = Some false ->
  exists i, lms !! 8 = Some i /\
  let raw := mapped chk (isMirrored s) (width (canvas s)) (height (canvas s)) i in
  let s' := dispatch paint hypot (frame chk lms) s in
  drawing s' = false /\ lastPoint s' = None /\ points s' = [] /\
  undoStack s' = undoStack s /\
  handSmoothing s' = window_push (handSmoothing s) raw /\
  canvas s' = canvas s /\
  isMirrored s' = isMirrored s /\ currentColor s' = currentColor s /\
  currentSize s' = currentSize s.
Proof.
  intros (t & i & w & H4 & H8 & H0 & Hp)%classify_inv.
  exists i. split; [exact H8|]. intros raw s'. subst s'.
  rewrite (dispatch_frame chk lms t i w s H4 H8 H0).
  unfold frame_end. rewrite Hp. dm_simpl. repeat split; reflexivity.
Qed.

(** What [drawLine] leaves of the canvas. *)
Lemma line_drawn_fields from to color size (c : Canvas num) :
  let c' := line_drawn paint from to color size c in
  settings c' = settings c /\ saved c' = saved c /\
  path c' = segment_path from to /\
  strokes c' = strokes c ++ [line_stroke (settings c) color size (from, to)] /\
  bitmap c' = Raster.build (width c) (height c) (fun i j =>
    paint (line_settings (settings c) color size) (segment_path from to) i j
      (Raster.get (bitmap c) i j)).
Proof.
  unfold line_drawn, line_stroke, line_settings, set_strokeStyle, set_lineWidth.
  destruct (is_color color), (is_width size); repeat split; reflexivity.
Qed.

Lemma line_drawn_size from to color size (c : Canvas num) :
  width (line_drawn paint from to color size c) = width c /\
  height (line_drawn paint from to color size c) = height c.
Proof.
  unfold line_drawn, set_strokeStyle, set_lineWidth.
  destruct (is_color color), (is_width size); split; reflexivity.
Qed.


(* ================================================================== *)
(** ** A gesture: one snapshot, segments between smoothed points *)
(* ================================================================== *)

Lemma raw_points_cons mir w h (f : bool * list (Point num)) i
    (fs : list (bool * list (Point num))) :
  snd f !! 8 = Some i ->
  raw_points mir w h (f :: fs) = mapped (fst f) mir w h i :: raw_points mir w h fs.
Proof. intros H8. unfold raw_points. cbn [omap list_omap]. rewrite H8. reflexivity. Qed.

Lemma frames_cons (f : bool * list (Point num)) (fs : list (bool * list (Point num))) :
  frames (f :: fs) = frame (fst f) (snd f) :: frames fs.
Proof. reflexivity. Qed.

Lemma frames_app (fs gs : list (bool * list (Point num))) :
  frames (fs ++ gs) = frames fs ++ frames gs.
Proof. unfold frames. apply fmap_app. Qed.

(** A run of pinching frames that continues a stroke. *)
Lemma run_stroke (gesture : list (bool * list (Point num))) :
  forall (s : DrawingManager num) (from : Point num),
  Forall (fun f => classify hypot (snd f) = Some true) gesture ->
  drawing s = true -> lastPoint s = Some from ->
  let raws := raw_points (isMirrored s) (width (canvas s)) (height (canvas s)) gesture in
  let pts := track (handSmoothing s) raws in
  let s' := run paint hypot (frames gesture) s in
  length pts = length gesture /\
  drawing s' = true /\ lastPoint s' = last (from :: pts) /\
  undoStack s' = undoStack s /\
  strokes (canvas s') = strokes (canvas s) ++
    (line_stroke (settings (canvas s)) (currentColor s) (currentSize s)
       <$> zip (from :: pts) pts) /\
  settings (canvas s') = settings (canvas s) /\
  width (canvas s') = width (canvas s) /\ height (canvas s') = height (canvas s) /\
  handSmoothing s' = window_after (handSmoothing s) raws /\
  isMirrored s' = isMirrored s /\ currentColor s' = currentColor s /\
  currentSize s' = currentSize s.
Proof.
  induction gesture as [|[chk lms] rest IH]; intros s from Hall Hd Hl raws pts s'.
  - subst raws pts s'. cbn. rewrite app_nil_r. repeat split; try reflexivity; assumption.
  - apply Forall_cons in Hall as [Hlms Hrest]. cbn [snd] in Hlms.
    destruct (frame_continue chk lms s from Hlms Hd Hl)
      as (i & H8 & Hd2 & Hl2 & Hu2 & Hh2 & Hc2 & Hm2 & Hcol2 & Hsz2).
    set (raw := mapped chk (isMirrored s) (width (canvas s)) (height (canvas s)) i) in *.
    set (point := mean (window_push (handSmoothing s) raw)) in *.
    set (s2 := dispatch paint hypot (frame chk lms) s) in *.
    destruct (line_drawn_fields from point (currentColor s) (currentSize s) (canvas s))
      as (Hset & _ & _ & Hstr & _).
    destruct (line_drawn_size from point (currentColor s) (currentSize s) (canvas s))
      as (Hw & Hh).
    rewrite <- Hc2 in Hset, Hstr, Hw, Hh.
    specialize (IH s2 point Hrest Hd2 Hl2). cbn zeta in IH.
    rewrite Hm2, Hw, Hh, Hh2, Hu2, Hset, Hcol2, Hsz2, Hstr in IH.
    destruct IH as (Hlen & Hd' & Hl' & Hu' & Hstr' & Hset' & Hw' & Hh' & Hhs' & Hm' & Hcol' & Hsz').
    assert (Hraws : raws = raw :: raw_points (isMirrored s) (width (canvas s))
                                    (height (canvas s)) rest).
    { subst raws. apply (raw_points_cons _ _ _ (chk, lms)). exact H8. }
    subst pts s'. rewrite Hraws. cbn [track length].
    rewrite frames_cons, run_cons. cbn [fst snd]. fold s2. fold raw. fold point.
    split; [rewrite Hlen; reflexivity|].
    split; [exact Hd'|].
    split; [exact Hl'|].
    split; [exact Hu'|].
    split.
    { rewrite Hstr'. cbn [zip zip_with fmap list_fmap]. rewrite <- app_assoc. reflexivity. }
    repeat split; assumption.
Qed.

Lemma length_zip_tl {A} (l : list A) : length (zip l (tl l)) = length l - 1.
Proof.
  destruct l as [|a l]; [reflexivity|]. cbn [tl length].
  rewrite length_zip_with. cbn [length]. lia.
Qed.

(** X24. A pinch gesture of N frames between two frames that show a hand
    that does not pinch, on a canvas that has pixels: one full-canvas
    snapshot is pushed, at the first frame of the gesture, and the N-1
    segments between consecutive smoothed points are stroked, nothing else,
    each with the settings that the context makes of the colour and the size
    of the manager. *)
Theorem gesture_pushes_one_snapshot_and_strokes_between_points
    (before : bool * list (Point num)) (gesture : list (bool * list (Point num)))
    (after : bool * list (Point num)) (s : DrawingManager num) :
  classify hypot (snd before) = Some false ->
  Forall (fun f => classify hypot (snd f) = Some true) gesture ->
  classify hypot (snd after) = Some false ->
  gesture <> [] ->
  0 < width (canvas s) -> 0 < height (canvas s) ->
  let snapshot :=
    Raster.build (width (canvas s)) (height (canvas s)) (Raster.get (bitmap (canvas s))) in
  let s0 := run paint hypot (frames [before]) s in
  let pts := track (handSmoothing s0)
               (raw_points (isMirrored s) (width (canvas s)) (height (canvas s)) gesture) in
  let s' := run paint hypot (frames (before :: gesture ++ [after])) s in
  length pts = length gesture /\
  undoStack (run paint hypot (frames (before :: take 1 gesture)) s)
    = undoStack s ++ [snapshot] /\
  undoStack s' = undoStack s ++ [snapshot] /\
  strokes (canvas s') = strokes (canvas s) ++
    (line_stroke (settings (canvas s)) (currentColor s) (currentSize s)
       <$> zip pts (tl pts)) /\
  length (strokes (canvas s')) = length (strokes (canvas s)) + (length gesture - 1) /\
  drawing s' = false /\ lastPoint s' = None.
Proof.
  intros Hb Hg Ha Hne Hw Hh snapshot s0 pts s'.
  destruct before as [chk_b before]. destruct after as [chk_a after]. cbn [snd] in Hb, Ha.
  destruct gesture as [|[chk_1 first] rest]; [congruence|]. clear Hne.
  apply Forall_cons in Hg as [Hfirst Hrest]. cbn [snd] in Hfirst.
  destruct (frame_stop chk_b before s Hb)
    as (ib & _ & Hd0 & _ & _ & Hu0 & _ & Hc0 & Hm0 & Hcol0 & Hsz0).
  change (dispatch paint hypot (frame chk_b before) s) with s0
    in Hd0, Hu0, Hc0, Hm0, Hcol0, Hsz0.
  assert (Hw0 : 0 < width (canvas s0)) by (rewrite Hc0; exact Hw).
  assert (Hh0 : 0 < height (canvas s0)) by (rewrite Hc0; exact Hh).
  destruct (frame_start chk_1 first s0 Hfirst Hd0 Hw0 Hh0)
    as (i1 & H8 & Hd1 & Hl1 & _ & Hu1 & Hh1 & Hc1 & Hm1 & Hcol1 & Hsz1).
  set (s1 := dispatch paint hypot (frame chk_1 first) s0) in *.
  rewrite Hm0, Hc0 in Hh1, Hl1. rewrite Hc0, Hu0 in Hu1. fold snapshot in Hu1.
  set (raw1 := mapped chk_1 (isMirrored s) (width (canvas s)) (height (canvas s)) i1) in *.
  set (p1 := mean (window_push (handSmoothing s0) raw1)) in *.
  pose proof (run_stroke rest s1 p1 Hrest Hd1 Hl1) as Hrun. cbn zeta in Hrun.
  rewrite Hm1, Hc1, Hm0, Hc0, Hh1, Hu1, Hcol1, Hcol0, Hsz1, Hsz0 in Hrun.
  set (raws := raw_points (isMirrored s) (width (canvas s)) (height (canvas s)) rest) in *.
  set (s2 := run paint hypot (frames rest) s1) in *.
  destruct Hrun as (Hlen & Hd2 & Hl2 & Hu2 & Hstr2 & Hset2 & Hw2 & Hh2 & Hhs2 & Hm2 & Hcol2 & Hsz2).
  destruct (frame_stop chk_a after s2 Ha)
    as (ia & _ & Hd3 & Hl3 & _ & Hu3 & _ & Hc3 & _).
  assert (Hpts : pts = p1 :: track (window_push (handSmoothing s0) raw1) raws).
  { subst pts. rewrite (raw_points_cons _ _ _ (chk_1, first) i1 rest H8). reflexivity. }
  assert (Hs' : s' = dispatch paint hypot (frame chk_a after) s2).
  { subst s'. rewrite frames_cons, run_cons, frames_app, run_app, frames_cons, run_cons.
    reflexivity. }
  rewrite Hs', Hpts.
  split; [cbn [length]; rewrite Hlen; reflexivity|].
  split; [exact Hu1|].
  split; [rewrite Hu3, Hu2; reflexivity|].
  split; [rewrite Hc3; exact Hstr2|].
  split.
  { rewrite Hc3, Hstr2, length_app, length_fmap, length_zip_with.
    cbn [length]. rewrite Hlen. lia. }
  split; assumption.
Qed.

(* ================================================================== *)
(** ** Gesture classifier *)
(* ================================================================== *)

Lemma frame_overlay chk lms t i w (s : DrawingManager num) :
  lms !! 4 = Some t -> lms !! 8 = Some i -> lms !! 0 = Some w ->
  let raw := mapped chk (isMirrored s) (width (canvas s)) (height (canvas s)) i in
  let point := mean (window_push (handSmoothing s) raw) in
  overlay (dispatch paint hypot (frame chk lms) s)
  = overlay_frame lms point (pinched hypot t i w) (overlay s).
Proof.
  intros H4 H8 H0 raw point.
  rewrite (dispatch_frame chk lms t i w s H4 H8 H0). unfold frame_end.
  destruct (pinched hypot t i w); [destruct (drawing s)|].
  - destruct (lastPoint s); reflexivity.
  - destruct (getImageData _ _ _); reflexivity.
  - reflexivity.
Qed.

Lemma frame_drawing chk lms t i w (s : DrawingManager num) :
  lms !! 4 = Some t -> lms !! 8 = Some i -> lms !! 0 = Some w ->
  drawing (dispatch paint hypot (frame chk lms) s) = pinched hypot t i w.
Proof.
  intros H4 H8 H0.
  rewrite (dispatch_frame chk lms t i w s H4 H8 H0). unfold frame_end.
  destruct (pinched hypot t i w); [destruct (drawing s) eqn:Hd|].
  - destruct (lastPoint s); dm_simpl; exact Hd.
  - destruct (getImageData _ _ _); reflexivity.
  - reflexivity.
Qed.

(** C1. On a frame with a hand, the pinch that the program acts on -- the
    drawing flag it leaves, and the radius and colour of the cursor it
    shows -- is true exactly when the distance between thumb tip (4) and
    index tip (8) is below 0.15 times the distance between wrist (0) and
    index tip; a distance equal to the threshold is no pinch. *)
Theorem pinch_exactly_below_threshold `{!JsNumberOrder num}
    chk (lms : list (Point num)) thumbTip indexTip wrist (s : DrawingManager num) :
  lms !! 4 = Some thumbTip -> lms !! 8 = Some indexTip -> lms !! 0 = Some wrist ->
  let pinchDistance := hypot (x thumbTip - x indexTip)%js (y thumbTip - y indexTip)%js in
  let threshold := (hypot (x wrist - x indexTip) (y wrist - y indexTip) * n_0_15)%js in
  let pinch := (pinchDistance <? threshold)%js in
  let s' := dispatch paint hypot (frame chk lms) s in
  (drawing s' = true <-> pinch = true) /\
  (exists point,
     o_calls (overlay s') = o_calls (overlay s) ++
       [OClearRect (o_width (overlay s)) (o_height (overlay s));
        ODrawConnectors lms; ODrawLandmarks lms; OBeginPath;
        OArc (x point) (y point) (if pinch then n_of_nat 4 else n_of_nat 8);
        OFillStyle (if pinch then "rgba(255, 100, 100, 0.9)" else "rgba(95, 234, 212, 0.9)");
        OFill]) /\
  (pinchDistance = threshold -> drawing s' = false).
Proof.
  intros H4 H8 H0 pinchDistance threshold pinch s'. subst s'.
  rewrite (frame_drawing chk lms _ _ _ s H4 H8 H0).
  rewrite (frame_overlay chk lms _ _ _ s H4 H8 H0).
  change (pinched hypot thumbTip indexTip wrist) with pinch.
  split; [reflexivity|]. split.
  - eexists. unfold overlay_frame.
    cbn [fold_left overlay_call o_calls o_width o_height].
    rewrite <- !app_assoc. reflexivity.
  - intros Heq. subst pinch. rewrite Heq. apply n_ltb_irrefl.
Qed.

(* ================================================================== *)
(** ** Frames without a hand *)
(* ================================================================== *)

Lemma listener_no_hand chk (lms : option (list (list (Point num)))) (s : DrawingManager num) :
  default [] lms = [] ->
  listener paint hypot (HandsResults chk lms) s =
  Ok tt (with_overlay
           (overlay_call (OClearRect (o_width (overlay s)) (o_height (overlay s)))
              (overlay s)) s).
Proof.
  intros Hnone. unfold listener, onResults. rewrite Hnone. reflexivity.
Qed.

(** C3 (the program departs from it). On a frame without a hand --
    [multiHandLandmarks] empty or undefined -- [onResults] clears the overlay
    and does nothing else: the loop body, which holds the only code that
    ends a stroke, does not run.  The drawing flag, the last point and the
    point list keep their values, so a stroke in progress stays open; the
    canvas is untouched. *)
Theorem no_hand_frame_leaves_stroke_state chk (s : DrawingManager num) :
  let s1 := dispatch paint hypot (HandsResults chk (Some [])) s in
  let s2 := dispatch paint hypot (HandsResults chk None) s in
  (drawing s1 = drawing s /\ lastPoint s1 = lastPoint s /\ points s1 = points s /\
   canvas s1 = canvas s) /\
  (drawing s2 = drawing s /\ lastPoint s2 = lastPoint s /\ points s2 = points s /\
   canvas s2 = canvas s).
Proof.
  intros s1 s2. subst s1 s2. unfold dispatch.
  rewrite !listener_no_hand by reflexivity. dm_simpl.
  repeat split; reflexivity.
Qed.

(* ================================================================== *)
(** ** Stroke renderer *)
(* ================================================================== *)

(** C10. [drawLine] between two points strokes one segment with a round cap,
    whatever the points, the colour and the width: the path it builds and
    strokes is that segment, every pixel is repainted by the rasterizer for
    that one stroke, and one stroke is recorded.  The stroke is made in the
    given colour where the string parses as a colour and in the given width
    where the number is finite and above zero; a value that the context does
    not take leaves the stroke with the setting the context had.  The
    context's drawing settings and its stack of saved states are, on return,
    what they were before the call, and no field of the manager other than
    the canvas changes. *)
Theorem drawLine_strokes_one_segment_and_restores_settings
    (from to : Point num) (color : string) (size : num) (s : DrawingManager num) :
  exists s', drawLine paint (Some from) to color size s = Ok tt s' /\
    settings (canvas s') = settings (canvas s) /\
    saved (canvas s') = saved (canvas s) /\
    strokes (canvas s') = strokes (canvas s) ++
      [({| strokeStyle :=
             if is_color color then color else strokeStyle (settings (canvas s));
           lineWidth :=
             if n_finite size && (n_zero <? size)%js then size
             else lineWidth (settings (canvas s));
           lineCap := "round";
           imageSmoothingEnabled := imageSmoothingEnabled (settings (canvas s));
           imageSmoothingQuality := imageSmoothingQuality (settings (canvas s)) |},
        [MoveTo (x from) (y from); LineTo (x to) (y to)])] /\
    path (canvas s') = [MoveTo (x from) (y from); LineTo (x to) (y to)] /\
    bitmap (canvas s') =
      Raster.build (width (canvas s)) (height (canvas s)) (fun i j =>
        paint (line_settings (settings (canvas s)) color size) (segment_path from to) i j
          (Raster.get (bitmap (canvas s)) i j)) /\
    s' = with_canvas (canvas s') s.
Proof.
  eexists. split; [apply drawLine_eq|]. dm_simpl.
  destruct (line_drawn_fields from to color size (canvas s))
    as (Hset & Hsaved & Hpath & Hstrokes & Hbitmap).
  split; [exact Hset|]. split; [exact Hsaved|]. split; [exact Hstrokes|].
  split; [exact Hpath|]. split; [exact Hbitmap|]. reflexivity.
Qed.

(* ================================================================== *)
(** ** Point smoother *)
(* ================================================================== *)

Lemma tl_drop {A} (l : list A) : tl l = drop 1 l.
Proof. destruct l; reflexivity. Qed.

(** A push keeps the newest entries: the window is the last five of what
    was there plus the new point. *)
Lemma window_push_fifo (buf : list (Point num)) (p : Point num) :
  length buf <= smoothingWindowSize ->
  window_push buf p = drop (length buf + 1 - smoothingWindowSize) (buf ++ [p]) /\
  length (window_push buf p) <= smoothingWindowSize.
Proof.
  unfold window_push, smoothingWindowSize. intros Hlen.
  rewrite length_app. cbn [length].
  destruct (Nat.ltb_spec 5 (length buf + 1)) as [Hfull|Hroom].
  - replace (length buf + 1 - 5) with 1 by lia. rewrite tl_drop.
    split; [reflexivity|]. rewrite length_drop, length_app. cbn [length]. lia.
  - replace (length buf + 1 - 5) with 0 by lia.
    split; [reflexivity|]. rewrite length_app. cbn [length]. lia.
Qed.

Lemma frame_handSmoothing chk lms t i w (s : DrawingManager num) :
  lms !! 4 = Some t -> lms !! 8 = Some i -> lms !! 0 = Some w ->
  handSmoothing (dispatch paint hypot (frame chk lms) s) =
  window_push (handSmoothing s)
    (mapped chk (isMirrored s) (width (canvas s)) (height (canvas s)) i).
Proof.
  intros H4 H8 H0.
  rewrite (dispatch_frame chk lms t i w s H4 H8 H0). unfold frame_end.
  destruct (pinched hypot t i w); [destruct (drawing s)|].
  - destruct (lastPoint s); reflexivity.
  - destruct (getImageData _ _ _); reflexivity.
  - reflexivity.
Qed.

Lemma undo_eq (s : DrawingManager num) :
  undo s =
  match last (undoStack s) with
  | Some imageData =>
      Ok tt (with_canvas (putImageData imageData (canvas s))
               (with_undoStack (removelast (undoStack s)) s))
  | None => Ok tt s
  end.
Proof.
  unfold undo, bind, gets, deref, modify, ctx, ret.
  destruct (undoStack s) as [|a l] eqn:Hs; [reflexivity|].
  cbn [length Nat.ltb Nat.leb].
  destruct (last (a :: l)) as [img|] eqn:Hl.
  - reflexivity.
  - apply last_None in Hl. discriminate.
Qed.

Lemma resizeCanvases_eq rect_w rect_h (s : DrawingManager num) :
  resizeCanvases rect_w rect_h s =
  match getImageData (width (canvas s)) (height (canvas s)) (canvas s) with
  | inl e => Throw e s
  | inr imageData =>
      Ok tt (with_canvas
               (putImageData imageData (set_height rect_h (set_width rect_w (canvas s))))
               (with_overlay
                  (overlay_set_height rect_h (overlay_set_width rect_w (overlay s))) s))
  end.
Proof.
  unfold resizeCanvases, bind, gets, ctx_getImageData, ctx, modify.
  destruct (getImageData _ _ _); reflexivity.
Qed.

(** Only a frame with a hand touches the smoothing window. *)
Lemma other_events_keep_window (e : Event num) (s : DrawingManager num) :
  brings_hand e = false ->
  handSmoothing (dispatch paint hypot e s) = handSmoothing s.
Proof.
  intros He. unfold dispatch.
  destruct e as [rw rh| | |v|v|cx cy|cx cy| | | | |b|chk [[|lms rest]|]];
    try discriminate He; try reflexivity.
  - cbn [listener]. rewrite resizeCanvases_eq.
    destruct (getImageData _ _ _); reflexivity.
  - cbn [listener]. rewrite undo_eq. destruct (last _); reflexivity.
Qed.


Lemma last_tl {A} (l : list A) : 2 <= length l -> last (tl l) = last l.
Proof. destruct l as [|a [|b l]]; cbn [length]; intros; try lia. reflexivity. Qed.

Lemma last_window_push (buf : list (Point num)) (p : Point num) :
  last (window_push buf p) = Some p.
Proof.
  unfold window_push, smoothingWindowSize.
  destruct (Nat.ltb_spec 5 (length (buf ++ [p]))) as [Hfull|Hroom].
  - rewrite last_tl by lia. apply last_snoc.
  - apply last_snoc.
Qed.

(* ================================================================== *)
(** ** Pointer input *)
(* ================================================================== *)

(** The pinch path makes the three transitions of the specification, at the
    smoothed point. *)
Lemma pinch_path_makes_spec_transitions chk lms t i w (s : DrawingManager num) :
  lms !! 4 = Some t -> lms !! 8 = Some i -> lms !! 0 = Some w ->
  let raw := mapped chk (isMirrored s) (width (canvas s)) (height (canvas s)) i in
  let window := window_push (handSmoothing s) raw in
  let point := mean window in
  let s' := dispatch paint hypot (frame chk lms) s in
  (pinched hypot t i w = true -> drawing s = false ->
   0 < width (canvas s) -> 0 < height (canvas s) ->
   s' = around_frame lms point true window s (spec_pen_down point s)) /\
  (pinched hypot t i w = true -> drawing s = true -> is_Some (lastPoint s) ->
   s' = around_frame lms point true window s (spec_pen_move paint point s)) /\
  (pinched hypot t i w = false ->
   s' = around_frame lms point false window s (spec_pen_up s)).
Proof.
  intros H4 H8 H0 raw window point s'. subst s'.
  rewrite (dispatch_frame chk lms t i w s H4 H8 H0). unfold frame_end.
  fold raw. fold window. fold point.
  split; [|split].
  - intros -> -> Hw Hh. rewrite getImageData_nonempty by assumption. reflexivity.
  - intros -> Hd [from Hl]. rewrite Hd, Hl. unfold spec_pen_move. rewrite Hl.
    reflexivity.
  - intros ->. reflexivity.
Qed.

(** C4 (the program departs from it). [init] routes the five pointer events
    of the overlay to [handlePointerDown], [handlePointerMove] and
    [handlePointerUp], and [class DrawingManager] declares none of the
    three.  Each such event ends in a TypeError before anything is read or
    written: no snapshot is pushed, no point is stored, no line is drawn, and
    the manager is left exactly as it was.  So a press is not the pen-down
    transition that a pinch start makes: that one lengthens the undo stack. *)
Theorem pointer_events_find_no_handler (clientX clientY : num) (s : DrawingManager num) :
  lookup_method paint hypot "handlePointerDown" = None /\
  lookup_method paint hypot "handlePointerMove" = None /\
  lookup_method paint hypot "handlePointerUp" = None /\
  listener paint hypot (PointerDown clientX clientY) s = Throw TypeError s /\
  listener paint hypot (PointerMove clientX clientY) s = Throw TypeError s /\
  listener paint hypot PointerUp s = Throw TypeError s /\
  listener paint hypot PointerCancel s = Throw TypeError s /\
  listener paint hypot PointerLeave s = Throw TypeError s /\
  (forall p : Point num,
     dispatch paint hypot (PointerDown clientX clientY) s <> spec_pen_down p s).
Proof.
  repeat split; try reflexivity.
  intros p Heq. apply (f_equal (fun m => length (undoStack m))) in Heq.
  unfold dispatch, spec_pen_down in Heq. cbn [listener] in Heq.
  change (call_with_event paint hypot "handlePointerDown" s) with (Throw (A:=unit) TypeError s) in Heq.
  cbn [final undoStack with_undoStack] in Heq.
  rewrite length_app in Heq. cbn [length] in Heq. lia.
Qed.

(* ================================================================== *)
(** ** Coordinate mapper *)
(* ================================================================== *)

(** The raw point of a frame is the entry it pushes on the smoothing window. *)
Lemma frame_raw_point chk lms t i w (s : DrawingManager num) :
  lms !! 4 = Some t -> lms !! 8 = Some i -> lms !! 0 = Some w ->
  last (handSmoothing (dispatch paint hypot (frame chk lms) s)) =
  Some (mapped chk (isMirrored s) (width (canvas s)) (height (canvas s)) i).
Proof.
  intros H4 H8 H0. rewrite (frame_handSmoothing chk lms t i w s H4 H8 H0).
  apply last_window_push.
Qed.

(** C5 (amended). The raw point that a frame maps the index tip to has
    pixel y = y * height, and pixel x = (1 - x) * width when exactly one of
    the two mirror flags is set, x * width when both are clear, and
    (1 - (1 - x)) * width when both are set; the last is x * width whenever
    1 - (1 - x) evaluates to x. *)
Theorem mapping_by_mirror_flags
    chk (lms : list (Point num)) thumbTip indexTip wrist (s : DrawingManager num) :
  lms !! 4 = Some thumbTip -> lms !! 8 = Some indexTip -> lms !! 0 = Some wrist ->
  let w := n_of_nat (width (canvas s)) in
  let h := n_of_nat (height (canvas s)) in
  let raw := last (handSmoothing (dispatch paint hypot (frame chk lms) s)) in
  (y <$> raw = Some (y indexTip * h)%js) /\
  (chk = true -> isMirrored s = false -> x <$> raw = Some ((n_one - x indexTip) * w)%js) /\
  (chk = false -> isMirrored s = true -> x <$> raw = Some ((n_one - x indexTip) * w)%js) /\
  (chk = false -> isMirrored s = false -> x <$> raw = Some (x indexTip * w)%js) /\
  (chk = true -> isMirrored s = true ->
     x <$> raw = Some ((n_one - (n_one - x indexTip)) * w)%js) /\
  (chk = true -> isMirrored s = true -> (n_one - (n_one - x indexTip))%js = x indexTip ->
     x <$> raw = Some (x indexTip * w)%js).
Proof.
  intros H4 H8 H0 w h raw. subst raw.
  rewrite (frame_raw_point chk lms _ _ _ s H4 H8 H0). unfold mapped. cbn [fmap option_fmap option_map x y].
  split; [reflexivity|].
  repeat split; intros -> ->; try reflexivity.
  intros ->. reflexivity.
Qed.

(* ================================================================== *)
(** ** Point smoother on a run of points *)
(* ================================================================== *)

Lemma with_handSmoothing_twice (a b : list (Point num)) (s : DrawingManager num) :
  with_handSmoothing b (with_handSmoothing a s) = with_handSmoothing b s.
Proof. reflexivity. Qed.

Lemma with_handSmoothing_same (s : DrawingManager num) :
  with_handSmoothing (handSmoothing s) s = s.
Proof. destruct s; reflexivity. Qed.

Lemma smooth_all_eq (raws : list (Point num)) :
  forall s : DrawingManager num,
  smooth_all raws s =
  Ok (track (handSmoothing s) raws)
     (with_handSmoothing (window_after (handSmoothing s) raws) s).
Proof.
  induction raws as [|raw rest IH]; intros s.
  - cbn. rewrite with_handSmoothing_same. reflexivity.
  - cbn [smooth_all track window_after fold_left]. unfold bind at 1.
    rewrite smoothPoint_eq. unfold bind at 1. rewrite IH. reflexivity.
Qed.

(** After any run of points the window holds the newest five. *)
Lemma window_after_fifo (raws : list (Point num)) :
  forall buf : list (Point num),
  length buf <= smoothingWindowSize ->
  window_after buf raws =
    drop (length buf + length raws - smoothingWindowSize) (buf ++ raws) /\
  length (window_after buf raws) <= smoothingWindowSize.
Proof.
  unfold window_after.
  induction raws as [|raw rest IH]; intros buf Hlen.
  - cbn [fold_left length]. rewrite app_nil_r.
    replace (length buf + 0 - smoothingWindowSize) with 0 by lia.
    split; [reflexivity|exact Hlen].
  - cbn [fold_left length].
    destruct (window_push_fifo buf raw Hlen) as [Hpush Hlen'].
    destruct (IH _ Hlen') as [-> Hcap]. split; [|exact Hcap].
    rewrite Hpush, length_drop, length_app. cbn [length].
    unfold smoothingWindowSize in *.
    replace (buf ++ raw :: rest) with ((buf ++ [raw]) ++ rest)
      by (rewrite <- app_assoc; reflexivity).
    rewrite <- (drop_app_le (buf ++ [raw]) rest (length buf + 1 - 5))
      by (rewrite length_app; cbn [length]; lia).
    rewrite drop_drop. f_equal. lia.
Qed.

Lemma last_track (raws : list (Point num)) :
  forall buf : list (Point num),
  raws <> [] -> last (track buf raws) = Some (mean (window_after buf raws)).
Proof.
  induction raws as [|raw rest IH]; intros buf Hne; [congruence|].
  destruct rest as [|raw' rest'].
  - reflexivity.
  - cbn [track]. change (last (?a :: ?b :: ?l)) with (last (b :: l)).
    apply (IH (window_push buf raw)). discriminate.
Qed.

Lemma drop_past_prefix {A} (l1 l2 : list A) (k : nat) :
  drop (length l1 + k) (l1 ++ l2) = drop k l2.
Proof. induction l1 as [|a l1 IH]; [reflexivity|exact IH]. Qed.

(** A run that ends in five or more equal points. *)
Lemma smooth_all_ending_in_equal_points
    (pre : list (Point num)) (p : Point num) (n : nat) (s : DrawingManager num) :
  length (handSmoothing s) <= smoothingWindowSize ->
  smoothingWindowSize <= n ->
  exists outs s',
    smooth_all (pre ++ replicate n p) s = Ok outs s' /\
    handSmoothing s' = replicate smoothingWindowSize p /\
    last outs = Some (Pt (mean_of_five (x p)) (mean_of_five (y p))).
Proof.
  intros Hlen Hn.
  eexists _, _. split; [apply smooth_all_eq|]. dm_simpl.
  assert (Hwin : window_after (handSmoothing s) (pre ++ replicate n p)
                 = replicate smoothingWindowSize p).
  { destruct (window_after_fifo (pre ++ replicate n p) (handSmoothing s) Hlen) as [-> _].
    rewrite app_assoc, length_app, length_replicate.
    unfold smoothingWindowSize in *.
    replace (length (handSmoothing s) + (length pre + n) - 5)
      with (length (handSmoothing s ++ pre) + (n - 5)) by (rewrite length_app; lia).
    rewrite drop_past_prefix, drop_replicate. f_equal. lia. }
  split; [exact Hwin|].
  rewrite last_track, Hwin; [reflexivity|].
  unfold smoothingWindowSize in Hn.
  destruct n as [|n']; [lia|]. destruct pre; discriminate.
Qed.

(** C6 (amended). [smoothPoint] pushes the new point, evicts the oldest one
    past five, and returns the mean of the window as the program computes
    it: the sum of the buffered points, added up from 0 in order, divided by
    their number.  After a run that ends in five or more equal points [p]
    the window is five copies of [p] and the output has coordinates
    [mean_of_five (x p)] and [mean_of_five (y p)]; it is [p] whenever those
    evaluate to the coordinates of [p]. *)
Theorem smoother_window_and_mean
    (pre : list (Point num)) (p q : Point num) (n : nat) (s : DrawingManager num) :
  length (handSmoothing s) <= smoothingWindowSize ->
  smoothingWindowSize <= n ->
  (exists window,
     smoothPoint q s = Ok (mean window) (with_handSmoothing window s) /\
     window = drop (length (handSmoothing s) + 1 - smoothingWindowSize)
                (handSmoothing s ++ [q]) /\
     length window <= smoothingWindowSize) /\
  (exists outs s',
     smooth_all (pre ++ replicate n p) s = Ok outs s' /\
     handSmoothing s' = replicate smoothingWindowSize p /\
     last outs = Some (Pt (mean_of_five (x p)) (mean_of_five (y p))) /\
     (mean_of_five (x p) = x p -> mean_of_five (y p) = y p -> last outs = Some p)).
Proof.
  intros Hlen Hn. split.
  - exists (window_push (handSmoothing s) q).
    destruct (window_push_fifo (handSmoothing s) q Hlen) as [Hpush Hcap].
    split; [apply smoothPoint_eq|]. split; assumption.
  - destruct (smooth_all_ending_in_equal_points pre p n s Hlen Hn)
      as (outs & s' & Hrun & Hwin & Hlast).
    exists outs, s'. split; [exact Hrun|]. split; [exact Hwin|]. split; [exact Hlast|].
    intros Hx Hy. rewrite Hlast, Hx, Hy. destruct p; reflexivity.
Qed.

(* ================================================================== *)
(** ** The smoothing window in every run *)
(* ================================================================== *)

(** One hand of a frame pushes at most one point on the window. *)
Lemma onResults_hand_window chk (lms : list (Point num)) (s : DrawingManager num) :
  let s' := final (onResults_hand paint hypot chk lms s) in
  handSmoothing s' = handSmoothing s \/
  exists p, handSmoothing s' = window_push (handSmoothing s) p.
Proof.
  intros s'. subst s'. unfold onResults_hand.
  destruct (lms !! 4) as [t|]; [|left; reflexivity].
  destruct (lms !! 8) as [i|]; [|left; reflexivity].
  destruct (lms !! 0) as [w|]; [|left; reflexivity].
  right. exists (mapped chk (isMirrored s) (width (canvas s)) (height (canvas s)) i).
  unfold overlayCtx, ctx_getImageData, bind, deref, gets, modify, ret.
  cbn [isMirrored with_overlay canvas overlay handSmoothing].
  rewrite smoothPoint_eq.
  cbn [isMirrored with_overlay canvas overlay handSmoothing with_handSmoothing drawing lastPoint].
  fold (mapped chk (isMirrored s) (width (canvas s)) (height (canvas s)) i).
  destruct (n_ltb _ _); dm_simpl.
  - destruct (drawing s); cbn [negb]; dm_simpl.
    + destruct (lastPoint s) as [from|].
      * rewrite drawLine_eq. reflexivity.
      * rewrite drawLine_null_eq. reflexivity.
    + destruct (getImageData _ _ _); reflexivity.
  - reflexivity.
Qed.

Lemma for_of_hands_window chk (hands : list (list (Point num))) :
  forall s : DrawingManager num,
  length (handSmoothing s) <= smoothingWindowSize ->
  length (handSmoothing (final (for_of hands (onResults_hand paint hypot chk) s)))
    <= smoothingWindowSize.
Proof.
  induction hands as [|lms rest IH]; intros s Hcap; [exact Hcap|].
  cbn [for_of]. unfold bind.
  pose proof (onResults_hand_window chk lms s) as Hstep. cbn zeta in Hstep.
  assert (Hcap' : length (handSmoothing (final (onResults_hand paint hypot chk lms s)))
                  <= smoothingWindowSize).
  { destruct Hstep as [-> | [p ->]]; [exact Hcap|].
    apply (window_push_fifo (handSmoothing s) p Hcap). }
  destruct (onResults_hand paint hypot chk lms s) as [[] s'|e s'];
    cbn [final] in Hcap'; [apply IH; exact Hcap'|exact Hcap'].
Qed.

Lemma dispatch_keeps_window_capped (e : Event num) (s : DrawingManager num) :
  length (handSmoothing s) <= smoothingWindowSize ->
  length (handSmoothing (dispatch paint hypot e s)) <= smoothingWindowSize.
Proof.
  intros Hcap. destruct (brings_hand e) eqn:He.
  - destruct e as [rw rh| | |v|v|cx cy|cx cy| | | | |b|chk [[|lms rest]|]];
      try discriminate He.
    unfold dispatch, listener, onResults, bind, gets, overlayCtx, modify.
    change (default [] (Some (lms :: rest))) with (lms :: rest).
    apply for_of_hands_window. exact Hcap.
  - rewrite other_events_keep_window by exact He. exact Hcap.
Qed.

(** From the constructor on, whatever the events, the window never holds
    more than five points. *)
Lemma window_capped_in_every_run (events : list (Event num)) :
  forall s : DrawingManager num,
  length (handSmoothing s) <= smoothingWindowSize ->
  length (handSmoothing (run paint hypot events s)) <= smoothingWindowSize.
Proof.
  induction events as [|e rest IH]; intros s Hcap; [exact Hcap|].
  rewrite run_cons. apply IH, dispatch_keeps_window_capped, Hcap.
Qed.

Lemma window_capped_from_constructor (events : list (Event num)) cw ch ow oh :
  length (handSmoothing (run paint hypot events (constructor cw ch ow oh)))
    <= smoothingWindowSize.
Proof.
  apply window_capped_in_every_run. cbn. unfold smoothingWindowSize. lia.
Qed.





(* ================================================================== *)
(** ** Undo *)
(* ================================================================== *)

Lemma putImageData_get (img : ImageData) (c : Canvas num) i j :
  i < width c -> j < height c ->
  Raster.get (bitmap (putImageData img c)) i j =
  if (i <? Raster.width img)%nat && (j <? Raster.height img)%nat
  then Raster.get img i j
  else Raster.get (bitmap c) i j.
Proof. intros Hi Hj. unfold putImageData. cbn [bitmap]. apply Raster_get_build; assumption. Qed.

Lemma putImageData_size (img : ImageData) (c : Canvas num) :
  width (putImageData img c) = width c /\ height (putImageData img c) = height c.
Proof. split; reflexivity. Qed.

(** A gesture from Idle: the snapshot is on the stack and the canvas has
    kept its size. *)
Lemma run_gesture (gesture : list (bool * list (Point num))) (s : DrawingManager num) :
  Forall (fun f => classify hypot (snd f) = Some true) gesture ->
  gesture <> [] -> drawing s = false ->
  0 < width (canvas s) -> 0 < height (canvas s) ->
  let s' := run paint hypot (frames gesture) s in
  undoStack s' = undoStack s ++
    [Raster.build (width (canvas s)) (height (canvas s)) (Raster.get (bitmap (canvas s)))] /\
  width (canvas s') = width (canvas s) /\ height (canvas s') = height (canvas s) /\
  drawing s' = true.
Proof.
  intros Hg Hne Hd Hw Hh s'.
  destruct gesture as [|[chk first] rest]; [congruence|].
  apply Forall_cons in Hg as [Hfirst Hrest]. cbn [snd] in Hfirst.
  destruct (frame_start chk first s Hfirst Hd Hw Hh)
    as (i1 & _ & Hd1 & Hl1 & _ & Hu1 & _ & Hc1 & _).
  pose proof (run_stroke rest _ _ Hrest Hd1 Hl1) as Hrun. cbn zeta in Hrun.
  destruct Hrun as (_ & Hd2 & _ & Hu2 & _ & _ & Hw2 & Hh2 & _).
  subst s'. rewrite frames_cons, run_cons. cbn [fst snd].
  rewrite Hu2, Hu1, Hw2, Hh2, Hc1. repeat split; try reflexivity. exact Hd2.
Qed.

(** Undo on an empty stack does nothing.  Otherwise it pops
    the newest snapshot and writes it onto the canvas at the origin: every
    canvas pixel within the snapshot's bounds takes the snapshot's value,
    pixels beyond them keep theirs, and when the canvas has the snapshot's
    dimensions the canvas holds exactly the snapshot.  That is the case
    after the frames of a stroke, so undo then leaves the raster the canvas
    had when the stroke started. *)
Theorem undo_writes_newest_snapshot_at_origin
    (gesture : list (bool * list (Point num))) (s : DrawingManager num) :
  Forall (fun f => classify hypot (snd f) = Some true) gesture ->
  gesture <> [] -> drawing s = false ->
  0 < width (canvas s) -> 0 < height (canvas s) ->
  (let s2 := run paint hypot (frames gesture ++ [UndoClick]) s in
   undoStack s2 = undoStack s /\
   Raster.same (bitmap (canvas s2)) (bitmap (canvas s))) /\
  (forall (s0 : DrawingManager num) rest snapshot,
     undoStack s0 = rest ++ [snapshot] ->
     exists s', undo s0 = Ok tt s' /\ undoStack s' = rest /\
       width (canvas s') = width (canvas s0) /\ height (canvas s') = height (canvas s0) /\
       (forall i j, i < width (canvas s0) -> j < height (canvas s0) ->
          Raster.get (bitmap (canvas s')) i j =
          if (i <? Raster.width snapshot)%nat && (j <? Raster.height snapshot)%nat
          then Raster.get snapshot i j
          else Raster.get (bitmap (canvas s0)) i j) /\
       (Raster.width snapshot = width (canvas s0) ->
        Raster.height snapshot = height (canvas s0) ->
        Raster.same (bitmap (canvas s')) snapshot)) /\
  (forall s0 : DrawingManager num, undoStack s0 = [] -> undo s0 = Ok tt s0).
Proof.
  intros Hg Hne Hd Hw Hh.
  assert (Hgen : forall (s0 : DrawingManager num) rest snapshot,
     undoStack s0 = rest ++ [snapshot] ->
     exists s', undo s0 = Ok tt s' /\ undoStack s' = rest /\
       width (canvas s') = width (canvas s0) /\ height (canvas s') = height (canvas s0) /\
       (forall i j, i < width (canvas s0) -> j < height (canvas s0) ->
          Raster.get (bitmap (canvas s')) i j =
          if (i <? Raster.width snapshot)%nat && (j <? Raster.height snapshot)%nat
          then Raster.get snapshot i j
          else Raster.get (bitmap (canvas s0)) i j) /\
       (Raster.width snapshot = width (canvas s0) ->
        Raster.height snapshot = height (canvas s0) ->
        Raster.same (bitmap (canvas s')) snapshot)).
  { intros s0 rest snapshot Hs. eexists. rewrite undo_eq, Hs, last_snoc, removelast_last.
    split; [reflexivity|]. dm_simpl.
    split; [reflexivity|]. split; [reflexivity|]. split; [reflexivity|].
    split; [intros i j Hi Hj; apply putImageData_get; assumption|].
    intros Hsw Hsh. split; [symmetry; exact Hsw|]. split; [symmetry; exact Hsh|].
    intros i j Hi Hj. change (i < width (canvas s0)) in Hi. change (j < height (canvas s0)) in Hj.
    rewrite putImageData_get by assumption.
    rewrite Hsw, Hsh.
    destruct (Nat.ltb_spec i (width (canvas s0))); [|lia].
    destruct (Nat.ltb_spec j (height (canvas s0))); [|lia]. reflexivity. }
  split; [|split; [exact Hgen|]].
  - intros s2. subst s2. rewrite run_app.
    destruct (run_gesture gesture s Hg Hne Hd Hw Hh) as (Hu1 & Hw1 & Hh1 & _).
    set (s1 := run paint hypot (frames gesture) s) in *.
    destruct (Hgen s1 _ _ Hu1) as (s' & Hundo & Hu' & Hw' & Hh' & _ & Hsame).
    assert (Hs2 : run paint hypot [UndoClick] s1 = s').
    { unfold run, dispatch. cbn [fold_left listener]. rewrite Hundo. reflexivity. }
    rewrite Hs2. split; [exact Hu'|].
    destruct (Hsame (eq_sym Hw1) (eq_sym Hh1)) as (Hsw & Hsh & Hpix).
    split; [exact Hsw|]. split; [exact Hsh|].
    intros i j Hi Hj. rewrite (Hpix i j Hi Hj).
    cbn [Raster.width Raster.build] in Hsw. cbn [Raster.height Raster.build] in Hsh.
    apply Raster_get_build; [rewrite <- Hsw|rewrite <- Hsh]; assumption.
  - intros s0 Hs. rewrite undo_eq, Hs. reflexivity.
Qed.

(* ================================================================== *)
(** ** Resize *)
(* ================================================================== *)

(** X25. On a canvas of non-zero width and height,
    [resizeCanvases] returns normally; the canvas takes the dimensions of
    the stage, and each of its pixels has the value the old canvas had at
    the same position -- transparent where the old canvas had no pixel, so
    what lay beyond the new dimensions is dropped.  The drawing flag, the
    last point, the point list, the smoothing window and the undo stack are
    not touched. *)
Theorem resize_copies_content_at_origin rect_w rect_h (s : DrawingManager num) :
  0 < width (canvas s) -> 0 < height (canvas s) ->
  exists s', resizeCanvases rect_w rect_h s = Ok tt s' /\
    width (canvas s') = rect_w /\ height (canvas s') = rect_h /\
    (forall i j, i < rect_w -> j < rect_h ->
       Raster.get (bitmap (canvas s')) i j = Raster.get (bitmap (canvas s)) i j) /\
    drawing s' = drawing s /\ lastPoint s' = lastPoint s /\ points s' = points s /\
    handSmoothing s' = handSmoothing s /\ undoStack s' = undoStack s.
Proof.
  intros Hw Hh. eexists.
  rewrite resizeCanvases_eq, getImageData_nonempty by assumption.
  split; [reflexivity|]. dm_simpl.
  split; [reflexivity|]. split; [reflexivity|].
  split; [|repeat split; reflexivity].
  intros i j Hi Hj. rewrite putImageData_get by assumption.
  cbn [Raster.width Raster.height Raster.build].
  destruct (Nat.ltb_spec i (width (canvas s))) as [Hiw|Hiw];
    destruct (Nat.ltb_spec j (height (canvas s))) as [Hjh|Hjh]; cbn [andb].
  - apply Raster_get_build; assumption.
  - rewrite (Raster_get_outside (bitmap (canvas s))) by (unfold height in Hjh; lia).
    apply Raster_get_build; assumption.
  - rewrite (Raster_get_outside (bitmap (canvas s))) by (unfold width in Hiw; lia).
    apply Raster_get_build; assumption.
  - rewrite (Raster_get_outside (bitmap (canvas s))) by (unfold width in Hiw; lia).
    apply Raster_get_build; assumption.
Qed.

End Facts.

(* ================================================================== *)
(** ** One hand of a frame *)
(* ================================================================== *)

(** Two managers with the same fields are the same manager. *)
Lemma DrawingManager_eq {num : Type} (a b : DrawingManager num) :
  canvas a = canvas b -> overlay a = overlay b -> lastPoint a = lastPoint b ->
  drawing a = drawing b -> undoStack a = undoStack b -> points a = points b ->
  handSmoothing a = handSmoothing b -> currentColor a = currentColor b ->
  currentSize a = currentSize b -> isMirrored a = isMirrored b -> a = b.
Proof. destruct a, b. cbn. intros; subst; reflexivity. Qed.

(** Equality of managers, field by field. *)
Ltac dm_ext :=
  lazymatch goal with
  | |- Ok ?a _ = Ok _ _ => apply (f_equal (Ok a))
  | |- Throw ?e _ = Throw _ _ => apply (f_equal (Throw e))
  | |- _ => idtac
  end;
  apply DrawingManager_eq; dm_simpl; reflexivity.

Section Runs.
Context {num : Type} `{JsNumber num} {colors : CssColors}.
Variable paint : Rasterizer num.
Variable hypot : num -> num -> num.

Lemma lookup_short {A} (l : list A) (k n : nat) : length l < n -> n <= S k -> l !! k = None.
Proof. intros Hl Hk. apply lookup_ge_None. lia. Qed.

(** The loop body on a hand that has its landmarks: the state it leaves is
    that of a frame with this hand, but for the overlay, which has not been
    cleared; it throws exactly when [hand_exception] says so. *)
Lemma onResults_hand_eq chk lms t i w (s : DrawingManager num) :
  lms !! 4 = Some t -> lms !! 8 = Some i -> lms !! 0 = Some w ->
  let raw := mapped chk (isMirrored s) (width (canvas s)) (height (canvas s)) i in
  let point := mean (window_push (handSmoothing s) raw) in
  let s' := with_overlay (hand_overlay lms point (pinched hypot t i w) (overlay s))
              (frame_end paint hypot chk lms t i w s) in
  onResults_hand paint hypot chk lms s =
  match hand_exception hypot t i w s with
  | None => Ok tt s'
  | Some e => Throw e s'
  end.
Proof.
  intros H4 H8 H0 raw point s'. subst s' point raw.
  unfold onResults_hand. rewrite H4, H8, H0.
  unfold frame_end, hand_exception, pinched.
  unfold overlayCtx, ctx_getImageData, bind, deref, gets, modify, ret.
  cbn [isMirrored with_overlay canvas overlay handSmoothing].
  rewrite smoothPoint_eq.
  cbn [isMirrored with_overlay canvas overlay handSmoothing with_handSmoothing drawing lastPoint].
  fold (mapped chk (isMirrored s) (width (canvas s)) (height (canvas s)) i).
  destruct (n_ltb _ _); dm_simpl.
  - destruct (drawing s); cbn [negb]; dm_simpl.
    + destruct (lastPoint s) as [from|].
      * rewrite drawLine_eq. dm_ext.
      * rewrite drawLine_null_eq. dm_ext.
    + destruct (getImageData _ _ _); dm_ext.
  - dm_ext.
Qed.

Lemma onResults_hand_short chk lms (s : DrawingManager num) :
  length lms < 9 ->
  onResults_hand paint hypot chk lms s =
  Throw TypeError (with_overlay (skeleton_only lms (overlay s)) s).
Proof.
  intros Hlen. unfold onResults_hand.
  rewrite (lookup_short lms 8 9) by lia.
  unfold overlayCtx, bind, deref, modify, throw.
  destruct (lms !! 4); reflexivity.
Qed.

Lemma complete_hand (lms : list (Point num)) :
  9 <= length lms -> exists t i w, lms !! 4 = Some t /\ lms !! 8 = Some i /\ lms !! 0 = Some w.
Proof.
  intros Hlen.
  destruct (lookup_lt_is_Some_2 lms 4) as [t Ht]; [lia|].
  destruct (lookup_lt_is_Some_2 lms 8) as [i Hi]; [lia|].
  destruct (lookup_lt_is_Some_2 lms 0) as [w Hw]; [lia|].
  exists t, i, w. repeat split; assumption.
Qed.

(** What one hand of a frame leaves behind. *)
Lemma onResults_hand_final chk lms (s : DrawingManager num) :
  let s' := final (onResults_hand paint hypot chk lms s) in
  (length lms < 9 /\ s' = with_overlay (skeleton_only lms (overlay s)) s) \/
  (exists t i w, lms !! 4 = Some t /\ lms !! 8 = Some i /\ lms !! 0 = Some w /\
     s' = with_overlay
            (hand_overlay lms
               (mean (window_push (handSmoothing s)
                        (mapped chk (isMirrored s) (width (canvas s)) (height (canvas s)) i)))
               (pinched hypot t i w) (overlay s))
            (frame_end paint hypot chk lms t i w s)).
Proof.
  intros s'. subst s'.
  destruct (Nat.lt_ge_cases (length lms) 9) as [Hshort|Hfull].
  - left. split; [exact Hshort|]. rewrite onResults_hand_short by exact Hshort. reflexivity.
  - right. destruct (complete_hand lms Hfull) as (t & i & w & H4 & H8 & H0).
    exists t, i, w. split; [exact H4|]. split; [exact H8|]. split; [exact H0|].
    rewrite (onResults_hand_eq chk lms t i w s H4 H8 H0). cbn zeta.
    destruct (hand_exception hypot t i w s); reflexivity.
Qed.

Lemma listener_frame chk lmss (s : DrawingManager num) :
  listener paint hypot (HandsResults chk lmss) s =
  for_of (default [] lmss) (onResults_hand paint hypot chk)
    (with_overlay (overlay_call (OClearRect (o_width (overlay s)) (o_height (overlay s)))
                     (overlay s)) s).
Proof. reflexivity. Qed.

Lemma for_of_cons {A} (a : A) (rest : list A) (body : A -> M num unit) (s : DrawingManager num) :
  for_of (a :: rest) body s =
  match body a s with
  | Ok _ s' => for_of rest body s'
  | Throw e s' => Throw e s'
  end.
Proof. reflexivity. Qed.

(* ================================================================== *)
(** ** Invariants of every run *)
(* ================================================================== *)

Lemma for_of_hands_invariant (P : DrawingManager num -> Prop) chk (hands : list (list (Point num))) :
  (forall lms s, P s -> P (final (onResults_hand paint hypot chk lms s))) ->
  forall s, P s -> P (final (for_of hands (onResults_hand paint hypot chk) s)).
Proof.
  intros Hstep. induction hands as [|lms rest IH]; intros s Hs; [exact Hs|].
  rewrite for_of_cons. specialize (Hstep lms s Hs).
  destruct (onResults_hand paint hypot chk lms s) as [[] s'|e s']; cbn [final] in Hstep.
  - apply IH. exact Hstep.
  - exact Hstep.
Qed.

(** A property that every listener keeps holds after every run. *)
Lemma invariant_in_every_run (P : DrawingManager num -> Prop) :
  (forall o s, P s -> P (with_overlay o s)) ->
  (forall chk lms s, P s -> P (final (onResults_hand paint hypot chk lms s))) ->
  (forall rw rh s, P s -> P (final (resizeCanvases rw rh s))) ->
  (forall s, P s -> P (final (undo s))) ->
  (forall s, P s -> P (final (clear s))) ->
  (forall v s, P s -> P (with_currentSize v s)) ->
  (forall v s, P s -> P (with_currentColor v s)) ->
  (forall v s, P s -> P (with_isMirrored v s)) ->
  forall events s, P s -> P (run paint hypot events s).
Proof.
  intros Hov Hhand Hres Hundo Hclear Hsize Hcol Hmir.
  induction events as [|e rest IH]; intros s Hs; [exact Hs|].
  rewrite run_cons. apply IH. unfold dispatch.
  destruct e as [rw rh| | |v|v|cx cy|cx cy| | | | |b|chk lmss]; cbn [listener].
  - apply Hres, Hs.
  - apply Hundo, Hs.
  - apply Hclear, Hs.
  - apply Hsize, Hs.
  - apply Hcol, Hs.
  - exact Hs.
  - exact Hs.
  - exact Hs.
  - exact Hs.
  - exact Hs.
  - exact Hs.
  - apply Hmir, Hs.
  - change (onResults paint hypot chk lmss s) with (listener paint hypot (HandsResults chk lmss) s).
    rewrite listener_frame. apply for_of_hands_invariant; [apply Hhand|apply Hov, Hs].
Qed.

Lemma final_resizeCanvases rw rh (s : DrawingManager num) :
  final (resizeCanvases rw rh s) = s \/
  final (resizeCanvases rw rh s) =
    with_canvas
      (putImageData
         (Raster.build (width (canvas s)) (height (canvas s)) (Raster.get (bitmap (canvas s))))
         (set_height rh (set_width rw (canvas s))))
      (with_overlay (overlay_set_height rh (overlay_set_width rw (overlay s))) s).
Proof.
  rewrite resizeCanvases_eq. unfold getImageData.
  destruct (_ || _); [left|right]; reflexivity.
Qed.

Lemma final_undo (s : DrawingManager num) :
  final (undo s) = s \/
  exists img, last (undoStack s) = Some img /\
    final (undo s) = with_canvas (putImageData img (canvas s))
                       (with_undoStack (removelast (undoStack s)) s).
Proof.
  rewrite undo_eq. destruct (last (undoStack s)) as [img|]; [right|left; reflexivity].
  exists img. split; reflexivity.
Qed.

Lemma clear_eq (s : DrawingManager num) :
  clear s = Ok tt (with_undoStack []
                     (with_canvas (clearRect (width (canvas s)) (height (canvas s)) (canvas s)) s)).
Proof. reflexivity. Qed.

(** The pen state and the point list agree, whatever happens. *)
Lemma frame_end_stroke_consistent chk lms t i w (s : DrawingManager num) :
  stroke_consistent s -> stroke_consistent (frame_end paint hypot chk lms t i w s).
Proof.
  intros [Hlast Hpen]. unfold frame_end, stroke_consistent.
  destruct (pinched hypot t i w).
  - destruct (drawing s) eqn:Hd.
    + destruct (lastPoint s) as [from|] eqn:Hl.
      * dm_simpl. rewrite last_snoc. split; [reflexivity|]. rewrite Hd. split; eauto.
      * exfalso. destruct Hpen as [Hsome _]. destruct (Hsome eq_refl) as [p Hp]. discriminate Hp.
    + destruct (getImageData _ _ _); dm_simpl; (split; [reflexivity|split; eauto]).
  - dm_simpl. split; [reflexivity|]. split; [discriminate|]. intros [p Hp]. discriminate Hp.
Qed.

Lemma stroke_consistent_with_overlay o (s : DrawingManager num) :
  stroke_consistent s -> stroke_consistent (with_overlay o s).
Proof. intros Hs. exact Hs. Qed.

Lemma hand_keeps_stroke_consistent chk lms (s : DrawingManager num) :
  stroke_consistent s -> stroke_consistent (final (onResults_hand paint hypot chk lms s)).
Proof.
  intros Hs.
  destruct (onResults_hand_final chk lms s) as [[_ ->]|(t & i & w & _ & _ & _ & ->)].
  - exact Hs.
  - apply stroke_consistent_with_overlay, frame_end_stroke_consistent, Hs.
Qed.

Lemma run_keeps_stroke_consistent (events : list (Event num)) (s : DrawingManager num) :
  stroke_consistent s -> stroke_consistent (run paint hypot events s).
Proof.
  apply invariant_in_every_run.
  - intros o s0 Hs. exact Hs.
  - intros chk lms s0 Hs. apply hand_keeps_stroke_consistent, Hs.
  - intros rw rh s0 Hs. destruct (final_resizeCanvases rw rh s0) as [->| ->]; exact Hs.
  - intros s0 Hs. destruct (final_undo s0) as [->|(img & _ & ->)]; exact Hs.
  - intros s0 Hs. exact Hs.
  - intros v s0 Hs. exact Hs.
  - intros v s0 Hs. exact Hs.
  - intros v s0 Hs. exact Hs.
Qed.

Lemma constructor_stroke_consistent cw ch ow oh :
  stroke_consistent (constructor cw ch ow oh : DrawingManager num).
Proof.
  split; [reflexivity|]. split; [discriminate|]. intros [p Hp]. discriminate Hp.
Qed.

(** X2. In every run of events from the constructor, the last point is the
    newest entry of the point list, the pen is down exactly when there is a
    last point, and it is up exactly when the point list is empty.  So
    [drawLine] is never handed a [null] starting point. *)
Theorem pen_state_agrees_with_points_in_every_run (events : list (Event num)) cw ch ow oh :
  let s := run paint hypot events (constructor cw ch ow oh) in
  lastPoint s = last (points s) /\
  (drawing s = true <-> is_Some (lastPoint s)) /\
  (drawing s = false <-> points s = []).
Proof.
  intros s.
  destruct (run_keeps_stroke_consistent events _ (constructor_stroke_consistent cw ch ow oh))
    as [Hlast Hpen].
  fold s in Hlast, Hpen. split; [exact Hlast|]. split; [exact Hpen|].
  rewrite <- last_None, <- Hlast.
  destruct (drawing s), (lastPoint s) as [p|]; split; intros Hx;
    try reflexivity; try discriminate Hx; exfalso.
  - destruct Hpen as [Hsome _]. destruct (Hsome eq_refl) as [q Hq]. discriminate Hq.
  - destruct Hpen as [_ Hdown]. assert (Hno : false = true) by (apply Hdown; eauto).
    discriminate Hno.
Qed.

(* ================================================================== *)
(** ** Clear *)
(* ================================================================== *)

Lemma clearRect_all (c : Canvas num) i j :
  Raster.get (bitmap (clearRect (width c) (height c) c)) i j = transparent.
Proof.
  destruct (Nat.lt_ge_cases i (width c)) as [Hi|Hi];
    [destruct (Nat.lt_ge_cases j (height c)) as [Hj|Hj]|].
  - unfold clearRect. cbn [bitmap]. rewrite Raster_get_build by assumption.
    destruct (Nat.ltb_spec i (width c)); [|lia].
    destruct (Nat.ltb_spec j (height c)); [|lia]. reflexivity.
  - apply Raster_get_outside. cbn [clearRect bitmap Raster.build Raster.width Raster.height]. lia.
  - apply Raster_get_outside. cbn [clearRect bitmap Raster.build Raster.width Raster.height]. lia.
Qed.

Lemma undo_on_empty_stack (s : DrawingManager num) :
  undoStack s = [] -> dispatch paint hypot UndoClick s = s.
Proof. intros Hs. unfold dispatch. cbn [listener]. rewrite undo_eq, Hs. reflexivity. Qed.

Lemma undos_on_empty_stack (n : nat) (s : DrawingManager num) :
  undoStack s = [] -> run paint hypot (replicate n UndoClick) s = s.
Proof.
  intros Hs. induction n as [|n IH]; [reflexivity|].
  cbn [replicate]. rewrite run_cons, undo_on_empty_stack by exact Hs. exact IH.
Qed.

(** X1. [clear] returns normally, leaves every pixel of the ink canvas
    transparent and the canvas at its size, and empties the undo stack; it
    does not lift the pen or touch the smoothing window.  No number of undos
    brings anything back: after a clear each undo finds the stack empty and
    changes nothing. *)
Theorem clear_erases_canvas_and_cannot_be_undone (s : DrawingManager num) (n : nat) :
  let s1 := dispatch paint hypot ClearClick s in
  listener paint hypot ClearClick s = Ok tt s1 /\
  width (canvas s1) = width (canvas s) /\ height (canvas s1) = height (canvas s) /\
  (forall i j, Raster.get (bitmap (canvas s1)) i j = transparent) /\
  undoStack s1 = [] /\
  drawing s1 = drawing s /\ lastPoint s1 = lastPoint s /\ points s1 = points s /\
  handSmoothing s1 = handSmoothing s /\
  run paint hypot (replicate n UndoClick) s1 = s1.
Proof.
  intros s1.
  assert (Hs1 : s1 = with_undoStack []
            (with_canvas (clearRect (width (canvas s)) (height (canvas s)) (canvas s)) s))
    by reflexivity.
  split; [reflexivity|].
  split; [reflexivity|]. split; [reflexivity|].
  split; [intros i j; rewrite Hs1; dm_simpl; apply clearRect_all|].
  split; [reflexivity|].
  split; [reflexivity|]. split; [reflexivity|]. split; [reflexivity|]. split; [reflexivity|].
  apply undos_on_empty_stack. reflexivity.
Qed.

(* ================================================================== *)
(** ** Exceptions of a frame *)
(* ================================================================== *)

Lemma getImageData_no_pixels (c : Canvas num) :
  no_pixels c -> getImageData (width c) (height c) c = inl IndexSizeError.
Proof.
  intros [Hw|Hh]; unfold getImageData.
  - rewrite Hw. reflexivity.
  - rewrite Hh. cbn [Nat.eqb]. rewrite orb_true_r. reflexivity.
Qed.

Lemma getImageData_error (c : Canvas num) e :
  getImageData (width c) (height c) c = inl e -> e = IndexSizeError /\ no_pixels c.
Proof.
  unfold getImageData, no_pixels.
  destruct (Nat.eqb_spec (width c) 0) as [Hw|Hw]; cbn [orb].
  - intros [= <-]. split; [reflexivity|left; exact Hw].
  - destruct (Nat.eqb_spec (height c) 0) as [Hh|Hh]; [|discriminate].
    intros [= <-]. split; [reflexivity|right; exact Hh].
Qed.

Lemma frame_end_size chk lms t i w (s : DrawingManager num) :
  width (canvas (frame_end paint hypot chk lms t i w s)) = width (canvas s) /\
  height (canvas (frame_end paint hypot chk lms t i w s)) = height (canvas s).
Proof.
  unfold frame_end. destruct (pinched hypot t i w); [destruct (drawing s)|].
  - destruct (lastPoint s); by_setters; split; reflexivity.
  - destruct (getImageData _ _ _); split; reflexivity.
  - split; reflexivity.
Qed.

Lemma hand_keeps_size chk lms (s : DrawingManager num) :
  width (canvas (final (onResults_hand paint hypot chk lms s))) = width (canvas s) /\
  height (canvas (final (onResults_hand paint hypot chk lms s))) = height (canvas s).
Proof.
  destruct (onResults_hand_final chk lms s) as [[_ ->]|(t & i & w & _ & _ & _ & ->)].
  - split; reflexivity.
  - apply frame_end_size.
Qed.

Lemma hand_exception_consistent t i w (s : DrawingManager num) e :
  stroke_consistent s -> hand_exception hypot t i w s = Some e ->
  e = IndexSizeError /\ no_pixels (canvas s).
Proof.
  intros [_ Hpen]. unfold hand_exception.
  destruct (pinched hypot t i w); [|discriminate].
  destruct (drawing s).
  - destruct (lastPoint s) as [from|]; [discriminate|].
    destruct Hpen as [Hsome _]. destruct (Hsome eq_refl) as [p Hp]. discriminate Hp.
  - destruct (getImageData _ _ _) as [e'|img] eqn:Hget; [|discriminate].
    intros [= <-]. apply getImageData_error. exact Hget.
Qed.

Lemma hand_exception_with_pixels t i w (s : DrawingManager num) :
  stroke_consistent s -> ~ no_pixels (canvas s) -> hand_exception hypot t i w s = None.
Proof.
  intros Hs Hpix. destruct (hand_exception hypot t i w s) as [e|] eqn:He; [|reflexivity].
  destruct (hand_exception_consistent t i w s e Hs He) as [_ Hno]. contradiction.
Qed.

Lemma for_of_hands_throw chk (hands : list (list (Point num))) :
  forall (s : DrawingManager num) e s',
  stroke_consistent s ->
  for_of hands (onResults_hand paint hypot chk) s = Throw e s' ->
  (e = TypeError /\ Exists (fun lms => length lms < 9) hands) \/
  (e = IndexSizeError /\ no_pixels (canvas s)).
Proof.
  induction hands as [|lms rest IH]; intros s e s' Hs; [discriminate|].
  rewrite for_of_cons.
  pose proof (hand_keeps_stroke_consistent chk lms s Hs) as Hs1.
  pose proof (hand_keeps_size chk lms s) as [Hw1 Hh1].
  destruct (Nat.lt_ge_cases (length lms) 9) as [Hshort|Hfull].
  - rewrite onResults_hand_short by exact Hshort. intros [= <- _].
    left. split; [reflexivity|]. apply Exists_cons_hd. exact Hshort.
  - destruct (complete_hand lms Hfull) as (t & i & w & H4 & H8 & H0).
    rewrite (onResults_hand_eq chk lms t i w s H4 H8 H0) in *. cbn zeta in *.
    destruct (hand_exception hypot t i w s) as [e0|] eqn:He0.
    + intros [= <- _]. right. exact (hand_exception_consistent t i w s e0 Hs He0).
    + cbn [final] in Hs1, Hw1, Hh1. intros Hrest.
      destruct (IH _ e s' Hs1 Hrest) as [[-> Hex]|[-> Hno]].
      * left. split; [reflexivity|]. apply Exists_cons_tl. exact Hex.
      * right. split; [reflexivity|]. unfold no_pixels in *. rewrite Hw1, Hh1 in Hno. exact Hno.
Qed.

Lemma for_of_hands_return chk (hands : list (list (Point num))) :
  forall s : DrawingManager num,
  stroke_consistent s -> ~ no_pixels (canvas s) ->
  Forall (fun lms => 9 <= length lms) hands ->
  exists s', for_of hands (onResults_hand paint hypot chk) s = Ok tt s'.
Proof.
  induction hands as [|lms rest IH]; intros s Hs Hpix Hall; [exists s; reflexivity|].
  apply Forall_cons in Hall as [Hfull Hrest].
  rewrite for_of_cons.
  pose proof (hand_keeps_stroke_consistent chk lms s Hs) as Hs1.
  pose proof (hand_keeps_size chk lms s) as [Hw1 Hh1].
  destruct (complete_hand lms Hfull) as (t & i & w & H4 & H8 & H0).
  rewrite (onResults_hand_eq chk lms t i w s H4 H8 H0) in *. cbn zeta in *.
  rewrite (hand_exception_with_pixels t i w s Hs Hpix) in *. cbn [final] in Hs1, Hw1, Hh1.
  apply IH; [exact Hs1| |exact Hrest].
  unfold no_pixels in *. rewrite Hw1, Hh1. exact Hpix.
Qed.

(** X3. After any run of events from the constructor, a frame whose hands
    all have nine landmarks or more returns normally as long as the ink
    canvas has pixels.  A frame can throw in two ways only: TypeError, at a
    hand with fewer than nine landmarks, or IndexSizeError, from the
    snapshot of a canvas without pixels. *)
Theorem frames_fail_only_on_short_hands_or_empty_canvas
    (events : list (Event num)) cw ch ow oh chk (lmss : option (list (list (Point num)))) :
  let s := run paint hypot events (constructor cw ch ow oh) in
  (Forall (fun lms => 9 <= length lms) (default [] lmss) -> ~ no_pixels (canvas s) ->
   exists s', listener paint hypot (HandsResults chk lmss) s = Ok tt s') /\
  (forall e s', listener paint hypot (HandsResults chk lmss) s = Throw e s' ->
     (e = TypeError /\ Exists (fun lms => length lms < 9) (default [] lmss)) \/
     (e = IndexSizeError /\ no_pixels (canvas s))).
Proof.
  intros s.
  pose proof (run_keeps_stroke_consistent events _ (constructor_stroke_consistent cw ch ow oh))
    as Hs.
  fold s in Hs. rewrite listener_frame. split.
  - intros Hall Hpix. apply for_of_hands_return; assumption.
  - intros e s' Hthrow.
    destruct (for_of_hands_throw chk _ _ e s' (stroke_consistent_with_overlay _ s Hs) Hthrow)
      as [Hl|Hr]; [left; exact Hl|right; exact Hr].
Qed.

(** X4. A hand with fewer than nine landmarks stops the frame with a
    TypeError at the first coordinate read.  By then the overlay has been
    cleared and the skeleton of that hand handed to the drawing utilities;
    nothing else of the manager has changed, and the hands that follow in the
    same frame are not looked at. *)
Theorem short_hand_aborts_frame chk (lms : list (Point num)) (rest : list (list (Point num)))
    (s : DrawingManager num) :
  length lms < 9 ->
  let o := fold_left (fun o k => overlay_call k o)
             [OClearRect (o_width (overlay s)) (o_height (overlay s));
              ODrawConnectors lms; ODrawLandmarks lms] (overlay s) in
  listener paint hypot (HandsResults chk (Some (lms :: rest))) s = Throw TypeError (with_overlay o s).
Proof.
  intros Hshort o. rewrite listener_frame.
  change (default [] (Some (lms :: rest))) with (lms :: rest).
  rewrite for_of_cons, onResults_hand_short by exact Hshort. reflexivity.
Qed.

(* ================================================================== *)
(** ** A canvas without pixels *)
(* ================================================================== *)

Lemma frame_end_undoStack_no_pixels chk lms t i w (s : DrawingManager num) :
  no_pixels (canvas s) ->
  undoStack (frame_end paint hypot chk lms t i w s) = undoStack s.
Proof.
  intros Hno. unfold frame_end. rewrite (getImageData_no_pixels _ Hno).
  destruct (pinched hypot t i w); [destruct (drawing s)|]; try reflexivity.
  destruct (lastPoint s); reflexivity.
Qed.

Lemma length_removelast_le {A} (l : list A) : length (removelast l) <= length l.
Proof.
  destruct l as [|a l] using rev_ind; [reflexivity|].
  rewrite removelast_last, length_app. lia.
Qed.

Lemma init_eq rw rh (s : DrawingManager num) :
  init rw rh s =
  match resizeCanvases rw rh s with
  | Ok _ s1 => Ok tt (with_canvas (set_imageSmoothing true "high" (canvas s1)) s1)
  | Throw e s1 => Throw e s1
  end.
Proof. reflexivity. Qed.

Lemma init_without_pixels rw rh (s : DrawingManager num) :
  no_pixels (canvas s) -> init rw rh s = Throw IndexSizeError s.
Proof.
  intros Hno. rewrite init_eq, resizeCanvases_eq, getImageData_no_pixels by exact Hno.
  reflexivity.
Qed.

(** X5. A canvas without pixels stays without pixels.  [resizeCanvases]
    reads the bitmap before it sets the new dimensions, and [getImageData]
    refuses an empty rectangle, so every resize throws before it changes
    anything, as does [init]; no other event changes the dimensions.  The undo
    stack never grows either, since the snapshot of a stroke start throws as
    well. *)
Theorem canvas_without_pixels_stays_so (events : list (Event num)) (s : DrawingManager num) :
  no_pixels (canvas s) ->
  let s' := run paint hypot events s in
  width (canvas s') = width (canvas s) /\ height (canvas s') = height (canvas s) /\
  length (undoStack s') <= length (undoStack s) /\
  (forall rw rh, listener paint hypot (WindowResize rw rh) s' = Throw IndexSizeError s') /\
  (forall rw rh, init rw rh s' = Throw IndexSizeError s').
Proof.
  intros Hno s'.
  set (P := fun m : DrawingManager num =>
    width (canvas m) = width (canvas s) /\ height (canvas m) = height (canvas s) /\
    length (undoStack m) <= length (undoStack s)).
  assert (Hkeep : forall m, P m -> no_pixels (canvas m)).
  { intros m (Hw & Hh & _). unfold no_pixels. rewrite Hw, Hh. exact Hno. }
  assert (HP : P s') by (
    apply invariant_in_every_run; [| | | | | | | |repeat split; reflexivity];
    [ intros o m Hm; exact Hm
    | intros chk lms m Hm;
      destruct (onResults_hand_final chk lms m) as [[_ ->]|(t & i & w & _ & _ & _ & ->)];
      [exact Hm|];
      destruct Hm as (Hw & Hh & Hu); destruct (frame_end_size chk lms t i w m) as [Hw' Hh'];
      unfold P; dm_simpl;
      rewrite Hw', Hh', (frame_end_undoStack_no_pixels chk lms t i w m)
        by (apply Hkeep; repeat split; assumption);
      repeat split; assumption
    | intros rw rh m Hm; rewrite resizeCanvases_eq, (getImageData_no_pixels _ (Hkeep m Hm));
      exact Hm
    | intros m Hm; destruct (final_undo m) as [->|(img & _ & ->)]; [exact Hm|];
      destruct Hm as (Hw & Hh & Hu); unfold P; dm_simpl;
      split; [exact Hw|]; split; [exact Hh|];
      pose proof (length_removelast_le (undoStack m)); lia
    | intros m (Hw & Hh & Hu); unfold P; rewrite clear_eq; dm_simpl;
      split; [exact Hw|]; split; [exact Hh|]; cbn [length]; lia
    | intros v m Hm; exact Hm
    | intros v m Hm; exact Hm
    | intros v m Hm; exact Hm ]).
  destruct HP as (Hw & Hh & Hu).
  split; [exact Hw|]. split; [exact Hh|]. split; [exact Hu|].
  assert (Hno' : no_pixels (canvas s')) by (apply Hkeep; repeat split; assumption).
  split; intros rw rh.
  - cbn [listener]. rewrite resizeCanvases_eq, getImageData_no_pixels by exact Hno'.
    reflexivity.
  - apply init_without_pixels. exact Hno'.
Qed.

(* ================================================================== *)
(** ** [init] and the context settings *)
(* ================================================================== *)

(** X6. [init] on a canvas with pixels returns normally: both canvases take
    the dimensions of the stage, image smoothing is on with quality "high",
    and the undo stack is untouched.  The quality does not outlast the next
    resize of the window: setting the canvas dimensions resets the context,
    and [resizeCanvases] does not set the quality again. *)
Theorem init_sizes_canvases_and_resize_resets_smoothing
    rect_w rect_h rect_w' rect_h' (s : DrawingManager num) :
  0 < width (canvas s) -> 0 < height (canvas s) -> 0 < rect_w -> 0 < rect_h ->
  exists s1, init rect_w rect_h s = Ok tt s1 /\
    width (canvas s1) = rect_w /\ height (canvas s1) = rect_h /\
    o_width (overlay s1) = rect_w /\ o_height (overlay s1) = rect_h /\
    imageSmoothingEnabled (settings (canvas s1)) = true /\
    imageSmoothingQuality (settings (canvas s1)) = "high" /\
    undoStack s1 = undoStack s /\
    settings (canvas (dispatch paint hypot (WindowResize rect_w' rect_h') s1))
      = default_DrawState /\
    imageSmoothingQuality
      (settings (canvas (dispatch paint hypot (WindowResize rect_w' rect_h') s1))) = "low".
Proof.
  intros Hw Hh Hrw Hrh. eexists.
  rewrite init_eq, resizeCanvases_eq, getImageData_nonempty by assumption.
  split; [reflexivity|]. dm_simpl.
  split; [reflexivity|]. split; [reflexivity|].
  split; [reflexivity|]. split; [reflexivity|].
  split; [reflexivity|]. split; [reflexivity|]. split; [reflexivity|].
  unfold dispatch. cbn [listener]. rewrite resizeCanvases_eq.
  rewrite getImageData_nonempty by (dm_simpl; assumption). split; reflexivity.
Qed.

(* ================================================================== *)
(** ** What is ever stroked *)
(* ================================================================== *)

Lemma frame_end_tidy chk lms t i w (s : DrawingManager num) :
  tidy s -> tidy (frame_end paint hypot chk lms t i w s).
Proof.
  intros (Hs & Hrest & Hall).
  split; [apply frame_end_stroke_consistent, Hs|].
  destruct Hs as [_ Hpen]. unfold frame_end.
  destruct (pinched hypot t i w); [destruct (drawing s)|].
  - destruct (lastPoint s) as [from|].
    + dm_simpl.
      destruct (line_drawn_fields paint from
                  (mean (window_push (handSmoothing s)
                     (mapped chk (isMirrored s) (width (canvas s)) (height (canvas s)) i)))
                  (currentColor s) (currentSize s) (canvas s))
        as (Hset & Hsav & _ & Hstr & _).
      unfold context_at_rest. rewrite Hset, Hsav, Hstr. split; [exact Hrest|].
      apply Forall_app. split; [exact Hall|]. apply Forall_singleton.
      split; [reflexivity|]. eexists _, _. reflexivity.
    + exfalso. destruct Hpen as [Hsome _]. destruct (Hsome eq_refl) as [p Hp]. discriminate Hp.
  - destruct (getImageData _ _ _); dm_simpl; split; assumption.
  - dm_simpl. split; assumption.
Qed.

Lemma run_keeps_tidy (events : list (Event num)) (s : DrawingManager num) :
  tidy s -> tidy (run paint hypot events s).
Proof.
  apply invariant_in_every_run.
  - intros o m Hm. exact Hm.
  - intros chk lms m Hm.
    destruct (onResults_hand_final chk lms m) as [[_ ->]|(t & i & w & _ & _ & _ & ->)].
    + exact Hm.
    + exact (frame_end_tidy chk lms t i w m Hm).
  - intros rw rh m Hm. destruct (final_resizeCanvases rw rh m) as [->| ->]; [exact Hm|].
    destruct Hm as (Hs & _ & Hall). split; [exact Hs|]. dm_simpl.
    split; [|exact Hall]. repeat split; reflexivity.
  - intros m Hm. destruct (final_undo m) as [->|(img & _ & ->)]; exact Hm.
  - intros m Hm. exact Hm.
  - intros v m Hm. exact Hm.
  - intros v m Hm. exact Hm.
  - intros v m Hm. exact Hm.
Qed.

(** X7. In every run of events from the constructor, everything that has
    been stroked on the ink canvas is a single segment -- one [moveTo] and
    one [lineTo] -- with a round cap.  Between events the context has nothing
    on its stack of saved states, and its stroke colour, line width and line
    cap are those of a fresh context: what [drawLine] sets never leaks. *)
Theorem every_stroke_is_one_round_segment (events : list (Event num)) cw ch ow oh :
  let s := run paint hypot events (constructor cw ch ow oh) in
  Forall (fun st => lineCap (fst st) = "round" /\
                    exists from to : Point num,
                      snd st = [MoveTo (x from) (y from); LineTo (x to) (y to)])
    (strokes (canvas s)) /\
  saved (canvas s) = [] /\
  strokeStyle (settings (canvas s)) = "#000000" /\
  lineWidth (settings (canvas s)) = n_one /\
  lineCap (settings (canvas s)) = "butt".
Proof.
  intros s.
  assert (Hstart : tidy (constructor cw ch ow oh : DrawingManager num)).
  { split; [apply constructor_stroke_consistent|]. split; [|apply Forall_nil_2].
    repeat split; reflexivity. }
  destruct (run_keeps_tidy events _ Hstart) as (_ & Hrest & Hall). fold s in Hrest, Hall.
  split; [exact Hall|exact Hrest].
Qed.

(* ================================================================== *)
(** ** Events in the middle of a stroke *)
(* ================================================================== *)

Lemma other_events_keep_pen (e : Event num) (s : DrawingManager num) :
  brings_hand e = false ->
  drawing (dispatch paint hypot e s) = drawing s /\
  lastPoint (dispatch paint hypot e s) = lastPoint s /\
  points (dispatch paint hypot e s) = points s /\
  strokes (canvas (dispatch paint hypot e s)) = strokes (canvas s) /\
  currentColor (dispatch paint hypot e s) = match e with ColorInput v => v | _ => currentColor s end /\
  currentSize (dispatch paint hypot e s) = match e with SizeInput v => v | _ => currentSize s end.
Proof.
  intros He. unfold dispatch.
  destruct e as [rw rh| | |v|v|cx cy|cx cy| | | | |b|chk [[|lms rest]|]];
    try discriminate He; try (repeat split; reflexivity).
  - cbn [listener]. destruct (final_resizeCanvases rw rh s) as [->| ->]; repeat split; reflexivity.
  - cbn [listener]. destruct (final_undo s) as [->|(img & _ & ->)]; repeat split; reflexivity.
Qed.

Lemma other_events_keep_pen_run (events : list (Event num)) :
  forall s : DrawingManager num,
  Forall (fun e => brings_hand e = false) events ->
  drawing (run paint hypot events s) = drawing s /\
  lastPoint (run paint hypot events s) = lastPoint s /\
  points (run paint hypot events s) = points s /\
  strokes (canvas (run paint hypot events s)) = strokes (canvas s).
Proof.
  induction events as [|e rest IH]; intros s Hall; [repeat split; reflexivity|].
  apply Forall_cons in Hall as [He Hrest]. rewrite run_cons.
  destruct (other_events_keep_pen e s He) as (Hd & Hl & Hp & Hst & _).
  destruct (IH (dispatch paint hypot e s) Hrest) as (Hd' & Hl' & Hp' & Hst').
  rewrite Hd', Hl', Hp', Hst', Hd, Hl, Hp, Hst. repeat split; reflexivity.
Qed.

(** X9. Only a frame with a hand lifts the pen.  Undo, clear, a resize, the
    size and colour controls, the mirror checkbox, pointer events and frames
    without a hand, in any number and order, leave the drawing flag, the last
    point and the point list as they were and stroke nothing.  A pinch that
    goes on after them continues the stroke: it draws from the last point of
    before and pushes no snapshot. *)
Theorem only_a_frame_with_a_hand_lifts_the_pen
    (events : list (Event num)) chk (lms : list (Point num)) (from : Point num)
    (s : DrawingManager num) :
  Forall (fun e => brings_hand e = false) events ->
  drawing s = true -> lastPoint s = Some from ->
  classify hypot lms = Some true ->
  let s1 := run paint hypot events s in
  let s2 := dispatch paint hypot (frame chk lms) s1 in
  drawing s1 = true /\ lastPoint s1 = Some from /\ points s1 = points s /\
  strokes (canvas s1) = strokes (canvas s) /\
  undoStack s2 = undoStack s1 /\
  exists point, lastPoint s2 = Some point /\
    snd <$> strokes (canvas s2) =
      (snd <$> strokes (canvas s)) ++ [[MoveTo (x from) (y from); LineTo (x point) (y point)]].
Proof.
  intros Hall Hd Hl Hc s1 s2.
  destruct (other_events_keep_pen_run events s Hall) as (Hd1 & Hl1 & Hp1 & Hst1).
  fold s1 in Hd1, Hl1, Hp1, Hst1. rewrite Hd in Hd1. rewrite Hl in Hl1.
  destruct (frame_continue paint hypot chk lms s1 from Hc Hd1 Hl1)
    as (i & _ & _ & Hl2 & Hu2 & _ & Hc2 & _).
  fold s2 in Hl2, Hu2, Hc2.
  split; [exact Hd1|]. split; [exact Hl1|]. split; [exact Hp1|]. split; [exact Hst1|].
  split; [exact Hu2|].
  eexists. split; [exact Hl2|].
  rewrite Hc2.
  match goal with
  | |- context [line_drawn paint from ?pt ?c ?z ?cv] =>
      destruct (line_drawn_fields paint from pt c z cv) as (_ & _ & _ & -> & _)
  end.
  rewrite fmap_app, Hst1. reflexivity.
Qed.

(** X8. A colour and a size chosen while the pen is down are held by the
    manager at once and are used by the next segment where the context takes
    them: the frame that follows strokes from the last point to its own
    point, with a round cap, in the new colour if the string parses as a
    colour and in the new width if the number is finite and above zero.  A
    value that the context does not take leaves that setting of the stroke
    as the context had it.  The stroke goes on; no snapshot is pushed. *)
Theorem colour_and_size_apply_from_the_next_segment
    (color : string) (size : num) chk (lms : list (Point num)) (from : Point num)
    (s : DrawingManager num) :
  drawing s = true -> lastPoint s = Some from ->
  classify hypot lms = Some true ->
  let s' := run paint hypot [ColorInput color; SizeInput size; frame chk lms] s in
  exists point, lastPoint s' = Some point /\
    strokes (canvas s') = strokes (canvas s) ++
      [({| strokeStyle :=
             if is_color color then color else strokeStyle (settings (canvas s));
           lineWidth :=
             if n_finite size && (n_zero <? size)%js then size
             else lineWidth (settings (canvas s));
           lineCap := "round";
           imageSmoothingEnabled := imageSmoothingEnabled (settings (canvas s));
           imageSmoothingQuality := imageSmoothingQuality (settings (canvas s)) |},
        [MoveTo (x from) (y from); LineTo (x point) (y point)])] /\
    undoStack s' = undoStack s /\ drawing s' = true /\
    currentColor s' = color /\ currentSize s' = size.
Proof.
  intros Hd Hl Hc s'.
  set (s1 := with_currentSize size (with_currentColor color s)).
  assert (Hs' : s' = dispatch paint hypot (frame chk lms) s1) by reflexivity.
  destruct (frame_continue paint hypot chk lms s1 from Hc Hd Hl)
    as (i & _ & Hd2 & Hl2 & Hu2 & _ & Hc2 & _ & Hcol2 & Hsz2).
  rewrite <- Hs' in Hd2, Hl2, Hu2, Hc2, Hcol2, Hsz2.
  eexists. split; [exact Hl2|].
  split.
  { rewrite Hc2.
    match goal with
    | |- context [line_drawn paint from ?pt ?c ?z ?cv] =>
        destruct (line_drawn_fields paint from pt c z cv) as (_ & _ & _ & -> & _)
    end.
    reflexivity. }
  split; [exact Hu2|]. split; [exact Hd2|]. split; [exact Hcol2|exact Hsz2].
Qed.

(* ================================================================== *)
(** ** Strokes and undos *)
(* ================================================================== *)

Lemma Raster_same_refl (r : Raster.t) : Raster.same r r.
Proof. repeat split; reflexivity. Qed.

Lemma Raster_same_build (r : Raster.t) :
  Raster.same (Raster.build (Raster.width r) (Raster.height r) (Raster.get r)) r.
Proof.
  split; [reflexivity|]. split; [reflexivity|].
  intros i j Hi Hj. apply Raster_get_build; assumption.
Qed.

Lemma Raster_same_trans (a b c : Raster.t) :
  Raster.same a b -> Raster.same b c -> Raster.same a c.
Proof.
  intros (Hw & Hh & Hp) (Hw' & Hh' & Hp').
  split; [congruence|]. split; [congruence|].
  intros i j Hi Hj. rewrite Hp by assumption. apply Hp'; [rewrite <- Hw|rewrite <- Hh]; assumption.
Qed.

(** A whole stroke from Idle. *)
Lemma run_stroke_frames (st : list (bool * list (Point num)) * (bool * list (Point num)))
    (s : DrawingManager num) :
  is_stroke hypot st -> drawing s = false ->
  0 < width (canvas s) -> 0 < height (canvas s) ->
  let s' := run paint hypot (stroke_frames st) s in
  undoStack s' = undoStack s ++
    [Raster.build (width (canvas s)) (height (canvas s)) (Raster.get (bitmap (canvas s)))] /\
  width (canvas s') = width (canvas s) /\ height (canvas s') = height (canvas s) /\
  drawing s' = false.
Proof.
  intros (Hg & Hne & Hr) Hd Hw Hh s'. destruct st as [g [chk_r release]]. cbn [fst snd] in *.
  destruct (run_gesture paint hypot g s Hg Hne Hd Hw Hh) as (Hu1 & Hw1 & Hh1 & _).
  set (s1 := run paint hypot (frames g) s) in *.
  destruct (frame_stop paint hypot chk_r release s1 Hr)
    as (i & _ & Hd2 & _ & _ & Hu2 & _ & Hc2 & _).
  assert (Hs' : s' = dispatch paint hypot (frame chk_r release) s1).
  { subst s'. unfold stroke_frames. cbn [fst snd]. rewrite frames_app, run_app. reflexivity. }
  rewrite Hs', Hu2, Hc2, Hu1, Hw1, Hh1. repeat split; try reflexivity. exact Hd2.
Qed.

(** Undo of a snapshot that has the dimensions of the canvas. *)
Lemma undo_snapshot_of_same_size (s : DrawingManager num) rest (r : Raster.t) :
  undoStack s = rest ++ [Raster.build (Raster.width r) (Raster.height r) (Raster.get r)] ->
  Raster.width r = width (canvas s) -> Raster.height r = height (canvas s) ->
  let s' := dispatch paint hypot UndoClick s in
  undoStack s' = rest /\ Raster.same (bitmap (canvas s')) r /\ drawing s' = drawing s.
Proof.
  intros Hs Hw Hh s'. subst s'. unfold dispatch. cbn [listener].
  rewrite undo_eq, Hs, last_snoc, removelast_last. dm_simpl.
  split; [reflexivity|]. split; [|reflexivity].
  apply (Raster_same_trans _ (Raster.build (Raster.width r) (Raster.height r) (Raster.get r)));
    [|apply Raster_same_build].
  split; [symmetry; exact Hw|]. split; [symmetry; exact Hh|].
  intros i j Hi Hj. change (i < width (canvas s)) in Hi. change (j < height (canvas s)) in Hj.
  rewrite putImageData_get by assumption.
  cbn [Raster.width Raster.height Raster.build]. rewrite Hw, Hh.
  destruct (Nat.ltb_spec i (width (canvas s))); [|lia].
  destruct (Nat.ltb_spec j (height (canvas s))); [|lia]. reflexivity.
Qed.

Lemma replicate_snoc {A} (n : nat) (a : A) : replicate (S n) a = replicate n a ++ [a].
Proof. induction n as [|n IH]; [reflexivity|]. cbn [replicate app] in *. rewrite <- IH. reflexivity. Qed.

(** X10. Undo works last in, first out over whole strokes.  After any number
    of strokes -- each a pinch of one or more frames followed by a release --
    drawn from Idle on a canvas with pixels, as many undos leave the undo
    stack as it was before the first of them, and the canvas pixel for pixel
    as it was then. *)
Theorem strokes_are_undone_last_first
    (sts : list (list (bool * list (Point num)) * (bool * list (Point num)))) :
  forall s : DrawingManager num,
  Forall (is_stroke hypot) sts -> drawing s = false ->
  0 < width (canvas s) -> 0 < height (canvas s) ->
  let s' := run paint hypot
              (concat (stroke_frames <$> sts) ++ replicate (length sts) UndoClick) s in
  undoStack s' = undoStack s /\
  Raster.same (bitmap (canvas s')) (bitmap (canvas s)) /\
  drawing s' = false.
Proof.
  induction sts as [|st rest IH]; intros s Hall Hd Hw Hh s'.
  - subst s'. split; [reflexivity|]. split; [apply Raster_same_refl|exact Hd].
  - apply Forall_cons in Hall as [Hst Hrest].
    destruct (run_stroke_frames st s Hst Hd Hw Hh) as (Hu1 & Hw1 & Hh1 & Hd1).
    set (s1 := run paint hypot (stroke_frames st) s) in *.
    assert (Hw1' : 0 < width (canvas s1)) by (rewrite Hw1; exact Hw).
    assert (Hh1' : 0 < height (canvas s1)) by (rewrite Hh1; exact Hh).
    destruct (IH s1 Hrest Hd1 Hw1' Hh1') as (Hu2 & (Hsw & Hsh & _) & Hd2).
    set (s2 := run paint hypot
                 (concat (stroke_frames <$> rest) ++ replicate (length rest) UndoClick) s1) in *.
    assert (Hs' : s' = dispatch paint hypot UndoClick s2).
    { subst s' s2 s1. cbn [fmap list_fmap concat length].
      rewrite replicate_snoc, <- app_assoc, run_app, app_assoc, run_app. reflexivity. }
    rewrite Hu1 in Hu2.
    destruct (undo_snapshot_of_same_size s2 (undoStack s) (bitmap (canvas s)) Hu2)
      as (Hu3 & Hsame & Hd3).
    + change (width (canvas s) = width (canvas s2)). unfold width at 2. rewrite Hsw.
      symmetry. exact Hw1.
    + change (height (canvas s) = height (canvas s2)). unfold height at 2. rewrite Hsh.
      symmetry. exact Hh1.
    + rewrite Hs'. split; [exact Hu3|]. split; [exact Hsame|]. rewrite Hd3. exact Hd2.
Qed.

End Runs.

(* ================================================================== *)
(** ** Facts about strings *)
(* ================================================================== *)

Lemma trimStart_not_white (s : JsStr) :
  match trimStart s with
  | c :: _ => is_white c = false
  | [] => True
  end.
Proof.
  induction s as [|c rest IH]; [exact I|]. cbn [trimStart].
  destruct (is_white c) eqn:Hc; [exact IH|exact Hc].
Qed.

Lemma trimStart_fixed (s : JsStr) :
  match s with c :: _ => is_white c = false | [] => True end -> trimStart s = s.
Proof. destruct s as [|c rest]; [reflexivity|]. cbn [trimStart]. intros ->. reflexivity. Qed.

Lemma trimStart_idem (s : JsStr) : trimStart (trimStart s) = trimStart s.
Proof. apply trimStart_fixed, trimStart_not_white. Qed.

Lemma trimStart_suffix (s : JsStr) : exists pre, s = pre ++ trimStart s.
Proof.
  induction s as [|c rest [pre IH]]; [exists []; reflexivity|]. cbn [trimStart].
  destruct (is_white c); [|exists []; reflexivity].
  exists (c :: pre). cbn [app]. rewrite <- IH. reflexivity.
Qed.

Lemma trimEnd_idem (s : JsStr) : trimEnd (trimEnd s) = trimEnd s.
Proof. unfold trimEnd. rewrite rev_involutive, trimStart_idem. reflexivity. Qed.

(** The start of a string survives [trimEnd] unless the whole string goes. *)
Lemma trimEnd_head (s : JsStr) c rest :
  s = c :: rest -> is_white c = false -> exists rest', trimEnd s = c :: rest'.
Proof.
  intros -> Hc. unfold trimEnd.
  destruct (trimStart_suffix (rev (c :: rest))) as [pre Hpre].
  assert (Hne : trimStart (rev (c :: rest)) <> []).
  { cbn [rev]. intros Hnil.
    assert (Hall : forall l : JsStr, trimStart l = [] -> Forall (fun k => is_white k = true) l).
    { induction l as [|k l IH]; [constructor|]. cbn [trimStart].
      destruct (is_white k) eqn:Hk; [|discriminate]. intros Hl. constructor; [exact Hk|auto]. }
    apply Hall, Forall_app in Hnil as [_ Hlast].
    apply Forall_cons in Hlast as [Hw _]. cbn beta in Hw. congruence. }
  apply (f_equal (@rev N)) in Hpre. rewrite rev_involutive, rev_app_distr in Hpre.
  destruct (rev (trimStart (rev (c :: rest)))) as [|k l] eqn:Hrev.
  - exfalso. apply Hne. apply (f_equal (@rev N)) in Hrev. rewrite rev_involutive in Hrev.
    exact Hrev.
  - cbn [app] in Hpre. injection Hpre as <- _. eexists. reflexivity.
Qed.

Lemma trim_idem (s : JsStr) : trim (trim s) = trim s.
Proof.
  unfold trim.
  assert (Hfix : trimStart (trimEnd (trimStart s)) = trimEnd (trimStart s)).
  { apply trimStart_fixed.
    pose proof (trimStart_not_white s) as Hhead.
    destruct (trimStart s) as [|c rest] eqn:Hs.
    - reflexivity.
    - destruct (trimEnd_head (c :: rest) c rest eq_refl Hhead) as [rest' ->]. exact Hhead. }
  rewrite Hfix. apply trimEnd_idem.
Qed.

Lemma trimEnd_last (s : JsStr) c front : trimEnd s = front ++ [c] -> is_white c = false.
Proof.
  unfold trimEnd. intros Heq. apply (f_equal (@rev N)) in Heq.
  rewrite rev_involutive, rev_app_distr in Heq. cbn [rev app] in Heq.
  pose proof (trimStart_not_white (rev s)) as Hhead. rewrite Heq in Hhead. exact Hhead.
Qed.

(** A trimmed string neither starts nor ends with white space. *)
Lemma trim_ends (s : JsStr) :
  (forall c rest, trim s = c :: rest -> is_white c = false) /\
  (forall c front, trim s = front ++ [c] -> is_white c = false).
Proof.
  split.
  - intros c rest Heq. unfold trim in Heq.
    pose proof (trimStart_not_white s) as Hhead.
    destruct (trimStart s) as [|k l] eqn:Hs; [discriminate Heq|].
    destruct (trimEnd_head (k :: l) k l eq_refl Hhead) as [l' Hl'].
    rewrite Hl' in Heq. injection Heq as <- _. exact Hhead.
  - intros c front Heq. unfold trim in Heq. eapply trimEnd_last. exact Heq.
Qed.

(* ================================================================== *)
(** ** Facts about [TextManager] *)
(* ================================================================== *)

Module TextFacts.
Import Text.

Lemma TextManager_eq {num : Type} (a b : TextManager num) :
  canvas a = canvas b -> textInput a = textInput b -> notesList a = notesList b ->
  objects a = objects b -> items a = items b -> selectedItem a = selectedItem b ->
  draggingItem a = draggingItem b -> dragOffset a = dragOffset b ->
  notifications a = notifications b -> a = b.
Proof. destruct a, b. cbn. intros; subst; reflexivity. Qed.

Lemma painted_fields {num : Type} (a : list (TextCall num)) (s : TextManager num) :
  t_width (canvas (painted a s)) = t_width (canvas s) /\
  t_height (canvas (painted a s)) = t_height (canvas s) /\
  t_calls (canvas (painted a s)) = t_calls (canvas s) ++ a /\
  textInput (painted a s) = textInput s /\ notesList (painted a s) = notesList s /\
  objects (painted a s) = objects s /\ items (painted a s) = items s /\
  selectedItem (painted a s) = selectedItem s /\
  draggingItem (painted a s) = draggingItem s /\ dragOffset (painted a s) = dragOffset s /\
  notifications (painted a s) = notifications s.
Proof. repeat split; reflexivity. Qed.

(** Projections of a manager after field updates. *)
Ltac tm_simpl :=
  cbn [canvas textInput notesList objects items selectedItem draggingItem dragOffset
       notifications with_canvas with_textInput with_notesList with_objects with_items
       with_selectedItem with_draggingItem with_dragOffset with_notifications
       t_width t_height t_calls St.after St.value];
  repeat match goal with
  | |- context [t_width (canvas (painted ?a ?s))] =>
      change (t_width (canvas (painted a s))) with (t_width (canvas s))
  | |- context [t_height (canvas (painted ?a ?s))] =>
      change (t_height (canvas (painted a s))) with (t_height (canvas s))
  | |- context [t_calls (canvas (painted ?a ?s))] =>
      change (t_calls (canvas (painted a s))) with (t_calls (canvas s) ++ a)
  | |- context [textInput (painted ?a ?s)] =>
      change (textInput (painted a s)) with (textInput s)
  | |- context [notesList (painted ?a ?s)] =>
      change (notesList (painted a s)) with (notesList s)
  | |- context [objects (painted ?a ?s)] =>
      change (objects (painted a s)) with (objects s)
  | |- context [items (painted ?a ?s)] =>
      change (items (painted a s)) with (items s)
  | |- context [selectedItem (painted ?a ?s)] =>
      change (selectedItem (painted a s)) with (selectedItem s)
  | |- context [draggingItem (painted ?a ?s)] =>
      change (draggingItem (painted a s)) with (draggingItem s)
  | |- context [dragOffset (painted ?a ?s)] =>
      change (dragOffset (painted a s)) with (dragOffset s)
  | |- context [notifications (painted ?a ?s)] =>
      change (notifications (painted a s)) with (notifications s)
  | _ => progress cbn [canvas textInput notesList objects items selectedItem draggingItem
       dragOffset notifications with_canvas with_textInput with_notesList with_objects
       with_items with_selectedItem with_draggingItem with_dragOffset with_notifications
       t_width t_height t_calls]
  end.

Ltac tm_ext :=
  lazymatch goal with
  | |- St.Done ?a _ = St.Done _ _ => apply (f_equal (St.Done a))
  | |- St.Raised ?e _ = St.Raised _ _ => apply (f_equal (St.Raised e))
  | |- _ => idtac
  end;
  apply TextManager_eq; tm_simpl; try reflexivity.

(** Running the monad: one step at a time. *)
Ltac st_step :=
  lazy beta iota zeta delta
    [St.bind St.ret St.gets St.modify St.raise St.deref ctx showNotification];
  tm_simpl.

Section TextLaws.
Context {num : Type} `{JsMath num}.
Variable measureText : num -> JsStr -> num.

Lemma insert_lookup_same {A} (l : list A) (i : nat) (v : A) :
  is_Some (l !! i) -> <[i := v]> l !! i = Some v.
Proof. intros Hi. apply list_lookup_insert_eq, lookup_lt_is_Some. exact Hi. Qed.

Lemma insert_keeps_is_Some {A} (l : list A) (i j : nat) (v : A) :
  is_Some (l !! j) -> is_Some (<[i := v]> l !! j).
Proof.
  intros Hj. apply lookup_lt_is_Some. rewrite length_insert. apply lookup_lt_is_Some. exact Hj.
Qed.

Lemma read_eq (ref : nat) (it : Item.t num) (s : TextManager num) :
  objects s !! ref = Some it -> read ref s = St.Done it s.
Proof. intros Hit. unfold read. st_step. rewrite Hit. reflexivity. Qed.

Lemma read_dangling (ref : nat) (s : TextManager num) :
  objects s !! ref = None -> read ref s = St.Raised TypeError s.
Proof. intros Hit. unfold read. st_step. rewrite Hit. reflexivity. Qed.

Lemma assign_eq (ref : nat) f (it : Item.t num) (s : TextManager num) :
  objects s !! ref = Some it ->
  assign ref f s = St.Done tt (with_objects (<[ref := f it]> (objects s)) s).
Proof. intros Hit. unfold assign. unfold St.bind. rewrite (read_eq ref it s Hit). reflexivity. Qed.

Lemma boxed_id cw (it : Item.t num) : Item.id (boxed measureText cw it) = Item.id it.
Proof. reflexivity. Qed.

Lemma ctx_eq (k : TextCall num) (s : TextManager num) : ctx k s = St.Done tt (painted [k] s).
Proof. reflexivity. Qed.

Lemma painted_painted (a b : list (TextCall num)) (s : TextManager num) :
  painted b (painted a s) = painted (a ++ b) s.
Proof. unfold painted. tm_ext. tm_simpl. rewrite <- app_assoc. reflexivity. Qed.

Lemma painted_nil (s : TextManager num) : painted [] s = s.
Proof.
  unfold painted. tm_ext. rewrite app_nil_r. destruct (canvas s); reflexivity.
Qed.

Lemma painted_with_objects (a : list (TextCall num)) v (s : TextManager num) :
  with_objects v (painted a s) = painted a (with_objects v s).
Proof. reflexivity. Qed.

Lemma bind_done {A B} (m : M num A) (k : A -> M num B) (s s' : TextManager num) a :
  m s = St.Done a s' -> St.bind m k s = k a s'.
Proof. intros Hm. unfold St.bind. rewrite Hm. reflexivity. Qed.

Lemma bind_raised {A B} (m : M num A) (k : A -> M num B) (s s' : TextManager num) e :
  m s = St.Raised e s' -> St.bind m k s = St.Raised e s'.
Proof. intros Hm. unfold St.bind. rewrite Hm. reflexivity. Qed.

(** Running a method one statement at a time. *)
Ltac st_next :=
  lazymatch goal with
  | |- context [St.bind (ctx ?k) ?K ?s] =>
      rewrite (bind_done (ctx k) K s _ tt (ctx_eq k s)); cbn beta
  | |- context [St.bind (St.gets ?f) ?K ?s] =>
      rewrite (bind_done (St.gets f) K s s (f s) eq_refl); cbn beta
  | |- context [St.bind (St.modify ?f) ?K ?s] =>
      rewrite (bind_done (St.modify f) K s (f s) tt eq_refl); cbn beta
  end.

Lemma createLinearGradient_eq (x0 y0 x1 y1 : num) stops (s : TextManager num) :
  n_finite x0 && n_finite y0 && n_finite x1 && n_finite y1 = true ->
  createLinearGradient x0 y0 x1 y1 stops s = St.Done (VGradient x0 y0 x1 y1 stops) s.
Proof. intros Hfin. unfold createLinearGradient. rewrite Hfin. reflexivity. Qed.

Lemma createLinearGradient_stuck (x0 y0 x1 y1 : num) stops (s : TextManager num) :
  n_finite x0 && n_finite y0 && n_finite x1 && n_finite y1 = false ->
  createLinearGradient x0 y0 x1 y1 stops s = St.Raised TypeError s.
Proof. intros Hfin. unfold createLinearGradient. rewrite Hfin. reflexivity. Qed.

(** Painting an item that the canvas accepts. *)
Lemma paintItem_eq (ref : nat) (it : Item.t num) (s : TextManager num) :
  objects s !! ref = Some it -> paintable it = true ->
  paintItem measureText ref s =
  St.Done tt
    (painted (paint_calls measureText (t_width (canvas s)) it)
       (with_objects (<[ref := boxed measureText (t_width (canvas s)) it]> (objects s)) s)).
Proof.
  intros Hit Hp.
  assert (Hsome : is_Some (objects s !! ref)) by eauto.
  unfold paintable, box_h, is_note in Hp.
  unfold paintItem, paint_calls, boxed, box_w, box_h, is_note.
  rewrite (bind_done _ _ s s it (read_eq ref it s Hit)).
  destruct (String.eqb (Item.type it) "note") eqn:Hnote.
  - cbn [negb orb] in Hp. do 2 st_next.
    erewrite bind_done by (eapply assign_eq; exact Hit).
    erewrite bind_done
      by (eapply assign_eq; tm_simpl; apply insert_lookup_same; exact Hsome).
    do 4 st_next.
    erewrite bind_done by (apply createLinearGradient_eq; exact Hp).
    do 5 st_next. rewrite ctx_eq. tm_simpl.
    rewrite !painted_painted, !painted_with_objects, !painted_painted.
    rewrite list_insert_insert_eq. reflexivity.
  - do 1 st_next.
    erewrite bind_done by (eapply assign_eq; exact Hit).
    erewrite bind_done
      by (eapply assign_eq; tm_simpl; apply insert_lookup_same; exact Hsome).
    do 7 st_next. rewrite ctx_eq. tm_simpl.
    rewrite !painted_painted, !painted_with_objects, !painted_painted.
    rewrite list_insert_insert_eq. reflexivity.
Qed.

(** Painting a note that the canvas does not accept: the [TypeError] of
    [createLinearGradient]. *)
Lemma paintItem_stuck (ref : nat) (it : Item.t num) (s : TextManager num) :
  objects s !! ref = Some it -> paintable it = false ->
  exists s', paintItem measureText ref s = St.Raised TypeError s'.
Proof.
  intros Hit Hp.
  assert (Hsome : is_Some (objects s !! ref)) by eauto.
  unfold paintable, box_h, is_note in Hp.
  unfold paintItem.
  rewrite (bind_done _ _ s s it (read_eq ref it s Hit)).
  destruct (String.eqb (Item.type it) "note") eqn:Hnote; [|discriminate Hp].
  cbn [negb orb] in Hp. do 2 st_next.
  erewrite bind_done by (eapply assign_eq; exact Hit).
  erewrite bind_done
    by (eapply assign_eq; tm_simpl; apply insert_lookup_same; exact Hsome).
  do 4 st_next.
  erewrite bind_raised by (apply createLinearGradient_stuck; exact Hp).
  eexists. reflexivity.
Qed.

Lemma selected_id_painted (a : list (TextCall num)) (s : TextManager num) :
  selected_id (painted a s) = selected_id s.
Proof. reflexivity. Qed.

Lemma lookup_alter_boxed cw (objs : list (Item.t num)) (ref r : nat) :
  alter (boxed measureText cw) ref objs !! r =
  (if decide (ref = r) then boxed measureText cw else id) <$> objs !! r.
Proof.
  destruct (decide (ref = r)) as [->|Hne].
  - apply list_lookup_alter_eq.
  - rewrite list_lookup_alter_ne by exact Hne. destruct (objs !! r); reflexivity.
Qed.

Lemma insert_is_alter (objs : list (Item.t num)) (ref : nat) (it : Item.t num) f :
  objs !! ref = Some it -> <[ref := f it]> objs = alter f ref objs.
Proof.
  revert ref. induction objs as [|o objs IH]; intros [|ref] Hit; try discriminate Hit.
  - injection Hit as ->. reflexivity.
  - cbn. f_equal. apply IH. exact Hit.
Qed.

Lemma selected_id_alter cw ref (s : TextManager num) :
  selected_id (with_objects (alter (boxed measureText cw) ref (objects s)) s) = selected_id s.
Proof.
  unfold selected_id. tm_simpl. destruct (selectedItem s) as [sel|]; [|reflexivity].
  cbn [mbind option_bind]. rewrite lookup_alter_boxed.
  destruct (objects s !! sel) as [sit|]; [|reflexivity].
  destruct (decide (ref = sel)); reflexivity.
Qed.

(** Outlining an item whose box is up to date. *)
Lemma outlineItem_eq (ref : nat) (it : Item.t num) (s : TextManager num) :
  objects s !! ref = Some it ->
  (forall sel, selectedItem s = Some sel -> is_Some (objects s !! sel)) ->
  Item.w it = box_w measureText (t_width (canvas s)) it -> Item.h it = box_h it ->
  outlineItem ref s =
  St.Done tt (painted (outline_calls measureText (selected_id s) (t_width (canvas s)) it) s).
Proof.
  intros Hit Hsel Hw Hh. unfold outlineItem, outline_calls, selected_id.
  st_next. destruct (selectedItem s) as [sel|] eqn:Hs; cbn [mbind option_bind].
  - destruct (Hsel sel eq_refl) as [sit Hsit]. rewrite Hsit. cbn [fmap option_fmap option_map].
    rewrite (bind_done _ _ s s sit (read_eq sel sit s Hsit)).
    rewrite (bind_done _ _ s s it (read_eq ref it s Hit)).
    destruct (String.eqb_spec (Item.id sit) (Item.id it)) as [Heq|Hne].
    + rewrite bool_decide_true by congruence.
      do 4 st_next. rewrite ctx_eq. rewrite !painted_painted. rewrite Hw, Hh. reflexivity.
    + rewrite bool_decide_false by congruence.
      rewrite painted_nil. reflexivity.
  - rewrite bool_decide_false by discriminate. rewrite painted_nil. reflexivity.
Qed.

(** The loop body of [renderItems]. *)
Lemma renderItem_eq (ref : nat) (it : Item.t num) (s : TextManager num) :
  objects s !! ref = Some it -> paintable it = true ->
  (forall sel, selectedItem s = Some sel -> is_Some (objects s !! sel)) ->
  renderItem measureText ref s =
  St.Done tt
    (painted (item_calls measureText (selected_id s) (t_width (canvas s)) it)
       (with_objects (alter (boxed measureText (t_width (canvas s))) ref (objects s)) s)).
Proof.
  intros Hit Hp Hsel. unfold renderItem, item_calls.
  rewrite (bind_done _ _ _ _ _ (paintItem_eq ref it s Hit Hp)).
  rewrite (insert_is_alter _ _ _ _ Hit).
  rewrite (outlineItem_eq ref (boxed measureText (t_width (canvas s)) it)).
  - rewrite painted_painted, selected_id_painted, selected_id_alter. reflexivity.
  - tm_simpl. rewrite list_lookup_alter_eq, Hit. reflexivity.
  - intros sel Hs. tm_simpl. rewrite lookup_alter_boxed.
    destruct (Hsel sel Hs) as [sit ->]. eexists. reflexivity.
  - reflexivity.
  - reflexivity.
Qed.

Lemma renderItem_stuck (ref : nat) (it : Item.t num) (s : TextManager num) :
  objects s !! ref = Some it -> paintable it = false ->
  exists s', renderItem measureText ref s = St.Raised TypeError s'.
Proof.
  intros Hit Hp. destruct (paintItem_stuck ref it s Hit Hp) as [s' Hs'].
  exists s'. unfold renderItem. apply bind_raised. exact Hs'.
Qed.

(** Writing the box into an item does not change whether an item can be
    painted. *)
Lemma paintable_boxed cw (it : Item.t num) :
  paintable (boxed measureText cw it) = paintable it.
Proof. reflexivity. Qed.

Lemma paintable_alter cw ref (objs : list (Item.t num)) (refs : list nat) :
  forallb (fun r => from_option paintable true (alter (boxed measureText cw) ref objs !! r)) refs
  = forallb (fun r => from_option paintable true (objs !! r)) refs.
Proof.
  induction refs as [|r rest IH]; [reflexivity|]. cbn [forallb]. rewrite IH. f_equal.
  rewrite lookup_alter_boxed. destruct (objs !! r) as [it|]; [|reflexivity].
  destruct (decide (ref = r)); reflexivity.
Qed.

Lemma item_calls_boxed sel cw cw' (it : Item.t num) :
  item_calls measureText sel cw (boxed measureText cw' it) = item_calls measureText sel cw it.
Proof. reflexivity. Qed.

Lemma loop_calls_alter sel cw cw' ref (refs : list nat) (objs : list (Item.t num)) :
  loop_calls measureText sel cw refs (alter (boxed measureText cw') ref objs)
  = loop_calls measureText sel cw refs objs.
Proof.
  unfold loop_calls. induction refs as [|r rest IH]; [reflexivity|].
  cbn [mbind list_bind]. rewrite IH, lookup_alter_boxed. f_equal.
  destruct (objs !! r) as [it|]; [|reflexivity].
  destruct (decide (ref = r)); reflexivity.
Qed.

Lemma length_rendered cw (refs : list nat) (objs : list (Item.t num)) :
  length (rendered measureText cw refs objs) = length objs.
Proof.
  unfold rendered. revert objs. induction refs as [|r rest IH]; intros objs; [reflexivity|].
  cbn [foldl]. rewrite IH. apply length_alter.
Qed.

Lemma boxed_boxed cw (it : Item.t num) :
  boxed measureText cw (boxed measureText cw it) = boxed measureText cw it.
Proof. reflexivity. Qed.

(** [renderItems] writes the box into the items and leaves other objects
    alone. *)
Lemma lookup_rendered cw (refs : list nat) (objs : list (Item.t num)) (r : nat) :
  rendered measureText cw refs objs !! r =
  (if bool_decide (r ∈ refs) then boxed measureText cw else id) <$> objs !! r.
Proof.
  unfold rendered. revert objs. induction refs as [|ref rest IH]; intros objs.
  - cbn [foldl]. rewrite bool_decide_false by apply not_elem_of_nil.
    destruct (objs !! r); reflexivity.
  - cbn [foldl]. rewrite IH, lookup_alter_boxed.
    destruct (objs !! r) as [it|]; [|reflexivity]. cbn [fmap option_fmap option_map].
    destruct (decide (ref = r)) as [->|Hne].
    + rewrite (bool_decide_true (r ∈ r :: rest)) by apply list_elem_of_here.
      destruct (bool_decide (r ∈ rest)); reflexivity.
    + destruct (bool_decide_reflect (r ∈ rest)) as [Hin|Hnin].
      * rewrite bool_decide_true by (apply list_elem_of_further; exact Hin). reflexivity.
      * rewrite bool_decide_false; [reflexivity|].
        intros [Heq|Hin]%elem_of_cons; [congruence|contradiction].
Qed.

Lemma renderLoop_eq (refs : list nat) :
  forall s : TextManager num,
  Forall (fun ref => is_Some (objects s !! ref)) refs ->
  (forall sel, selectedItem s = Some sel -> is_Some (objects s !! sel)) ->
  forallb (fun ref => from_option paintable true (objects s !! ref)) refs = true ->
  St.for_of refs (renderItem measureText) s =
  St.Done tt
    (painted (loop_calls measureText (selected_id s) (t_width (canvas s)) refs (objects s))
       (with_objects (rendered measureText (t_width (canvas s)) refs (objects s)) s)).
Proof.
  induction refs as [|ref rest IH]; intros s Hrefs Hsel Hall.
  - cbn [St.for_of]. unfold loop_calls, rendered. cbn [mbind list_bind foldl].
    rewrite painted_nil. unfold St.ret. f_equal. destruct s; reflexivity.
  - apply Forall_cons in Hrefs as [[it Hit] Hrest].
    cbn [forallb] in Hall. rewrite Hit in Hall. cbn [from_option] in Hall.
    apply andb_prop in Hall as [Hp Hall].
    cbn [St.for_of].
    rewrite (bind_done _ _ _ _ _ (renderItem_eq ref it s Hit Hp Hsel)).
    rewrite IH.
    + tm_simpl. rewrite selected_id_painted, selected_id_alter, loop_calls_alter.
      rewrite painted_with_objects, painted_painted.
      unfold loop_calls at 2. cbn [mbind list_bind]. rewrite Hit.
      reflexivity.
    + tm_simpl. eapply Forall_impl; [exact Hrest|]. intros r Hr. cbn beta.
      rewrite lookup_alter_boxed. destruct Hr as [x ->]. eexists. reflexivity.
    + intros sel Hs. tm_simpl. rewrite lookup_alter_boxed.
      destruct (Hsel sel Hs) as [sit ->]. eexists. reflexivity.
    + tm_simpl. rewrite paintable_alter. exact Hall.
Qed.

(** The loop stops with a [TypeError] at the first note that the canvas
    does not accept. *)
Lemma renderLoop_stuck (refs : list nat) :
  forall s : TextManager num,
  Forall (fun ref => is_Some (objects s !! ref)) refs ->
  (forall sel, selectedItem s = Some sel -> is_Some (objects s !! sel)) ->
  forallb (fun ref => from_option paintable true (objects s !! ref)) refs = false ->
  exists s', St.for_of refs (renderItem measureText) s = St.Raised TypeError s'.
Proof.
  induction refs as [|ref rest IH]; intros s Hrefs Hsel Hall; [discriminate Hall|].
  apply Forall_cons in Hrefs as [[it Hit] Hrest].
  cbn [forallb] in Hall. rewrite Hit in Hall. cbn [from_option] in Hall.
  cbn [St.for_of].
  destruct (paintable it) eqn:Hp.
  - cbn [andb] in Hall.
    rewrite (bind_done _ _ _ _ _ (renderItem_eq ref it s Hit Hp Hsel)).
    apply IH.
    + tm_simpl. eapply Forall_impl; [exact Hrest|]. intros r Hr. cbn beta.
      rewrite lookup_alter_boxed. destruct Hr as [x ->]. eexists. reflexivity.
    + intros sel Hs. tm_simpl. rewrite lookup_alter_boxed.
      destruct (Hsel sel Hs) as [sit ->]. eexists. reflexivity.
    + tm_simpl. rewrite paintable_alter. exact Hall.
  - destruct (renderItem_stuck ref it s Hit Hp) as [s' Hs'].
    exists s'. apply bind_raised. exact Hs'.
Qed.

Lemma well_formed_items (s : TextManager num) :
  well_formed s -> Forall (fun ref => is_Some (objects s !! ref)) (items s).
Proof.
  intros (Hitems & _). eapply Forall_impl; [exact Hitems|].
  intros ref Hlt. apply lookup_lt_is_Some. exact Hlt.
Qed.

Lemma well_formed_selected (s : TextManager num) :
  well_formed s -> forall sel, selectedItem s = Some sel -> is_Some (objects s !! sel).
Proof. intros (_ & _ & Hsel & _) sel Hs. apply lookup_lt_is_Some, Hsel, Hs. Qed.

Lemma renderItems_eq (s : TextManager num) :
  Forall (fun ref => is_Some (objects s !! ref)) (items s) ->
  (forall sel, selectedItem s = Some sel -> is_Some (objects s !! sel)) ->
  renderable s = true ->
  renderItems measureText s = St.Done tt (rendering measureText s).
Proof.
  intros Hitems Hsel Hall. unfold renderItems, rendering, render_calls.
  do 6 st_next. st_next.
  rewrite renderLoop_eq.
  - tm_simpl. rewrite !painted_painted, !painted_with_objects, !painted_painted.
    reflexivity.
  - exact Hitems.
  - exact Hsel.
  - exact Hall.
Qed.

Lemma renderItems_stuck (s : TextManager num) :
  Forall (fun ref => is_Some (objects s !! ref)) (items s) ->
  (forall sel, selectedItem s = Some sel -> is_Some (objects s !! sel)) ->
  renderable s = false ->
  exists s', renderItems measureText s = St.Raised TypeError s'.
Proof.
  intros Hitems Hsel Hall. unfold renderItems.
  do 6 st_next. st_next.
  apply renderLoop_stuck; [exact Hitems|exact Hsel|exact Hall].
Qed.

(* ------------------------------------------------------------------ *)
(** *** What [renderItems] leaves alone, whether it throws or not *)

Implicit Types P : TextManager num -> Prop.

Lemma keeps_ret {A} P (a : A) : keeps P (St.ret a).
Proof. intros s Hs. exact Hs. Qed.

Lemma keeps_raise {A} P e : keeps (A := A) P (St.raise e).
Proof. intros s Hs. exact Hs. Qed.

Lemma keeps_gets {A} P (f : TextManager num -> A) : keeps P (St.gets f).
Proof. intros s Hs. exact Hs. Qed.

Lemma keeps_deref {A} P (v : option A) : keeps P (St.deref v).
Proof. intros s Hs. destruct v; exact Hs. Qed.

Lemma keeps_modify P (f : TextManager num -> TextManager num) :
  (forall s, P s -> P (f s)) -> keeps P (St.modify f).
Proof. intros Hf s Hs. apply Hf, Hs. Qed.

Lemma keeps_bind {A B} P (m : M num A) (k : A -> M num B) :
  keeps P m -> (forall a, keeps P (k a)) -> keeps P (St.bind m k).
Proof.
  intros Hm Hk s Hs. specialize (Hm s Hs). unfold St.bind.
  destruct (m s) as [a s'|e s']; cbn [St.after] in Hm; [apply Hk, Hm|exact Hm].
Qed.

Lemma keeps_for_of {A} P (l : list A) (body : A -> M num unit) :
  (forall a, keeps P (body a)) -> keeps P (St.for_of l body).
Proof.
  intros Hbody. induction l as [|a rest IH]; [apply keeps_ret|].
  cbn [St.for_of]. apply keeps_bind; [apply Hbody|intros _; exact IH].
Qed.

Lemma keeps_read P ref : keeps P (read ref).
Proof. unfold read. apply keeps_bind; [apply keeps_gets|intros store; apply keeps_deref]. Qed.

Lemma keeps_createLinearGradient P (x0 y0 x1 y1 : num) stops :
  keeps P (createLinearGradient x0 y0 x1 y1 stops).
Proof. unfold createLinearGradient. destruct (_ && _); [apply keeps_ret|apply keeps_raise]. Qed.

Lemma same_but_box_refl (a : Item.t num) : same_but_box a a.
Proof. repeat split. Qed.

Lemma same_but_box_trans (a b c : Item.t num) :
  same_but_box a b -> same_but_box b c -> same_but_box a c.
Proof.
  unfold same_but_box. intros (?&?&?&?&?&?&?) (?&?&?&?&?&?&?).
  repeat split; congruence.
Qed.

Lemma repainted_refl (s : TextManager num) : repainted s s.
Proof.
  unfold repainted. split; [apply Forall_Forall2_diag, Forall_forall; intros a _;
                             apply same_but_box_refl|].
  repeat split. exists []. rewrite app_nil_r. reflexivity.
Qed.

Lemma Forall2_insert_r {A B} (R : A -> B -> Prop) (l : list A) (k : list B) i b b' :
  Forall2 R l k -> k !! i = Some b -> (forall a, R a b -> R a b') ->
  Forall2 R l (<[i := b']> k).
Proof.
  intros HR. revert i. induction HR as [|a0 b0 l k Hab HR IH]; intros [|i] Hi Hstep;
    try discriminate Hi.
  - injection Hi as ->. constructor; [apply Hstep, Hab|exact HR].
  - constructor; [exact Hab|]. apply IH; assumption.
Qed.

Lemma same_but_box_paintable (a b : Item.t num) :
  same_but_box a b -> paintable a = paintable b.
Proof.
  destruct a, b. unfold same_but_box, paintable, box_h, is_note. cbn.
  intros (_ & -> & _ & _ & -> & -> & ->). reflexivity.
Qed.

Section Repainting.
Variable s0 : TextManager num.

Lemma repainted_ctx (k : TextCall num) : keeps (repainted s0) (ctx k).
Proof.
  apply keeps_modify. unfold repainted.
  intros s (Ho & Hi & Hs & Hd & Hf & Hn & Ht & Hm & Hw & Hh & calls & Hc).
  tm_simpl. repeat split; try assumption.
  exists (calls ++ [k]). rewrite Hc, app_assoc. reflexivity.
Qed.

Lemma repainted_assign ref (f : Item.t num -> Item.t num) :
  (forall it, same_but_box it (f it)) -> keeps (repainted s0) (assign ref f).
Proof.
  intros Hf s Hs. destruct (objects s !! ref) as [cur|] eqn:Hcur.
  - rewrite (assign_eq ref f cur s Hcur). cbn [St.after].
    destruct Hs as (Ho & Hrest). split; [|exact Hrest]. tm_simpl.
    eapply Forall2_insert_r; [exact Ho|exact Hcur|].
    intros a Ha. eapply same_but_box_trans; [exact Ha|apply Hf].
  - unfold assign. rewrite (bind_raised _ _ _ _ _ (read_dangling ref s Hcur)). exact Hs.
Qed.

Ltac repainted_step :=
  lazy zeta;
  lazymatch goal with
  | |- keeps _ (St.bind _ _) => apply keeps_bind; [|intros ?]
  | |- keeps _ (St.ret _) => apply keeps_ret
  | |- keeps _ (St.gets _) => apply keeps_gets
  | |- keeps _ (read _) => apply keeps_read
  | |- keeps _ (ctx _) => apply repainted_ctx
  | |- keeps _ (createLinearGradient _ _ _ _ _) => apply keeps_createLinearGradient
  | |- keeps _ (assign _ _) => apply repainted_assign; intros ?; repeat split
  | |- keeps _ (if ?b then _ else _) => destruct b
  | |- keeps _ (match ?o with Some _ => _ | None => _ end) => destruct o
  end.

Lemma repainted_paintItem ref : keeps (repainted s0) (paintItem measureText ref).
Proof. unfold paintItem. repeat repainted_step. Qed.

Lemma repainted_outlineItem ref : keeps (repainted s0) (outlineItem ref).
Proof. unfold outlineItem. repeat repainted_step. Qed.

Lemma repainted_renderItems_keeps : keeps (repainted s0) (renderItems measureText).
Proof.
  unfold renderItems. do 7 repainted_step; try repainted_step.
  apply keeps_for_of. intros ref. unfold renderItem.
  apply keeps_bind; [apply repainted_paintItem|intros _; apply repainted_outlineItem].
Qed.

End Repainting.

(** Whether it returns or throws, [renderItems] changes boxes and adds
    calls to the canvas, and nothing else. *)
Lemma repainted_renderItems (s : TextManager num) :
  repainted s (St.after (renderItems measureText s)).
Proof. apply repainted_renderItems_keeps, repainted_refl. Qed.

Lemma repainted_renderable (s s' : TextManager num) :
  repainted s s' -> renderable s' = renderable s.
Proof.
  intros (Ho & Hi & _). unfold renderable. rewrite Hi. clear Hi.
  induction (items s) as [|ref rest IH]; [reflexivity|]. cbn [forallb]. rewrite IH. f_equal.
  destruct (objects s !! ref) as [a|] eqn:Ha.
  - destruct (Forall2_lookup_l _ _ _ _ _ Ho Ha) as (b & -> & Hab). cbn [from_option].
    symmetry. apply same_but_box_paintable, Hab.
  - assert (Hb : objects s' !! ref = None).
    { apply lookup_ge_None. rewrite <- (Forall2_length _ _ _ Ho). apply lookup_ge_None, Ha. }
    rewrite Hb. reflexivity.
Qed.

Lemma renderable_rendering (s : TextManager num) :
  renderable (rendering measureText s) = renderable s.
Proof.
  unfold renderable. change (items (rendering measureText s)) with (items s).
  generalize (items s) at 1 2. intros refs.
  induction refs as [|ref rest IH]; [reflexivity|]. cbn [forallb]. rewrite IH. f_equal.
  unfold rendering. tm_simpl. rewrite lookup_rendered.
  destruct (objects s !! ref) as [it|]; [|reflexivity].
  destruct (bool_decide (ref ∈ items s)); reflexivity.
Qed.

Lemma renderable_insert ref (it it' : Item.t num) (s : TextManager num) :
  objects s !! ref = Some it -> paintable it' = paintable it ->
  renderable (with_objects (<[ref := it']> (objects s)) s) = renderable s.
Proof.
  intros Hit Hp. unfold renderable. tm_simpl.
  induction (items s) as [|r rest IH]; [reflexivity|]. cbn [forallb]. rewrite IH. f_equal.
  destruct (decide (r = ref)) as [->|Hne].
  - rewrite insert_lookup_same by eauto. rewrite Hit. exact Hp.
  - rewrite list_lookup_insert_ne by congruence. reflexivity.
Qed.

Lemma forallb_delete {A} (f : A -> bool) (l : list A) (i : nat) :
  forallb f l = true -> forallb f (delete i l) = true.
Proof.
  revert i. induction l as [|a l IH]; intros [|i] Hall; try exact Hall.
  - apply andb_prop in Hall as [_ Hl]. exact Hl.
  - apply andb_prop in Hall as [Ha Hl]. cbn [delete list_delete forallb].
    rewrite Ha. apply IH, Hl.
Qed.

Lemma noteEntry_eq (ref : nat) (it : Item.t num) (s : TextManager num) :
  objects s !! ref = Some it ->
  noteEntry ref s = St.Done tt (with_notesList (notesList s ++ [entry_of ref it]) s).
Proof.
  intros Hit. unfold noteEntry. rewrite (bind_done _ _ _ _ _ (read_eq ref it s Hit)).
  reflexivity.
Qed.

Lemma refreshLoop_eq (refs : list nat) :
  forall s : TextManager num,
  Forall (fun ref => is_Some (objects s !! ref)) refs ->
  St.for_of refs noteEntry s =
  St.Done tt (with_notesList (notesList s ++ entries refs (objects s)) s).
Proof.
  induction refs as [|ref rest IH]; intros s Hrefs.
  - cbn [St.for_of]. unfold entries. cbn [mbind list_bind]. rewrite app_nil_r.
    unfold St.ret. f_equal. destruct s; reflexivity.
  - apply Forall_cons in Hrefs as [[it Hit] Hrest].
    cbn [St.for_of]. rewrite (bind_done _ _ _ _ _ (noteEntry_eq ref it s Hit)).
    rewrite IH by exact Hrest. tm_simpl.
    unfold entries at 2. cbn [mbind list_bind]. rewrite Hit. cbn [app].
    rewrite <- app_assoc. reflexivity.
Qed.

Lemma refreshNotesList_eq (s : TextManager num) :
  Forall (fun ref => is_Some (objects s !! ref)) (items s) ->
  refreshNotesList s = St.Done tt (listing s).
Proof.
  intros Hitems. unfold refreshNotesList, listing. do 2 st_next.
  rewrite refreshLoop_eq by exact Hitems. reflexivity.
Qed.

(* ------------------------------------------------------------------ *)
(** *** The item under the pointer *)

Lemma getEventPos_eq (e : Pointer num) (s : TextManager num) :
  getEventPos e s = St.Done (eventPos e s) s.
Proof. reflexivity. Qed.

Lemma filter_snoc {A} (P : A -> Prop) `{!forall a, Decision (P a)} (l : list A) (a : A) :
  filter P (l ++ [a]) = filter P l ++ (if decide (P a) then [a] else []).
Proof. rewrite filter_app. reflexivity. Qed.

(** The loop from the end of [items] finds the last item whose box holds
    the position. *)
Lemma itemAt_eq (pos : Point num) (n : nat) (s : TextManager num) :
  Forall (fun ref => is_Some (objects s !! ref)) (items s) ->
  n <= length (items s) ->
  itemAt pos n s =
  St.Done (last (filter (fun ref => holds pos s ref = true) (take n (items s)))) s.
Proof.
  intros Hitems. induction n as [|i IH]; intros Hn.
  - reflexivity.
  - cbn [itemAt]. st_next.
    destruct (lookup_lt_is_Some_2 (items s) i) as [ref Href]; [lia|].
    rewrite Href. cbn [St.deref].
    rewrite (bind_done _ _ s s ref eq_refl).
    destruct (proj1 (Forall_lookup _ _) Hitems i ref Href) as [it Hit].
    rewrite (bind_done _ _ s s it (read_eq ref it s Hit)).
    rewrite (take_S_r _ _ _ Href), filter_snoc.
    assert (Hholds : holds pos s ref = inBox pos it) by (unfold holds; rewrite Hit; reflexivity).
    destruct (inBox pos it) eqn:Hbox.
    + rewrite decide_True by exact Hholds. rewrite last_snoc. reflexivity.
    + rewrite decide_False by (rewrite Hholds; discriminate).
      rewrite app_nil_r. apply IH. lia.
Qed.

Lemma topmost_eq (pos : Point num) (s : TextManager num) :
  Forall (fun ref => is_Some (objects s !! ref)) (items s) ->
  itemAt pos (length (items s)) s = St.Done (topmost pos s) s.
Proof.
  intros Hitems. rewrite itemAt_eq by (exact Hitems || lia).
  rewrite firstn_all. reflexivity.
Qed.

Lemma topmost_in_items (pos : Point num) (s : TextManager num) ref :
  topmost pos s = Some ref -> ref ∈ items s /\ holds pos s ref = true.
Proof.
  unfold topmost. intros Hlast.
  assert (Hin : ref ∈ filter (fun r => holds pos s r = true) (items s)).
  { destruct (filter _ (items s)) as [|a l] using rev_ind; [discriminate|].
    rewrite last_snoc in Hlast. injection Hlast as ->.
    apply elem_of_app. right. apply list_elem_of_here. }
  apply list_elem_of_filter in Hin as [Hh Hi]. split; assumption.
Qed.

(* ------------------------------------------------------------------ *)
(** *** The handlers *)

Lemma showNotification_eq message type (s : TextManager num) :
  showNotification message type s = St.Done tt (notified message type s).
Proof. reflexivity. Qed.

Lemma rendering_items (s : TextManager num) :
  items (rendering measureText s) = items s /\
  selectedItem (rendering measureText s) = selectedItem s /\
  draggingItem (rendering measureText s) = draggingItem s /\
  dragOffset (rendering measureText s) = dragOffset s /\
  notesList (rendering measureText s) = notesList s /\
  textInput (rendering measureText s) = textInput s /\
  notifications (rendering measureText s) = notifications s /\
  t_width (canvas (rendering measureText s)) = t_width (canvas s) /\
  t_height (canvas (rendering measureText s)) = t_height (canvas s) /\
  objects (rendering measureText s)
    = rendered measureText (t_width (canvas s)) (items s) (objects s).
Proof. repeat split; reflexivity. Qed.

Lemma rendering_lookup (s : TextManager num) (r : nat) :
  objects (rendering measureText s) !! r =
  (if bool_decide (r ∈ items s) then boxed measureText (t_width (canvas s)) else id)
    <$> objects s !! r.
Proof. apply lookup_rendered. Qed.

Lemma rendering_is_Some (s : TextManager num) (r : nat) :
  is_Some (objects s !! r) -> is_Some (objects (rendering measureText s) !! r).
Proof. intros [it Hit]. rewrite rendering_lookup, Hit. eexists. reflexivity. Qed.

Lemma handleCanvasPointerDown_eq (e : Pointer num) (s : TextManager num) :
  Forall (fun ref => is_Some (objects s !! ref)) (items s) ->
  renderable s = true ->
  handleCanvasPointerDown measureText e s =
  match topmost (eventPos e s) s with
  | Some ref =>
      match objects s !! ref with
      | Some it => St.Done true (rendering measureText (grabbed (eventPos e s) ref it s))
      | None => St.Raised TypeError s
      end
  | None => St.Done false (rendering measureText (with_selectedItem None s))
  end.
Proof.
  intros Hitems Hr. unfold handleCanvasPointerDown.
  rewrite (bind_done _ _ _ _ _ (getEventPos_eq e s)). st_next.
  rewrite (bind_done _ _ _ _ _ (topmost_eq (eventPos e s) s Hitems)).
  destruct (topmost (eventPos e s) s) as [ref|] eqn:Htop.
  - destruct (topmost_in_items _ _ _ Htop) as [Hin _].
    destruct (proj1 (Forall_forall _ _) Hitems ref Hin) as [it Hit]. rewrite Hit.
    rewrite (bind_done _ _ _ _ _ (read_eq ref it s Hit)).
    do 4 st_next.
    erewrite bind_done.
    2:{ apply renderItems_eq; tm_simpl; [exact Hitems| |exact Hr].
        intros sel [= <-]. eauto. }
    unfold grabbed, St.ret.
    apply (f_equal (St.Done true)), (f_equal (rendering measureText)). tm_ext.
  - st_next. erewrite bind_done.
    2:{ apply renderItems_eq; tm_simpl; [exact Hitems| |exact Hr]. intros sel [=]. }
    reflexivity.
Qed.

(** [handleCanvasPointerMove] with an item held, up to its last statement. *)
Lemma handleCanvasPointerMove_eq (e : Pointer num) (s : TextManager num) ref it :
  draggingItem s = Some ref -> objects s !! ref = Some it ->
  handleCanvasPointerMove measureText e s =
  renderItems measureText
    (with_objects (<[ref := dragged (eventPos e s) s it]> (objects s)) s).
Proof.
  intros Hdrag Hit.
  assert (Hsome : is_Some (objects s !! ref)) by eauto.
  unfold handleCanvasPointerMove. st_next. rewrite Hdrag.
  rewrite (bind_done _ _ _ _ _ (getEventPos_eq e s)). st_next.
  erewrite bind_done by (eapply assign_eq; exact Hit).
  st_next.
  erewrite bind_done by (eapply assign_eq; tm_simpl; apply insert_lookup_same; exact Hsome).
  st_next.
  erewrite bind_done by (eapply read_eq; tm_simpl; apply insert_lookup_same;
                         apply insert_keeps_is_Some; exact Hsome).
  erewrite bind_done by (eapply assign_eq; tm_simpl; apply insert_lookup_same;
                         apply insert_keeps_is_Some; exact Hsome).
  st_next.
  erewrite bind_done by (eapply read_eq; tm_simpl; apply insert_lookup_same;
                         do 2 apply insert_keeps_is_Some; exact Hsome).
  erewrite bind_done by (eapply assign_eq; tm_simpl; apply insert_lookup_same;
                         do 2 apply insert_keeps_is_Some; exact Hsome).
  apply (f_equal (renderItems measureText)).
  tm_ext. rewrite !list_insert_insert_eq. reflexivity.
Qed.

Lemma handleCanvasPointerMove_idle (e : Pointer num) (s : TextManager num) :
  draggingItem s = None -> handleCanvasPointerMove measureText e s = St.Done tt s.
Proof. intros Hdrag. unfold handleCanvasPointerMove. st_next. rewrite Hdrag. reflexivity. Qed.

Lemma handleCanvasDoubleClick_eq (e : Pointer num) answer (s : TextManager num) :
  Forall (fun r => is_Some (objects s !! r)) (items s) ->
  (forall sel, selectedItem s = Some sel -> is_Some (objects s !! sel)) ->
  renderable s = true ->
  handleCanvasDoubleClick measureText e answer s =
  match topmost (eventPos e s) s, answer with
  | Some ref, Some newText =>
      if bool_decide (trim newText = []) then St.Done tt s
      else
        match objects s !! ref with
        | Some it =>
            St.Done tt
              (notified "Text updated" "success"
                 (listing (rendering measureText
                    (with_objects (<[ref := set_text (trim newText) it]> (objects s)) s))))
        | None => St.Raised TypeError s
        end
  | _, _ => St.Done tt s
  end.
Proof.
  intros Hitems Hsel Hr. unfold handleCanvasDoubleClick.
  rewrite (bind_done _ _ _ _ _ (getEventPos_eq e s)). st_next.
  rewrite (bind_done _ _ _ _ _ (topmost_eq (eventPos e s) s Hitems)).
  destruct (topmost (eventPos e s) s) as [ref|] eqn:Htop; [|reflexivity].
  destruct answer as [newText|]; [|reflexivity].
  destruct (bool_decide (trim newText = [])); [reflexivity|].
  destruct (topmost_in_items _ _ _ Htop) as [Hin _].
  destruct (proj1 (Forall_forall _ _) Hitems ref Hin) as [it Hit]. rewrite Hit.
  erewrite bind_done by (eapply assign_eq; exact Hit).
  erewrite bind_done.
  2:{ apply renderItems_eq; tm_simpl.
      - eapply Forall_impl; [exact Hitems|]. intros r Hr'. cbn beta.
        apply insert_keeps_is_Some. exact Hr'.
      - intros sel Hs. apply insert_keeps_is_Some. apply Hsel. exact Hs.
      - rewrite (renderable_insert ref it _ s Hit) by reflexivity. exact Hr. }
  erewrite bind_done.
  2:{ apply refreshNotesList_eq. rewrite (proj1 (rendering_items _)). tm_simpl.
      eapply Forall_impl; [exact Hitems|]. intros r Hr'. cbn beta.
      apply rendering_is_Some. tm_simpl. apply insert_keeps_is_Some. exact Hr'. }
  reflexivity.
Qed.

(** [addItem] up to the call of [renderItems]. *)
Lemma addItem_pre id fontSize_number textColor_value type text pos_x pos_y
    (s : TextManager num) :
  addItem measureText id fontSize_number textColor_value type text pos_x pos_y s =
  St.bind (renderItems measureText) (fun _ =>
    St.bind refreshNotesList (fun _ =>
      St.bind (showNotification
                 (if String.eqb type "note" then "Note added" else "Text added") "success")
        (fun _ => St.ret (length (objects s)))))
    (added id fontSize_number textColor_value type text pos_x pos_y s).
Proof. unfold addItem, added, new_item. do 5 st_next. reflexivity. Qed.

Lemma added_valid id fontSize_number textColor_value type text pos_x pos_y
    (s : TextManager num) :
  Forall (fun r => is_Some (objects s !! r)) (items s) ->
  let s1 := added id fontSize_number textColor_value type text pos_x pos_y s in
  Forall (fun r => is_Some (objects s1 !! r)) (items s1).
Proof.
  intros Hitems s1. subst s1. unfold added. tm_simpl. apply Forall_app. split.
  - eapply Forall_impl; [exact Hitems|]. intros r [it Hr]. cbn beta.
    exists it. apply lookup_app_l_Some. exact Hr.
  - apply Forall_singleton. eexists. apply list_lookup_middle. reflexivity.
Qed.

Lemma renderable_added id fontSize_number textColor_value type text pos_x pos_y
    (s : TextManager num) :
  Forall (fun r => is_Some (objects s !! r)) (items s) ->
  renderable (added id fontSize_number textColor_value type text pos_x pos_y s)
  = renderable s &&
    paintable (new_item id fontSize_number textColor_value type text pos_x pos_y s).
Proof.
  intros Hitems. unfold renderable, added. tm_simpl. rewrite forallb_app. f_equal.
  - induction Hitems as [|r rest [it Hr] _ IH]; [reflexivity|]. cbn [forallb].
    rewrite IH. f_equal. rewrite (lookup_app_l_Some _ _ _ _ Hr), Hr. reflexivity.
  - cbn [forallb]. rewrite list_lookup_middle by reflexivity. cbn [from_option].
    apply andb_true_r.
Qed.

Lemma addItem_eq id fontSize_number textColor_value type text pos_x pos_y
    (s : TextManager num) :
  Forall (fun r => is_Some (objects s !! r)) (items s) ->
  (forall sel, selectedItem s = Some sel -> is_Some (objects s !! sel)) ->
  renderable s = true ->
  paintable (new_item id fontSize_number textColor_value type text pos_x pos_y s) = true ->
  addItem measureText id fontSize_number textColor_value type text pos_x pos_y s =
  St.Done (length (objects s))
    (notified (if String.eqb type "note" then "Note added" else "Text added") "success"
       (listing (rendering measureText
          (added id fontSize_number textColor_value type text pos_x pos_y s)))).
Proof.
  intros Hitems Hsel Hr Hp. rewrite addItem_pre.
  pose proof (added_valid id fontSize_number textColor_value type text pos_x pos_y s Hitems)
    as Hvalid. cbn zeta in Hvalid.
  erewrite bind_done.
  2:{ apply renderItems_eq; [exact Hvalid| |].
      - intros sel Hs. destruct (Hsel sel Hs) as [it Hit].
        exists it. unfold added. tm_simpl. apply lookup_app_l_Some. exact Hit.
      - rewrite renderable_added by exact Hitems. rewrite Hr, Hp. reflexivity. }
  erewrite bind_done.
  2:{ apply refreshNotesList_eq. rewrite (proj1 (rendering_items _)).
      eapply Forall_impl; [exact Hvalid|]. intros r Hr'. cbn beta.
      apply rendering_is_Some. exact Hr'. }
  rewrite (bind_done _ _ _ _ _ (showNotification_eq _ _ _)).
  reflexivity.
Qed.

(** [addItem] with a note that the canvas does not accept. *)
Lemma addItem_stuck id fontSize_number textColor_value type text pos_x pos_y
    (s : TextManager num) :
  Forall (fun r => is_Some (objects s !! r)) (items s) ->
  (forall sel, selectedItem s = Some sel -> is_Some (objects s !! sel)) ->
  paintable (new_item id fontSize_number textColor_value type text pos_x pos_y s) = false ->
  exists s',
    addItem measureText id fontSize_number textColor_value type text pos_x pos_y s
      = St.Raised TypeError s' /\
    renderable s' = false.
Proof.
  intros Hitems Hsel Hp. rewrite addItem_pre.
  pose proof (added_valid id fontSize_number textColor_value type text pos_x pos_y s Hitems)
    as Hvalid. cbn zeta in Hvalid.
  assert (Hr : renderable (added id fontSize_number textColor_value type text pos_x pos_y s)
               = false).
  { rewrite renderable_added by exact Hitems. rewrite Hp. apply andb_false_r. }
  destruct (renderItems_stuck _ Hvalid) as [s' Hs']; [|exact Hr|].
  { intros sel Hs. destruct (Hsel sel Hs) as [it Hit].
    exists it. unfold added. tm_simpl. apply lookup_app_l_Some. exact Hit. }
  exists s'. split; [apply bind_raised; exact Hs'|].
  pose proof (repainted_renderItems
                (added id fontSize_number textColor_value type text pos_x pos_y s)) as Hre.
  rewrite Hs' in Hre. cbn [St.after] in Hre.
  rewrite (repainted_renderable _ _ Hre). exact Hr.
Qed.

Lemma has_id_eq id (ref : nat) (it : Item.t num) (s : TextManager num) :
  objects s !! ref = Some it ->
  has_id id ref s = St.Done (String.eqb (Item.id it) id) s.
Proof.
  intros Hit. unfold has_id. rewrite (bind_done _ _ _ _ _ (read_eq ref it s Hit)). reflexivity.
Qed.

Lemma same_id_as_eq (target : nat) (tit : Item.t num) (ref : nat) (it : Item.t num)
    (s : TextManager num) :
  objects s !! target = Some tit -> objects s !! ref = Some it ->
  same_id_as (Some target) ref s = St.Done (String.eqb (Item.id it) (Item.id tit)) s.
Proof.
  intros Htit Hit. unfold same_id_as.
  rewrite (bind_done _ _ _ _ _ (read_eq ref it s Hit)).
  rewrite (bind_done _ _ s s target eq_refl).
  rewrite (bind_done _ _ _ _ _ (read_eq target tit s Htit)). reflexivity.
Qed.

Lemma same_id_as_undefined (ref : nat) (s : TextManager num) :
  is_Some (objects s !! ref) -> same_id_as None ref s = St.Raised TypeError s.
Proof.
  intros [it Hit]. unfold same_id_as.
  rewrite (bind_done _ _ _ _ _ (read_eq ref it s Hit)). reflexivity.
Qed.

(** [findIndex] and [find] with a test that compares ids. *)
Lemma findIndex_eq (test : nat -> M num bool) id (refs : list nat) (s : TextManager num) :
  (forall ref it, objects s !! ref = Some it ->
     test ref s = St.Done (String.eqb (Item.id it) id) s) ->
  Forall (fun r => is_Some (objects s !! r)) refs ->
  forall k, findIndex test refs k s =
    St.Done ((fun found => k + fst found) <$> first_with_id s id refs) s.
Proof.
  intros Htest. unfold first_with_id.
  induction refs as [|ref rest IH]; intros Hrefs k; [reflexivity|].
  apply Forall_cons in Hrefs as [[it Hit] Hrest].
  cbn [findIndex list_find]. rewrite (bind_done _ _ _ _ _ (Htest ref it Hit)).
  destruct (String.eqb_spec (Item.id it) id) as [Heq|Hne].
  - rewrite decide_True by (unfold carries_id; rewrite Hit; cbn; congruence).
    cbn. rewrite Nat.add_0_r. reflexivity.
  - rewrite decide_False by (unfold carries_id; rewrite Hit; cbn; congruence).
    rewrite (IH Hrest (S k)).
    destruct (list_find (carries_id s id) rest) as [[j r]|]; cbn; [|reflexivity].
    do 3 f_equal. lia.
Qed.

Lemma find_eq id (refs : list nat) (s : TextManager num) :
  Forall (fun r => is_Some (objects s !! r)) refs ->
  find (has_id id) refs s = St.Done (snd <$> first_with_id s id refs) s.
Proof.
  unfold first_with_id.
  induction refs as [|ref rest IH]; intros Hrefs; [reflexivity|].
  apply Forall_cons in Hrefs as [[it Hit] Hrest].
  cbn [find list_find]. rewrite (bind_done _ _ _ _ _ (has_id_eq id ref it s Hit)).
  destruct (String.eqb_spec (Item.id it) id) as [Heq|Hne].
  - rewrite decide_True by (unfold carries_id; rewrite Hit; cbn; congruence). reflexivity.
  - rewrite decide_False by (unfold carries_id; rewrite Hit; cbn; congruence).
    rewrite (IH Hrest).
    destruct (list_find (carries_id s id) rest) as [[j r]|]; reflexivity.
Qed.

Lemma deleteItem_eq (ref : nat) (it : Item.t num) (s : TextManager num) :
  Forall (fun r => is_Some (objects s !! r)) (items s) ->
  renderable s = true ->
  objects s !! ref = Some it ->
  deleteItem measureText (Some ref) s =
  match first_with_id s (Item.id it) (items s) with
  | Some (index, _) => St.Done tt (deleted measureText index s)
  | None => St.Done tt s
  end.
Proof.
  intros Hitems Hr Hit. unfold deleteItem, deleted. st_next.
  rewrite (bind_done _ _ _ _ _
             (findIndex_eq (same_id_as (Some ref)) (Item.id it) (items s) s
                (fun r rit Hr => same_id_as_eq ref it r rit s Hit Hr) Hitems 0)).
  destruct (first_with_id s (Item.id it) (items s)) as [[index r]|]; [|reflexivity].
  cbn [fmap option_fmap option_map fst Nat.add]. do 2 st_next.
  assert (Hvalid : Forall (fun r => is_Some (objects s !! r)) (delete index (items s))).
  { apply Forall_forall. intros r' Hr'. apply (proj1 (Forall_forall _ _) Hitems).
    eapply list_elem_of_delete_inv; exact Hr'. }
  erewrite bind_done.
  2:{ apply renderItems_eq; tm_simpl; [exact Hvalid| |].
      - intros sel [=].
      - unfold renderable. tm_simpl. apply forallb_delete. exact Hr. }
  erewrite bind_done.
  2:{ apply refreshNotesList_eq. rewrite (proj1 (rendering_items _)). tm_simpl.
      eapply Forall_impl; [exact Hvalid|]. intros r' Hr'. cbn beta.
      apply rendering_is_Some. tm_simpl. exact Hr'. }
  reflexivity.
Qed.

(** [deleteItem(undefined)]: the test reads [item.id] when it first runs,
    so it throws unless there is no item to run it on. *)
Lemma deleteItem_undefined (s : TextManager num) :
  Forall (fun r => is_Some (objects s !! r)) (items s) ->
  deleteItem measureText None s =
  match items s with
  | [] => St.Done tt s
  | _ :: _ => St.Raised TypeError s
  end.
Proof.
  intros Hitems. unfold deleteItem. st_next.
  destruct (items s) as [|ref rest]; [reflexivity|].
  apply Forall_cons in Hitems as [Href _].
  cbn [findIndex]. unfold St.bind. rewrite (same_id_as_undefined ref s Href). reflexivity.
Qed.

(* ------------------------------------------------------------------ *)
(** *** What every event keeps *)

Lemma valid_is_Some (s : TextManager num) (refs : list nat) :
  Forall (fun ref => ref < length (objects s)) refs ->
  Forall (fun ref => is_Some (objects s !! ref)) refs.
Proof.
  intros Hrefs. eapply Forall_impl; [exact Hrefs|].
  intros ref Hlt. apply lookup_lt_is_Some. exact Hlt.
Qed.

Lemma rendering_well_formed (s : TextManager num) :
  well_formed s -> well_formed (rendering measureText s).
Proof.
  intros (Hitems & Hnodup & Hsel & Hdrag). unfold well_formed.
  destruct (rendering_items s) as (-> & -> & -> & _ & _ & _ & _ & _ & _ & ->).
  rewrite length_rendered. repeat split; assumption.
Qed.

Lemma entry_of_boxed ref cw (it : Item.t num) :
  entry_of ref (boxed measureText cw it) = entry_of ref it.
Proof. reflexivity. Qed.

Lemma rendering_in_step (s : TextManager num) :
  in_step s -> in_step (rendering measureText s).
Proof.
  intros [Hsel Hnotes]. unfold in_step.
  destruct (rendering_items s) as (Hi & Hs & _ & _ & Hn & _).
  rewrite Hi, Hs, Hn. split; [exact Hsel|].
  eapply Forall2_impl; [exact Hnotes|]. intros el ref (it & Hit & ->). cbn beta.
  rewrite rendering_lookup, Hit. cbn [fmap option_fmap option_map].
  destruct (bool_decide (ref ∈ items s)).
  - eexists. split; [reflexivity|]. symmetry. apply entry_of_boxed.
  - eexists. split; reflexivity.
Qed.

Lemma rendering_boxes_current (s : TextManager num) :
  Forall (fun ref => is_Some (objects s !! ref)) (items s) ->
  boxes_current measureText (rendering measureText s).
Proof.
  intros Hitems. unfold boxes_current.
  destruct (rendering_items s) as (Hi & _ & _ & _ & _ & _ & _ & Hw & _).
  rewrite Hi, Hw. apply Forall_forall. intros ref Hin.
  destruct (proj1 (Forall_forall _ _) Hitems ref Hin) as [it Hit].
  exists (boxed measureText (t_width (canvas s)) it).
  rewrite rendering_lookup, Hit, bool_decide_true by exact Hin.
  repeat split; reflexivity.
Qed.

Lemma rendering_texts_trimmed (s : TextManager num) :
  texts_trimmed s -> texts_trimmed (rendering measureText s).
Proof.
  unfold texts_trimmed. rewrite (proj1 (rendering_items s)).
  intros Hall. eapply Forall_impl; [exact Hall|]. intros ref (it & Hit & Hne & Htrim).
  cbn beta. rewrite rendering_lookup, Hit. cbn [fmap option_fmap option_map].
  destruct (bool_decide (ref ∈ items s)); eexists; (split; [reflexivity|]);
    split; assumption.
Qed.

Lemma entries_in_step (refs : list nat) (objs : list (Item.t num)) :
  Forall (fun ref => is_Some (objs !! ref)) refs ->
  Forall2 (fun el ref => exists it, objs !! ref = Some it /\ el = entry_of ref it)
    (entries refs objs) refs.
Proof.
  induction refs as [|ref rest IH]; intros Hrefs; [constructor|].
  apply Forall_cons in Hrefs as [[it Hit] Hrest].
  unfold entries. cbn [mbind list_bind]. rewrite Hit. cbn [app].
  constructor; [eauto|apply IH, Hrest].
Qed.

Lemma entries_items (refs : list nat) (objs : list (Item.t num)) :
  Forall (fun ref => is_Some (objs !! ref)) refs -> item <$> entries refs objs = refs.
Proof.
  induction refs as [|ref rest IH]; intros Hrefs; [reflexivity|].
  apply Forall_cons in Hrefs as [[it Hit] Hrest].
  unfold entries. cbn [mbind list_bind]. rewrite Hit. cbn [app fmap list_fmap].
  f_equal. apply IH, Hrest.
Qed.

(** After [renderItems] and [refreshNotesList] everything is in place. *)
Lemma listing_rendering_steady (s : TextManager num) :
  well_formed s -> (forall ref, selectedItem s = Some ref -> ref ∈ items s) ->
  texts_trimmed s -> renderable s = true ->
  steady measureText (listing (rendering measureText s)).
Proof.
  intros Hwf Hsel Htexts Hr.
  pose proof (rendering_well_formed s Hwf) as Hwf'.
  pose proof (rendering_boxes_current s (valid_is_Some _ _ (proj1 Hwf))) as Hboxes.
  pose proof (rendering_texts_trimmed s Htexts) as Htexts'.
  split; [exact Hwf'|]. split; [|split; [exact Hboxes|split; [exact Htexts'|]]].
  - split.
    + exact Hsel.
    + unfold listing. tm_simpl. apply entries_in_step.
      apply (valid_is_Some _ _ (proj1 Hwf')).
  - change (renderable (rendering measureText s) = true).
    rewrite renderable_rendering. exact Hr.
Qed.

Lemma rendering_steady (s : TextManager num) :
  well_formed s -> in_step s -> texts_trimmed s -> renderable s = true ->
  steady measureText (rendering measureText s).
Proof.
  intros Hwf Hstep Htexts Hr.
  split; [apply rendering_well_formed, Hwf|].
  split; [apply rendering_in_step, Hstep|].
  split; [apply rendering_boxes_current, valid_is_Some, Hwf|].
  split; [apply rendering_texts_trimmed, Htexts|].
  rewrite renderable_rendering. exact Hr.
Qed.

Lemma steady_same_items (s s' : TextManager num) :
  canvas s' = canvas s -> notesList s' = notesList s -> objects s' = objects s ->
  items s' = items s -> selectedItem s' = selectedItem s ->
  draggingItem s' = draggingItem s ->
  steady measureText s -> steady measureText s'.
Proof.
  intros Hc Hn Ho Hi Hs Hd.
  unfold steady, well_formed, in_step, boxes_current, texts_trimmed, renderable.
  rewrite Hc, Hn, Ho, Hi, Hs, Hd. intros Hsteady. exact Hsteady.
Qed.

Lemma steady_items (s : TextManager num) :
  steady measureText s -> Forall (fun r => is_Some (objects s !! r)) (items s).
Proof. intros (Hwf & _). apply valid_is_Some, Hwf. Qed.

Lemma steady_selected (s : TextManager num) :
  steady measureText s -> forall sel, selectedItem s = Some sel -> is_Some (objects s !! sel).
Proof. intros (Hwf & _). apply well_formed_selected, Hwf. Qed.

Lemma steady_renderable (s : TextManager num) :
  steady measureText s -> renderable s = true.
Proof. intros (_ & _ & _ & _ & Hr). exact Hr. Qed.

(** Adding an item that the canvas accepts. *)
Lemma add_steady id fontSize_number textColor_value type text (s : TextManager num) :
  steady measureText s -> text <> [] -> trim text = text ->
  paintable (new_item id fontSize_number textColor_value type text None None s) = true ->
  exists ref s',
    addItem measureText id fontSize_number textColor_value type text None None s
      = St.Done ref s' /\
    steady measureText s' /\ steady measureText (with_textInput [] s').
Proof.
  intros Hs Hne Htrim Hp.
  pose proof Hs as ((Hitems & Hnodup & Hsel & Hdrag) & (Hselin & _) & _ & Htexts & Hr).
  eexists _, _.
  split; [apply addItem_eq;
          [apply steady_items; exact Hs|apply steady_selected; exact Hs|exact Hr|exact Hp]|].
  assert (Hsteady : steady measureText
            (listing (rendering measureText
               (added id fontSize_number textColor_value type text None None s)))).
  { apply listing_rendering_steady.
    - unfold well_formed, added. tm_simpl. rewrite length_app. cbn [length].
      split; [|split; [|split]].
      + apply Forall_app. split; [|apply Forall_singleton; cbn beta; lia].
        eapply Forall_impl; [exact Hitems|]. intros r Hr'. cbn beta in *. lia.
      + apply NoDup_app. split; [exact Hnodup|]. split; [|apply NoDup_singleton].
        intros r Hin ->%list_elem_of_singleton.
        pose proof (proj1 (Forall_forall _ _) Hitems _ Hin) as Hlt. cbn beta in Hlt. lia.
      + intros r Hr'. specialize (Hsel r Hr'). lia.
      + intros r Hr'. specialize (Hdrag r Hr'). lia.
    - unfold added. tm_simpl. intros r Hr'. apply elem_of_app. left. apply Hselin, Hr'.
    - unfold texts_trimmed, added. tm_simpl. apply Forall_app. split.
      + eapply Forall_impl; [exact Htexts|]. intros r (it & Hit & Hnz & Htr). cbn beta.
        exists it. split; [apply lookup_app_l_Some; exact Hit|]. split; assumption.
      + apply Forall_singleton. eexists. split; [apply list_lookup_middle; reflexivity|].
        split; assumption.
    - rewrite renderable_added by (apply steady_items; exact Hs).
      rewrite Hr, Hp. reflexivity. }
  split; (eapply steady_same_items; [..|exact Hsteady]); reflexivity.
Qed.

Lemma delete_steady (index : nat) (s : TextManager num) :
  steady measureText s -> steady measureText (deleted measureText index s).
Proof.
  intros ((Hitems & Hnodup & Hsel & Hdrag) & _ & _ & Htexts & Hr).
  unfold deleted.
  eapply steady_same_items; [..|apply listing_rendering_steady]; try reflexivity.
  - unfold well_formed. tm_simpl. split; [|split; [|split]].
    + apply Forall_forall. intros r Hr'. apply (proj1 (Forall_forall _ _) Hitems).
      eapply list_elem_of_delete_inv; exact Hr'.
    + eapply sublist_NoDup; [exact Hnodup|apply sublist_delete].
    + intros r [=].
    + exact Hdrag.
  - tm_simpl. intros r [=].
  - unfold texts_trimmed. tm_simpl. apply Forall_forall. intros r Hr'.
    apply (proj1 (Forall_forall _ _) Htexts). eapply list_elem_of_delete_inv; exact Hr'.
  - unfold renderable. tm_simpl. apply forallb_delete. exact Hr.
Qed.

(** Replacing an object by one with the same id, type and text. *)
Lemma insert_steady_pre (ref : nat) (it it' : Item.t num) (s : TextManager num) :
  steady measureText s -> objects s !! ref = Some it ->
  Item.id it' = Item.id it -> Item.type it' = Item.type it -> Item.text it' = Item.text it ->
  let s0 := with_objects (<[ref := it']> (objects s)) s in
  well_formed s0 /\ in_step s0 /\ texts_trimmed s0.
Proof.
  intros ((Hitems & Hnodup & Hsel & Hdrag) & (Hselin & Hnotes) & _ & Htexts & _)
    Hit Hid Hty Htx s0.
  subst s0. unfold well_formed, in_step, texts_trimmed. tm_simpl. rewrite length_insert.
  split; [repeat split; assumption|]. split; [split; [exact Hselin|]|].
  - eapply Forall2_impl; [exact Hnotes|]. intros el r (i0 & Hi0 & ->). cbn beta.
    destruct (decide (r = ref)) as [->|Hne].
    + exists it'. split; [apply insert_lookup_same; eauto|].
      rewrite Hit in Hi0. injection Hi0 as <-.
      unfold entry_of. rewrite Hid, Hty, Htx. reflexivity.
    + exists i0. split; [rewrite list_lookup_insert_ne by congruence; exact Hi0|reflexivity].
  - eapply Forall_impl; [exact Htexts|]. intros r (i0 & Hi0 & Hnz & Htr). cbn beta.
    destruct (decide (r = ref)) as [->|Hne].
    + exists it'. split; [apply insert_lookup_same; eauto|].
      rewrite Hit in Hi0. injection Hi0 as <-. rewrite Htx. split; assumption.
    + exists i0. split; [rewrite list_lookup_insert_ne by congruence; exact Hi0|].
      split; assumption.
Qed.

Lemma first_with_id_in_items (s : TextManager num) id (refs : list nat) index ref :
  first_with_id s id refs = Some (index, ref) -> ref ∈ refs.
Proof.
  unfold first_with_id. intros (Hlk & _)%list_find_Some.
  eapply list_elem_of_lookup_2. exact Hlk.
Qed.

(** A [renderItems] that throws leaves a note that cannot be painted. *)
Lemma renderItems_stuck_renderable (s s' : TextManager num) e :
  renderItems measureText s = St.Raised e s' -> renderable s = false ->
  renderable s' = false.
Proof.
  intros Hrun Hr. pose proof (repainted_renderItems s) as Hre.
  rewrite Hrun in Hre. cbn [St.after] in Hre.
  rewrite (repainted_renderable _ _ Hre). exact Hr.
Qed.

(** A listener leaves the manager steady, or it throws the [TypeError] of
    a note that cannot be painted, which only the two listeners that set
    positions and sizes can do. *)
Lemma listener_steady (e : Event num) (s : TextManager num) :
  steady measureText s ->
  (exists s', listener measureText e s = St.Done tt s' /\ steady measureText s') \/
  (exists s', listener measureText e s = St.Raised TypeError s' /\
     may_throw e = true /\ renderable s' = false).
Proof.
  intros Hs.
  pose proof (steady_items s Hs) as Hitems.
  pose proof (steady_selected s Hs) as Hsel.
  pose proof Hs as (Hwf & (Hselin & Hnotes) & Hboxes & Htexts & Hr).
  destruct e as [id fsn col|id fsn col|v|e|e| | |e answer|key|rw rh|entry on_button];
    cbn [listener].
  - (* add text *)
    left. st_next. destruct (bool_decide_reflect (trim (textInput s) = [])) as [Hempty|Hfull].
    + exists s. split; [reflexivity|exact Hs].
    + destruct (add_steady id fsn col "text" (trim (textInput s)) s Hs Hfull (trim_idem _)
                  eq_refl)
        as (ref & s' & Hadd & _ & Hs').
      rewrite (bind_done _ _ _ _ _ Hadd). eexists. split; [reflexivity|exact Hs'].
  - (* add note *)
    st_next. destruct (bool_decide_reflect (trim (textInput s) = [])) as [Hempty|Hfull].
    + left. exists s. split; [reflexivity|exact Hs].
    + destruct (paintable (new_item id fsn col "note" (trim (textInput s)) None None s))
        eqn:Hp.
      * left.
        destruct (add_steady id fsn col "note" (trim (textInput s)) s Hs Hfull (trim_idem _)
                    Hp)
          as (ref & s' & Hadd & _ & Hs').
        rewrite (bind_done _ _ _ _ _ Hadd). eexists. split; [reflexivity|exact Hs'].
      * right.
        destruct (addItem_stuck id fsn col "note" (trim (textInput s)) None None s
                    Hitems Hsel Hp) as (s' & Hadd & Hr').
        exists s'. rewrite (bind_raised _ _ _ _ _ Hadd).
        split; [reflexivity|]. split; [reflexivity|exact Hr'].
  - (* text input *)
    left. eexists. split; [reflexivity|].
    eapply steady_same_items; [..|exact Hs]; reflexivity.
  - (* pointer down *)
    left. unfold St.bind at 1. rewrite handleCanvasPointerDown_eq by assumption.
    destruct (topmost (eventPos e s) s) as [ref|] eqn:Htop.
    + destruct (topmost_in_items _ _ _ Htop) as [Hin _].
      destruct (proj1 (Forall_forall _ _) Hitems ref Hin) as [it Hit]. rewrite Hit.
      eexists. split; [reflexivity|]. apply rendering_steady.
      * destruct Hwf as (Hv & Hnd & Hsv & Hdv). unfold well_formed, grabbed. tm_simpl.
        repeat split; try assumption.
        -- intros r [= <-]. apply lookup_lt_is_Some. eauto.
        -- intros r [= <-]. apply lookup_lt_is_Some. eauto.
      * split; [|exact Hnotes]. unfold grabbed. tm_simpl. intros r [= <-]. exact Hin.
      * exact Htexts.
      * exact Hr.
    + eexists. split; [reflexivity|]. apply rendering_steady.
      * destruct Hwf as (Hv & Hnd & Hsv & Hdv). unfold well_formed. tm_simpl.
        repeat split; try assumption. intros r [=].
      * split; [|exact Hnotes]. tm_simpl. intros r [=].
      * exact Htexts.
      * exact Hr.
  - (* pointer move *)
    destruct (draggingItem s) as [ref|] eqn:Hdrag.
    + destruct Hwf as (Hv & Hnd & Hsv & Hdv).
      destruct (lookup_lt_is_Some_2 (objects s) ref (Hdv ref Hdrag)) as [it Hit].
      rewrite (handleCanvasPointerMove_eq e s ref it Hdrag Hit).
      destruct (insert_steady_pre ref it (dragged (eventPos e s) s it) s Hs Hit
                  eq_refl eq_refl eq_refl) as (Hwf0 & Hstep0 & Htexts0).
      cbn zeta in Hwf0, Hstep0, Htexts0.
      destruct (renderable (with_objects (<[ref := dragged (eventPos e s) s it]> (objects s)) s))
        eqn:Hr0.
      * left. rewrite renderItems_eq;
          [|apply valid_is_Some, Hwf0|apply well_formed_selected, Hwf0|exact Hr0].
        eexists. split; [reflexivity|]. apply rendering_steady; assumption.
      * right.
        destruct (renderItems_stuck _ (valid_is_Some _ _ (proj1 Hwf0))
                    (well_formed_selected _ Hwf0) Hr0) as [s' Hs'].
        exists s'. split; [exact Hs'|]. split; [reflexivity|].
        eapply renderItems_stuck_renderable; [exact Hs'|exact Hr0].
    + left. rewrite handleCanvasPointerMove_idle by exact Hdrag.
      exists s. split; [reflexivity|exact Hs].
  - (* pointer up *)
    left. eexists. split; [reflexivity|].
    destruct Hwf as (Hv & Hnd & Hsv & Hdv).
    split; [|split; [exact (conj Hselin Hnotes)|split; [exact Hboxes|split;
             [exact Htexts|exact Hr]]]].
    unfold well_formed. tm_simpl. repeat split; try assumption. intros r [=].
  - (* pointer cancel *)
    left. eexists. split; [reflexivity|].
    destruct Hwf as (Hv & Hnd & Hsv & Hdv).
    split; [|split; [exact (conj Hselin Hnotes)|split; [exact Hboxes|split;
             [exact Htexts|exact Hr]]]].
    unfold well_formed. tm_simpl. repeat split; try assumption. intros r [=].
  - (* double click *)
    left. rewrite handleCanvasDoubleClick_eq by assumption.
    destruct (topmost (eventPos e s) s) as [ref|] eqn:Htop;
      [|exists s; split; [reflexivity|exact Hs]].
    destruct answer as [newText|]; [|exists s; split; [reflexivity|exact Hs]].
    destruct (bool_decide_reflect (trim newText = [])) as [Hempty|Hfull];
      [exists s; split; [reflexivity|exact Hs]|].
    destruct (topmost_in_items _ _ _ Htop) as [Hin _].
    destruct (proj1 (Forall_forall _ _) Hitems ref Hin) as [it Hit]. rewrite Hit.
    eexists. split; [reflexivity|].
    eapply steady_same_items; [..|apply listing_rendering_steady]; try reflexivity.
    + destruct Hwf as (Hv & Hnd & Hsv & Hdv). unfold well_formed. tm_simpl.
      rewrite length_insert. repeat split; assumption.
    + tm_simpl. exact Hselin.
    + unfold texts_trimmed. tm_simpl.
      eapply Forall_impl; [exact Htexts|]. intros r (i0 & Hi0 & Hnz & Htr). cbn beta.
      destruct (decide (r = ref)) as [->|Hne].
      * eexists. split; [apply insert_lookup_same; eauto|].
        split; [exact Hfull|apply trim_idem].
      * exists i0. split; [rewrite list_lookup_insert_ne by congruence; exact Hi0|].
        split; assumption.
    + rewrite (renderable_insert ref it _ s Hit) by reflexivity. exact Hr.
  - (* key down *)
    left. st_next. destruct (selectedItem s) as [ref|] eqn:Hsl;
      [|exists s; split; [reflexivity|exact Hs]].
    destruct (String.eqb key "Delete"); [|exists s; split; [reflexivity|exact Hs]].
    destruct (Hsel ref eq_refl) as [it Hit].
    rewrite (deleteItem_eq ref it s Hitems Hr Hit).
    destruct (first_with_id s (Item.id it) (items s)) as [[index r]|].
    + eexists. split; [reflexivity|]. apply delete_steady, Hs.
    + exists s. split; [reflexivity|exact Hs].
  - (* window resize *)
    left. unfold resizeCanvas. do 2 st_next.
    rewrite renderItems_eq by (tm_simpl; assumption).
    eexists. split; [reflexivity|]. apply rendering_steady.
    + exact Hwf.
    + exact (conj Hselin Hnotes).
    + exact Htexts.
    + exact Hr.
  - (* click in the notes list *)
    left. st_next. destruct (notesList s !! entry) as [el|] eqn:Hel;
      [|exists s; split; [reflexivity|exact Hs]].
    destruct (Forall2_lookup_l _ _ _ _ _ Hnotes Hel) as (ref & Href & it & Hit & ->).
    assert (Hin : ref ∈ items s) by (eapply list_elem_of_lookup_2; exact Href).
    destruct on_button.
    + st_next. rewrite (bind_done _ _ _ _ _ (find_eq _ _ s Hitems)).
      cbn [script_id entry_of].
      destruct (first_with_id s (Item.id it) (items s)) as [[index r]|] eqn:Hfirst.
      * cbn [fmap option_fmap option_map snd].
        pose proof (first_with_id_in_items _ _ _ _ _ Hfirst) as Hrin.
        destruct (proj1 (Forall_forall _ _) Hitems r Hrin) as [rit Hrit].
        rewrite (deleteItem_eq r rit s Hitems Hr Hrit).
        destruct (first_with_id s (Item.id rit) (items s)) as [[index' r']|].
        -- eexists. split; [reflexivity|]. apply delete_steady, Hs.
        -- exists s. split; [reflexivity|exact Hs].
      * exfalso. apply list_find_None in Hfirst.
        apply (proj1 (Forall_forall _ _) Hfirst ref Hin).
        unfold carries_id. rewrite Hit. reflexivity.
    + st_next. cbn [item entry_of].
      rewrite renderItems_eq.
      * eexists. split; [reflexivity|]. apply rendering_steady.
        -- destruct Hwf as (Hv & Hnd & Hsv & Hdv). unfold well_formed. tm_simpl.
           repeat split; try assumption. intros r [= <-]. apply lookup_lt_is_Some. eauto.
        -- split; [|exact Hnotes]. tm_simpl. intros r [= <-]. exact Hin.
        -- exact Htexts.
        -- exact Hr.
      * tm_simpl. exact Hitems.
      * tm_simpl. intros sel [= <-]. eauto.
      * exact Hr.
Qed.

Lemma constructor_steady cw ch v : steady measureText (constructor cw ch v : TextManager num).
Proof.
  split; [|split; [|split; [|split]]].
  - split; [constructor|]. split; [constructor|]. split; intros r [=].
  - split; [intros r [=]|constructor].
  - constructor.
  - constructor.
  - reflexivity.
Qed.

Lemma text_run_cons (e : Event num) (events : list (Event num)) (s : TextManager num) :
  run measureText (e :: events) s = run measureText events (dispatch measureText e s).
Proof. reflexivity. Qed.

(** A run in which no listener throws leaves the manager steady. *)
Lemma run_steady (events : list (Event num)) :
  forall s : TextManager num,
  steady measureText s -> uncaught measureText events s = [] ->
  steady measureText (run measureText events s).
Proof.
  induction events as [|e rest IH]; intros s Hs Hquiet; [exact Hs|].
  rewrite text_run_cons. unfold dispatch. cbn [uncaught] in Hquiet.
  destruct (listener_steady e s Hs) as [(s' & Heq & Hs')|(s' & Heq & _)];
    rewrite Heq in Hquiet |- *; [|discriminate Hquiet].
  apply IH; [exact Hs'|exact Hquiet].
Qed.

(* ------------------------------------------------------------------ *)
(** *** The texts of the items, whatever is thrown *)

Lemma repainted_texts_trimmed (s s' : TextManager num) :
  repainted s s' -> texts_trimmed s -> texts_trimmed s'.
Proof.
  intros (Ho & Hi & _). unfold texts_trimmed. rewrite Hi. intros Hall.
  eapply Forall_impl; [exact Hall|]. intros ref (it & Hit & Hne & Htrim). cbn beta.
  destruct (Forall2_lookup_l _ _ _ _ _ Ho Hit) as (it' & Hit' & _ & _ & Htx & _).
  exists it'. split; [exact Hit'|]. rewrite <- Htx. split; assumption.
Qed.

Lemma trimmed_renderItems : keeps texts_trimmed (renderItems measureText).
Proof.
  intros s Hs. eapply repainted_texts_trimmed; [apply repainted_renderItems|exact Hs].
Qed.

Lemma trimmed_modify (f : TextManager num -> TextManager num) :
  (forall s, objects (f s) = objects s) -> (forall s, items (f s) = items s) ->
  keeps texts_trimmed (St.modify f).
Proof.
  intros Ho Hi. apply keeps_modify. intros s Hs. unfold texts_trimmed.
  rewrite Ho, Hi. exact Hs.
Qed.

Lemma trimmed_assign ref (f : Item.t num -> Item.t num) :
  (forall it, Item.text it <> [] /\ trim (Item.text it) = Item.text it ->
              Item.text (f it) <> [] /\ trim (Item.text (f it)) = Item.text (f it)) ->
  keeps texts_trimmed (assign ref f).
Proof.
  intros Hf s Hs. destruct (objects s !! ref) as [cur|] eqn:Hcur.
  - rewrite (assign_eq ref f cur s Hcur). cbn [St.after].
    unfold texts_trimmed. tm_simpl.
    eapply Forall_impl; [exact Hs|]. intros r (it & Hit & Htext). cbn beta.
    destruct (decide (r = ref)) as [->|Hne].
    + exists (f cur). split; [apply insert_lookup_same; eauto|].
      apply Hf. rewrite Hcur in Hit. injection Hit as ->. exact Htext.
    + exists it. split; [rewrite list_lookup_insert_ne by congruence; exact Hit|exact Htext].
  - unfold assign. rewrite (bind_raised _ _ _ _ _ (read_dangling ref s Hcur)). exact Hs.
Qed.

Ltac trimmed_step :=
  lazy zeta;
  lazymatch goal with
  | |- keeps _ (St.bind _ _) => apply keeps_bind; [|intros ?]
  | |- keeps _ (St.ret _) => apply keeps_ret
  | |- keeps _ (St.gets _) => apply keeps_gets
  | |- keeps _ (St.deref _) => apply keeps_deref
  | |- keeps _ (St.modify _) => apply trimmed_modify; intros ?; reflexivity
  | |- keeps _ (read _) => apply keeps_read
  | |- keeps _ (getEventPos _) => unfold getEventPos
  | |- keeps _ (showNotification _ _) => unfold showNotification
  | |- keeps _ (renderItems _) => apply trimmed_renderItems
  | |- keeps _ (assign _ _) => apply trimmed_assign; intros ? ?; assumption
  | |- keeps _ (if ?b then _ else _) => destruct b
  | |- keeps _ (match ?o with Some _ => _ | None => _ end) => destruct o
  end.

Lemma trimmed_refreshNotesList : keeps texts_trimmed (refreshNotesList (num := num)).
Proof.
  unfold refreshNotesList.
  apply keeps_bind; [trimmed_step|intros _].
  apply keeps_bind; [trimmed_step|intros refs].
  apply keeps_for_of. intros ref. unfold noteEntry. repeat trimmed_step.
Qed.

Lemma trimmed_itemAt (pos : Point num) (n : nat) : keeps texts_trimmed (itemAt pos n).
Proof.
  induction n as [|i IH]; [apply keeps_ret|]. cbn [itemAt].
  apply keeps_bind; [trimmed_step|intros refs].
  apply keeps_bind; [trimmed_step|intros ref].
  apply keeps_bind; [trimmed_step|intros it].
  destruct (inBox pos it); [apply keeps_ret|exact IH].
Qed.

Lemma trimmed_findIndex (test : nat -> M num bool) (refs : list nat) :
  (forall r, keeps texts_trimmed (test r)) ->
  forall k, keeps texts_trimmed (findIndex test refs k).
Proof.
  intros Htest. induction refs as [|ref rest IH]; intros k; [apply keeps_ret|].
  cbn [findIndex]. apply keeps_bind; [apply Htest|]. intros [|]; [apply keeps_ret|apply IH].
Qed.

Lemma trimmed_find (test : nat -> M num bool) (refs : list nat) :
  (forall r, keeps texts_trimmed (test r)) -> keeps texts_trimmed (find test refs).
Proof.
  intros Htest. induction refs as [|ref rest IH]; [apply keeps_ret|].
  cbn [find]. apply keeps_bind; [apply Htest|]. intros [|]; [apply keeps_ret|apply IH].
Qed.

Lemma trimmed_deleteItem item : keeps texts_trimmed (deleteItem measureText item).
Proof.
  unfold deleteItem. apply keeps_bind; [apply keeps_gets|]. intros refs.
  apply keeps_bind.
  { apply trimmed_findIndex. intros r. unfold same_id_as. repeat trimmed_step. }
  intros [index|]; [|apply keeps_ret].
  apply keeps_bind.
  { apply keeps_modify. intros s Hs. unfold texts_trimmed. tm_simpl.
    apply Forall_forall. intros r Hr. apply (proj1 (Forall_forall _ _) Hs).
    eapply list_elem_of_delete_inv; exact Hr. }
  intros _. apply keeps_bind; [apply trimmed_modify; intros ?; reflexivity|]. intros _.
  apply keeps_bind; [apply trimmed_renderItems|]. intros _.
  apply keeps_bind; [apply trimmed_refreshNotesList|]. intros _.
  repeat trimmed_step.
Qed.

Lemma trimmed_addItem id fontSize_number textColor_value type text pos_x pos_y :
  text <> [] -> trim text = text ->
  keeps texts_trimmed
    (addItem measureText id fontSize_number textColor_value type text pos_x pos_y).
Proof.
  intros Hne Htrim s Hs. rewrite addItem_pre.
  assert (Hadded : texts_trimmed
            (added id fontSize_number textColor_value type text pos_x pos_y s)).
  { unfold texts_trimmed, added. tm_simpl. apply Forall_app. split.
    - eapply Forall_impl; [exact Hs|]. intros r (it & Hit & Hnz & Htr). cbn beta.
      exists it. split; [apply lookup_app_l_Some; exact Hit|]. split; assumption.
    - apply Forall_singleton. eexists. split; [apply list_lookup_middle; reflexivity|].
      split; assumption. }
  lazymatch goal with
  | |- texts_trimmed (St.after (?m ?s1)) => assert (Hk : keeps texts_trimmed m)
  end.
  { apply keeps_bind; [apply trimmed_renderItems|]. intros _.
    apply keeps_bind; [apply trimmed_refreshNotesList|]. intros _.
    repeat trimmed_step. }
  apply Hk, Hadded.
Qed.

(** Every listener keeps the texts of the items trimmed and not empty,
    whether it returns or throws. *)
Lemma trimmed_listener (e : Event num) : keeps texts_trimmed (listener measureText e).
Proof.
  destruct e as [id fsn col|id fsn col|v|e|e| | |e answer|key|rw rh|entry on_button];
    cbn [listener].
  - apply keeps_bind; [apply keeps_gets|]. intros v.
    destruct (bool_decide_reflect (trim v = [])) as [Hempty|Hfull]; [apply keeps_ret|].
    apply keeps_bind; [apply trimmed_addItem; [exact Hfull|apply trim_idem]|].
    intros _. trimmed_step.
  - apply keeps_bind; [apply keeps_gets|]. intros v.
    destruct (bool_decide_reflect (trim v = [])) as [Hempty|Hfull]; [apply keeps_ret|].
    apply keeps_bind; [apply trimmed_addItem; [exact Hfull|apply trim_idem]|].
    intros _. trimmed_step.
  - trimmed_step.
  - apply keeps_bind; [|intros stopped; apply keeps_ret].
    unfold handleCanvasPointerDown.
    apply keeps_bind; [repeat trimmed_step|intros pos].
    apply keeps_bind; [trimmed_step|intros n].
    apply keeps_bind; [apply trimmed_itemAt|intros found].
    repeat trimmed_step.
  - unfold handleCanvasPointerMove. repeat trimmed_step.
  - unfold handleCanvasPointerUp. trimmed_step.
  - unfold handleCanvasPointerUp. trimmed_step.
  - unfold handleCanvasDoubleClick.
    apply keeps_bind; [repeat trimmed_step|intros pos].
    apply keeps_bind; [trimmed_step|intros n].
    apply keeps_bind; [apply trimmed_itemAt|intros found].
    destruct found as [ref|]; [|apply keeps_ret].
    destruct answer as [newText|]; [|apply keeps_ret].
    destruct (bool_decide_reflect (trim newText = [])) as [Hempty|Hfull]; [apply keeps_ret|].
    apply keeps_bind.
    { apply trimmed_assign. intros it _. split; [exact Hfull|apply trim_idem]. }
    intros _. apply keeps_bind; [apply trimmed_renderItems|]. intros _.
    apply keeps_bind; [apply trimmed_refreshNotesList|]. intros _.
    repeat trimmed_step.
  - apply keeps_bind; [apply keeps_gets|]. intros [ref|]; [|apply keeps_ret].
    destruct (String.eqb key "Delete"); [apply trimmed_deleteItem|apply keeps_ret].
  - unfold resizeCanvas. repeat trimmed_step.
  - apply keeps_bind; [apply keeps_gets|]. intros els.
    destruct (els !! entry) as [el|]; [|apply keeps_ret].
    destruct on_button.
    + apply keeps_bind; [apply keeps_gets|]. intros refs.
      apply keeps_bind; [|intros found; apply trimmed_deleteItem].
      apply trimmed_find. intros r. unfold has_id. repeat trimmed_step.
    + repeat trimmed_step.
Qed.

Lemma run_texts_trimmed (events : list (Event num)) :
  forall s : TextManager num, texts_trimmed s -> texts_trimmed (run measureText events s).
Proof.
  induction events as [|e rest IH]; intros s Hs; [exact Hs|].
  rewrite text_run_cons. apply IH. unfold dispatch. apply trimmed_listener, Hs.
Qed.

(* ------------------------------------------------------------------ *)
(** *** What is painted on top is what is grabbed *)

Lemma texts_painted_app (a b : list (TextCall num)) :
  texts_painted (a ++ b) = texts_painted a ++ texts_painted b.
Proof. unfold texts_painted. apply omap_app. Qed.

Lemma texts_painted_item sel cw (it : Item.t num) :
  texts_painted (item_calls measureText sel cw it) = [(Item.text it, Item.x it, Item.y it)].
Proof.
  unfold item_calls, paint_calls, outline_calls. rewrite texts_painted_app.
  destruct (is_note it), (bool_decide (sel = Some (Item.id it))); reflexivity.
Qed.

Lemma texts_painted_loop sel cw (refs : list nat) (objs : list (Item.t num)) :
  texts_painted (loop_calls measureText sel cw refs objs) =
  omap (fun ref => (fun it => (Item.text it, Item.x it, Item.y it)) <$> objs !! ref) refs.
Proof.
  unfold loop_calls. induction refs as [|ref rest IH]; [reflexivity|].
  cbn [mbind list_bind omap list_omap]. rewrite texts_painted_app, IH.
  destruct (objs !! ref) as [it|]; [|reflexivity].
  rewrite texts_painted_item. reflexivity.
Qed.

Lemma last_filter_split {A} (P : A -> Prop) `{!forall a, Decision (P a)} (l : list A) :
  match last (filter P l) with
  | Some a => exists l1 l2, l = l1 ++ a :: l2 /\ P a /\ Forall (fun b => ~ P b) l2
  | None => Forall (fun b => ~ P b) l
  end.
Proof.
  induction l as [|b l IH] using rev_ind; [constructor|].
  rewrite filter_snoc. destruct (decide (P b)) as [Hb|Hb].
  - rewrite last_snoc. exists l, []. repeat split; [exact Hb|constructor].
  - rewrite app_nil_r. destruct (last (filter P l)) as [a|].
    + destruct IH as (l1 & l2 & -> & Ha & Hl2). exists l1, (l2 ++ [b]).
      rewrite <- app_assoc. repeat split; [exact Ha|].
      apply Forall_app. split; [exact Hl2|]. apply Forall_singleton. exact Hb.
    + apply Forall_app. split; [exact IH|]. apply Forall_singleton. exact Hb.
Qed.

(** X11. [handleCanvasPointerDown] takes hold of the item that is painted on
    top at the pointer.  On a manager whose references are sound and whose
    notes can all be painted, the handler returns; it repaints the items in
    the order of [items], so that a later item lies over an earlier one, and
    the item it makes both [selectedItem] and [draggingItem] is the last
    item of [items] whose box, widened by 12 for a note and by 6 for a text,
    holds the position of the pointer; [dragOffset] is then the offset of
    the pointer from the corner of that item and [stopPropagation] is
    called.  Where no box holds the position the selection is cleared,
    [draggingItem] stays as it was and [stopPropagation] is not called. *)
Theorem pointer_down_grabs_the_item_painted_on_top (e : Pointer num) (s : TextManager num) :
  well_formed s -> renderable s = true ->
  let pos := eventPos e s in
  exists stopped s',
    handleCanvasPointerDown measureText e s = St.Done stopped s' /\
    items s' = items s /\
    texts_painted (drop (length (t_calls (canvas s))) (t_calls (canvas s')))
      = omap (fun ref => (fun it => (Item.text it, Item.x it, Item.y it)) <$> objects s !! ref)
          (items s) /\
    match topmost pos s with
    | Some ref =>
        stopped = true /\ selectedItem s' = Some ref /\ draggingItem s' = Some ref /\
        (exists it, objects s !! ref = Some it /\ inBox pos it = true /\
           dragOffset s' = Pt (x pos - Item.x it)%js (y pos - Item.y it)%js) /\
        (exists below above, items s = below ++ ref :: above /\
           Forall (fun r => holds pos s r = false) above)
    | None =>
        stopped = false /\ selectedItem s' = None /\ draggingItem s' = draggingItem s /\
        Forall (fun r => holds pos s r = false) (items s)
    end.
Proof.
  intros Hs Hr pos. pose proof (valid_is_Some _ _ (proj1 Hs)) as Hitems.
  rewrite handleCanvasPointerDown_eq by assumption. fold pos.
  pose proof (last_filter_split (fun r => holds pos s r = true) (items s)) as Hsplit.
  fold (topmost pos s) in Hsplit.
  assert (Hnot : forall l : list nat,
            Forall (fun b => ~ holds pos s b = true) l ->
            Forall (fun r => holds pos s r = false) l).
  { intros l Hl. eapply Forall_impl; [exact Hl|]. intros r Hr'. cbn beta in *.
    destruct (holds pos s r); [exfalso; apply Hr'; reflexivity|reflexivity]. }
  assert (Hpaint : forall s0 : TextManager num,
            items s0 = items s -> objects s0 = objects s -> canvas s0 = canvas s ->
            texts_painted (drop (length (t_calls (canvas s)))
                             (t_calls (canvas (rendering measureText s0))))
            = omap (fun ref => (fun it => (Item.text it, Item.x it, Item.y it))
                                 <$> objects s !! ref) (items s)).
  { intros s0 Hi Ho Hc. unfold rendering, render_calls. tm_simpl. rewrite Hi, Ho, Hc.
    rewrite drop_app_length, texts_painted_app, texts_painted_loop. reflexivity. }
  destruct (topmost pos s) as [ref|] eqn:Htop.
  - destruct (topmost_in_items _ _ _ Htop) as [Hin Hholds].
    destruct (proj1 (Forall_forall _ _) Hitems ref Hin) as [it Hit]. rewrite Hit.
    destruct Hsplit as (below & above & Hl & _ & Habove).
    eexists _, _. split; [reflexivity|]. split; [reflexivity|].
    split; [apply Hpaint; reflexivity|].
    split; [reflexivity|]. split; [reflexivity|]. split; [reflexivity|]. split.
    + exists it. split; [reflexivity|]. split; [|reflexivity].
      unfold holds in Hholds. rewrite Hit in Hholds. exact Hholds.
    + exists below, above. split; [exact Hl|apply Hnot, Habove].
  - eexists _, _. split; [reflexivity|]. split; [reflexivity|].
    split; [apply Hpaint; reflexivity|].
    split; [reflexivity|]. split; [reflexivity|]. split; [reflexivity|].
    apply Hnot, Hsplit.
Qed.

(* ------------------------------------------------------------------ *)
(** *** Dragging *)

(** X12. [handleCanvasPointerMove] keeps the item it drags on the text
    layer.  With an item held, the handler puts it at the position of the
    pointer less [dragOffset], clamped: [x] becomes
    [Math.max(0, Math.min(canvas.width - w, x))] and [y] likewise with the
    height.  So neither is below 0, and [x] is not beyond
    [canvas.width - w] when that room is not negative (else the item sits
    at 0); read with [<], this holds for NaN as well.  No other object
    moves, [items] and [draggingItem] stay as they were; and all this holds
    of the manager after the handler whether the repainting at its end
    returns or throws. *)
Theorem dragged_item_stays_on_the_text_layer `{!JsMathOrder num}
    (e : Pointer num) (s : TextManager num) (ref : nat) (it : Item.t num) :
  draggingItem s = Some ref -> objects s !! ref = Some it ->
  let pos := eventPos e s in
  let room_x := (n_of_nat (t_width (canvas s)) - Item.w it)%js in
  let room_y := (n_of_nat (t_height (canvas s)) - Item.h it)%js in
  let s' := St.after (handleCanvasPointerMove measureText e s) in
  exists it',
    objects s' !! ref = Some it' /\
    Item.x it' = n_max n_zero (n_min room_x (x pos - x (dragOffset s))%js) /\
    Item.y it' = n_max n_zero (n_min room_y (y pos - y (dragOffset s))%js) /\
    (Item.x it' <? n_zero)%js = false /\ (Item.y it' <? n_zero)%js = false /\
    ((room_x <? n_zero)%js = false -> (room_x <? Item.x it')%js = false) /\
    ((room_y <? n_zero)%js = false -> (room_y <? Item.y it')%js = false) /\
    (forall r other, r <> ref -> objects s !! r = Some other ->
       exists other', objects s' !! r = Some other' /\
         Item.x other' = Item.x other /\ Item.y other' = Item.y other) /\
    items s' = items s /\ draggingItem s' = Some ref.
Proof.
  intros Hdrag Hit pos room_x room_y.
  rewrite (handleCanvasPointerMove_eq e s ref it Hdrag Hit). fold pos.
  set (s1 := with_objects (<[ref := dragged pos s it]> (objects s)) s).
  destruct (repainted_renderItems s1) as (Ho & Hi & _ & Hd & _).
  cbn zeta.
  assert (Hmid : objects s1 !! ref = Some (dragged pos s it)).
  { subst s1. tm_simpl. apply insert_lookup_same. eauto. }
  destruct (Forall2_lookup_l _ _ _ _ _ Ho Hmid) as (it' & Hit' & Hsame).
  destruct Hsame as (_ & _ & _ & _ & _ & Hx & Hy).
  exists it'. split; [exact Hit'|].
  assert (Hx' : Item.x it' = n_max n_zero (n_min room_x (x pos - x (dragOffset s))%js))
    by (rewrite <- Hx; reflexivity).
  assert (Hy' : Item.y it' = n_max n_zero (n_min room_y (y pos - y (dragOffset s))%js))
    by (rewrite <- Hy; reflexivity).
  split; [exact Hx'|]. split; [exact Hy'|].
  split; [rewrite Hx'; apply n_max_not_below|].
  split; [rewrite Hy'; apply n_max_not_below|].
  split; [intros Hroom; rewrite Hx'; apply n_max_bounded;
          [exact Hroom|apply n_min_not_above]|].
  split; [intros Hroom; rewrite Hy'; apply n_max_bounded;
          [exact Hroom|apply n_min_not_above]|].
  split; [|split; [exact Hi|rewrite Hd; exact Hdrag]].
  intros r other Hne Hother.
  assert (Hmid' : objects s1 !! r = Some other).
  { subst s1. tm_simpl. rewrite list_lookup_insert_ne by congruence. exact Hother. }
  destruct (Forall2_lookup_l _ _ _ _ _ Ho Hmid') as (other' & Hother' & Hsame).
  destruct Hsame as (_ & _ & _ & _ & _ & Hox & Hoy).
  exists other'. split; [exact Hother'|]. split; congruence.
Qed.

(* ------------------------------------------------------------------ *)
(** *** Deleting *)

(** X13. [deleteItem(item)] removes the first item of [items] that has the
    id of [item], which need not be [item] itself.  On a manager whose
    references are sound and whose notes can all be painted, that item goes
    and every other item stays, in order; the selection is cleared
    whichever item was selected, [draggingItem] is left as it was, the
    notes list is written anew for the items that remain and "Item deleted"
    is notified.  Where no item has that id nothing changes.
    [deleteItem(undefined)] throws a [TypeError], unless there is no item at
    all: then it does nothing. *)
Theorem deleteItem_removes_the_first_item_with_that_id
    (ref : nat) (it : Item.t num) (s : TextManager num) :
  well_formed s -> renderable s = true -> objects s !! ref = Some it ->
  deleteItem measureText None s
    = (if bool_decide (items s = []) then St.Done tt s else St.Raised TypeError s) /\
  match list_find (fun r => Item.id <$> objects s !! r = Some (Item.id it)) (items s) with
  | Some (index, first) =>
      exists s', deleteItem measureText (Some ref) s = St.Done tt s' /\
        items s' = delete index (items s) /\
        (first ∉ items s') /\
        (forall r, r ∈ items s -> r <> first -> r ∈ items s') /\
        selectedItem s' = None /\ draggingItem s' = draggingItem s /\
        item <$> notesList s' = items s' /\
        notifications s' = notifications s ++ [("Item deleted", "info")]
  | None => deleteItem measureText (Some ref) s = St.Done tt s
  end.
Proof.
  intros Hs Hr Hit.
  pose proof (valid_is_Some _ _ (proj1 Hs)) as Hitems.
  split; [rewrite (deleteItem_undefined s Hitems); destruct (items s); reflexivity|].
  rewrite (deleteItem_eq ref it s Hitems Hr Hit). unfold first_with_id, carries_id.
  destruct (list_find _ (items s)) as [[index first]|] eqn:Hfind; [|reflexivity].
  apply list_find_Some in Hfind as (Hlk & _ & _).
  destruct Hs as (_ & Hnodup & _).
  eexists. split; [reflexivity|]. split; [reflexivity|].
  assert (Hitems' : items (deleted measureText index s) = delete index (items s))
    by reflexivity.
  split; [|split; [|split; [reflexivity|split; [reflexivity|split; [|reflexivity]]]]].
  - rewrite Hitems'. intros Hin.
    apply list_elem_of_lookup in Hin as [j Hj].
    destruct (Nat.lt_ge_cases j index) as [Hlt|Hge].
    + rewrite list_lookup_delete_lt in Hj by exact Hlt.
      pose proof (NoDup_lookup _ _ _ _ Hnodup Hj Hlk). lia.
    + rewrite list_lookup_delete_ge in Hj by exact Hge.
      pose proof (NoDup_lookup _ _ _ _ Hnodup Hj Hlk). lia.
  - rewrite Hitems'. intros r Hin Hne.
    apply list_elem_of_lookup in Hin as [j Hj].
    apply list_elem_of_lookup.
    destruct (Nat.lt_ge_cases j index) as [Hlt|Hge].
    + exists j. rewrite list_lookup_delete_lt by exact Hlt. exact Hj.
    + destruct (decide (j = index)) as [->|Hji]; [congruence|].
      exists (j - 1). rewrite list_lookup_delete_ge by lia.
      replace (S (j - 1)) with j by lia. exact Hj.
  - rewrite Hitems'. unfold deleted, notified, listing. tm_simpl.
    apply entries_items. apply Forall_forall. intros r Hr'.
    apply rendering_is_Some. tm_simpl. apply (proj1 (Forall_forall _ _) Hitems).
    eapply list_elem_of_delete_inv; exact Hr'.
Qed.

(* ------------------------------------------------------------------ *)
(** *** Every run *)

(** X14. Selection and notes list stay in step with the items.  After any
    events from the constructor on, as long as no listener has thrown, the
    selected item is one of the items, no object is in [items] twice, and
    the notes list has one child for each item, in the order of [items],
    whose click listener selects that item.  The markup of the child was
    written from the present values of the item: the type in upper case, the
    first 20 code units of the text, an ellipsis exactly for a text of more
    than 20, and the id in the script of the button.  Where the markup holds
    these values as they are -- a text without [<], [&], NUL and carriage
    return in its first 20 code units, an id of digits and small letters --
    they are what the child shows as its label and what its button finds the
    item by. *)
Theorem text_manager_stays_in_step (events : list (Event num)) cw ch v :
  uncaught measureText events (constructor cw ch v) = [] ->
  let s := run measureText events (constructor cw ch v) in
  (forall ref, selectedItem s = Some ref -> ref ∈ items s) /\
  NoDup (items s) /\
  item <$> notesList s = items s /\
  Forall2 (fun el ref => exists it, objects s !! ref = Some it /\
             span_type el = toUpperCase (Item.type it) /\
             span_text el = take 20 (Item.text it) /\
             span_ellipsis el = (20 <? length (Item.text it))%nat /\
             script_id el = Item.id it /\
             (forallb (fun c => negb (is_markup c)) (take 20 (Item.text it)) = true ->
              Item.type it = "text" \/ Item.type it = "note" ->
              alphanumeric (Item.id it) = true ->
              label el = Some {|
                label_type := toUpperCase (Item.type it);
                label_text := take 20 (Item.text it);
                label_ellipsis := (20 <? length (Item.text it))%nat;
                button_id := Item.id it;
              |}))
    (notesList s) (items s).
Proof.
  intros Hquiet s.
  pose proof (run_steady events _ (constructor_steady cw ch v) Hquiet) as Hs. fold s in Hs.
  destruct Hs as ((_ & Hnodup & _) & (Hsel & Hnotes) & _).
  split; [exact Hsel|]. split; [exact Hnodup|].
  split.
  - clear -Hnotes. induction Hnotes as [|el r els refs (i0 & _ & ->) _ IH]; [reflexivity|].
    cbn [fmap list_fmap]. cbn [fmap list_fmap] in IH. rewrite IH. reflexivity.
  - eapply Forall2_impl; [exact Hnotes|]. intros el r (i0 & Hi0 & ->). cbn beta.
    exists i0. split; [exact Hi0|]. do 4 (split; [reflexivity|]).
    intros Htext Htype Hid. unfold label, as_written, entry_of.
    cbn [span_type span_text span_ellipsis script_id].
    rewrite Htext, Hid.
    destruct Htype as [-> | ->]; reflexivity.
Qed.

(** X15. The box of every item is the one last painted.  After any events
    from the constructor on, as long as no listener has thrown, the [w] and
    [h] of every item are what [renderItems] computes from the present size
    and text of the item and the present width of the text layer: for a
    note, the smaller of the width of the layer less 20 and the measured
    width of the text plus 24, and the size plus 28; for a text, the
    measured width and the size.  The hit test of the pointer handlers thus
    works on the boxes that are shown. *)
Theorem item_boxes_are_those_painted_last (events : list (Event num)) cw ch v :
  uncaught measureText events (constructor cw ch v) = [] ->
  let s := run measureText events (constructor cw ch v) in
  Forall (fun ref => exists it, objects s !! ref = Some it /\
            Item.w it = (if String.eqb (Item.type it) "note"
                         then n_min (n_of_nat (t_width (canvas s)) - n_of_nat 20)%js
                                (measureText (Item.size it) (Item.text it)
                                 + n_of_nat 12 * n_of_nat 2)%js
                         else measureText (Item.size it) (Item.text it)) /\
            Item.h it = (if String.eqb (Item.type it) "note"
                         then (Item.size it + n_of_nat 12 * n_of_nat 2 + n_of_nat 4)%js
                         else Item.size it))
    (items s).
Proof.
  intros Hquiet s.
  pose proof (run_steady events _ (constructor_steady cw ch v) Hquiet)
    as (_ & _ & Hboxes & _).
  exact Hboxes.
Qed.

(** X16. No item ever has an empty text or white space at either end of
    its text.  After any events from the constructor on, whether listeners
    have thrown or not, the text of every item is not empty and neither
    starts nor ends with a code unit that [trim] strips: the two buttons add
    the trimmed text of the field and only if something is left of it, and
    a double click replaces a text by the trimmed answer and only if
    something is left of that. *)
Theorem item_texts_are_trimmed_and_not_empty (events : list (Event num)) cw ch v :
  let s := run measureText events (constructor cw ch v) in
  Forall (fun ref => exists it, objects s !! ref = Some it /\
            Item.text it <> [] /\
            (forall c rest, Item.text it = c :: rest -> is_white c = false) /\
            (forall c front, Item.text it = front ++ [c] -> is_white c = false))
    (items s).
Proof.
  intros s.
  assert (Htexts : texts_trimmed s).
  { apply run_texts_trimmed. constructor. }
  eapply Forall_impl; [exact Htexts|].
  intros ref (it & Hit & Hne & Htrim). cbn beta. exists it.
  split; [exact Hit|]. split; [exact Hne|].
  destruct (trim_ends (Item.text it)) as [Hhead Hlast]. rewrite Htrim in Hhead, Hlast.
  split; assumption.
Qed.

(* ------------------------------------------------------------------ *)
(** *** Exceptions *)

Lemma not_renderable_note (s : TextManager num) :
  renderable s = false ->
  exists ref it, ref ∈ items s /\ objects s !! ref = Some it /\
    Item.type it = "note" /\ paintable it = false.
Proof.
  unfold renderable. induction (items s) as [|r rest IH]; [discriminate|].
  cbn [forallb]. intros Hall.
  destruct (from_option paintable true (objects s !! r)) eqn:Hr.
  - cbn [andb] in Hall. destruct (IH Hall) as (ref & it & Hin & Hrest).
    exists ref, it. split; [apply list_elem_of_further, Hin|exact Hrest].
  - destruct (objects s !! r) as [it|] eqn:Hit; [|discriminate Hr]. cbn [from_option] in Hr.
    exists r, it. split; [apply list_elem_of_here|]. split; [exact Hit|].
    split; [|exact Hr]. unfold paintable, is_note in Hr.
    destruct (String.eqb_spec (Item.type it) "note") as [Hnote|Hnote]; [exact Hnote|].
    discriminate Hr.
Qed.

(** X17. The listeners of the text layer throw nothing but the [TypeError]
    of the gradient of a note.  After any events from the constructor on in
    which no listener has thrown, a listener that throws at a further event
    throws a [TypeError]; the event is a click on "add note" or a pointer
    move, and the listener leaves among the items a note that cannot be
    painted: a corner of its gradient, computed from its position and size,
    is not finite.  The listeners of all other events return. *)
Theorem text_listeners_throw_only_for_a_note_off_the_numbers
    (events : list (Event num)) cw ch v (e : Event num) err (s' : TextManager num) :
  uncaught measureText events (constructor cw ch v) = [] ->
  listener measureText e (run measureText events (constructor cw ch v)) = St.Raised err s' ->
  err = TypeError /\ may_throw e = true /\
  exists ref it, ref ∈ items s' /\ objects s' !! ref = Some it /\
    Item.type it = "note" /\ paintable it = false.
Proof.
  intros Hquiet Hrun.
  pose proof (run_steady events _ (constructor_steady cw ch v) Hquiet) as Hs.
  destruct (listener_steady e _ Hs) as [(s1 & Heq & _)|(s1 & Heq & Hmay & Hr)];
    rewrite Heq in Hrun; [discriminate Hrun|].
  injection Hrun as <- <-.
  split; [reflexivity|]. split; [exact Hmay|]. apply not_renderable_note, Hr.
Qed.

(** X18. [renderItems] returns unless a note cannot be painted, and it
    moves nothing.  On a manager whose references are sound, [renderItems]
    returns exactly when every note among the items has finite gradient
    corners, and then every item carries the box that was painted for it;
    otherwise it throws a [TypeError].  Whether it returns or throws, it
    changes nothing but the boxes of objects and the calls made on the
    canvas: ids, types, texts, colours, sizes and positions, the items and
    their order, the selection, the dragged item and the notes list are as
    before. *)
Theorem renderItems_returns_unless_a_note_is_off_the_numbers (s : TextManager num) :
  well_formed s ->
  repainted s (St.after (renderItems measureText s)) /\
  match renderItems measureText s with
  | St.Done _ s' => renderable s = true /\ boxes_current measureText s'
  | St.Raised err _ => err = TypeError /\ renderable s = false
  end.
Proof.
  intros Hs. split; [apply repainted_renderItems|].
  pose proof (valid_is_Some _ _ (proj1 Hs)) as Hitems.
  pose proof (well_formed_selected s Hs) as Hsel.
  destruct (renderable s) eqn:Hr.
  - rewrite (renderItems_eq s Hitems Hsel Hr).
    split; [reflexivity|]. apply rendering_boxes_current, Hitems.
  - destruct (renderItems_stuck s Hitems Hsel Hr) as [s' ->]. split; reflexivity.
Qed.

End TextLaws.
End TextFacts.

(* ================================================================== *)
(** ** Facts about [ExportManager] *)
(* ================================================================== *)

Module ExportManagerFacts.
Import ExportManager.

Lemma flipped_eq (w : nat) :
  scaled (-1) 1 (translated (Z.of_nat w) 0 identity) = flipped w.
Proof. unfold scaled, translated, flipped, identity. cbn. f_equal; lia. Qed.

(** The four sizes when nothing fails. *)
Lemma draw_fails_false (p : Page) :
  draw_fails p = false ->
  live p && bool_decide (draw_error (video p) <> None) = false /\
  (canvas_width p =? 0)%nat || (canvas_height p =? 0)%nat = false /\
  (textCanvas_width p =? 0)%nat || (textCanvas_height p =? 0)%nat = false.
Proof.
  unfold draw_fails. intros Hok.
  repeat (apply orb_false_elim in Hok as [Hok ?]).
  repeat split; [exact Hok|apply orb_false_intro; assumption|apply orb_false_intro; assumption].
Qed.

(** The two methods make the same calls on their temporary canvas. *)
Lemma copyToClipboard_draws_eq (p : Page) :
  copyToClipboard_draws p = exportImage_draws p.
Proof. reflexivity. Qed.

Lemma copyToClipboard_calls (p : Page) write_error :
  c_calls (copyToClipboard p write_error) = e_calls (exportImage p).
Proof.
  unfold copyToClipboard, exportImage.
  change (copyToClipboard_draws p) with (exportImage_draws p).
  destruct (exportImage_draws p []) as [calls [[]|err]]; [|reflexivity].
  destruct write_error; reflexivity.
Qed.

(** The drawing of [exportImage] when nothing fails. *)
Lemma exportImage_draws_ok (p : Page) :
  draw_fails p = false ->
  exists calls,
    exportImage_draws p [] = (calls, inl tt) /\
    drawn calls identity []
      = (background p ++ [(DrawLayer InkLayer 0 0, identity); (DrawLayer TextLayer 0 0, identity)], []).
Proof.
  intros Hok. destruct (draw_fails_false p Hok) as (Hvideo & Hink & Htext).
  unfold exportImage_draws, drawLayer, drawVideo, background. rewrite Hink, Htext.
  unfold live in *.
  destruct (isCameraActive p || negb (paused (video p)) && (2 <=? readyState (video p))%nat).
  - cbn [andb] in Hvideo. apply bool_decide_eq_false in Hvideo.
    destruct (draw_error (video p)) as [err|]; [exfalso; apply Hvideo; discriminate|].
    destruct (mirror_checked p).
    + eexists. split; [reflexivity|]. cbn. rewrite flipped_eq. reflexivity.
    + eexists. split; [reflexivity|]. reflexivity.
  - destruct (negb (String.eqb (src (video p)) "")).
    + destruct (draw_error (video p)) as [err|]; eexists; (split; [reflexivity|]); reflexivity.
    + eexists. split; [reflexivity|]. reflexivity.
Qed.

(** The drawing of [exportImage] when something fails. *)
Lemma exportImage_draws_fail (p : Page) :
  draw_fails p = true ->
  exists calls err,
    exportImage_draws p [] = (calls, inr err) /\
    (live p && bool_decide (draw_error (video p) <> None) = false ->
     err = InvalidStateError (no_pixels_message p)).
Proof.
  unfold draw_fails, exportImage_draws, drawLayer, drawVideo, live. intros Hfail.
  destruct (isCameraActive p || negb (paused (video p)) && (2 <=? readyState (video p))%nat).
  - cbn [andb] in Hfail |- *. destruct (draw_error (video p)) as [err|].
    + destruct (mirror_checked p); eexists _, _; (split; [reflexivity|]);
        intros Hno; apply bool_decide_eq_false in Hno; exfalso; apply Hno; discriminate.
    + rewrite bool_decide_false in Hfail by (intros Hne; apply Hne; reflexivity).
      cbn [orb] in Hfail.
      destruct ((canvas_width p =? 0)%nat || (canvas_height p =? 0)%nat).
      * destruct (mirror_checked p); eexists _, _; (split; [reflexivity|]); reflexivity.
      * cbn [orb] in Hfail.
        replace ((textCanvas_width p =? 0)%nat || (textCanvas_height p =? 0)%nat)
          with true
          by (destruct (textCanvas_width p =? 0)%nat, (textCanvas_height p =? 0)%nat;
              first [reflexivity|discriminate Hfail]).
        destruct (mirror_checked p); eexists _, _; (split; [reflexivity|]); reflexivity.
  - cbn [andb orb] in Hfail |- *.
    destruct ((canvas_width p =? 0)%nat || (canvas_height p =? 0)%nat).
    + destruct (negb (String.eqb (src (video p)) "")), (draw_error (video p));
        eexists _, _; (split; [reflexivity|]); reflexivity.
    + cbn [orb] in Hfail.
      replace ((textCanvas_width p =? 0)%nat || (textCanvas_height p =? 0)%nat)
        with true
        by (destruct (textCanvas_width p =? 0)%nat, (textCanvas_height p =? 0)%nat;
            first [reflexivity|discriminate Hfail]).
      destruct (negb (String.eqb (src (video p)) "")), (draw_error (video p));
        eexists _, _; (split; [reflexivity|]); reflexivity.
Qed.

(** X19. Both [exportImage] and [copyToClipboard] draw the two layers last
    and under no transform.  When the drawing does not fail, the calls that
    draw on the temporary canvas are, in this order: the background, which
    is the video where the camera is active or the video plays, reflected
    about the vertical axis of the canvas exactly when the mirror checkbox
    is checked, and else the video or a filled rectangle; then the ink
    layer and then the text layer, both at the origin and under the
    identity transform, with no transform left saved.  So the mirror
    checkbox never reflects ink or text.  [copyToClipboard] makes the same
    calls as [exportImage], whatever becomes of the clipboard. *)
Theorem both_layers_are_drawn_last_and_never_mirrored (p : Page) write_error :
  draw_fails p = false ->
  drawn (e_calls (exportImage p)) identity []
    = (background p ++ [(DrawLayer InkLayer 0 0, identity); (DrawLayer TextLayer 0 0, identity)], []) /\
  c_calls (copyToClipboard p write_error) = e_calls (exportImage p).
Proof.
  intros Hok. split; [|apply copyToClipboard_calls].
  destruct (exportImage_draws_ok p Hok) as (calls & Hrun & Hdrawn).
  unfold exportImage. rewrite Hrun. exact Hdrawn.
Qed.

(** X20. A layer without pixels makes the export fail silently and the copy
    fail aloud.  [exportImage] is rejected exactly when the drawing fails:
    when the video cannot be drawn in the branch that does not catch, or
    when the ink canvas or the text layer has a width or height of 0; then
    it starts no download, sets no preview and shows no notification.
    Where the video is not to blame the exception is the
    [InvalidStateError] of [drawImage].  [copyToClipboard] under the same
    conditions writes nothing to the clipboard and notifies
    "Copy failed: ..." as an error.  When the drawing does not fail, the
    export starts the download and notifies success, and the copy writes to
    the clipboard and notifies success if the clipboard takes it, and else
    notifies "Copy failed: ..." as well. *)
Theorem export_fails_silently_and_copy_aloud (p : Page) write_error :
  let e := exportImage p in
  let c := copyToClipboard p write_error in
  if draw_fails p then
    (exists err, e_rejected e = Some err /\
       c_notification c = (String.append "Copy failed: " (shown err), "error") /\
       (live p && bool_decide (draw_error (video p) <> None) = false ->
        err = InvalidStateError (no_pixels_message p))) /\
    e_download e = false /\ e_preview e = false /\ e_notification e = None /\
    c_written c = false
  else
    e_rejected e = None /\ e_download e = true /\ e_preview e = true /\
    e_notification e = Some ("Image exported successfully", "success") /\
    match write_error with
    | None => c_written c = true /\ c_notification c = ("Copied to clipboard!", "success")
    | Some err =>
        c_written c = false /\ c_notification c = (String.append "Copy failed: " (shown err), "error")
    end.
Proof.
  intros e c. subst e c. unfold exportImage, copyToClipboard.
  change (copyToClipboard_draws p) with (exportImage_draws p).
  destruct (draw_fails p) eqn:Hfail.
  - destruct (exportImage_draws_fail p Hfail) as (calls & err & Hrun & Herr).
    rewrite Hrun. split; [|repeat split].
    exists err. split; [reflexivity|]. split; [reflexivity|exact Herr].
  - destruct (exportImage_draws_ok p Hfail) as (calls & Hrun & _).
    rewrite Hrun. repeat split. destruct write_error; split; reflexivity.
Qed.

End ExportManagerFacts.

(* ================================================================== *)
(** ** Facts about [CameraManager] and the mirror checkbox *)
(* ================================================================== *)

Module CameraFacts.
Import Camera.

Section Wiring.
Context {num : Type} `{JsNumber num} {colors : CssColors}.
Variable paint : Rasterizer num.
Variable hypot : num -> num -> num.

(** No listener of the drawing manager but that of the mirror checkbox
    changes [isMirrored]. *)
Lemma frame_end_isMirrored chk lms t i w (s : DrawingManager num) :
  isMirrored (frame_end paint hypot chk lms t i w s) = isMirrored s.
Proof.
  unfold frame_end. destruct (pinched hypot t i w); [|reflexivity].
  destruct (drawing s).
  - destruct (lastPoint s); reflexivity.
  - destruct (getImageData _ _ _); reflexivity.
Qed.

Lemma onResults_hand_isMirrored chk lms (s : DrawingManager num) :
  isMirrored (final (onResults_hand paint hypot chk lms s)) = isMirrored s.
Proof.
  destruct (onResults_hand_final paint hypot chk lms s)
    as [(_ & ->)|(t & i & w & _ & _ & _ & ->)]; [reflexivity|].
  apply frame_end_isMirrored.
Qed.

Lemma dispatch_isMirrored (e : Event num) (s : DrawingManager num) :
  isMirrored (dispatch paint hypot e s)
  = match e with MirrorChange checked => checked | _ => isMirrored s end.
Proof.
  unfold dispatch.
  destruct e as [rw rh| | |v|v|cx cy|cx cy| | | | |b|chk lmss]; cbn [listener];
    try reflexivity.
  - destruct (final_resizeCanvases rw rh s) as [->| ->]; reflexivity.
  - destruct (final_undo s) as [->|(img & _ & ->)]; reflexivity.
  - change (onResults paint hypot chk lmss s)
      with (listener paint hypot (HandsResults chk lmss) s).
    rewrite listener_frame.
    apply (for_of_hands_invariant paint hypot
             (fun s' => isMirrored s' = isMirrored s) chk (default [] lmss)).
    + intros lms s' Hs'. rewrite onResults_hand_isMirrored. exact Hs'.
    + reflexivity.
Qed.

Lemma init_isMirrored rw rh (s : DrawingManager num) :
  isMirrored (final (init rw rh s)) = isMirrored s.
Proof.
  rewrite init_eq.
  destruct (final_resizeCanvases rw rh s) as [Hs|Hs];
    destruct (resizeCanvases rw rh s) as [[] s1|e s1]; cbn [final] in *;
    subst s1; reflexivity.
Qed.

(** What the listeners of the mirror checkbox leave when all have run. *)
Lemma iter_updateMirrorEffect (n : nat) checked (a : App num) :
  let a' := Nat.iter n (updateMirrorEffect checked) a in
  mirror_checked a' = mirror_checked a /\ mirror_listeners a' = mirror_listeners a /\
  video_display (cameraManager a') = video_display (cameraManager a) /\
  isCameraActive (cameraManager a') = isCameraActive (cameraManager a) /\
  (n = 0 -> a' = a) /\
  (0 < n ->
   isMirrored (drawingManager a') = checked /\
   video_transform (cameraManager a') = Some (if checked then "scaleX(-1)" else "none")).
Proof.
  induction n as [|n IH]; cbn zeta.
  - do 4 (split; [reflexivity|]). split; [intros _; reflexivity|intros Hlt; lia].
  - cbn zeta in IH. destruct IH as (Hc & Hl & Hd & Ha & _ & _).
    cbn [Nat.iter]. split; [exact Hc|]. split; [exact Hl|]. split; [exact Hd|].
    split; [exact Ha|]. split; [discriminate|]. intros _. split; reflexivity.
Qed.

Lemma turn_toggled checked (a : App num) :
  turn paint hypot (MirrorToggled checked) a
  = Nat.iter (mirror_listeners a) (updateMirrorEffect checked) (toggled checked a).
Proof. reflexivity. Qed.

Lemma turn_wired (t : Turn num) (a : App num) :
  wired a -> wired (turn paint hypot t a).
Proof.
  intros Hw.
  destruct t as [| | |m|checked|file| |lmss|e].
  - cbn [turn]. unfold startCamera. destruct (camera (cameraManager a)); exact Hw.
  - exact Hw.
  - unfold wired. cbn. split; reflexivity.
  - exact Hw.
  - rewrite turn_toggled.
    destruct (iter_updateMirrorEffect (mirror_listeners a) checked (toggled checked a))
      as (Hc & Hl & _ & _ & Hzero & Hpos).
    cbn zeta in *. unfold wired in *. rewrite Hc, Hl. cbn [toggled mirror_checked mirror_listeners].
    destruct (mirror_listeners a) as [|n] eqn:Hn.
    + rewrite (Hzero eq_refl). exact Hw.
    + apply Hpos. lia.
  - cbn [turn]. destruct file as [file|]; [|exact Hw]. unfold handleUpload.
    destruct (String.prefix "image/" (type file)); [exact Hw|].
    destruct (String.prefix "video/" (type file)); exact Hw.
  - exact Hw.
  - unfold wired in *.
    cbn [turn on_drawing mirror_listeners drawingManager mirror_checked cameraManager].
    rewrite dispatch_isMirrored. exact Hw.
  - cbn [turn]. destruct (plain e) eqn:He; [|exact Hw]. unfold wired in *.
    cbn [on_drawing mirror_listeners drawingManager mirror_checked cameraManager].
    rewrite dispatch_isMirrored. destruct e; try discriminate He; exact Hw.
Qed.

Lemma turns_cons (t : Turn num) (ts : list (Turn num)) (a : App num) :
  turns paint hypot (t :: ts) a = turns paint hypot ts (turn paint hypot t a).
Proof. reflexivity. Qed.

Lemma turns_wired (ts : list (Turn num)) :
  forall a : App num, wired a -> wired (turns paint hypot ts a).
Proof.
  induction ts as [|t rest IH]; intros a Hw; [exact Hw|].
  rewrite turns_cons. apply IH, turn_wired, Hw.
Qed.

(** The listeners on the checkbox are as many as the starts of the camera. *)
Lemma turn_listeners (t : Turn num) (a : App num) :
  mirror_listeners (turn paint hypot t a)
  = match t with StartFulfilled => S (mirror_listeners a) | _ => mirror_listeners a end.
Proof.
  destruct t as [| | |m|checked|file| |lmss|e]; cbn [turn]; try reflexivity.
  - unfold startCamera. destruct (camera (cameraManager a)); reflexivity.
  - apply (iter_updateMirrorEffect (mirror_listeners a) checked (toggled checked a)).
  - destruct file as [file|]; [|reflexivity]. unfold handleUpload.
    destruct (String.prefix "image/" (type file)); [reflexivity|].
    destruct (String.prefix "video/" (type file)); reflexivity.
  - destruct (plain e); reflexivity.
Qed.

Lemma turns_listeners (ts : list (Turn num)) :
  forall a : App num,
  (0 <? mirror_listeners (turns paint hypot ts a))%nat
  = (0 <? mirror_listeners a)%nat || started ts.
Proof.
  induction ts as [|t rest IH]; intros a; [cbn; apply eq_sym, orb_false_r|].
  rewrite turns_cons, IH, turn_listeners. unfold started. cbn [existsb].
  destruct t; try reflexivity.
  cbn [Nat.ltb Nat.leb orb]. apply eq_sym, orb_true_r.
Qed.

Lemma app_wired cw ch ow oh rw rh checked :
  wired (app cw ch ow oh rw rh checked : App num).
Proof.
  unfold wired, app. cbn [mirror_listeners Nat.ltb Nat.leb drawingManager cameraManager].
  split; [|reflexivity]. rewrite init_isMirrored. reflexivity.
Qed.

Lemma turns_flags (ts : list (Turn num)) cw ch ow oh rw rh checked :
  let a := turns paint hypot ts (app cw ch ow oh rw rh checked) in
  isMirrored (drawingManager a) = started ts && mirror_checked a /\
  video_transform (cameraManager a)
    = (if started ts then Some (if mirror_checked a then "scaleX(-1)" else "none") else None) /\
  (started ts = false -> mirror_listeners a = 0).
Proof.
  intros a.
  pose proof (turns_wired ts _ (app_wired cw ch ow oh rw rh checked)) as Hw.
  pose proof (turns_listeners ts (app cw ch ow oh rw rh checked)) as Hl.
  change ((0 <? mirror_listeners (app cw ch ow oh rw rh checked : App num))%nat)
    with false in Hl.
  cbn [orb] in Hl. fold a in Hw, Hl. unfold wired in Hw.
  rewrite Hl in Hw. destruct (started ts); cbn [andb].
  - destruct Hw as [Hm Ht]. split; [exact Hm|]. split; [exact Ht|discriminate].
  - destruct Hw as [Hm Ht]. split; [exact Hm|]. split; [exact Ht|]. intros _.
    destruct (mirror_listeners a); [reflexivity|discriminate Hl].
Qed.

(** X21. Once the camera has started, the mirror flag of the drawing
    manager follows the mirror checkbox.  After any turns of the page from
    the constructors on: if [camera.start()] has been fulfilled in one of
    them, [drawingManager.isMirrored] is the state of the checkbox and the
    transform of the video is "scaleX(-1)" when it is checked and "none"
    when it is not, however often the checkbox has changed and the camera
    has started again; if the camera has never started, no listener is on
    the checkbox, [isMirrored] is false as the constructor left it,
    whatever the checkbox says, and the program has not set the transform
    of the video. *)
Theorem mirror_flag_follows_the_checkbox_once_the_camera_has_started
    (ts : list (Turn num)) cw ch ow oh rw rh checked :
  let a := turns paint hypot ts (app cw ch ow oh rw rh checked) in
  if started ts then
    isMirrored (drawingManager a) = mirror_checked a /\
    video_transform (cameraManager a)
      = Some (if mirror_checked a then "scaleX(-1)" else "none")
  else
    mirror_listeners a = 0 /\
    isMirrored (drawingManager a) = false /\ video_transform (cameraManager a) = None.
Proof.
  intros a. destruct (turns_flags ts cw ch ow oh rw rh checked) as (Hm & Ht & Hl).
  fold a in Hm, Ht, Hl. destruct (started ts); cbn [andb] in Hm.
  - split; assumption.
  - split; [apply Hl; reflexivity|]. split; assumption.
Qed.

(** X22. With the camera on, the mirror checkbox does not mirror the ink.
    A frame of the hand tracker that comes after the camera has started
    finds both mirror flags equal, so the index tip is mapped to
    [x * width] when the checkbox is clear and to [(1 - (1 - x)) * width]
    when it is ticked, never to [(1 - x) * width]; a frame that comes while
    the camera has never started is mapped to [(1 - x) * width] exactly
    when the checkbox is ticked.  [y] is mapped to [y * height] always. *)
Theorem checkbox_does_not_mirror_ink_with_the_camera_on
    (ts : list (Turn num)) cw ch ow oh rw rh checked
    (lms : list (Point num)) thumbTip indexTip wrist :
  lms !! 4 = Some thumbTip -> lms !! 8 = Some indexTip -> lms !! 0 = Some wrist ->
  let a := turns paint hypot ts (app cw ch ow oh rw rh checked) in
  let a' := turn paint hypot (Results (Some [lms])) a in
  let w := n_of_nat (width (canvas (drawingManager a))) in
  let h := n_of_nat (height (canvas (drawingManager a))) in
  last (handSmoothing (drawingManager a')) =
  Some (Pt (match started ts, mirror_checked a with
            | _, false => x indexTip
            | true, true => n_one - (n_one - x indexTip)
            | false, true => n_one - x indexTip
            end * w)%js
           (y indexTip * h)%js).
Proof.
  intros H4 H8 H0 a a' w h. subst a' w h.
  destruct (turns_flags ts cw ch ow oh rw rh checked) as (Hflag & _).
  fold a in Hflag.
  cbn [turn on_drawing drawingManager].
  change (HandsResults (mirror_checked a) (Some [lms])) with (frame (mirror_checked a) lms).
  rewrite (frame_raw_point paint hypot _ lms thumbTip indexTip wrist _ H4 H8 H0).
  unfold mapped. rewrite Hflag.
  destruct (started ts), (mirror_checked a); reflexivity.
Qed.

(** What a turn does to the display of the video. *)
Lemma turn_video_display (t : Turn num) (a : App num) :
  video_display (cameraManager (turn paint hypot t a))
  = match t with
    | Rejected _ | UseBoardClick => Some "none"
    | UploadChange (Some _) => Some "block"
    | _ => video_display (cameraManager a)
    end.
Proof.
  destruct t as [| | |m|checked|file| |lmss|e]; cbn [turn]; try reflexivity.
  - unfold startCamera. destruct (camera (cameraManager a)); reflexivity.
  - rewrite <- turn_toggled. rewrite turn_toggled.
    apply (iter_updateMirrorEffect (mirror_listeners a) checked (toggled checked a)).
  - destruct file as [file|]; reflexivity.
  - destruct (plain e); reflexivity.
Qed.

(** X23. A video that has been hidden is shown again only by an upload.
    A camera error and the drawing board set the display of the video to
    "none"; of all turns of the page only the choice of a file sets it to
    "block" again.  So after any turns without such a choice the video is
    still hidden, and a camera that then starts becomes active without the
    video being shown. *)
Theorem hidden_video_is_shown_again_only_by_an_upload
    (ts : list (Turn num)) (a : App num) :
  video_display (cameraManager a) = Some "none" ->
  Forall (fun t => shows_video t = false) ts ->
  let a' := turns paint hypot ts a in
  let a'' := turn paint hypot StartFulfilled a' in
  video_display (cameraManager a') = Some "none" /\
  isCameraActive (cameraManager a'') = true /\
  video_display (cameraManager a'') = Some "none".
Proof.
  intros Hnone Hall.
  assert (Hrun : video_display (cameraManager (turns paint hypot ts a)) = Some "none").
  { revert a Hnone. induction Hall as [|t rest Ht _ IH]; intros a Hnone; [exact Hnone|].
    rewrite turns_cons. apply IH. rewrite turn_video_display.
    destruct t as [| | |m|checked|[file|]| |lmss|e]; try reflexivity; try exact Hnone.
    discriminate Ht. }
  cbn zeta. split; [exact Hrun|]. split; [reflexivity|].
  rewrite turn_video_display. exact Hrun.
Qed.

End Wiring.
End CameraFacts.

(* ================================================================== *)
(** ** The two number systems *)
(* ================================================================== *)

Lemma F64_SFcompare_refl_not_Lt (f : spec_float) : SFcompare f f <> Some Lt.
Proof.
  destruct f as [sg|sg| |sg m e]; cbn [SFcompare]; try destruct sg; try discriminate.
  - rewrite Z.compare_refl, Pos.compare_cont_refl. discriminate.
  - rewrite Z.compare_refl, Pos.compare_cont_refl. discriminate.
Qed.

Lemma F64_ltb_irrefl (a : float) : PrimFloat.ltb a a = false.
Proof.
  rewrite FloatAxioms.ltb_spec. unfold SFltb.
  pose proof (F64_SFcompare_refl_not_Lt (Prim2SF a)) as Hc.
  destruct (SFcompare (Prim2SF a) (Prim2SF a)) as [[ | | ]|]; congruence.
Qed.

#[global] Instance F64_order : @JsNumberOrder float F64.number :=
  Build_JsNumberOrder float F64.number F64_ltb_irrefl.

(** Floats with different bit patterns are different. *)
Lemma F64_neq_by_bits (a b : float) : Prim2SF a <> Prim2SF b -> a <> b.
Proof. intros Hne ->. by apply Hne. Qed.

Lemma Exact_ltb_irrefl (a : Qc) : Exact.ltb a a = false.
Proof.
  unfold Exact.ltb. destruct (a ?= a)%Qc eqn:E; try reflexivity.
  apply Qclt_alt in E. apply Qclt_not_eq in E. congruence.
Qed.

#[global] Instance Exact_order : @JsNumberOrder Qc Exact.number :=
  Build_JsNumberOrder Qc Exact.number Exact_ltb_irrefl.

(** Without rounding, reflecting twice is the identity and the mean of five
    equal values is that value. *)
Lemma Exact_reflect_twice (a : Qc) : (n_one - (n_one - a))%js = a.
Proof. cbn. ring. Qed.

Lemma Exact_mean_of_five (a : Qc) : mean_of_five a = a.
Proof.
  unfold mean_of_five. cbn [n_add n_div n_zero n_of_nat Exact.number].
  assert (Hfive : Exact.of_nat 5 = (1 + 1 + 1 + 1 + 1)%Qc)
    by (apply Qc_is_canon; reflexivity).
  rewrite Hfive. field. intros Hzero. discriminate Hzero.
Qed.

(** With exact rationals the mapping with both flags set is the identity
    mapping, and the smoother returns a point that was fed five times. *)
Lemma Exact_both_flags_cancel {colors : CssColors}
    (paint : Rasterizer Qc) (hypot : Qc -> Qc -> Qc)
    (lms : list (Point Qc)) thumbTip indexTip wrist (s : DrawingManager Qc) :
  lms !! 4 = Some thumbTip -> lms !! 8 = Some indexTip -> lms !! 0 = Some wrist ->
  isMirrored s = true ->
  last (handSmoothing (dispatch paint hypot (frame true lms) s)) =
  Some (Pt (x indexTip * n_of_nat (width (canvas s)))%js
           (y indexTip * n_of_nat (height (canvas s)))%js).
Proof.
  intros H4 H8 H0 Hm.
  rewrite (frame_raw_point paint hypot true lms _ _ _ s H4 H8 H0), Hm.
  unfold mapped. rewrite Exact_reflect_twice. reflexivity.
Qed.

Lemma Exact_smoother_returns_still_point
    (pre : list (Point Qc)) (p : Point Qc) (n : nat) (s : DrawingManager Qc) :
  length (handSmoothing s) <= smoothingWindowSize ->
  smoothingWindowSize <= n ->
  exists outs s',
    smooth_all (pre ++ replicate n p) s = Ok outs s' /\ last outs = Some p.
Proof.
  intros Hlen Hn.
  destruct (smooth_all_ending_in_equal_points pre p n s Hlen Hn)
    as (outs & s' & Hrun & _ & Hlast).
  exists outs, s'. split; [exact Hrun|].
  rewrite Hlast, !Exact_mean_of_five. destruct p; reflexivity.
Qed.

(* ================================================================== *)
(** ** Where the program and the prose part ways *)
(* ================================================================== *)

(** C3, at a sample run.  A stroke starts, the hand leaves the picture for
    a frame and comes back pinching in another place.  The frame without a
    hand leaves the stroke open, so the returning pinch takes no snapshot and
    strokes a segment from where the hand was lost to where it is now. *)
Lemma lost_hand_leaves_stroke_open_at_sample :
  let s1 := run flood F64.hypot
              [frame false Sample.pinching; HandsResults false (Some [])]
              Sample.two_pixels in
  let s2 := dispatch flood F64.hypot (frame false Sample.pinching_elsewhere) s1 in
  drawing s1 = true /\ lastPoint s1 = Some (Pt 1 0.5)%float /\
  length (undoStack s1) = 1 /\
  length (undoStack s2) = 1 /\
  snd <$> strokes (canvas s2) = [[MoveTo 1 0.5; LineTo 1.4 0.3]]%float.
Proof. repeat split; lazy; reflexivity. Qed.

(** C5, counterexample.  With both mirror flags set, an index tip at
    x = 0.3 on a canvas 300 pixels wide is mapped to (1 - (1 - 0.3)) * 300,
    which in binary64 is 90.00000000000001 and not 0.3 * 300 = 90: the two
    reflections do not cancel. *)
Lemma both_flags_set_is_not_identity_in_binary64 :
  Sample.at_three_tenths !! 8 = Some (Pt 0.3 0.5)%float /\
  isMirrored Sample.mirrored = true /\
  x <$> last (handSmoothing
                (dispatch flood F64.hypot (frame true Sample.at_three_tenths) Sample.mirrored))
  <> Some (0.3 * F64.of_nat 300)%float.
Proof.
  split; [reflexivity|]. split; [reflexivity|].
  intros Heq.
  apply (f_equal (fun o => Prim2SF (default 0%float o))) in Heq.
  lazy in Heq. discriminate Heq.
Qed.

(** C6, counterexample.  Five equal raw points -- an index tip held at
    (0.5, 0.7) on a 1280 x 720 canvas, so y = 0.7 * 720 = 503.99999999999994
    -- leave the window holding five copies of the point, and the output is
    not the point: its y is 503.9999999999999, the sum of the five rounded at
    each addition and then divided by 5. *)
Lemma mean_of_five_equal_points_is_not_the_point_in_binary64 :
  exists outs s',
    smooth_all (replicate 5 Sample.still_point) Sample.fresh = Ok outs s' /\
    handSmoothing s' = replicate 5 Sample.still_point /\
    last outs <> Some Sample.still_point.
Proof.
  eexists _, _. split; [apply smooth_all_eq|]. split; [reflexivity|].
  intros Heq.
  apply (f_equal (fun o => Prim2SF (y (default (Pt 0 0)%float o)))) in Heq.
  lazy in Heq. discriminate Heq.
Qed.


(** C2, at a sample run.  A stroke starts on the 2 x 1 canvas and the hand
    leaves the picture for a frame, which leaves the stroke open.  The
    gesture that follows -- three pinching frames, then a frame with the
    hand released -- is not taken for a new stroke: its first frame pushes
    no snapshot, so the stack still holds the one snapshot of before, and the
    gesture strokes three segments, the first of them from where the hand
    was lost, and not two.  And on a canvas without pixels a gesture between
    two released frames pushes no snapshot at all, [getImageData] throwing
    in its first frame. *)
Lemma gesture_after_lost_hand_pushes_no_snapshot :
  Forall (fun f : bool * list (Point float) => classify F64.hypot (snd f) = Some true)
    Sample.zigzag /\
  classify F64.hypot Sample.released = Some false /\
  (let s' := run flood F64.hypot
               (frames (Sample.zigzag ++ [(false, Sample.released)])) Sample.hand_lost in
   length (undoStack Sample.hand_lost) = 1 /\
   strokes (canvas Sample.hand_lost) = [] /\
   undoStack (run flood F64.hypot (frames (take 1 Sample.zigzag)) Sample.hand_lost)
     = undoStack Sample.hand_lost /\
   undoStack s' = undoStack Sample.hand_lost /\
   length (strokes (canvas s')) = 3 /\
   head (snd <$> strokes (canvas s')) = Some [MoveTo 1 0.5; LineTo 1.4 0.3]%float /\
   drawing s' = false) /\
  (let s' := run flood F64.hypot
               (frames ((false, Sample.released) :: Sample.zigzag
                          ++ [(false, Sample.released)]))
               Sample.collapsed in
   undoStack s' = [] /\ length (strokes (canvas s')) = 2).
Proof.
  split; [repeat constructor; lazy; reflexivity|].
  split; [lazy; reflexivity|].
  split; [repeat split; lazy; reflexivity|].
  split; lazy; reflexivity.
Qed.

(** C7, at a sample run.  A stroke starts on a 1 x 1 canvas, the stage grows
    to 2 x 1, the stroke goes on and inks both pixels.  The stack then holds
    the 1 x 1 snapshot of the stroke's start; undo pops it and writes it over
    pixel (0, 0) alone.  Pixel (1, 0) keeps the ink of the stroke that was
    undone, and the canvas is not the raster that was captured. *)
Lemma undo_after_growth_leaves_ink :
  undoStack Sample.stroke_across_resize = [Raster.blank 1 1] /\
  Raster.get (bitmap (canvas Sample.stroke_across_resize)) 1 0 = ink /\
  (let s' := dispatch flood F64.hypot UndoClick Sample.stroke_across_resize in
   undoStack s' = [] /\
   Raster.get (bitmap (canvas s')) 0 0 = transparent /\
   Raster.get (bitmap (canvas s')) 1 0 = ink) /\
  ~ undo_restores_all Sample.stroke_across_resize.
Proof.
  assert (Hstack : undoStack Sample.stroke_across_resize = [] ++ [Raster.blank 1 1])
    by (lazy; reflexivity).
  split; [exact Hstack|].
  split; [lazy; reflexivity|].
  split; [repeat split; lazy; reflexivity|].
  intros Hall.
  destruct (Hall [] (Raster.blank 1 1) Hstack) as (s' & Hundo & _ & Hsame).
  apply (f_equal final) in Hundo. cbn [final] in Hundo. subst s'.
  destruct Hsame as [Hw _]. lazy in Hw. discriminate Hw.
Qed.

(** C9, at a sample run.  A resize to a stage of no extent returns and
    leaves the canvas without pixels.  The next resize, to a stage of
    5 x 5, throws IndexSizeError from [getImageData] before it has changed
    anything: the canvas does not take the dimensions of the stage and
    stays without pixels. *)
Lemma resize_of_a_canvas_without_pixels_throws :
  resizeCanvases 0 0 Sample.one_pixel = Ok tt Sample.collapsed /\
  width (canvas Sample.collapsed) = 0 /\ height (canvas Sample.collapsed) = 0 /\
  resizeCanvases 5 5 Sample.collapsed = Throw IndexSizeError Sample.collapsed /\
  width (canvas (dispatch flood F64.hypot (WindowResize 5 5) Sample.collapsed)) = 0 /\
  ~ resize_preserves 5 5 Sample.collapsed.
Proof.
  assert (Hthrow : resizeCanvases 5 5 Sample.collapsed
                   = Throw IndexSizeError Sample.collapsed).
  { rewrite resizeCanvases_eq.
    assert (Hget : getImageData (width (canvas Sample.collapsed))
                     (height (canvas Sample.collapsed)) (canvas Sample.collapsed)
                   = inl IndexSizeError) by (lazy; reflexivity).
    rewrite Hget. reflexivity. }
  split; [lazy; reflexivity|].
  split; [lazy; reflexivity|]. split; [lazy; reflexivity|].
  split; [exact Hthrow|].
  split; [unfold dispatch; cbn [listener]; rewrite Hthrow; lazy; reflexivity|].
  intros (s' & Hres & _). rewrite Hthrow in Hres. discriminate Hres.
Qed.

(* ================================================================== *)
(** ** The theorems at sample inputs *)
(* ================================================================== *)

Lemma Sample_pinching_classified : classify F64.hypot Sample.pinching = Some true.
Proof. lazy. reflexivity. Defined.

Lemma Sample_released_classified : classify F64.hypot Sample.released = Some false.
Proof. lazy. reflexivity. Defined.

Lemma pinch_exactly_below_threshold_witness :
  Sample.pinching !! 4 = Some (Pt 0.51 0.5)%float /\
  Sample.pinching !! 8 = Some (Pt 0.5 0.5)%float /\
  Sample.pinching !! 0 = Some (Pt 0.5 0.9)%float /\
  drawing (dispatch flood F64.hypot (frame false Sample.pinching) Sample.fresh) = true.
Proof.
  split; [reflexivity|]. split; [reflexivity|]. split; [reflexivity|].
  apply (proj1 (pinch_exactly_below_threshold flood F64.hypot false Sample.pinching
                  _ _ _ Sample.fresh eq_refl eq_refl eq_refl)).
  lazy. reflexivity.
Defined.

Lemma gesture_pushes_one_snapshot_and_strokes_between_points_witness :
  classify F64.hypot Sample.released = Some false /\
  Forall (fun f : bool * list (Point float) => classify F64.hypot (snd f) = Some true)
    Sample.gesture /\
  0 < width (canvas Sample.fresh) /\ 0 < height (canvas Sample.fresh) /\
  let s' := run flood F64.hypot
              (frames ((false, Sample.released) :: Sample.gesture
                         ++ [(false, Sample.released)]))
              Sample.fresh in
  length (undoStack s') = 1 /\ length (strokes (canvas s')) = 2 /\ drawing s' = false.
Proof.
  assert (Hg : Forall (fun f : bool * list (Point float) =>
                         classify F64.hypot (snd f) = Some true) Sample.gesture)
    by (repeat constructor; exact Sample_pinching_classified).
  assert (Hw : 0 < width (canvas Sample.fresh)) by (apply Nat.ltb_lt; reflexivity).
  assert (Hh : 0 < height (canvas Sample.fresh)) by (apply Nat.ltb_lt; reflexivity).
  split; [exact Sample_released_classified|]. split; [exact Hg|].
  split; [exact Hw|]. split; [exact Hh|].
  destruct (gesture_pushes_one_snapshot_and_strokes_between_points flood F64.hypot
              (false, Sample.released) Sample.gesture (false, Sample.released) Sample.fresh
              Sample_released_classified Hg Sample_released_classified
              ltac:(discriminate) Hw Hh)
    as (_ & _ & Hstack & _ & Hcount & Hidle & _).
  split; [rewrite Hstack; reflexivity|]. split; [exact Hcount|exact Hidle].
Defined.

Lemma mapping_by_mirror_flags_witness :
  Sample.at_three_tenths !! 4 = Some (Pt 0.7 0.5)%float /\
  Sample.at_three_tenths !! 8 = Some (Pt 0.3 0.5)%float /\
  Sample.at_three_tenths !! 0 = Some (Pt 0.5 0.9)%float /\
  y <$> last (handSmoothing
                (dispatch flood F64.hypot (frame true Sample.at_three_tenths) Sample.mirrored))
  = Some (0.5 * F64.of_nat (height (canvas Sample.mirrored)))%float.
Proof.
  split; [reflexivity|]. split; [reflexivity|]. split; [reflexivity|].
  exact (proj1 (mapping_by_mirror_flags flood F64.hypot true Sample.at_three_tenths
                  _ _ _ Sample.mirrored eq_refl eq_refl eq_refl)).
Defined.

Lemma smoother_window_and_mean_witness :
  length (handSmoothing Sample.fresh) <= smoothingWindowSize /\
  smoothingWindowSize <= 7 /\
  exists outs s',
    smooth_all ([Pt 0 0]%float ++ replicate 7 Sample.still_point) Sample.fresh = Ok outs s' /\
    handSmoothing s' = replicate smoothingWindowSize Sample.still_point.
Proof.
  assert (Hlen : length (handSmoothing Sample.fresh) <= smoothingWindowSize)
    by (apply Nat.leb_le; reflexivity).
  assert (Hn : smoothingWindowSize <= 7) by (apply Nat.leb_le; reflexivity).
  split; [exact Hlen|]. split; [exact Hn|].
  destruct (proj2 (smoother_window_and_mean [Pt 0 0]%float Sample.still_point
                     Sample.still_point 7 Sample.fresh Hlen Hn))
    as (outs & s' & Hrun & Hwin & _).
  exists outs, s'. split; [exact Hrun|exact Hwin].
Defined.

Lemma undo_writes_newest_snapshot_at_origin_witness :
  Forall (fun f : bool * list (Point float) => classify F64.hypot (snd f) = Some true)
    Sample.gesture /\
  drawing Sample.two_pixels = false /\
  0 < width (canvas Sample.two_pixels) /\ 0 < height (canvas Sample.two_pixels) /\
  Raster.same
    (bitmap (canvas (run flood F64.hypot (frames Sample.gesture ++ [UndoClick])
                       Sample.two_pixels)))
    (bitmap (canvas Sample.two_pixels)).
Proof.
  assert (Hg : Forall (fun f : bool * list (Point float) =>
                         classify F64.hypot (snd f) = Some true) Sample.gesture)
    by (repeat constructor; exact Sample_pinching_classified).
  assert (Hw : 0 < width (canvas Sample.two_pixels)) by (apply Nat.ltb_lt; reflexivity).
  assert (Hh : 0 < height (canvas Sample.two_pixels)) by (apply Nat.ltb_lt; reflexivity).
  split; [exact Hg|]. split; [reflexivity|]. split; [exact Hw|]. split; [exact Hh|].
  apply (proj1 (undo_writes_newest_snapshot_at_origin flood F64.hypot
                  Sample.gesture Sample.two_pixels
                  Hg ltac:(discriminate) eq_refl Hw Hh)).
Defined.


Lemma resize_copies_content_at_origin_witness :
  0 < width (canvas Sample.inked) /\ 0 < height (canvas Sample.inked) /\
  exists s', resizeCanvases 1 1 Sample.inked = Ok tt s' /\
    width (canvas s') = 1 /\ height (canvas s') = 1 /\ drawing s' = drawing Sample.inked.
Proof.
  assert (Hw : 0 < width (canvas Sample.inked)) by (apply Nat.ltb_lt; lazy; reflexivity).
  assert (Hh : 0 < height (canvas Sample.inked)) by (apply Nat.ltb_lt; lazy; reflexivity).
  split; [exact Hw|]. split; [exact Hh|].
  destruct (resize_copies_content_at_origin 1 1 Sample.inked Hw Hh)
    as (s' & Hres & Hw' & Hh' & _ & Hd & _).
  exists s'. repeat split; assumption.
Defined.

(* ================================================================== *)
(** ** The further theorems at sample inputs *)
(* ================================================================== *)

Lemma short_hand_aborts_frame_witness :
  length Scenes.wrist_only < 9 /\
  returned (listener flood F64.hypot
              (HandsResults false (Some [Scenes.wrist_only; Sample.pinching]))
              Sample.one_pixel) = false.
Proof.
  assert (Hshort : length Scenes.wrist_only < 9) by (apply Nat.ltb_lt; reflexivity).
  split; [exact Hshort|].
  rewrite (short_hand_aborts_frame flood F64.hypot false Scenes.wrist_only
             [Sample.pinching] Sample.one_pixel Hshort).
  reflexivity.
Defined.

Lemma canvas_without_pixels_stays_so_witness :
  no_pixels (canvas Sample.collapsed) /\
  width (canvas (run flood F64.hypot
                   [frame false Sample.pinching; WindowResize 5 5; UndoClick]
                   Sample.collapsed))
  = width (canvas Sample.collapsed).
Proof.
  assert (Hno : no_pixels (canvas Sample.collapsed)) by (left; lazy; reflexivity).
  split; [exact Hno|].
  exact (proj1 (canvas_without_pixels_stays_so flood F64.hypot
                  [frame false Sample.pinching; WindowResize 5 5; UndoClick]
                  Sample.collapsed Hno)).
Defined.

Lemma init_sizes_canvases_and_resize_resets_smoothing_witness :
  0 < width (canvas Sample.one_pixel) /\ 0 < height (canvas Sample.one_pixel) /\
  exists s1, init 2 1 Sample.one_pixel = Ok tt s1 /\
    imageSmoothingQuality (settings (canvas s1)) = "high" /\
    imageSmoothingQuality
      (settings (canvas (dispatch flood F64.hypot (WindowResize 3 3) s1))) = "low".
Proof.
  assert (Hw : 0 < width (canvas Sample.one_pixel)) by (apply Nat.ltb_lt; reflexivity).
  assert (Hh : 0 < height (canvas Sample.one_pixel)) by (apply Nat.ltb_lt; reflexivity).
  split; [exact Hw|]. split; [exact Hh|].
  destruct (init_sizes_canvases_and_resize_resets_smoothing flood F64.hypot 2 1 3 3
              Sample.one_pixel Hw Hh ltac:(apply Nat.ltb_lt; reflexivity)
              ltac:(apply Nat.ltb_lt; reflexivity))
    as (s1 & Hinit & _ & _ & _ & _ & _ & Hhigh & _ & _ & Hlow).
  exists s1. split; [exact Hinit|]. split; [exact Hhigh|exact Hlow].
Defined.

Lemma Scenes_pen_is_down :
  drawing Scenes.pen_down = true /\ lastPoint Scenes.pen_down = Some (Pt 1 0.5)%float.
Proof. split; lazy; reflexivity. Defined.

Lemma colour_and_size_apply_from_the_next_segment_witness :
  drawing Scenes.pen_down = true /\
  lastPoint Scenes.pen_down = Some (Pt 1 0.5)%float /\
  classify F64.hypot Sample.pinching_elsewhere = Some true /\
  fst <$> last (strokes (canvas
            (run flood F64.hypot
               [ColorInput "#ff0000"; SizeInput 3%float;
                frame false Sample.pinching_elsewhere]
               Scenes.pen_down)))
  = Some {| strokeStyle := "#ff0000"; lineWidth := 3%float; lineCap := "round";
            imageSmoothingEnabled := true; imageSmoothingQuality := "low" |} /\
  fst <$> last (strokes (canvas
            (run flood F64.hypot
               [ColorInput "no colour"; SizeInput 0%float;
                frame false Sample.pinching_elsewhere]
               Scenes.pen_down)))
  = Some {| strokeStyle := "#000000"; lineWidth := 1%float; lineCap := "round";
            imageSmoothingEnabled := true; imageSmoothingQuality := "low" |}.
Proof.
  destruct Scenes_pen_is_down as [Hd Hl].
  assert (Hc : classify F64.hypot Sample.pinching_elsewhere = Some true)
    by (lazy; reflexivity).
  split; [exact Hd|]. split; [exact Hl|]. split; [exact Hc|].
  split.
  - destruct (colour_and_size_apply_from_the_next_segment flood F64.hypot "#ff0000" 3%float
                false Sample.pinching_elsewhere _ Scenes.pen_down Hd Hl Hc)
      as (point & _ & Hstrokes & _).
    rewrite Hstrokes, last_snoc. lazy. reflexivity.
  - destruct (colour_and_size_apply_from_the_next_segment flood F64.hypot "no colour" 0%float
                false Sample.pinching_elsewhere _ Scenes.pen_down Hd Hl Hc)
      as (point & _ & Hstrokes & _).
    rewrite Hstrokes, last_snoc. lazy. reflexivity.
Defined.

Lemma Scenes_interruptions_bring_no_hand :
  Forall (fun e : Event float => brings_hand e = false) Scenes.interruptions.
Proof. repeat constructor. Defined.

Lemma only_a_frame_with_a_hand_lifts_the_pen_witness :
  Forall (fun e : Event float => brings_hand e = false) Scenes.interruptions /\
  drawing Scenes.pen_down = true /\
  lastPoint Scenes.pen_down = Some (Pt 1 0.5)%float /\
  classify F64.hypot Sample.pinching = Some true /\
  drawing (run flood F64.hypot Scenes.interruptions Scenes.pen_down) = true.
Proof.
  destruct Scenes_pen_is_down as [Hd Hl].
  split; [exact Scenes_interruptions_bring_no_hand|].
  split; [exact Hd|]. split; [exact Hl|]. split; [exact Sample_pinching_classified|].
  exact (proj1 (only_a_frame_with_a_hand_lifts_the_pen flood F64.hypot Scenes.interruptions
                  false Sample.pinching _ Scenes.pen_down
                  Scenes_interruptions_bring_no_hand Hd Hl Sample_pinching_classified)).
Defined.

Lemma Scenes_one_stroke_is_stroke : is_stroke F64.hypot Scenes.one_stroke.
Proof.
  split; [repeat constructor; exact Sample_pinching_classified|].
  split; [discriminate|exact Sample_released_classified].
Defined.

Lemma strokes_are_undone_last_first_witness :
  Forall (is_stroke F64.hypot) [Scenes.one_stroke; Scenes.one_stroke] /\
  drawing Sample.two_pixels = false /\
  0 < width (canvas Sample.two_pixels) /\ 0 < height (canvas Sample.two_pixels) /\
  Raster.same
    (bitmap (canvas (run flood F64.hypot
       (concat (stroke_frames <$> [Scenes.one_stroke; Scenes.one_stroke])
          ++ replicate 2 UndoClick) Sample.two_pixels)))
    (bitmap (canvas Sample.two_pixels)).
Proof.
  assert (Hall : Forall (is_stroke F64.hypot) [Scenes.one_stroke; Scenes.one_stroke])
    by (constructor; [exact Scenes_one_stroke_is_stroke|
        constructor; [exact Scenes_one_stroke_is_stroke|constructor]]).
  assert (Hw : 0 < width (canvas Sample.two_pixels)) by (apply Nat.ltb_lt; reflexivity).
  assert (Hh : 0 < height (canvas Sample.two_pixels)) by (apply Nat.ltb_lt; reflexivity).
  split; [exact Hall|]. split; [reflexivity|]. split; [exact Hw|]. split; [exact Hh|].
  exact (proj1 (proj2 (strokes_are_undone_last_first flood F64.hypot
                  [Scenes.one_stroke; Scenes.one_stroke] Sample.two_pixels
                  Hall eq_refl Hw Hh))).
Defined.

(* ================================================================== *)
(** ** [Math.min] and [Math.max] in the two number systems *)
(* ================================================================== *)

Lemma F64_SFcompare_antisym (a b : spec_float) :
  SFcompare b a = CompOpp <$> SFcompare a b.
Proof.
  destruct a as [sa|sa| |sa ma ea], b as [sb|sb| |sb mb eb];
    try destruct sa; try destruct sb; try reflexivity; cbn [SFcompare].
  - rewrite (Z.compare_antisym eb ea).
    destruct (eb ?= ea)%Z; cbn; try reflexivity.
    rewrite (ZC4 mb ma). destruct (Pos.compare_cont Eq ma mb); reflexivity.
  - rewrite (Z.compare_antisym eb ea).
    destruct (eb ?= ea)%Z; cbn; try reflexivity.
    rewrite (ZC4 mb ma). destruct (Pos.compare_cont Eq ma mb); reflexivity.
Qed.

Lemma F64_ltb_asym (a b : float) : PrimFloat.ltb a b = true -> PrimFloat.ltb b a = false.
Proof.
  rewrite !FloatAxioms.ltb_spec. unfold SFltb.
  rewrite (F64_SFcompare_antisym (Prim2SF a) (Prim2SF b)).
  destruct (SFcompare (Prim2SF a) (Prim2SF b)) as [[ | | ]|]; cbn; congruence.
Qed.

Lemma F64_ltb_nan_l (a : float) : PrimFloat.ltb PrimFloat.nan a = false.
Proof. rewrite FloatAxioms.ltb_spec. reflexivity. Qed.

Lemma F64_ltb_nan_r (a : float) : PrimFloat.ltb a PrimFloat.nan = false.
Proof.
  rewrite FloatAxioms.ltb_spec. unfold SFltb.
  change (Prim2SF PrimFloat.nan) with S754_nan.
  destruct (Prim2SF a) as [s|s| |s m e]; reflexivity.
Qed.

Lemma F64_max_not_below (a b : float) : PrimFloat.ltb (F64_max a b) a = false.
Proof.
  unfold F64_max. destruct (_ || _); [apply F64_ltb_nan_l|].
  destruct (PrimFloat.ltb a b) eqn:Hab; [apply F64_ltb_asym, Hab|].
  destruct (PrimFloat.ltb b a) eqn:Hba; [apply F64_ltb_irrefl|].
  destruct (PrimFloat.classify a); first [apply F64_ltb_irrefl|exact Hba].
Qed.

Lemma F64_min_not_above (a b : float) : PrimFloat.ltb a (F64_min a b) = false.
Proof.
  unfold F64_min. destruct (_ || _); [apply F64_ltb_nan_r|].
  destruct (PrimFloat.ltb a b) eqn:Hab; [apply F64_ltb_irrefl|].
  destruct (PrimFloat.ltb b a) eqn:Hba; [exact Hab|].
  destruct (PrimFloat.classify a); first [apply F64_ltb_irrefl|exact Hab].
Qed.

Lemma F64_max_bounded (u a b : float) :
  PrimFloat.ltb u a = false -> PrimFloat.ltb u b = false ->
  PrimFloat.ltb u (F64_max a b) = false.
Proof.
  intros Ha Hb. unfold F64_max. destruct (_ || _); [apply F64_ltb_nan_r|].
  destruct (PrimFloat.ltb a b); [exact Hb|].
  destruct (PrimFloat.ltb b a); [exact Ha|].
  destruct (PrimFloat.classify a); assumption.
Qed.

#[global] Instance F64_math_order : @JsMathOrder float F64.number F64_math :=
  Build_JsMathOrder float F64.number F64_math
    F64_max_not_below F64_min_not_above F64_max_bounded.

Lemma Exact_ltb_lt (a b : Qc) : Exact.ltb a b = true <-> (a < b)%Qc.
Proof.
  unfold Exact.ltb. rewrite Qclt_alt. destruct (a ?= b)%Qc; split; congruence.
Qed.

Lemma Exact_ltb_asym (a b : Qc) : Exact.ltb a b = true -> Exact.ltb b a = false.
Proof.
  intros Hab%Exact_ltb_lt. destruct (Exact.ltb b a) eqn:Hba; [|reflexivity].
  apply Exact_ltb_lt in Hba. exfalso.
  pose proof (Qclt_not_eq _ _ (Qclt_trans _ _ _ Hab Hba)) as Hne. congruence.
Qed.

Lemma Exact_max_not_below (a b : Qc) : Exact.ltb (Exact_max a b) a = false.
Proof.
  unfold Exact_max. destruct (Exact.ltb a b) eqn:Hab;
    [apply Exact_ltb_asym, Hab|apply Exact_ltb_irrefl].
Qed.

Lemma Exact_min_not_above (a b : Qc) : Exact.ltb a (Exact_min a b) = false.
Proof.
  unfold Exact_min. destruct (Exact.ltb b a) eqn:Hba;
    [apply Exact_ltb_asym, Hba|apply Exact_ltb_irrefl].
Qed.

Lemma Exact_max_bounded (u a b : Qc) :
  Exact.ltb u a = false -> Exact.ltb u b = false -> Exact.ltb u (Exact_max a b) = false.
Proof. intros Ha Hb. unfold Exact_max. destruct (Exact.ltb a b); assumption. Qed.

#[global] Instance Exact_math_order : @JsMathOrder Qc Exact.number Exact_math :=
  Build_JsMathOrder Qc Exact.number Exact_math
    Exact_max_not_below Exact_min_not_above Exact_max_bounded.

(* ================================================================== *)
(** ** The theorems about the text layer at sample inputs *)
(* ================================================================== *)

Lemma Notes_board_well_formed : Text.well_formed Notes.board.
Proof.
  assert (Hitems : Text.items Notes.board = [0; 1]) by (lazy; reflexivity).
  assert (Hlen : length (Text.objects Notes.board) = 2) by (lazy; reflexivity).
  assert (Hsel : Text.selectedItem Notes.board = None) by (lazy; reflexivity).
  assert (Hdrag : Text.draggingItem Notes.board = None) by (lazy; reflexivity).
  unfold Text.well_formed. rewrite Hitems, Hlen, Hsel, Hdrag.
  split; [repeat constructor|]. split; [|split; intros r [=]].
  apply NoDup_cons. split; [|apply NoDup_singleton].
  intros Hin%list_elem_of_singleton. discriminate Hin.
Defined.

Lemma Notes_held_well_formed : Text.well_formed Notes.held.
Proof.
  assert (Hitems : Text.items Notes.held = [0; 1]) by (lazy; reflexivity).
  assert (Hlen : length (Text.objects Notes.held) = 2) by (lazy; reflexivity).
  assert (Hsel : Text.selectedItem Notes.held = Some 1) by (lazy; reflexivity).
  assert (Hdrag : Text.draggingItem Notes.held = Some 1) by (lazy; reflexivity).
  unfold Text.well_formed. rewrite Hitems, Hlen, Hsel, Hdrag.
  split; [repeat constructor|]. split; [|split; intros r [= <-]; repeat constructor].
  apply NoDup_cons. split; [|apply NoDup_singleton].
  intros Hin%list_elem_of_singleton. discriminate Hin.
Defined.

Lemma Notes_board_renderable : Text.renderable Notes.board = true.
Proof. lazy. reflexivity. Defined.

Lemma Notes_clicks_quiet :
  Text.uncaught Notes.ten_wide Notes.clicks (Text.constructor 300 150 Notes.hi) = [].
Proof. lazy. reflexivity. Defined.

Lemma pointer_down_grabs_the_item_painted_on_top_witness :
  Text.well_formed Notes.board /\
  Text.renderable Notes.board = true /\
  Text.topmost (Text.eventPos Notes.tap Notes.board) Notes.board = Some 1 /\
  exists stopped s',
    Text.handleCanvasPointerDown Notes.ten_wide Notes.tap Notes.board = St.Done stopped s' /\
    Text.items s' = Text.items Notes.board.
Proof.
  split; [exact Notes_board_well_formed|]. split; [exact Notes_board_renderable|].
  split; [lazy; reflexivity|].
  destruct (TextFacts.pointer_down_grabs_the_item_painted_on_top Notes.ten_wide
              Notes.tap Notes.board Notes_board_well_formed Notes_board_renderable)
    as (stopped & s' & Hrun & Hitems & _).
  exists stopped, s'. split; [exact Hrun|exact Hitems].
Defined.

Lemma dragged_item_stays_on_the_text_layer_witness :
  Text.draggingItem Notes.held = Some 1 /\
  is_Some (Text.objects Notes.held !! 1) /\
  exists it',
    Text.objects (St.after (Text.handleCanvasPointerMove Notes.ten_wide Notes.pull Notes.held))
      !! 1 = Some it' /\
    PrimFloat.ltb (Text.Item.x it') 0 = false.
Proof.
  assert (Hdrag : Text.draggingItem Notes.held = Some 1) by (lazy; reflexivity).
  split; [exact Hdrag|].
  destruct (Text.objects Notes.held !! 1) as [it|] eqn:Hit; [|lazy in Hit; discriminate Hit].
  split; [eauto|].
  destruct (TextFacts.dragged_item_stays_on_the_text_layer Notes.ten_wide
              Notes.pull Notes.held 1 it Hdrag Hit)
    as (it' & Hit' & _ & _ & Hx & _).
  exists it'. split; [exact Hit'|exact Hx].
Defined.

Lemma deleteItem_removes_the_first_item_with_that_id_witness :
  Text.well_formed Notes.board /\
  Text.renderable Notes.board = true /\
  is_Some (Text.objects Notes.board !! 0) /\
  Text.deleteItem Notes.ten_wide None Notes.board = St.Raised TypeError Notes.board.
Proof.
  split; [exact Notes_board_well_formed|]. split; [exact Notes_board_renderable|].
  destruct (Text.objects Notes.board !! 0) as [it|] eqn:Hit; [|lazy in Hit; discriminate Hit].
  split; [eauto|].
  rewrite (proj1 (TextFacts.deleteItem_removes_the_first_item_with_that_id Notes.ten_wide
                    0 it Notes.board Notes_board_well_formed Notes_board_renderable Hit)).
  assert (Hitems : Text.items Notes.board = [0; 1]) by (lazy; reflexivity).
  rewrite Hitems. reflexivity.
Defined.

Lemma text_manager_stays_in_step_witness :
  Text.uncaught Notes.ten_wide Notes.clicks (Text.constructor 300 150 Notes.hi) = [] /\
  NoDup (Text.items Notes.board) /\
  Text.label <$> Text.notesList Notes.board =
    [Some {| Text.label_type := "TEXT"; Text.label_text := Notes.hi;
             Text.label_ellipsis := false; Text.button_id := "a1" |};
     Some {| Text.label_type := "NOTE"; Text.label_text := [111; 107]%N;
             Text.label_ellipsis := false; Text.button_id := "a2" |}].
Proof.
  split; [exact Notes_clicks_quiet|].
  split; [|lazy; reflexivity].
  exact (proj1 (proj2 (TextFacts.text_manager_stays_in_step Notes.ten_wide
                         Notes.clicks 300 150 Notes.hi Notes_clicks_quiet))).
Defined.

Lemma item_boxes_are_those_painted_last_witness :
  Text.uncaught Notes.ten_wide Notes.clicks (Text.constructor 300 150 Notes.hi) = [] /\
  Text.boxes_current Notes.ten_wide Notes.board.
Proof.
  split; [exact Notes_clicks_quiet|].
  exact (TextFacts.item_boxes_are_those_painted_last Notes.ten_wide
           Notes.clicks 300 150 Notes.hi Notes_clicks_quiet).
Defined.

Lemma Notes_endless_throws :
  Text.listener Notes.ten_wide Notes.endless
    (Text.run Notes.ten_wide [] (Text.constructor 300 150 Notes.hi))
  = St.Raised TypeError Notes.torn.
Proof. lazy. reflexivity. Defined.

Lemma text_listeners_throw_only_for_a_note_off_the_numbers_witness :
  Text.uncaught Notes.ten_wide [] (Text.constructor 300 150 Notes.hi) = [] /\
  Text.listener Notes.ten_wide Notes.endless
    (Text.run Notes.ten_wide [] (Text.constructor 300 150 Notes.hi))
  = St.Raised TypeError Notes.torn /\
  exists ref it, ref ∈ Text.items Notes.torn /\ Text.objects Notes.torn !! ref = Some it /\
    Text.Item.type it = "note" /\ Text.paintable it = false.
Proof.
  split; [reflexivity|]. split; [exact Notes_endless_throws|].
  exact (proj2 (proj2 (TextFacts.text_listeners_throw_only_for_a_note_off_the_numbers
                         Notes.ten_wide [] 300 150 Notes.hi Notes.endless TypeError Notes.torn
                         eq_refl Notes_endless_throws))).
Defined.

Lemma renderItems_returns_unless_a_note_is_off_the_numbers_witness :
  Text.well_formed Notes.board /\
  Text.repainted Notes.board (St.after (Text.renderItems Notes.ten_wide Notes.board)).
Proof.
  split; [exact Notes_board_well_formed|].
  exact (proj1 (TextFacts.renderItems_returns_unless_a_note_is_off_the_numbers
                  Notes.ten_wide Notes.board Notes_board_well_formed)).
Defined.

(* ================================================================== *)
(** ** The theorems about the export at sample pages *)
(* ================================================================== *)

Lemma both_layers_are_drawn_last_and_never_mirrored_witness :
  ExportManager.draw_fails Pages.selfie = false /\
  fst (ExportManager.drawn (ExportManager.e_calls (ExportManager.exportImage Pages.selfie)) ExportManager.identity [])
  = [(ExportManager.DrawVideo 0 0 640 480, ExportManager.flipped 640);
     (ExportManager.DrawLayer ExportManager.InkLayer 0 0, ExportManager.identity);
     (ExportManager.DrawLayer ExportManager.TextLayer 0 0, ExportManager.identity)].
Proof.
  split; [reflexivity|].
  rewrite (proj1 (ExportManagerFacts.both_layers_are_drawn_last_and_never_mirrored
                    Pages.selfie None eq_refl)).
  reflexivity.
Defined.

(* ================================================================== *)
(** ** The theorems about the camera at a sample page *)
(* ================================================================== *)

Lemma checkbox_does_not_mirror_ink_with_the_camera_on_witness :
  Sample.at_three_tenths !! 4 = Some (Pt 0.7 0.5)%float /\
  Sample.at_three_tenths !! 8 = Some (Pt 0.3 0.5)%float /\
  Sample.at_three_tenths !! 0 = Some (Pt 0.5 0.9)%float /\
  Camera.started Studio.retried = true /\
  is_Some (last (handSmoothing (Camera.drawingManager
    (Camera.turn flood F64.hypot (Camera.Results (Some [Sample.at_three_tenths]))
       (Camera.turns flood F64.hypot Studio.retried Studio.opened))))).
Proof.
  split; [reflexivity|]. split; [reflexivity|]. split; [reflexivity|].
  split; [reflexivity|].
  unfold Studio.opened.
  rewrite (CameraFacts.checkbox_does_not_mirror_ink_with_the_camera_on flood F64.hypot
             Studio.retried 1 1 1 1 1 1 true Sample.at_three_tenths
             (Pt 0.7 0.5)%float (Pt 0.3 0.5)%float (Pt 0.5 0.9)%float
             eq_refl eq_refl eq_refl).
  eexists. reflexivity.
Defined.

Lemma hidden_video_is_shown_again_only_by_an_upload_witness :
  Camera.video_display (Camera.cameraManager
    (Camera.turn flood F64.hypot (Camera.Rejected "Permission denied") Studio.opened))
    = Some "none" /\
  Forall (fun t : Camera.Turn float => Camera.shows_video t = false)
    [Camera.StartCamera; Camera.StopFulfilled] /\
  Camera.isCameraActive (Camera.cameraManager
    (Camera.turn flood F64.hypot Camera.StartFulfilled
       (Camera.turns flood F64.hypot [Camera.StartCamera; Camera.StopFulfilled]
          (Camera.turn flood F64.hypot (Camera.Rejected "Permission denied") Studio.opened))))
    = true.
Proof.
  assert (Hnone : Camera.video_display (Camera.cameraManager
            (Camera.turn flood F64.hypot (Camera.Rejected "Permission denied") Studio.opened))
            = Some "none") by reflexivity.
  assert (Hall : Forall (fun t : Camera.Turn float => Camera.shows_video t = false)
            [Camera.StartCamera; Camera.StopFulfilled]).
  { constructor; [reflexivity|]. constructor; [reflexivity|constructor]. }
  split; [exact Hnone|]. split; [exact Hall|].
  exact (proj1 (proj2 (CameraFacts.hidden_video_is_shown_again_only_by_an_upload
                         flood F64.hypot [Camera.StartCamera; Camera.StopFulfilled]
                         _ Hnone Hall))).
Defined.
